(* ===== verification/_CoqProject ===== *)
-Q . S2P
Prelude.v
GoText.v
Crypto.v
Json.v
ApiMachinery.v
Types.v
Phase.v
Objects.v
Effects.v
Approval.v
Resolve.v
PodSpecBuilder.v
Results.v
Helpers.v
InputConfigMap.v
Schemas.v
Rbac.v
Spoke.v
SandboxManager.v
Handlers.v
Suspension.v
Reconcile.v
PodHandler.v
TimeoutHandler.v
SandboxAgent.v
SuspensionInventory.v
Identity.v
SuspensionCleanup.v
OLSConfig.v
Operator.v
Lifecycle.v
Configuration.v
Startup.v
Clock.v
Webhooks.v
AuditLog.v
CliRun.v
CliSystem.v
IsaLevel.v
RefApi.v
Witnesses.v
SandboxWitnesses.v
OperationsWitnesses.v
