(* ===== verification/Prelude.v ===== *)
(** * The Lightspeed agentic operator, verified

    The operator runs AI agent workflows on a cluster.  A user creates an
    [AgenticRun]; the run controller walks it through analysis, execution,
    verification and escalation.  Each step is approved by a user or a policy,
    runs in a sandbox pod and leaves a result resource behind.  An
    administrator can suspend the whole system: every run at work is then
    stopped, its sandboxes are removed, and the operator reports when it is
    safe to resume.  A command line creates, watches, approves and deletes runs,
    and suspends and resumes the system.

    ** Parts and files

    Foundations:
    - [Prelude]: programs, traces and tactics (this file); time and [int64].
    - [GoText], [Crypto], [Json], [Clock]: what the code uses of Go's texts
      (UTF-8, [strconv], [strings]), of SHA-256 and hexadecimal, of
      [encoding/json] and [path], and of the format of a time.
    - [ApiMachinery]: conditions, object metadata and errors of Kubernetes; the
      class [ApiMachinery] has the library functions the code calls but the
      repository does not hold (condition setters, finalizers, error
      classification), and [ApiMachineryLaws] states their documented behaviour.
    - [Types]: the API types ([api/v1alpha1/*_types.go]).
    - [Objects]: the other objects of a cluster, by kind.
    - [Phase]: [DerivePhase] and the terminal phases ([agenticrun_types.go]).
    - [Effects]: the calls that leave the controllers, and their answers.

    The run controller ([controller/agenticrun]):
    - [Approval]: [approval.go].  [Resolve]: [resolve.go], [limits.go].
      [Results]: [results.go].  [Helpers]: the guards of [helpers.go].
    - [Handlers]: the workflow handlers of [handlers.go].
    - [Suspension]: [handleSuspensionAt] of [handlers.go] and the activation
      check of [suspension_cleanup.go].
    - [Reconcile]: [reconciler.go].  [PodHandler]: [pod_handler.go].
      [TimeoutHandler]: [timeout_handler.go].

    Sandboxes:
    - [PodSpecBuilder]: [podspec_builder.go].  [Schemas]: [schemas.go].
      [InputConfigMap]: [input_configmap.go] and the prompts of [helpers.go].
    - [Rbac]: [rbac.go].  [Spoke]: [spoke.go].
    - [SandboxManager]: [sandbox_manager.go].  [SandboxAgent]: [sandbox_agent.go],
      proved against the class [SandboxLifecycle], which the manager implements.
    - [SuspensionInventory], [SuspensionCleanup]: [suspension_cleanup.go];
      [Identity]: the objects the manager makes are the ones the cleanup finds.

    The rest of the operator and the command line:
    - [OLSConfig]: [controller/agenticolsconfig/reconciler.go].
    - [Configuration]: [pkg/configuration] and [pkg/configwatch].
    - [Startup]: [cmd/main.go] and [cmd/metrics_tls.go].
    - [Webhooks]: [webhooks.go].  [AuditLog]: [audit.go].
    - [CliRun]: [cli/run].  [CliSystem]: [cli/system].
    - [IsaLevel]: [cmd/check-isa-level], a check of the build.

    Composition:
    - [Operator]: the controllers with the agent caller, the manager and the
      cleanup carrying out their calls, as [main.go] connects them.
    - [Lifecycle]: an abstract machine of a run, and the proof that every writer
      of runs refines it; histories of runs across the controllers.

    Instances: [RefApi] has an instance of each library class that satisfies its
    laws, a world that answers calls and sample objects; [Witnesses],
    [SandboxWitnesses] and [OperationsWitnesses] apply the properties to concrete
    runs of the programs; [Witnesses] also runs the cases in which the code
    departs from its documents.

    ** The model

    A function of the code is a program of type [prog answer]: a tree of calls,
    each continued by a function of its answer.  The guards, early returns and
    writes of a function are in its program in the order of the code.
    [runs p tr r] says that [p] makes the calls of the trace [tr], with the
    answers recorded there, and returns [r].  Nothing restricts the answers: a
    theorem about [runs] holds whatever the API server, other controllers, users
    and the clock do between two calls, including conflicts, errors and objects
    that change from one read to the next.  [exec] runs a program against a world.
    [interp] replaces calls by programs; [Operator.wire] uses it to put the
    components together, and a theorem about the whole follows from theorems about
    the parts.

    There is a type of calls for each process or package that talks to something
    else: [eff] (the controllers: [M]), [cfgCall] (the configuration), [startCall]
    ([main]), [telCall] (the audit logger) and [cliCall] (the command line).  The
    controllers read the configuration with [ConfigGet], which is the cache of
    [Configuration], and call the logger with [Audit], which [AuditLog.perform]
    carries out.

    Objects are immutable values: where Go mutates an object it was given, the
    program returns the new value.  State that lives between calls (the cache and
    its provider, the maps of the audit logger) is threaded explicitly.
    Collaborators that may be [nil] are boolean fields of the reconciler record.  A
    panic is an explicit value ([None], or an error) where the code can reach one.
    Durations and times are [Z] nanoseconds, [Time_Sub] saturates and [wrap64]
    wraps as Go does.

    Library functions are fields of classes, used without assumptions unless a law
    is stated: [ApiMachinery], [ClientCmd] (kubeconfigs), [RawJSON], [Rendering]
    (templates and embedded prompts), [SandboxLibs], [SuspensionLibs],
    [ConfigLibs] (URLs, certificates, pod specifications), [StartupLibs],
    [WebhookLibs], [AuditLibs] and [CliLibs].

    ** What the theorems show

    - Work: a stage is launched only when approved and not denied, by the policy
      and the approval that were read before, for a run that was read and is
      neither deleted nor stopped, after its mark was accepted; in the whole
      operator every object that starts work is created in that one launch, behind a
      guard that has just read the run and the configuration
      ([operator_starts_work], [Create_guarded], [Reconcile_launches],
      [stageHandler_launches]).
    - Progress: an approved stage is launched, retried or marked as failed
      ([Reconcile_never_stalls]).
    - State: [DerivePhase] is the documented precedence table; late pod events
      and completions change only their own step, atomically, and keep results.
    - Refinement: every status patch of every controller is a move of the
      abstract machine of [Lifecycle]; in any interleaving of the controllers
      results are kept, an accepted stop is final but for the revisions named
      there, no step goes back but for those and for completions that come too
      late, and a workflow ends after at most 14 changes of its phase
      ([controllers_refine_lifecycle], [history_keeps_results], [stop_is_final],
      [phases_end]).
    - Stopping: the stop is durable before anything is taken down, complete only
      after an inventory that found nothing left that works for the run or gives it
      access (finished pods, input ConfigMaps and sandbox templates may be left), and
      only objects of the run are changed ([operator_stop_leaves_nothing],
      [cleanupSuspension_confirmed], [cleanupSuspension_changes_own]); resumption
      is reported safe only on evidence of the same pass, and [oc agentic status]
      says so exactly when the conditions do ([status_confirms]).
    - Sandboxes: a failed creation cleans up, the pods have a well-formed
      specification, roles grant exactly what was asked, spokes are reached only
      over verified TLS, identities of objects are read back as they were written.
    - Deletion and expiry: finalizers go last, deadlines are fixed once, the
      sweep deletes exactly the expired runs.
    - Approval: the approver of an approval is the user the API server
      authenticated; [oc agentic run approve] and [deny] append decisions and leave
      the rest of the object as it was; agents that are admitted have prompts the
      operator can render, and a step is told the documented ones
      ([buildInputConfigMap_complete]).
    - Configuration: whatever ConfigMaps arrive, the configuration in force is
      within its bounds and telemetry goes only to a validated collector, with the
      material of the Secrets as they were read ([OnConfigMapChange_outcome]);
      without the sandbox API no claim is ever created; metrics fail closed.
    - Audit: the phases of a run form one chain of linked spans, and its end is
      recorded once.
    - Command line: the batch cleanup deletes only what was asked for, stored logs
      are read completely, an age in days never overflows, suspend and resume
      write the switch and nothing else.
    - Instruction set: the note walk reads back what a linker writes, ends on any
      bytes, and reads out of bounds only for a name length that wraps.
    - Errors and bounds: retries, selected options, failure reasons, token
      counters, timeouts on machine integers.

    ** Bounds

    Loops of the code that are bounded (retries of a status patch, creation
    retries, loops over lists) are structural recursion with the bound of the
    code.  Loops that are not take fuel: the endless timeout loop the number of its
    ticks (a theorem about a tick is about every tick), the wait for a pod to go the
    number of polls that fit its deadline ([waitTurns_enough]), the reading of
    stored logs the number of pages ([storedLogs_complete]: one more than there are
    records is enough), the watch of a run the number of events and the creation of
    an approval the number of rounds; running out of fuel is a result of its own
    ([None]) there, about which the theorems say nothing the code does.

    ** Not modelled

    Generated code (deep copies); the registration of controllers, caches and
    webhooks inside the manager library; flags, help texts and the construction of
    clients of the command line; the inside of the libraries named above.  [strings.ToLower]
    is exact for comparisons with ASCII names: a letter beyond ASCII whose lower case
    is beyond ASCII too stays as it is ([Json.ToLower]).  Logging
    to the process log has no effect here, and writing to the terminal does not
    fail.  [sort.Slice] orders runs of the same second arbitrarily; the model keeps
    them in their order. *)
From stdpp Require Import base list option strings gmap pretty sets.
From Stdlib Require Import ZArith Lia.

(** * Interactive programs

    A handler of the operator is a program that calls its environment (the
    API server, the clock, the agent caller, the audit logger) and computes
    between the calls.  [E] is the type of calls and [R e] the type of the
    answers to call [e].  The tree is inductive: every handler makes finitely
    many calls, so every handler terminates once its calls are answered. *)

Inductive prog {E : Type} (R : E → Type) (A : Type) : Type :=
| Ret (a : A)
| Vis (e : E) (k : R e → prog R A).
Arguments Ret {E R A} a.
Arguments Vis {E R A} e k.

Inductive event {E : Type} (R : E → Type) : Type :=
| Ev (e : E) (r : R e).
Arguments Ev {E R} e r.

Section Prog.
Context {E : Type} {R : E → Type}.

Fixpoint bind {A B : Type} (m : prog R A) (f : A → prog R B) : prog R B :=
  match m with
  | Ret a => f a
  | Vis e k => Vis e (λ r, bind (k r) f)
  end.

Definition call (e : E) : prog R (R e) := Vis e Ret.

(** [runs m tr a]: answering the calls of [m] as the trace [tr] records
    them, [m] returns [a].  The answers are unconstrained. *)
Fixpoint runs {A : Type} (m : prog R A) (tr : list (event R)) (a : A) : Prop :=
  match m with
  | Ret x => tr = [] ∧ a = x
  | Vis e k => ∃ r tr', tr = Ev e r :: tr' ∧ runs (k r) tr' a
  end.

(** Running a program against an environment with a state. *)
Fixpoint exec {A S : Type} (h : S → ∀ e : E, R e * S) (s : S) (m : prog R A)
    : list (event R) * A * S :=
  match m with
  | Ret a => ([], a, s)
  | Vis e k =>
      let '(r, s') := h s e in
      let '(tr, a, s'') := exec h s' (k r) in
      (Ev e r :: tr, a, s'')
  end.

(** A [for range n] loop whose body may return early. *)
Fixpoint retry {A : Type} (n : nat) (body : prog R (option A)) (exhausted : prog R A)
    : prog R A :=
  match n with
  | O => exhausted
  | S n' => bind body (λ o, match o with
                            | Some a => Ret a
                            | None => retry n' body exhausted
                            end)
  end.

(** A [for _, x := range xs] loop over a state, whose body may return early. *)
Fixpoint forEach {A B S : Type} (xs : list A) (s : S)
    (body : A → S → prog R (S + B)) (done : S → prog R B) : prog R B :=
  match xs with
  | [] => done s
  | x :: xs' => bind (body x s) (λ o, match o with
                                      | inl s' => forEach xs' s' body done
                                      | inr b => Ret b
                                      end)
  end.

(** A [for _, x := range xs] loop that updates a state and never leaves early. *)
Fixpoint foldM {A S : Type} (xs : list A) (s : S) (body : A → S → prog R S) : prog R S :=
  match xs with
  | [] => Ret s
  | x :: xs' => bind (body x s) (λ s', foldM xs' s' body)
  end.

Lemma runs_ret {A} (x : A) tr a : runs (Ret x) tr a ↔ tr = [] ∧ a = x.
Proof. done. Qed.

Lemma runs_vis {A} e (k : R e → prog R A) tr a :
  runs (Vis e k) tr a ↔ ∃ r tr', tr = Ev e r :: tr' ∧ runs (k r) tr' a.
Proof. done. Qed.

Lemma runs_bind {A B} (m : prog R A) (f : A → prog R B) tr b :
  runs (bind m f) tr b ↔
  ∃ tr1 a tr2, tr = tr1 ++ tr2 ∧ runs m tr1 a ∧ runs (f a) tr2 b.
Proof.
  revert tr. induction m as [x|e k IH]; intros tr; cbn.
  - split.
    + intros H. by exists [], x, tr.
    + by intros (tr1 & a & tr2 & -> & [-> ->] & H).
  - split.
    + intros (r & tr' & -> & H). apply IH in H as (tr1 & a & tr2 & -> & H1 & H2).
      exists (Ev e r :: tr1), a, tr2. eauto 6.
    + intros (tr1 & a & tr2 & -> & (r & tr' & -> & H1) & H2).
      exists r, (tr' ++ tr2). split; [done|]. apply IH. eauto 6.
Qed.

Lemma runs_call (e : E) tr r : runs (call e) tr r ↔ tr = [Ev e r].
Proof.
  cbn. split.
  - by intros (r' & tr' & -> & -> & ->).
  - intros ->. eauto.
Qed.

Lemma runs_bind_call {B} (e : E) (f : R e → prog R B) tr b :
  runs (bind (call e) f) tr b ↔ ∃ r tr', tr = Ev e r :: tr' ∧ runs (f r) tr' b.
Proof. done. Qed.

Lemma exec_runs {A S} (h : S → ∀ e : E, R e * S) (m : prog R A) s tr a s' :
  exec h s m = (tr, a, s') → runs m tr a.
Proof.
  revert s tr. induction m as [x|e k IH]; intros s tr; cbn.
  - by intros [= <- <- _].
  - destruct (h s e) as [r s1]. destruct (exec h s1 (k r)) as [[tr1 a1] s2] eqn:Hx.
    intros [= <- <- <-]. eauto.
Qed.

(** Every environment answers every program: handlers terminate. *)
Lemma exec_total {A S} (h : S → ∀ e : E, R e * S) (m : prog R A) s :
  ∃ tr a s', exec h s m = (tr, a, s') ∧ runs m tr a.
Proof.
  destruct (exec h s m) as [[tr a] s'] eqn:Hx.
  exists tr, a, s'. split; [done|]. by eapply exec_runs.
Qed.

(** An invariant of the loop body holds at the end of the loop. *)
Lemma foldM_inv {A S} (P : S → Prop) (xs : list A) (body : A → S → prog R S) s tr s' :
  (∀ x s0 tr0 s1, x ∈ xs → P s0 → runs (body x s0) tr0 s1 → P s1) →
  P s → runs (foldM xs s body) tr s' → P s'.
Proof.
  revert s tr. induction xs as [|x xs IH]; intros s tr Hb Hs; cbn.
  - by intros [_ ->].
  - intros (tr1 & s1 & tr2 & _ & H1 & H2)%runs_bind.
    eapply (IH s1); [|by eapply (Hb x); [left|..]|done].
    intros y s0 tr0 s2 Hy. apply Hb. by right.
Qed.

(** An invariant of the loop body, with a property of traces that sequences keep. *)
Lemma foldM_inv_trace {A S} (P : S → Prop) (T : list (event R) → Prop) (xs : list A)
    (body : A → S → prog R S) s tr s' :
  T [] → (∀ t1 t2, T t1 → T t2 → T (t1 ++ t2)) →
  (∀ x s0 tr0 s1, x ∈ xs → P s0 → runs (body x s0) tr0 s1 → P s1 ∧ T tr0) →
  P s → runs (foldM xs s body) tr s' → P s' ∧ T tr.
Proof.
  intros Hn Ha. revert s tr. induction xs as [|x xs IH]; intros s tr Hb Hs; cbn.
  - by intros [-> ->].
  - intros (tr1 & s1 & tr2 & -> & H1 & H2)%runs_bind.
    destruct (Hb x s tr1 s1) as [Hs1 Ht1]; [left|done|done|].
    destruct (IH s1 tr2) as [Hs2 Ht2]; [|done|done|split; [done|by apply Ha]].
    intros y s0 tr0 s2 Hy. apply Hb. by right.
Qed.

(** An invariant [P] of the state of a loop that may return early, with what
    [Q] holds of the value returned. *)
Lemma forEach_inv {A B S} (P : S → Prop) (Q : B → Prop) (xs : list A) (s : S)
    (body : A → S → prog R (S + B)) (fin : S → prog R B) tr b :
  (∀ x s0 tr0 o, x ∈ xs → P s0 → runs (body x s0) tr0 o →
     match o with inl s1 => P s1 | inr b => Q b end) →
  (∀ s0 tr0 b, P s0 → runs (fin s0) tr0 b → Q b) →
  P s → runs (forEach xs s body fin) tr b → Q b.
Proof.
  intros Hb Hf. revert s tr. induction xs as [|x xs IH]; intros s tr Hs; cbn.
  - by apply Hf.
  - intros (tr1 & o & tr2 & _ & H1 & H2)%runs_bind.
    apply Hb in H1; [|by left|done]. destruct o as [s1|b'].
    + eapply (IH ltac:(intros; eapply Hb; [by right|done|done])); done.
    + by destruct H2 as [_ ->].
Qed.

(** An invariant of the body of a [retry] loop, attempt by attempt. *)
Lemma retry_inv {A} (P : list (event R) → option A → Prop) n body exhausted tr a :
  (∀ tr1 o, runs body tr1 o → P tr1 o) →
  runs (retry n body exhausted) tr a →
  ∃ trs tr', tr = concat trs ++ tr' ∧ length trs ≤ n ∧ Forall (λ t, P t None) trs ∧
    (P tr' (Some a) ∨ (length trs = n ∧ runs exhausted tr' a)).
Proof.
  intros HP. revert tr. induction n as [|n IH]; intros tr; cbn.
  - intros H. exists [], tr. repeat split; auto.
  - rewrite runs_bind. intros (tr1 & [x|] & tr2 & -> & H1 & H2).
    + destruct H2 as [-> ->]. exists [], tr1. rewrite app_nil_r.
      repeat split; simpl; [lia|constructor|]. eauto.
    + apply IH in H2 as (trs & tr' & -> & Hlen & Hall & Hend).
      exists (tr1 :: trs), tr'. simpl. rewrite app_assoc.
      repeat split; [lia|constructor; eauto|]. destruct Hend as [?|[? ?]]; eauto with lia.
Qed.
End Prog.

Arguments runs : simpl never.
Arguments call : simpl never.

Declare Scope prog_scope.
Delimit Scope prog_scope with prog.
Notation "x <- m ;; k" := (bind m (λ x, k))
  (at level 62, m at next level, right associativity) : prog_scope.
Notation "'let!' pat := m 'in' k" := (bind m (λ x, match x with pat => k end))
  (at level 62, pat strict pattern, m at level 62, k at level 62, right associativity)
  : prog_scope.
Notation "m ;;; k" := (bind m (λ _, k))
  (at level 62, right associativity) : prog_scope.

(** Opens the call at the head of a run: its answer is [r]. *)
Ltac run_call H r :=
  let tr := fresh "tr" in
  let Hc := fresh "Hc" in
  apply runs_bind in H as (? & r & tr & -> & Hc & H);
  match type of Hc with
  | runs (call ?e) _ _ => pose proof (proj1 (runs_call e _ _) Hc); clear Hc; subst
  end; simpl app in *.

(** The run of a single call. *)
Ltac run_last H :=
  match type of H with
  | runs (call ?e) _ _ => pose proof (proj1 (runs_call e _ _) H); clear H; subst
  end.

(** Case analysis on the test at the head of a run. *)
Ltac run_if H :=
  match type of H with
  | runs (if ?b then _ else _) _ _ => let Hb := fresh "Hb" in destruct b eqn:Hb
  end.

(** Opens one step of a run in the hypotheses: a return, a call, a bind or a
    branch of the program. *)
Ltac runs_step :=
  match goal with
  | H : runs (Ret _) _ _ |- _ => apply runs_ret in H as [? ?]; subst
  | H : runs (bind (call _) _) _ _ |- _ =>
      let r := fresh "ans" in run_call H r
  | H : runs (call _) _ _ |- _ => apply runs_call in H; subst
  | H : runs (Vis _ _) _ _ |- _ => apply runs_vis in H as (? & ? & ? & H); subst
  | H : runs (bind _ _) _ _ |- _ =>
      let H1 := fresh "Hrun" in
      apply runs_bind in H as (? & ? & ? & ? & H1 & H); subst
  | H : runs (match ?x with _ => _ end) _ _ |- _ =>
      let Hb := fresh "Hb" in destruct x eqn:Hb
  end.

(** An event that is written out in a trace, past parts that are not. *)
Ltac find_event :=
  first [left | right; find_event | apply elem_of_app; right; find_event].

(** ** Predicates over traces *)
Section Emits.
Context {E : Type} {R : E → Type}.

(** Every call of every run of [m], with its answer, satisfies [P]. *)
Definition emits {A : Type} (P : event R → Prop) (m : prog R A) : Prop :=
  ∀ tr a, runs m tr a → Forall P tr.

Lemma emits_run {A} P (m : prog R A) tr a : runs m tr a → emits P m → Forall P tr.
Proof. intros H Hm. by eapply Hm. Qed.

Lemma emits_ret {A} P (a : A) : emits P (Ret a).
Proof. intros tr x H. apply runs_ret in H as [-> _]. constructor. Qed.

Lemma emits_call (P : event R → Prop) e : (∀ r, P (Ev e r)) → emits P (call e).
Proof. intros HP tr r ->%runs_call. auto. Qed.

Lemma emits_bind {A B} P (m : prog R A) (f : A → prog R B) :
  emits P m → (∀ a, emits P (f a)) → emits P (bind m f).
Proof.
  intros Hm Hf tr b (tr1 & a & tr2 & -> & H1 & H2)%runs_bind.
  apply Forall_app; split; [by eapply Hm|by eapply Hf].
Qed.

Lemma emits_bind_post {A B} P (Q : A → Prop) (m : prog R A) (f : A → prog R B) :
  emits P m → (∀ tr a, runs m tr a → Q a) → (∀ a, Q a → emits P (f a)) →
  emits P (bind m f).
Proof.
  intros Hm HQ Hf tr b (tr1 & a & tr2 & -> & H1 & H2)%runs_bind.
  apply Forall_app; split; [by eapply Hm|by eapply Hf; eauto].
Qed.

Lemma emits_retry {A} P n (body : prog R (option A)) exhausted :
  emits P body → emits P exhausted → emits P (retry n body exhausted).
Proof.
  intros Hb He. induction n as [|n IH]; cbn; [done|].
  apply emits_bind; [done|]. intros [a|]; [apply emits_ret|done].
Qed.

Lemma emits_forEach {A B S} P (xs : list A) (s : S) (body : A → S → prog R (S + B)) fin :
  (∀ x s, x ∈ xs → emits P (body x s)) → (∀ s, emits P (fin s)) →
  emits P (forEach xs s body fin).
Proof.
  intros Hb Hf. revert s. induction xs as [|x xs IH]; intros s; cbn; [done|].
  apply emits_bind.
  - apply Hb. left.
  - intros [s'|b]; [|apply emits_ret]. apply IH. intros y s0 Hy. apply Hb. by right.
Qed.

Lemma emits_foldM {A S} P (xs : list A) (s : S) (body : A → S → prog R S) :
  (∀ x s, x ∈ xs → emits P (body x s)) → emits P (foldM xs s body).
Proof.
  intros Hb. revert s. induction xs as [|x xs IH]; intros s; cbn; [apply emits_ret|].
  apply emits_bind; [apply Hb; left|]. intros s'. apply IH. intros y s0 Hy. apply Hb. by right.
Qed.

Lemma emits_mono {A} (P Q : event R → Prop) (m : prog R A) :
  (∀ ev, P ev → Q ev) → emits P m → emits Q m.
Proof. intros HPQ Hm tr a H. eapply Forall_impl; [by eapply Hm|done]. Qed.
End Emits.

Create HintDb emits discriminated.
#[export] Hint Resolve emits_ret emits_call emits_bind emits_retry emits_forEach : emits.

(** Proves [emits P m] by walking the program: calls are discharged by
    [tac], branches are taken apart. *)
Ltac emits_walk tac :=
  repeat
    match goal with
    | |- emits _ (Ret _) => apply emits_ret
    | |- emits ?P (call ?e) => refine (emits_call P e _); intros; tac
    | |- emits _ (bind _ _) => apply emits_bind; [|intros]
    | |- emits _ (retry _ _ _) => apply emits_retry
    | |- emits _ (forEach _ _ _ _) => apply emits_forEach; intros
    | |- emits _ (foldM _ _ _) => apply emits_foldM; intros
    | |- emits _ (match ?x with _ => _ end) => destruct x eqn:?
    | |- emits _ _ => progress eauto with emits
    end.

(** Walks a program as [emits_walk], opening the definitions it meets; programs
    the hints of [emits_deep] know are not opened. *)
Create HintDb emits_deep discriminated.
Ltac head_of t := match t with ?f _ => head_of f | _ => t end.
Ltac unfold_head := match goal with |- emits _ ?m => let h := head_of m in unfold h end.
Ltac emits_deep :=
  try unfold_head;
  repeat first [solve [eauto 1 with emits_deep nocore] | progress emits_walk done
               | progress cbv zeta | unfold_head].

(** ** Order in a trace

    [ordered P0 P1 trig seen tr]: every event of [tr] satisfies [P0], or it
    satisfies [P1] and an event that [trig] accepts came before it ([seen]: one
    came before [tr]). *)
Section Ordered.
Context {E : Type} {R : E → Type}.
Context (P0 P1 : event R → Prop) (trig : event R → bool).

Fixpoint ordered (seen : bool) (tr : list (event R)) : Prop :=
  match tr with
  | [] => True
  | ev :: tr' => (P0 ev ∨ (seen = true ∧ P1 ev)) ∧ ordered (seen || trig ev) tr'
  end.

Lemma ordered_app seen tr1 tr2 :
  ordered seen (tr1 ++ tr2) ↔ ordered seen tr1 ∧ ordered (seen || existsb trig tr1) tr2.
Proof.
  revert seen. induction tr1 as [|ev tr1 IH]; intros seen; simpl.
  - rewrite orb_false_r. tauto.
  - rewrite IH, orb_assoc. tauto.
Qed.

Lemma ordered_Forall seen tr : Forall P0 tr → ordered seen tr.
Proof. intros H. revert seen. induction H; intros seen; simpl; auto. Qed.

Lemma ordered_seen tr : Forall (λ ev, P0 ev ∨ P1 ev) tr → ordered true tr.
Proof. induction 1 as [|ev tr [?|?] _ IH]; simpl; auto. Qed.

Lemma ordered_all seen tr : ordered seen tr → Forall (λ ev, P0 ev ∨ P1 ev) tr.
Proof.
  revert seen. induction tr as [|ev tr IH]; intros seen; [by constructor|].
  intros [Hev Ht]. constructor; [tauto|by eapply IH].
Qed.

Lemma ordered_mono seen tr : ordered false tr → ordered seen tr.
Proof.
  destruct seen; [|done]. intros H. assert (Hg : ∀ s, ordered s tr → ordered true tr);
    [|by eapply Hg].
  clear H. induction tr as [|ev tr IH]; intros s; simpl; [done|].
  intros [[?|[_ ?]] ?]; eauto.
Qed.

(** An event outside [P0] has a trigger before it. *)
Lemma ordered_before tr1 ev tr2 :
  ordered false (tr1 ++ ev :: tr2) → ¬ P0 ev → P1 ev ∧ ∃ ev0, ev0 ∈ tr1 ∧ trig ev0 = true.
Proof.
  rewrite ordered_app. simpl. intros [_ [[?|[Hs ?]] _]] Hn; [done|].
  apply existsb_exists in Hs as (ev0 & Hin & ?). split; [done|].
  exists ev0. by rewrite list_elem_of_In.
Qed.
End Ordered.

(** ** What comes after an event

    [followed need tr]: the calls after each event of [tr] are what it needs. *)
Section Followed.
Context {E : Type} {R : E → Type}.
Context (need : event R → list (event R) → Prop).

Fixpoint followed (tr : list (event R)) : Prop :=
  match tr with
  | [] => True
  | ev :: tr' => need ev tr' ∧ followed tr'
  end.

(** The first part gets what it needs from the second. *)
Lemma followed_app (mono : ∀ ev r r', r ⊆ r' → need ev r → need ev r') tr1 tr2 :
  Forall (λ ev, need ev tr2) tr1 → followed tr2 → followed (tr1 ++ tr2).
Proof.
  induction 1 as [|ev tr1 Hev _ IH]; cbn; [done|]. intros H2. split; [|by apply IH].
  eapply mono; [|exact Hev]. set_solver.
Qed.

Lemma followed_elem tr1 ev tr2 : followed (tr1 ++ ev :: tr2) → need ev tr2.
Proof. induction tr1 as [|e0 tr1 IH]; cbn; tauto. Qed.
End Followed.

(** ** What comes before an event

    [preceded sel need tr]: the calls before each event that [sel] accepts are
    what it needs. *)
(** An element of a concatenation is in the first part or in the second. *)
Lemma app_split {A} (tr1 tr2 pre post : list A) x :
  tr1 ++ tr2 = pre ++ x :: post →
  (∃ k, tr1 = pre ++ x :: k ∧ post = k ++ tr2) ∨ (∃ k, pre = tr1 ++ k ∧ tr2 = k ++ x :: post).
Proof.
  intros [(k & -> & Hk)|(k & -> & Hk)]%app_eq_inv; [|right; eauto].
  destruct k as [|y k]; cbn in Hk; [|injection Hk as <- ->; left; eauto].
  right. exists []. rewrite !app_nil_r. eauto.
Qed.

Section Preceded.
Context {E : Type} {R : E → Type}.
Context (sel : event R → bool) (need : list (event R) → event R → Prop).

Definition preceded (tr : list (event R)) : Prop :=
  ∀ pre ev post, tr = pre ++ ev :: post → sel ev = true → need pre ev.

Lemma preceded_none tr : Forall (λ ev, sel ev = false) tr → preceded tr.
Proof.
  intros Hf pre ev post -> Hs. rewrite Forall_app, List.Forall_cons_iff in Hf.
  destruct Hf as (_ & Hf & _). congruence.
Qed.

Lemma preceded_app (mono : ∀ x pre ev, need pre ev → need (x ++ pre) ev) tr1 tr2 :
  preceded tr1 → preceded tr2 → preceded (tr1 ++ tr2).
Proof.
  intros H1 H2 pre ev post [(k & -> & Hk)|(k & -> & Hk)]%app_split Hs; [by eapply H1|].
  apply mono. by eapply H2.
Qed.

(** Every run of a program has the property. *)
Definition precededIn {A} (m : prog R A) : Prop := ∀ tr a, runs m tr a → preceded tr.

Lemma precededIn_bind (mono : ∀ x pre ev, need pre ev → need (x ++ pre) ev) {A B}
    (m : prog R A) (f : A → prog R B) :
  precededIn m → (∀ a, precededIn (f a)) → precededIn (bind m f).
Proof.
  intros Hm Hf tr b (tr1 & a & tr2 & -> & H1 & H2)%runs_bind.
  apply preceded_app; [done|by eapply Hm|by eapply Hf].
Qed.

Lemma precededIn_none {A} (m : prog R A) : emits (λ ev, sel ev = false) m → precededIn m.
Proof. intros Hm tr a H. apply preceded_none. by eapply Hm. Qed.
End Preceded.

(** The calls of the first part precede those of the second. *)
Lemma preceded_seq {E} {R : E → Type} (sel : event R → bool) need tr1 tr2 :
  preceded sel need tr1 → preceded sel (λ pre, need (tr1 ++ pre)) tr2 →
  preceded sel need (tr1 ++ tr2).
Proof.
  intros H1 H2 pre ev post [(k & -> & Hk)|(k & -> & Hk)]%app_split Hs;
    [by eapply H1|by eapply H2].
Qed.

(** An event that [sel] accepts, in a trace whose second part has none. *)
Lemma cut_before {E} {R : E → Type} (sel : event R → bool) t1 t2 before ev after :
  t1 ++ t2 = before ++ ev :: after → Forall (λ ev, sel ev = false) t2 → sel ev = true →
  ev ∈ t1 ∧ t2 ⊆ after.
Proof.
  intros Heq Hf Hs.
  assert (Hn : ev ∉ t2) by (intros Hi; rewrite Forall_forall in Hf; apply Hf in Hi; congruence).
  apply app_eq_inv in Heq as [(l & -> & Hl)|(l & -> & Hl)].
  - destruct l as [|x l]; cbn in Hl; [exfalso; apply Hn; rewrite <- Hl; left|].
    injection Hl as <- ->. split; [apply elem_of_app; right; left|]. set_solver.
  - exfalso. apply Hn. rewrite Hl. apply elem_of_app. right. left.
Qed.

(** The only event that [sel] accepts. *)
Lemma cut_unique {E} {R : E → Type} (sel : event R → bool) t1 x t2 before ev after :
  t1 ++ x :: t2 = before ++ ev :: after →
  Forall (λ ev, sel ev = false) t1 → Forall (λ ev, sel ev = false) t2 → sel ev = true →
  t1 = before ∧ x = ev ∧ t2 = after.
Proof.
  intros Heq H1 H2 Hs.
  apply app_eq_inv in Heq as [(l & -> & Hl)|(l & -> & Hl)]; destruct l as [|y l]; cbn in Hl;
    simplify_eq; rewrite ?app_nil_r; [done| |done|].
  - rewrite Forall_app, List.Forall_cons_iff in H1. destruct H1 as (_ & ? & _). congruence.
  - rewrite Forall_app, List.Forall_cons_iff in H2. destruct H2 as (_ & ? & _). congruence.
Qed.

(** An event that [sel] accepts, in a trace whose other parts have none. *)
Lemma cut_middle {E} {R : E → Type} (sel : event R → bool) t1 t2 t3 before ev after :
  t1 ++ t2 ++ t3 = before ++ ev :: after →
  Forall (λ ev, sel ev = false) t1 → Forall (λ ev, sel ev = false) t3 → sel ev = true →
  ∃ b a, t2 = b ++ ev :: a ∧ after = a ++ t3.
Proof.
  intros Heq H1 H3 Hs. revert before Heq. induction H1 as [|x t1 Hx _ IH]; intros before; cbn.
  - intros [(l & -> & Hl)|(l & -> & Hl)]%app_eq_inv.
    + destruct l as [|y l]; cbn in Hl; [|injection Hl as <- ->; by exists before, l].
      exfalso. rewrite <- Hl, List.Forall_cons_iff in H3. destruct H3. congruence.
    + exfalso. rewrite Hl, Forall_app, List.Forall_cons_iff in H3.
      destruct H3 as (_ & ? & _). congruence.
  - destruct before as [|y before]; cbn; intros [= Hxy Heq]; [congruence|].
    by apply (IH before).
Qed.

(** ** Linking

    [interp h m] is [m] with every call [e] carried out by the program [h e]. *)
Section Linking.
Context {E : Type} {R : E → Type} (h : ∀ e : E, prog R (R e)).

Fixpoint interp {A} (m : prog R A) : prog R A :=
  match m with
  | Ret a => Ret a
  | Vis e k => bind (h e) (λ r, interp (k r))
  end.

(** The calls [outer] carried out: the trace is that of their programs, in order. *)
Fixpoint linked (outer tr : list (event R)) : Prop :=
  match outer with
  | [] => tr = []
  | Ev e r :: outer' => ∃ seg tr', tr = seg ++ tr' ∧ runs (h e) seg r ∧ linked outer' tr'
  end.

Lemma runs_interp {A} (m : prog R A) tr a :
  runs (interp m) tr a ↔ ∃ outer, runs m outer a ∧ linked outer tr.
Proof.
  revert tr. induction m as [x|e k IH]; intros tr; cbn [interp].
  - rewrite runs_ret. split.
    + intros [-> ->]. by exists [].
    + by intros (outer & [-> ->]%runs_ret & H).
  - rewrite runs_bind. split.
    + intros (seg & r & t & -> & Hs & (outer & Ho & Hl)%IH). exists (Ev e r :: outer).
      split; [apply runs_vis; eauto|]. exists seg, t. done.
    + intros (outer & (r & outer' & -> & Ho)%runs_vis & (seg & t & -> & Hs & Hl)).
      exists seg, r, t. split; [done|]. split; [done|]. apply IH. eauto.
Qed.

(** An event of a linked trace is of the program of one call; the calls before it
    have been carried out. *)
Lemma linked_split outer tr pre ev post :
  linked outer tr → tr = pre ++ ev :: post →
  ∃ outer1 e r outer2 pre1 seg1 seg2 rest,
    outer = outer1 ++ Ev e r :: outer2 ∧ linked outer1 pre1 ∧ pre = pre1 ++ seg1 ∧
    post = seg2 ++ rest ∧ runs (h e) (seg1 ++ ev :: seg2) r.
Proof.
  revert pre tr. induction outer as [|[e r] outer IH]; intros pre tr; cbn.
  { intros -> Heq. by destruct pre. }
  intros (seg & t & -> & Hs & Hl) Heq.
  apply app_split in Heq as [(k & -> & ->)|(k & -> & Heq)].
  - by exists [], e, r, outer, [], pre, k, t.
  - destruct (IH k t Hl Heq) as (o1 & e' & r' & o2 & p1 & s1 & s2 & rest & -> & Hl1 & -> & -> & Hr).
    exists (Ev e r :: o1), e', r', o2, (seg ++ p1), s1, s2, rest. rewrite app_assoc.
    split_and!; [done| |done|done|done]. by exists seg, p1.
Qed.

(** A call of the outer trace has been carried out, in one piece. *)
Lemma linked_elem outer tr e r :
  linked outer tr → Ev e r ∈ outer → ∃ t1 seg t2, tr = t1 ++ seg ++ t2 ∧ runs (h e) seg r.
Proof.
  revert tr. induction outer as [|[e' r'] outer IH]; intros tr; cbn.
  { by intros _ ?%not_elem_of_nil. }
  intros (seg & t & -> & Hs & Hl) [Heq|Hin]%elem_of_cons.
  - exists [], seg, t. split; [done|].
    pose (P ev := match ev with Ev e r => runs (h e) seg r end). by change (P (Ev e r)); rewrite Heq.
  - destruct (IH t Hl Hin) as (t1 & seg' & t2 & -> & Hr). exists (seg ++ t1), seg', t2.
    by rewrite app_assoc.
Qed.

(** A trace linked to a call between others is that of the call between theirs. *)
Lemma linked_at outer1 e r outer2 tr :
  linked (outer1 ++ Ev e r :: outer2) tr →
  ∃ tr1 seg tr2, tr = tr1 ++ seg ++ tr2 ∧ linked outer1 tr1 ∧ runs (h e) seg r ∧ linked outer2 tr2.
Proof.
  revert tr. induction outer1 as [|[e' r'] outer1 IH]; intros tr; cbn.
  { intros (seg & t & -> & Hs & Hl). by exists [], seg, t. }
  intros (seg & t & -> & Hs & (t1 & seg' & t2 & -> & H1 & H & H2)%IH).
  exists (seg ++ t1), seg', t2. rewrite <- app_assoc. split; [done|]. split; [|done]. by exists seg, t1.
Qed.

(** A property of the events of the programs is one of the events of the whole. *)
Lemma linked_Forall (P Q : event R → Prop) outer tr :
  (∀ e r seg, P (Ev e r) → runs (h e) seg r → Forall Q seg) →
  linked outer tr → Forall P outer → Forall Q tr.
Proof.
  intros Hh. revert tr. induction outer as [|[e r] outer IH]; intros tr; cbn.
  { by intros -> _. }
  intros (seg & t & -> & Hs & Hl) [He Ho]%List.Forall_cons_iff.
  apply Forall_app. split; [by eapply Hh|auto].
Qed.
End Linking.

(** ** Filtering a trace *)
Lemma omap_cons {A B} (f : A → option B) x (xs : list A) :
  omap f (x :: xs) = match f x with Some y => y :: omap f xs | None => omap f xs end.
Proof. done. Qed.

Lemma omap_none {A B} (f : A → option B) (xs : list A) :
  Forall (λ x, f x = None) xs → omap f xs = [].
Proof. induction 1 as [|x xs Hx _ IH]; [done|]. by rewrite omap_cons, Hx. Qed.

Lemma elem_of_omap {A B} (f : A → option B) (xs : list A) y :
  y ∈ omap f xs ↔ ∃ x, x ∈ xs ∧ f x = Some y.
Proof. apply list_elem_of_omap. Qed.

(** An element a computation finds. *)
Lemma pick {A} (xs : list A) (p : A → bool) :
  existsb p xs = true → ∃ x, x ∈ xs ∧ p x = true.
Proof. rewrite existsb_exists. setoid_rewrite <- list_elem_of_In. done. Qed.

(** ** Boolean helpers *)
Lemma bool_decide_true_iff (P : Prop) `{Decision P} : bool_decide P = true ↔ P.
Proof. apply bool_decide_eq_true. Qed.

(** Decides a closed decidable proposition. *)
Ltac decide_closed := apply (bool_decide_unpack _); vm_compute; exact I.

Ltac bool_hyps :=
  repeat match goal with
  | H : andb _ _ = true |- _ => apply andb_true_iff in H as [? ?]
  | H : orb _ _ = false |- _ => apply orb_false_iff in H as [? ?]
  | H : negb _ = true |- _ => apply negb_true_iff in H
  | H : negb _ = false |- _ => apply negb_false_iff in H
  | H : bool_decide _ = true |- _ => apply bool_decide_eq_true in H
  | H : bool_decide _ = false |- _ => apply bool_decide_eq_false in H
  | H : String.eqb _ _ = true |- _ => apply String.eqb_eq in H
  | H : String.eqb _ _ = false |- _ => apply String.eqb_neq in H
  | H : Z.ltb _ _ = true |- _ => apply Z.ltb_lt in H
  | H : Z.ltb _ _ = false |- _ => apply Z.ltb_ge in H
  | H : Z.leb _ _ = true |- _ => apply Z.leb_le in H
  | H : Z.leb _ _ = false |- _ => apply Z.leb_gt in H
  | H : Z.eqb _ _ = true |- _ => apply Z.eqb_eq in H
  | H : Z.eqb _ _ = false |- _ => apply Z.eqb_neq in H
  end.

(** * Machine integers and time

    A [time.Time] is a number of nanoseconds since the zero time (January 1,
    year 1, UTC), so the zero value is [0].  A [time.Duration] is an [int64]
    of nanoseconds. *)
Definition Time := Z.
Definition Duration := Z.

Definition Time_IsZero (t : Time) : bool := (t =? 0)%Z.
Definition Time_Before (t u : Time) : bool := (t <? u)%Z.
Definition Time_Add (t : Time) (d : Duration) : Time := (t + d)%Z.

Definition maxInt64 : Z := 9223372036854775807%Z.
Definition minInt64 : Z := (-9223372036854775808)%Z.

(** [Time.Sub] saturates at the ends of the [Duration] range. *)
Definition Time_Sub (t u : Time) : Duration :=
  Z.max minInt64 (Z.min maxInt64 (t - u)%Z).

(** Two's complement wrap-around of an [int64] result. *)
Definition wrap64 (z : Z) : Z := ((z + 2 ^ 63) mod 2 ^ 64 - 2 ^ 63)%Z.

Definition Millisecond : Duration := 1000000%Z.
Definition Second : Duration := 1000000000%Z.
Definition Minute : Duration := 60000000000%Z.
Definition Hour : Duration := 3600000000000%Z.

Lemma wrap64_small z : (minInt64 ≤ z ≤ maxInt64)%Z → wrap64 z = z.
Proof. unfold wrap64, minInt64, maxInt64. intros. rewrite Z.mod_small; lia. Qed.

Lemma wrap64_range z : (minInt64 ≤ wrap64 z ≤ maxInt64)%Z.
Proof.
  unfold wrap64, minInt64, maxInt64.
  pose proof (Z.mod_pos_bound (z + 2 ^ 63) (2 ^ 64) ltac:(lia)). lia.
Qed.

Lemma Time_Sub_gt t u d :
  (0 ≤ d < maxInt64)%Z → (d <? Time_Sub t u)%Z = (d <? t - u)%Z.
Proof.
  unfold Time_Sub, maxInt64, minInt64. intros H.
  destruct (Z.ltb_spec d (t - u)); [apply Z.ltb_lt|apply Z.ltb_ge]; lia.
Qed.
