(* ===== verification/GoText.v ===== *)
(** The parts of Go's standard library the operator uses on text: byte
    slices of a string, [strings.TrimSpace], [strings.TrimRight],
    [strings.EqualFold] against an ASCII word, [strings.Join],
    [utf8.ValidString], [strconv.Atoi] and decimal formatting.  A Go string
    is a sequence of bytes, hence a [string]. *)
From stdpp Require Import base list option strings pretty sorting.
From Stdlib Require Import ZArith Lia Ascii String.
From S2P Require Import Prelude.

Local Open Scope string_scope.
Local Open Scope list_scope.

Definition byte (n : nat) : ascii := ascii_of_nat n.
Definition bytes (ns : list nat) : string := string_of_list_ascii (map byte ns).

(** [len(s)]. *)
Definition len (s : string) : Z := Z.of_nat (String.length s).

(** [s[:n]], for [n <= len(s)]. *)
Definition str_take (n : nat) (s : string) : string := String.substring 0 n s.

Definition quoteByte : string := bytes [34].
Definition nulByte : string := bytes [0].
Definition newline : string := bytes [10].

(** [fmt.Sprintf("%d", z)]. *)
Definition Itoa (z : Z) : string := pretty z.

(** [time.Duration.String]: the fraction of [v] with [prec] digits, without its
    trailing zeros, and the integral part. *)
Fixpoint fmtFrac (prec : nat) (v : Z) (digits : string) : string * Z :=
  match prec with
  | O => (if String.eqb digits "" then "" else "." +:+ digits, v)
  | S p =>
      let d := (v mod 10)%Z in
      fmtFrac p (v / 10)%Z
        (if (d =? 0)%Z && String.eqb digits "" then "" else Itoa d +:+ digits)
  end.

Definition fmtUnit (u : Z) (prec : nat) (unit : string) : string :=
  let (frac, v) := fmtFrac prec u "" in Itoa v +:+ frac +:+ unit.

Definition Duration_String (d : Duration) : string :=
  let u := Z.abs d in
  let text :=
    if (u <? Second)%Z then
      if (u =? 0)%Z then "0s"
      else if (u <? 1000)%Z then fmtUnit u 0%nat "ns"
      else if (u <? Millisecond)%Z then fmtUnit u 3%nat (bytes [194; 181; 115])
      else fmtUnit u 6%nat "ms"
    else
      let (frac, secs) := fmtFrac 9%nat u "" in
      let seconds := Itoa (secs mod 60) +:+ frac +:+ "s" in
      let minutes := (secs / 60)%Z in
      if (minutes =? 0)%Z then seconds
      else
        let hours := (minutes / 60)%Z in
        (if (hours =? 0)%Z then "" else Itoa hours +:+ "h")
        +:+ Itoa (minutes mod 60) +:+ "m" +:+ seconds in
  if (d <? 0)%Z then "-" +:+ text else text.

Example Duration_String_examples :
  Duration_String (5 * Minute)%Z = "5m0s" ∧ Duration_String (90 * Minute)%Z = "1h30m0s" ∧
  Duration_String (1500 * Millisecond)%Z = "1.5s" ∧ Duration_String ((-250) * Millisecond)%Z = "-250ms".
Proof. vm_compute. done. Qed.

(** [strings.Join]. *)
Fixpoint Join (xs : list string) (sep : string) : string :=
  match xs with
  | [] => ""
  | [x] => x
  | x :: xs' => x +:+ sep +:+ Join xs' sep
  end.

(** [strings.Split] with a separator of one byte. *)
Fixpoint Split (s : string) (sep : ascii) : list string :=
  match s with
  | EmptyString => [""]
  | String c s' =>
      if Ascii.eqb c sep then "" :: Split s' sep
      else match Split s' sep with
           | x :: xs => String c x :: xs
           | [] => [String c ""]
           end
  end.

(** The byte occurs in the string. *)
Fixpoint hasByte (sep : ascii) (s : string) : bool :=
  match s with
  | EmptyString => false
  | String c s' => Ascii.eqb c sep || hasByte sep s'
  end.

(** ** UTF-8 *)
Definition inRange (lo hi : nat) (c : ascii) : bool :=
  (lo <=? nat_of_ascii c)%nat && (nat_of_ascii c <=? hi)%nat.
Definition isCont (c : ascii) : bool := inRange 128 191 c.

(** [utf8.ValidString]: Go's table of accepted first and second bytes. *)
Fixpoint ValidString (s : string) : bool :=
  match s with
  | EmptyString => true
  | String a s1 =>
      if inRange 0 127 a then ValidString s1
      else if inRange 194 223 a then
        match s1 with
        | String b s2 => isCont b && ValidString s2
        | _ => false
        end
      else if inRange 224 239 a then
        match s1 with
        | String b (String c s3) =>
            inRange (if inRange 224 224 a then 160 else 128)
                    (if inRange 237 237 a then 159 else 191) b
            && isCont c && ValidString s3
        | _ => false
        end
      else if inRange 240 244 a then
        match s1 with
        | String b (String c (String d s4)) =>
            inRange (if inRange 240 240 a then 144 else 128)
                    (if inRange 244 244 a then 143 else 191) b
            && isCont c && isCont d && ValidString s4
        | _ => false
        end
      else false
  end.

(** [[]rune(s)], each rune as its UTF-8 encoding: a byte that starts no valid
    encoding is the replacement character. *)
Definition runeError : string := bytes [239; 191; 189].

Fixpoint runes (s : string) : list string :=
  match s with
  | EmptyString => []
  | String a s1 =>
      if inRange 0 127 a then String a "" :: runes s1
      else if inRange 194 223 a then
        match s1 with
        | String b s2 =>
            if isCont b then String a (String b "") :: runes s2 else runeError :: runes s1
        | _ => runeError :: runes s1
        end
      else if inRange 224 239 a then
        match s1 with
        | String b (String c s3) =>
            if inRange (if inRange 224 224 a then 160 else 128)
                       (if inRange 237 237 a then 159 else 191) b && isCont c
            then String a (String b (String c "")) :: runes s3 else runeError :: runes s1
        | _ => runeError :: runes s1
        end
      else if inRange 240 244 a then
        match s1 with
        | String b (String c (String d s4)) =>
            if inRange (if inRange 240 240 a then 144 else 128)
                       (if inRange 244 244 a then 143 else 191) b && isCont c && isCont d
            then String a (String b (String c (String d ""))) :: runes s4
            else runeError :: runes s1
        | _ => runeError :: runes s1
        end
      else runeError :: runes s1
  end.

(** [string(rs)] of a slice of runes. *)
Definition stringOfRunes (rs : list string) : string := fold_right String.append "" rs.

(** ** Sorting ([sort.Strings] orders by bytes) *)
Definition strLe (a b : string) : Prop := String.leb a b = true.
#[export] Instance strLe_dec : RelDecision strLe.
Proof. intros a b. unfold strLe. apply _. Defined.

Definition sortStrings (xs : list string) : list string := merge_sort strLe xs.

(** ** Trimming *)

(** The UTF-8 encodings of the code points [unicode.IsSpace] accepts. *)
Definition spaceEncodings : list string :=
  map bytes
    ([[9]; [10]; [11]; [12]; [13]; [32]; [194; 133]; [194; 160]; [225; 154; 128];
      [226; 128; 168]; [226; 128; 169]; [226; 128; 175]; [226; 129; 159]; [227; 128; 128]]
     ++ map (λ n, [226; 128; n]) (seq 128 11)).

(** The rest of [s] after the prefix [p], if [s] starts with [p]. *)
Fixpoint cutPrefix (p s : string) : option string :=
  match p, s with
  | EmptyString, _ => Some s
  | String a p', String b s' => if Ascii.eqb a b then cutPrefix p' s' else None
  | String _ _, EmptyString => None
  end.

Definition cutAny (ps : list string) (s : string) : option string :=
  fold_right (λ p acc, match cutPrefix p s with Some r => Some r | None => acc end) None ps.

Fixpoint trimLeftFuel (fuel : nat) (ps : list string) (s : string) : string :=
  match fuel with
  | O => s
  | S n => match cutAny ps s with Some r => trimLeftFuel n ps r | None => s end
  end.

Definition trimLeftAny (ps : list string) (s : string) : string :=
  trimLeftFuel (String.length s) ps s.

Definition trimRightAny (ps : list string) (s : string) : string :=
  String.rev (trimLeftAny (map String.rev ps) (String.rev s)).

Definition TrimSpace (s : string) : string :=
  trimRightAny spaceEncodings (trimLeftAny spaceEncodings s).

(** [strings.TrimRight] with a cutset of ASCII characters. *)
Definition TrimRight (s : string) (cutset : string) : string :=
  trimRightAny (map (λ c, String c "") (list_ascii_of_string cutset)) s.

(** ** Case folding *)
Definition toLowerAscii (c : ascii) : ascii :=
  if inRange 65 90 c then byte (nat_of_ascii c + 32) else c.

Fixpoint foldEq (s t : string) : bool :=
  match s, t with
  | EmptyString, EmptyString => true
  | String a s', String b t' => Ascii.eqb (toLowerAscii a) (toLowerAscii b) && foldEq s' t'
  | _, _ => false
  end.

(** ** Decimal parsing: [strconv.Atoi] *)
Definition digitOf (c : ascii) : option Z :=
  if inRange 48 57 c then Some (Z.of_nat (nat_of_ascii c - 48)) else None.

Fixpoint parseDigits (acc : Z) (s : string) : option Z :=
  match s with
  | EmptyString => Some acc
  | String c s' => match digitOf c with
                   | Some d => parseDigits (10 * acc + d)%Z s'
                   | None => None
                   end
  end.

Definition Atoi (s : string) : option Z :=
  let magnitude t := match t with EmptyString => None | _ => parseDigits 0 t end in
  let value :=
    match s with
    | String c s' =>
        if inRange 45 45 c then option_map Z.opp (magnitude s')
        else if inRange 43 43 c then magnitude s'
        else magnitude s
    | EmptyString => None
    end in
  match value with
  | Some z => if ((minInt64 <=? z) && (z <=? maxInt64))%Z then Some z else None
  | None => None
  end.

(** ** Facts *)
Lemma string_app_cons c (s t : string) : String c s +:+ t = String c (s +:+ t).
Proof. done. Qed.

Lemma string_app_nil_l (t : string) : "" +:+ t = t.
Proof. done. Qed.

Lemma string_app_nil_r (s : string) : s +:+ "" = s.
Proof. induction s as [|c s IH]; [done|by rewrite string_app_cons, IH]. Qed.

Lemma string_app_assoc (s t u : string) : s +:+ (t +:+ u) = (s +:+ t) +:+ u.
Proof. induction s as [|c s IH]; [done|by rewrite !string_app_cons, IH]. Qed.

Lemma string_length_app (s t : string) :
  String.length (s +:+ t) = (String.length s + String.length t)%nat.
Proof. induction s as [|c s IH]; [done|]. rewrite string_app_cons. simpl. by rewrite IH. Qed.

Lemma rev_app_spec (s t : string) : String.rev_app s t = String.rev s +:+ t.
Proof.
  unfold String.rev. revert t. induction s as [|c s IH]; intros t; simpl; [done|].
  rewrite (IH (String c t)), (IH (String c "")), <- string_app_assoc. done.
Qed.

Lemma rev_cons c (s : string) : String.rev (String c s) = String.rev s +:+ String c "".
Proof. apply (rev_app_spec s (String c "")). Qed.

Lemma rev_app_distr (s t : string) : String.rev (s +:+ t) = String.rev t +:+ String.rev s.
Proof.
  induction s as [|c s IH].
  - change (String.rev "") with "". by rewrite string_app_nil_r.
  - change (String c s +:+ t) with (String c (s +:+ t)).
    by rewrite !rev_cons, IH, string_app_assoc.
Qed.

Lemma rev_rev (s : string) : String.rev (String.rev s) = s.
Proof. induction s as [|c s IH]; [done|]. rewrite rev_cons, rev_app_distr, IH. done. Qed.

Lemma rev_length (s : string) : String.length (String.rev s) = String.length s.
Proof.
  induction s as [|c s IH]; [done|]. rewrite rev_cons, string_length_app, IH. simpl. lia.
Qed.

Lemma str_take_length n s : (String.length (str_take n s) ≤ n)%nat.
Proof.
  unfold str_take. revert s. induction n as [|n IH]; intros [|c s]; simpl; try lia.
  specialize (IH s). lia.
Qed.

Lemma cutPrefix_app p s r : cutPrefix p s = Some r → s = p +:+ r.
Proof.
  revert s. induction p as [|a p IH]; intros [|b s]; simpl; try naive_solver.
  destruct (Ascii.eqb_spec a b); [|done]. intros ->%IH. by subst.
Qed.

Lemma cutAny_app ps s r : cutAny ps s = Some r → ∃ p, p ∈ ps ∧ s = p +:+ r.
Proof.
  unfold cutAny. induction ps as [|p ps IH]; simpl; [done|].
  destruct (cutPrefix p s) as [r'|] eqn:Hc.
  - intros [= <-]. exists p. split; [left|by apply cutPrefix_app].
  - intros (q & ? & ?)%IH. exists q. split; [by right|done].
Qed.

(** A property that cutting any of the prefixes preserves survives trimming. *)
Lemma trimLeftAny_ind (P : string → Prop) ps s :
  (∀ p r, p ∈ ps → P (p +:+ r) → P r) → P s → P (trimLeftAny ps s).
Proof.
  intros Hstep. unfold trimLeftAny. generalize (String.length s) as fuel.
  intros fuel. revert s. induction fuel as [|n IH]; intros s Hs; simpl; [done|].
  destruct (cutAny ps s) as [r|] eqn:Hc; [|done].
  apply cutAny_app in Hc as (p & Hp & ->). eauto.
Qed.

Lemma trimRightAny_ind (P : string → Prop) ps s :
  (∀ p r, p ∈ ps → P (r +:+ p) → P r) → P s → P (trimRightAny ps s).
Proof.
  intros Hstep Hs. unfold trimRightAny.
  apply (trimLeftAny_ind (λ t, P (String.rev t))); [|by rewrite rev_rev].
  intros p r (q & -> & Hq)%list_elem_of_fmap. rewrite rev_app_distr, rev_rev. eauto.
Qed.

Lemma trimRightAny_length ps s : (String.length (trimRightAny ps s) ≤ String.length s)%nat.
Proof.
  apply (trimRightAny_ind (λ t, String.length t ≤ String.length s)%nat); [|done].
  intros p r _. rewrite string_length_app. lia.
Qed.

Lemma TrimSpace_length s : (String.length (TrimSpace s) ≤ String.length s)%nat.
Proof.
  unfold TrimSpace. etrans; [apply trimRightAny_length|].
  apply (trimLeftAny_ind (λ t, String.length t ≤ String.length s)%nat); [|done].
  intros p r _. rewrite string_length_app. lia.
Qed.

Ltac rewrite_trues :=
  repeat match goal with
  | H : ?b = true |- context [?b] => rewrite H; rewrite ?andb_true_l
  end.

(** Decoding restarts after a valid prefix. *)
Lemma ValidString_app p r : ValidString p = true → ValidString (p +:+ r) = ValidString r.
Proof.
  remember (String.length p) as n eqn:Hn.
  revert p Hn. induction n as [n IH] using lt_wf_ind. intros p Hn Hp.
  destruct p as [|a p]; [done|]. rewrite string_app_cons. simpl in Hp, Hn |- *.
  destruct (inRange 0 127 a); [eapply IH; [|done|done]; lia|].
  destruct (inRange 194 223 a).
  { destruct p as [|b p]; [done|]. rewrite !string_app_cons. simpl in *. bool_hyps.
    rewrite_trues. eapply IH; [|done|done]. lia. }
  destruct (inRange 224 239 a).
  { destruct p as [|b [|c p]]; try done. rewrite !string_app_cons. simpl in *. bool_hyps.
    rewrite_trues. eapply IH; [|done|done]; lia. }
  destruct (inRange 240 244 a); [|done].
  destruct p as [|b [|c [|d p]]]; try done. rewrite !string_app_cons. simpl in *. bool_hyps.
  rewrite_trues. eapply IH; [|done|done]; lia.
Qed.

Lemma isCont_second lo hi b :
  (128 ≤ lo)%nat → (hi ≤ 191)%nat → inRange lo hi b = true → isCont b = true.
Proof.
  unfold isCont, inRange. intros ? ? [?%Nat.leb_le ?%Nat.leb_le]%andb_true_iff.
  apply andb_true_iff. split; apply Nat.leb_le; lia.
Qed.

Ltac second_byte c :=
  match goal with H : inRange _ _ c = true |- _ => apply isCont_second in H end.

(** A code point boundary: a valid string stays valid when it is cut before a
    byte that is no continuation byte. *)
Lemma ValidString_cut s c e :
  isCont c = false → ValidString (s +:+ String c e) = true → ValidString s = true.
Proof.
  intros Hc. remember (String.length s) as n eqn:Hn.
  revert s Hn. induction n as [n IH] using lt_wf_ind. intros s Hn.
  assert (Hno : ∀ b t, isCont b && ValidString t = true → b ≠ c)
    by (intros b t [Hb _]%andb_true_iff ->; congruence).
  destruct s as [|a s]; [done|]. rewrite string_app_cons. simpl in Hn |- *.
  destruct (inRange 0 127 a); [by eapply IH; [|done]; lia|].
  destruct (inRange 194 223 a).
  { destruct s as [|b s]; rewrite ?string_app_cons, ?string_app_nil_l; intros H; bool_hyps;
      [congruence|].
    rewrite_trues. eapply IH; [|done|done]. simpl in Hn. lia. }
  destruct (inRange 224 239 a).
  { destruct s as [|b [|b2 s]]; rewrite ?string_app_cons, ?string_app_nil_l.
    - intros H. destruct e as [|d e]; bool_hyps; try done.
      second_byte c; [congruence|clear; case (inRange _ _ a); lia|clear; case (inRange _ _ a); lia].
    - intros H. bool_hyps. congruence.
    - intros H. bool_hyps. rewrite_trues. eapply IH; [|done|done]. simpl in Hn. lia. }
  destruct (inRange 240 244 a); [|done].
  destruct s as [|b [|b2 [|b3 s]]]; rewrite ?string_app_cons, ?string_app_nil_l.
  - intros H. destruct e as [|d [|d2 e]]; bool_hyps; try done.
    second_byte c; [congruence|clear; case (inRange _ _ a); lia|clear; case (inRange _ _ a); lia].
  - intros H. destruct e as [|d e]; bool_hyps; congruence.
  - intros H. bool_hyps. congruence.
  - intros H. bool_hyps. rewrite_trues. eapply IH; [|done|done]. simpl in Hn. lia.
Qed.

(** Every space is one valid code point. *)
Definition startsCodePoint (p : string) : bool :=
  match p with EmptyString => false | String c _ => negb (isCont c) end.

Lemma spaceEncodings_valid p :
  p ∈ spaceEncodings → ValidString p = true ∧ startsCodePoint p = true.
Proof.
  intros Hp. assert (H : forallb (λ q, ValidString q && startsCodePoint q) spaceEncodings = true)
    by (vm_compute; done).
  rewrite forallb_forall in H. apply andb_true_iff, H. by apply list_elem_of_In.
Qed.

Lemma TrimSpace_valid s : ValidString s = true → ValidString (TrimSpace s) = true.
Proof.
  intros Hs. unfold TrimSpace. apply (trimRightAny_ind (λ t, ValidString t = true)).
  - intros p r [_ Hp]%spaceEncodings_valid. destruct p as [|c p]; [done|].
    simpl in Hp. bool_hyps. by apply ValidString_cut.
  - apply (trimLeftAny_ind (λ t, ValidString t = true)); [|done].
    intros p r [Hp _]%spaceEncodings_valid. by rewrite ValidString_app.
Qed.

Example Atoi_examples :
  map Atoi ["3"; "-1"; "+7"; ""; "-"; "1x"; "9223372036854775808"]
  = [Some 3%Z; Some (-1)%Z; Some 7%Z; None; None; None; None].
Proof. vm_compute. reflexivity. Qed.

Example TrimSpace_examples :
  map TrimSpace [" True "; bytes [9; 116; 194; 160]; "   "; "a b"] = ["True"; "t"; ""; "a b"].
Proof. vm_compute. reflexivity. Qed.

(** ** The byte order *)
Lemma strLe_cons a b s t :
  strLe (String a s) (String b t) ↔
  (N_of_ascii a < N_of_ascii b)%N ∨ (a = b ∧ strLe s t).
Proof.
  unfold strLe, String.leb. cbn [String.compare]. unfold Ascii.compare.
  assert (Hinj : N_of_ascii a = N_of_ascii b → a = b).
  { intros He. by rewrite <- (ascii_N_embedding a), He, ascii_N_embedding. }
  destruct (N.compare_spec (N_of_ascii a) (N_of_ascii b)) as [He|Hlt|Hgt].
  - apply Hinj in He as ->. split; [auto|]. intros [Hl|[_ Hs]]; [lia|done].
  - split; auto.
  - split; [done|]. intros [?|[-> _]]; lia.
Qed.

#[export] Instance strLe_trans : Transitive strLe.
Proof.
  intros s. induction s as [|a s IH]; intros [|b t] [|c u]; try done.
  rewrite !strLe_cons. intros [Hab|[-> Hst]] [Hbc|[-> Htu]];
    [left; lia|by left|by left|right; eauto].
Qed.

#[export] Instance strLe_total : Total strLe.
Proof. intros s t. apply String.leb_total. Qed.

Lemma strLe_antisym s t : strLe s t → strLe t s → s = t.
Proof. apply String.leb_antisym. Qed.

(** ** Splitting what was joined *)
Lemma Split_app x s sep :
  hasByte sep x = false → Split (x +:+ String sep s) sep = x :: Split s sep.
Proof.
  induction x as [|c x IH]; rewrite ?string_app_nil_l, ?string_app_cons; cbn.
  - by rewrite Ascii.eqb_refl.
  - intros [Hc Hx]%orb_false_iff. by rewrite Hc, IH.
Qed.

Lemma Split_none x sep : hasByte sep x = false → Split x sep = [x].
Proof.
  induction x as [|c x IH]; cbn; [done|]. intros [-> Hx]%orb_false_iff. by rewrite IH.
Qed.

Lemma Split_Join xs sep :
  xs ≠ [] → Forall (λ x, hasByte sep x = false) xs → Split (Join xs (String sep "")) sep = xs.
Proof.
  intros Hn H. induction H as [|x xs Hx Hxs IH]; [done|]. destruct xs as [|y xs].
  - by apply Split_none.
  - change (Join (x :: y :: xs) (String sep ""))
      with (x +:+ String sep (Join (y :: xs) (String sep ""))).
    by rewrite Split_app, IH.
Qed.
