(* ===== verification/Crypto.v ===== *)
(** SHA-256 ([crypto/sha256]) and hexadecimal output ([fmt]'s [%x]), as the
    names of reader bindings and truncated label values use them: FIPS 180-4 on
    32-bit words, with the wrap-around of their additions written out. *)
From stdpp Require Import base list option strings.
From Stdlib Require Import ZArith Lia Ascii String.
From S2P Require Import Prelude GoText.

Local Open Scope string_scope.
Local Open Scope list_scope.
Local Open Scope Z_scope.

(** ** 32-bit words *)
Definition wrap32 (z : Z) : Z := Z.land z 4294967295.
Definition add32 (x y : Z) : Z := wrap32 (x + y).
Definition rotr32 (n x : Z) : Z :=
  Z.lor (Z.shiftr x n) (wrap32 (Z.shiftl x (32 - n))).
Definition not32 (x : Z) : Z := Z.lxor x 4294967295.

Definition sigma0 (x : Z) : Z := Z.lxor (Z.lxor (rotr32 7 x) (rotr32 18 x)) (Z.shiftr x 3).
Definition sigma1 (x : Z) : Z := Z.lxor (Z.lxor (rotr32 17 x) (rotr32 19 x)) (Z.shiftr x 10).
Definition Sigma0 (x : Z) : Z := Z.lxor (Z.lxor (rotr32 2 x) (rotr32 13 x)) (rotr32 22 x).
Definition Sigma1 (x : Z) : Z := Z.lxor (Z.lxor (rotr32 6 x) (rotr32 11 x)) (rotr32 25 x).
Definition choose (x y z : Z) : Z := Z.lxor (Z.land x y) (Z.land (not32 x) z).
Definition majority (x y z : Z) : Z :=
  Z.lxor (Z.lxor (Z.land x y) (Z.land x z)) (Z.land y z).

Definition initialHash : list Z :=
  [
    1779033703; 3144134277; 1013904242; 2773480762; 1359893119; 2600822924; 528734635; 1541459225
  ].

Definition roundConstants : list Z :=
  [
    1116352408; 1899447441; 3049323471; 3921009573; 961987163; 1508970993; 2453635748; 2870763221;
    3624381080; 310598401; 607225278; 1426881987; 1925078388; 2162078206; 2614888103; 3248222580;
    3835390401; 4022224774; 264347078; 604807628; 770255983; 1249150122; 1555081692; 1996064986;
    2554220882; 2821834349; 2952996808; 3210313671; 3336571891; 3584528711; 113926993; 338241895;
    666307205; 773529912; 1294757372; 1396182291; 1695183700; 1986661051; 2177026350; 2456956037;
    2730485921; 2820302411; 3259730800; 3345764771; 3516065817; 3600352804; 4094571909; 275423344;
    430227734; 506948616; 659060556; 883997877; 958139571; 1322822218; 1537002063; 1747873779;
    1955562222; 2024104815; 2227730452; 2361852424; 2428436474; 2756734187; 3204031479; 3329325298
  ].

(** ** The message *)

(** The big-endian bytes of a word. *)
Definition wordBytes (w : Z) : list Z :=
  map (λ i, Z.land (Z.shiftr w (8 * i)) 255) [3; 2; 1; 0].

(** The message, a one bit, zeros, and the length in bits on 64 bits. *)
Definition padMessage (bs : list Z) : list Z :=
  let n := Z.of_nat (List.length bs) in
  let zeros := Z.to_nat ((55 - n) mod 64) in
  let bits := 8 * n in
  bs ++ 128 :: repeat 0 zeros ++ wordBytes (wrap32 (Z.shiftr bits 32)) ++ wordBytes (wrap32 bits).

Fixpoint wordsOf (bs : list Z) : list Z :=
  match bs with
  | a :: b :: c :: d :: bs' =>
      (Z.shiftl a 24 + Z.shiftl b 16 + Z.shiftl c 8 + d) :: wordsOf bs'
  | _ => []
  end.

(** ** The compression function *)

(** The message schedule, latest word first: [n] more words. *)
Fixpoint schedule (n : nat) (ws : list Z) : list Z :=
  match n with
  | O => ws
  | S n' =>
      let w i := nth i ws 0 in
      schedule n'
        (add32 (add32 (sigma1 (w 1%nat)) (w 6%nat)) (add32 (sigma0 (w 14%nat)) (w 15%nat)) :: ws)
  end.

Definition sha_round (st : list Z) (kw : Z * Z) : list Z :=
  match st with
  | [a; b; c; d; e; f; g; h] =>
      let t1 := add32 (add32 (add32 h (Sigma1 e)) (choose e f g)) (add32 (fst kw) (snd kw)) in
      let t2 := add32 (Sigma0 a) (majority a b c) in
      [add32 t1 t2; a; b; c; add32 d t1; e; f; g]
  | _ => st
  end.

Definition compress (hash block : list Z) : list Z :=
  let ws := rev (schedule 48 (rev block)) in
  zip_with add32 hash (fold_left sha_round (zip roundConstants ws) hash).

(** The blocks of sixteen words of a padded message. *)
Fixpoint digestBlocks (n : nat) (words hash : list Z) : list Z :=
  match n with
  | O => hash
  | S n' => digestBlocks n' (drop 16 words) (compress hash (take 16 words))
  end.

(** [sha256.Sum256]: the 32 bytes of the digest. *)
Definition Sum256 (s : string) : list Z :=
  let words := wordsOf (padMessage (map (λ c, Z.of_nat (nat_of_ascii c)) (list_ascii_of_string s))) in
  List.concat (map wordBytes (digestBlocks (List.length words / 16) words initialHash)).

(** ** Hexadecimal *)
Definition hexDigit (d : Z) : ascii :=
  byte (Z.to_nat (if d <? 10 then 48 + d else 87 + d)).

(** [fmt.Sprintf("%x", bytes)]. *)
Definition hex (bs : list Z) : string :=
  string_of_list_ascii
    (List.concat (map (λ b, [hexDigit (Z.shiftr b 4); hexDigit (Z.land b 15)]) bs)).

Example Sum256_examples :
  hex (Sum256 "") = "e3b0c44298fc1c149afbf4c8996fb92427ae41e4649b934ca495991b7852b855" ∧
  hex (Sum256 "abc") = "ba7816bf8f01cfea414140de5dae2223b00361a396177a9cb410ff61f20015ad" ∧
  hex (Sum256 "abcdbcdecdefdefgefghfghighijhijkijkljklmklmnlmnomnopnopq")
  = "248d6a61d20638b8e5c026930c3e6039a33ce45964ff2167f6ecedd419db06c1".
Proof. vm_compute. done. Qed.

Lemma hex_length bs : String.length (hex bs) = (2 * List.length bs)%nat.
Proof.
  unfold hex. induction bs as [|b bs IH]; [done|].
  cbn [map List.concat app string_of_list_ascii String.length List.length] in *. lia.
Qed.
