(* ===== verification/Json.v ===== *)
(** The output of [encoding/json] for the values the operator marshals, and the
    functions of the package [path]: strings with Go's escapes (HTML-safe, the
    replacement character for invalid UTF-8), numbers, arrays, objects in the
    order of their fields, and raw messages as they are. *)
From stdpp Require Import base list option strings.
From Stdlib Require Import ZArith Lia Ascii String.
From S2P Require Import Prelude GoText Crypto.

Local Open Scope string_scope.
Local Open Scope list_scope.

Inductive Json :=
| JString (s : string)
| JNumber (z : Z)
| JBool (b : bool)
| JArray (xs : list Json)
| JObject (fields : list (string * Json))
| JRaw (raw : string).

(** ** Strings *)
Definition backslash : string := bytes [92].

(** [\u00XY] for a byte below 256. *)
Definition unicodeEscape (n : nat) : string :=
  backslash +:+ "u00" +:+ hex [Z.of_nat n].

(** The escape of an ASCII character, or the character. *)
Definition escapeAscii (c : ascii) : string :=
  let n := nat_of_ascii c in
  if (n =? 34)%nat || (n =? 92)%nat then backslash +:+ String c ""
  else if (n =? 8)%nat then backslash +:+ "b"
  else if (n =? 12)%nat then backslash +:+ "f"
  else if (n =? 10)%nat then backslash +:+ "n"
  else if (n =? 13)%nat then backslash +:+ "r"
  else if (n =? 9)%nat then backslash +:+ "t"
  else if (n <? 32)%nat || (n =? 38)%nat || (n =? 60)%nat || (n =? 62)%nat then unicodeEscape n
  else String c "".

Definition lineSeparator : string := bytes [226; 128; 168].
Definition paragraphSeparator : string := bytes [226; 128; 169].

(** The loop of [appendString]; [fuel] bounds the bytes left. *)
Fixpoint escapeFrom (fuel : nat) (s : string) : string :=
  match fuel, s with
  | S fuel', String c s' =>
      if inRange 0 127 c then escapeAscii c +:+ escapeFrom fuel' s'
      else
        let rune := match runes s with r :: _ => r | [] => "" end in
        match cutPrefix rune s with
        | None => backslash +:+ "ufffd" +:+ escapeFrom fuel' s'   (* an invalid byte *)
        | Some rest =>
            (if String.eqb rune lineSeparator then backslash +:+ "u2028"
             else if String.eqb rune paragraphSeparator then backslash +:+ "u2029"
             else rune) +:+ escapeFrom fuel' rest
        end
  | _, _ => ""
  end.

Definition jsonString (s : string) : string :=
  quoteByte +:+ escapeFrom (String.length s) s +:+ quoteByte.

(** ** Values: [json.Marshal] *)
Fixpoint render (j : Json) : string :=
  match j with
  | JString s => jsonString s
  | JNumber z => Itoa z
  | JBool b => if b then "true" else "false"
  | JArray xs => "[" +:+ Join (map render xs) "," +:+ "]"
  | JObject fields =>
      "{" +:+ Join (map (λ '(k, v), jsonString k +:+ ":" +:+ render v) fields) "," +:+ "}"
  | JRaw raw => raw
  end.

(** A field with [omitempty]: left out when it is empty. *)
Definition omitEmpty (empty : bool) (field : string * Json) : list (string * Json) :=
  if empty then [] else [field].

Example render_example :
  render (JArray [JObject [("name", JString ("a<b" +:+ quoteByte)); ("n", JNumber (-3)%Z)]])
  = "[{" +:+ jsonString "name" +:+ ":" +:+ quoteByte +:+ "a" +:+ backslash +:+ "u003cb"
    +:+ backslash +:+ quoteByte +:+ quoteByte +:+ "," +:+ jsonString "n" +:+ ":-3}]" ∧
  jsonString (bytes [195; 169; 255; 226; 128; 168])
  = quoteByte +:+ bytes [195; 169] +:+ backslash +:+ "ufffd" +:+ backslash +:+ "u2028" +:+ quoteByte.
Proof. vm_compute. done. Qed.

(** ** Paths *)
Definition slash : ascii := byte 47.

(** The elements of [Clean]: empty ones and [.] are dropped, [..] removes the one
    before it; above the root it is dropped, above a relative path it stays. *)
Fixpoint cleanFrom (rooted : bool) (acc : list string) (parts : list string) : list string :=
  match parts with
  | [] => rev acc
  | p :: parts' =>
      if String.eqb p "" || String.eqb p "." then cleanFrom rooted acc parts'
      else if String.eqb p ".." then
        match acc with
        | a :: acc' => if String.eqb a ".." then cleanFrom rooted (p :: acc) parts'
                       else cleanFrom rooted acc' parts'
        | [] => cleanFrom rooted (if rooted then [] else [p]) parts'
        end
      else cleanFrom rooted (p :: acc) parts'
  end.

(** [path.Clean]. *)
Definition pathClean (p : string) : string :=
  let rooted := match p with String c _ => Ascii.eqb c slash | _ => false end in
  let body := Join (cleanFrom rooted [] (Split p slash)) "/" in
  if rooted then "/" +:+ body else if String.eqb body "" then "." else body.

(** [path.Join]. *)
Definition pathJoin (elems : list string) : string :=
  match List.filter (λ e, negb (String.eqb e "")) elems with
  | [] => ""
  | es => pathClean (Join es "/")
  end.

(** [path.Base]. *)
Definition pathBase (p : string) : string :=
  if String.eqb p "" then "."
  else
    match List.filter (λ e, negb (String.eqb e "")) (Split p slash) with
    | [] => "/"
    | es => List.last es ""
    end.

(** [strings.TrimPrefix]. *)
Definition TrimPrefix (s prefix : string) : string := default s (cutPrefix prefix s).

(** [strings.ToLower], up to letters beyond ASCII that stay beyond ASCII: U+0130 and U+212A
    are the two other code points with a lower case in ASCII.  The program only compares
    the result with ASCII names, and takes it of ASCII enumerations. *)
Fixpoint ToLower (s : string) : string :=
  match s with
  | EmptyString => EmptyString
  | String "196" (String "176" s') => String "i" (ToLower s')
  | String "226" (String "132" (String "170" s')) => String "k" (ToLower s')
  | String c s' => String (toLowerAscii c) (ToLower s')
  end.

Example path_examples :
  map pathBase ["/a/b/"; ""; "///"; "skills"] = ["b"; "."; "/"; "skills"] ∧
  map pathClean ["/app/skills/../x"; "a//b/."; "../.."; "/.."; ""] = ["/app/x"; "a/b"; "../.."; "/"; "."] ∧
  pathJoin ["/app/skills"; "/"] = "/app/skills" ∧ TrimPrefix "/a" "/" = "a".
Proof. vm_compute. done. Qed.
