(* ===== verification/ApiMachinery.v ===== *)
(** The Kubernetes libraries as the operator sees them.

    [k8s.io/apimachinery], [sigs.k8s.io/controller-runtime] and Go's [%q]
    formatting are not code of this repository.  Their data is written down
    (conditions, object metadata, errors as values); their functions are the
    fields of the class [ApiMachinery], and what their documentation promises
    is the class [ApiMachineryLaws].  A theorem that relies on a promise takes
    the second class; [RefApi.v] shows that both can be implemented. *)
From stdpp Require Import base list option strings gmap.
From Stdlib Require Import ZArith.
From S2P Require Import Prelude GoText.

Local Open Scope string_scope.
Local Open Scope list_scope.

(** ** [metav1.Condition] *)
Inductive ConditionStatus := ConditionTrue | ConditionFalse | ConditionUnknown.

#[export] Instance ConditionStatus_eq_dec : EqDecision ConditionStatus.
Proof. solve_decision. Defined.

Record Condition := MkCondition {
  cond_Type : string;
  cond_Status : ConditionStatus;
  cond_ObservedGeneration : Z;
  cond_LastTransitionTime : Time;
  cond_Reason : string;
  cond_Message : string;
}.

#[export] Instance Condition_eq_dec : EqDecision Condition.
Proof. solve_decision. Defined.

(** A composite literal that leaves [LastTransitionTime] at its zero value. *)
Definition NewCondition (typ : string) (status : ConditionStatus) (reason message : string)
    (observedGeneration : Z) : Condition :=
  MkCondition typ status observedGeneration 0%Z reason message.

Definition withLastTransitionTime (c : Condition) (t : Time) : Condition :=
  MkCondition (cond_Type c) (cond_Status c) (cond_ObservedGeneration c) t
    (cond_Reason c) (cond_Message c).

(** ** [metav1.ObjectMeta] and references *)
Record OwnerReference := MkOwnerReference {
  owner_APIVersion : string;
  owner_Kind : string;
  owner_Name : string;
  owner_UID : string;
  owner_Controller : option bool;
  owner_BlockOwnerDeletion : option bool;
}.

#[export] Instance OwnerReference_eq_dec : EqDecision OwnerReference.
Proof. solve_decision. Defined.

Record ObjectMeta := MkObjectMeta {
  meta_Name : string;
  meta_Namespace : string;
  meta_UID : string;
  meta_ResourceVersion : string;
  meta_Generation : Z;
  meta_CreationTimestamp : Time;
  meta_DeletionTimestamp : option Time;
  meta_Labels : gmap string string;
  meta_Annotations : gmap string string;
  meta_OwnerReferences : list OwnerReference;
  meta_Finalizers : list string;
}.

#[export] Instance ObjectMeta_eq_dec : EqDecision ObjectMeta.
Proof. solve_decision. Defined.

Record NamespacedName := MkNamespacedName { nn_Namespace : string; nn_Name : string }.

#[export] Instance NamespacedName_eq_dec : EqDecision NamespacedName.
Proof. solve_decision. Defined.

(** [m[k]] of a string map: the zero value when the key is absent. *)
Definition mapGet (m : gmap string string) (k : string) : string := default "" (m !! k).

Definition objectKey (m : ObjectMeta) : NamespacedName :=
  MkNamespacedName (meta_Namespace m) (meta_Name m).

Definition withLabels (m : ObjectMeta) (l : gmap string string) : ObjectMeta :=
  MkObjectMeta (meta_Name m) (meta_Namespace m) (meta_UID m) (meta_ResourceVersion m)
    (meta_Generation m) (meta_CreationTimestamp m) (meta_DeletionTimestamp m) l
    (meta_Annotations m) (meta_OwnerReferences m) (meta_Finalizers m).
Definition withAnnotations (m : ObjectMeta) (a : gmap string string) : ObjectMeta :=
  MkObjectMeta (meta_Name m) (meta_Namespace m) (meta_UID m) (meta_ResourceVersion m)
    (meta_Generation m) (meta_CreationTimestamp m) (meta_DeletionTimestamp m)
    (meta_Labels m) a (meta_OwnerReferences m) (meta_Finalizers m).
Definition withFinalizers (m : ObjectMeta) (f : list string) : ObjectMeta :=
  MkObjectMeta (meta_Name m) (meta_Namespace m) (meta_UID m) (meta_ResourceVersion m)
    (meta_Generation m) (meta_CreationTimestamp m) (meta_DeletionTimestamp m)
    (meta_Labels m) (meta_Annotations m) (meta_OwnerReferences m) f.
Definition withResourceVersion (m : ObjectMeta) (rv : string) : ObjectMeta :=
  MkObjectMeta (meta_Name m) (meta_Namespace m) (meta_UID m) rv
    (meta_Generation m) (meta_CreationTimestamp m) (meta_DeletionTimestamp m)
    (meta_Labels m) (meta_Annotations m) (meta_OwnerReferences m) (meta_Finalizers m).

(** [DeletionTimestamp.IsZero()] on a [*metav1.Time]. *)
Definition TimePtr_IsZero (t : option Time) : bool :=
  match t with Some x => Time_IsZero x | None => true end.

(** ** Errors

    A Go error is a tree: [fmt.Errorf] with [%w] wraps one error, [errors.Join]
    several.  The leaves are messages, errors of the API machinery, context
    errors, network errors and the operator's two sentinels. *)
Record StatusError := MkStatusError { se_Reason : string; se_Code : Z; se_Message : string }.

Inductive error : Type :=
| errorString (msg : string)
| wrapError (prefix : string) (err : error)
| joinError (errs : list error)
| statusError (e : StatusError)
| netError (msg : string)
| contextDeadlineExceeded
| contextCanceled
| errStopAccepted
| ErrSuspensionSuperseded
| errReaderBindingsStale
| suffixError (err : error) (suffix : string)   (* fmt.Errorf(%w: %s, err, suffix) *)
| panicError (msg : string).   (* a run-time panic: the worker recovers it into an error *)

Inductive res (A : Type) : Type :=
| Ok (a : A)
| Err (e : error).
Arguments Ok {A} a.
Arguments Err {A} e.

(** [err.Error()]. *)
Fixpoint Error (e : error) : string :=
  match e with
  | errorString msg => msg
  | wrapError prefix err => prefix +:+ ": " +:+ Error err
  | joinError errs =>
      (fix go es := match es with
                    | [] => ""
                    | [e0] => Error e0
                    | e0 :: es' => Error e0 +:+ newline +:+ go es'
                    end) errs
  | statusError s => se_Message s
  | netError msg => msg
  | contextDeadlineExceeded => "context deadline exceeded"
  | contextCanceled => "context canceled"
  | errStopAccepted => "run stop accepted"
  | ErrSuspensionSuperseded => "suspension activation superseded"
  | errReaderBindingsStale => "cached reader bindings are stale"
  | suffixError err suffix => Error err +:+ ": " +:+ suffix
  | panicError msg => msg
  end.

(** The pre-order search of [errors.Is] and [errors.As] in the error tree. *)
Fixpoint errorsAny (p : error → bool) (e : error) : bool :=
  p e ||
  match e with
  | wrapError _ err | suffixError err _ => errorsAny p err
  | joinError errs => (fix go es := match es with
                                    | [] => false
                                    | e0 :: es' => errorsAny p e0 || go es'
                                    end) errs
  | _ => false
  end.

(** [err == errStopAccepted], an identity comparison with the sentinel. *)
Definition isSentinelStop (e : error) : bool :=
  match e with errStopAccepted => true | _ => false end.
Definition isSentinelSuperseded (e : error) : bool :=
  match e with ErrSuspensionSuperseded => true | _ => false end.
Definition isSentinelStale (e : error) : bool :=
  match e with errReaderBindingsStale => true | _ => false end.
Definition isSentinelCanceled (e : error) : bool :=
  match e with contextCanceled => true | _ => false end.
Definition isSentinelDeadline (e : error) : bool :=
  match e with contextDeadlineExceeded => true | _ => false end.

(** Values that satisfy [net.Error]; the context deadline error is one. *)
Definition isNetError (e : error) : bool :=
  match e with netError _ | contextDeadlineExceeded => true | _ => false end.

(** [errors.Join(errs...)]: no error when there are none. *)
Definition joinAll (errs : list error) : option error :=
  match errs with [] => None | _ => Some (joinError errs) end.

(** ** The library functions *)
Class ApiMachinery := {
  IsNotFound : error → bool;
  IsAlreadyExists : error → bool;
  IsConflict : error → bool;
  IsServerTimeout : error → bool;
  IsTimeout : error → bool;
  IsTooManyRequests : error → bool;
  IsServiceUnavailable : error → bool;
  IsInternalError : error → bool;
  IgnoreNotFound : error → option error;
  FindStatusCondition : list Condition → string → option Condition;
  (** [SetStatusCondition] reads the clock: its first argument is that reading. *)
  SetStatusCondition : Time → list Condition → Condition → list Condition;
  RemoveStatusCondition : list Condition → string → list Condition;
  ContainsFinalizer : list string → string → bool;
  AddFinalizer : list string → string → list string;
  RemoveFinalizer : list string → string → list string;
  (** [fmt.Sprintf("%q", s)]. *)
  Quote : string → string;
}.

(** The first condition of a type, as a loop over the slice finds it. *)
Fixpoint firstCondition (cs : list Condition) (typ : string) : option Condition :=
  match cs with
  | [] => None
  | c :: cs' => if String.eqb (cond_Type c) typ then Some c else firstCondition cs' typ
  end.

(** [p := meta.FindStatusCondition(cs, typ); p.LastTransitionTime = t]: the
    pointer returned is into the slice. *)
Fixpoint setLastTransitionTime (cs : list Condition) (typ : string) (t : Time) : list Condition :=
  match cs with
  | [] => []
  | c :: cs' => if String.eqb (cond_Type c) typ then withLastTransitionTime c t :: cs'
                else c :: setLastTransitionTime cs' typ t
  end.

(** The condition [SetStatusCondition] leaves for the type of [c]: all fields
    come from [c], the transition time moves only when the status does. *)
Definition stampCondition (now : Time) (old : option Condition) (c : Condition) : Condition :=
  let fresh := if Time_IsZero (cond_LastTransitionTime c) then now
               else cond_LastTransitionTime c in
  match old with
  | None => withLastTransitionTime c fresh
  | Some o => withLastTransitionTime c
                (if decide (cond_Status o = cond_Status c) then cond_LastTransitionTime o
                 else fresh)
  end.

Class ApiMachineryLaws (K : ApiMachinery) : Prop := {
  FindStatusCondition_first cs typ : FindStatusCondition cs typ = firstCondition cs typ;
  SetStatusCondition_same now cs c :
    firstCondition (SetStatusCondition now cs c) (cond_Type c)
    = Some (stampCondition now (firstCondition cs (cond_Type c)) c);
  SetStatusCondition_other now cs c typ :
    typ ≠ cond_Type c →
    firstCondition (SetStatusCondition now cs c) typ = firstCondition cs typ;
  SetStatusCondition_elem now cs c x :
    x ∈ SetStatusCondition now cs c →
    x ∈ cs ∨ x = stampCondition now (firstCondition cs (cond_Type c)) c;
  SetStatusCondition_keep now cs c x :
    x ∈ cs → cond_Type x ≠ cond_Type c → x ∈ SetStatusCondition now cs c;
  RemoveStatusCondition_same cs typ : firstCondition (RemoveStatusCondition cs typ) typ = None;
  RemoveStatusCondition_other cs typ typ' :
    typ' ≠ typ → firstCondition (RemoveStatusCondition cs typ) typ' = firstCondition cs typ';
  RemoveStatusCondition_elem cs typ x :
    x ∈ RemoveStatusCondition cs typ ↔ x ∈ cs ∧ cond_Type x ≠ typ;
  ContainsFinalizer_elem fs f : ContainsFinalizer fs f = true ↔ f ∈ fs;
  AddFinalizer_elem fs f g : g ∈ AddFinalizer fs f ↔ g = f ∨ g ∈ fs;
  RemoveFinalizer_elem fs f g : g ∈ RemoveFinalizer fs f ↔ g ≠ f ∧ g ∈ fs;
  IgnoreNotFound_spec e : IgnoreNotFound e = if IsNotFound e then None else Some e;
  IsNotFound_wrap p e : IsNotFound (wrapError p e) = IsNotFound e;
  IsNotFound_stop : IsNotFound errStopAccepted = false;
  IsNotFound_string msg : IsNotFound (errorString msg) = false;
}.

(** [meta.SetStatusCondition] changes no other type and stores the fields it is given. *)
Section Conditions.
Context `{KL : ApiMachineryLaws}.

Lemma firstCondition_type cs typ c : firstCondition cs typ = Some c → cond_Type c = typ.
Proof.
  induction cs as [|c0 cs IH]; simpl; [done|].
  destruct (String.eqb_spec (cond_Type c0) typ); [by intros [= <-]|done].
Qed.

Lemma firstCondition_elem cs typ c : firstCondition cs typ = Some c → c ∈ cs.
Proof.
  induction cs as [|c0 cs IH]; simpl; [done|].
  destruct (String.eqb_spec (cond_Type c0) typ).
  - intros [= <-]. left.
  - intros H. right. by apply IH.
Qed.

Lemma firstCondition_None cs typ c :
  firstCondition cs typ = None → c ∈ cs → cond_Type c ≠ typ.
Proof.
  induction cs as [|c0 cs IH]; simpl; [by intros _ ?%elem_of_nil|].
  destruct (String.eqb_spec (cond_Type c0) typ); [done|].
  intros H [->|?]%elem_of_cons; [done|by apply IH].
Qed.

Lemma SetStatusCondition_fields now cs c :
  ∃ t, firstCondition (SetStatusCondition now cs c) (cond_Type c)
       = Some (withLastTransitionTime c t).
Proof.
  rewrite SetStatusCondition_same. unfold stampCondition.
  destruct (firstCondition cs (cond_Type c)); eauto.
Qed.

Lemma setLastTransitionTime_other cs typ t typ' :
  typ' ≠ typ → firstCondition (setLastTransitionTime cs typ t) typ' = firstCondition cs typ'.
Proof.
  intros Hne. induction cs as [|c cs IH]; simpl; [done|].
  destruct (String.eqb_spec (cond_Type c) typ) as [Hc|Hc]; simpl.
  - destruct (String.eqb_spec (cond_Type c) typ'); [congruence|done].
  - by rewrite IH.
Qed.

Lemma setLastTransitionTime_same cs typ t :
  firstCondition (setLastTransitionTime cs typ t) typ
  = (λ c, withLastTransitionTime c t) <$> firstCondition cs typ.
Proof.
  induction cs as [|c cs IH]; simpl; [done|].
  destruct (String.eqb_spec (cond_Type c) typ) as [Hc|Hc]; simpl;
    destruct (String.eqb_spec (cond_Type c) typ); done.
Qed.

Lemma setLastTransitionTime_elem cs typ t x :
  x ∈ setLastTransitionTime cs typ t →
  x ∈ cs ∨ ∃ c, c ∈ cs ∧ x = withLastTransitionTime c t.
Proof.
  induction cs as [|c cs IH]; simpl; [by intros ?%elem_of_nil|].
  destruct (String.eqb_spec (cond_Type c) typ) as [Hc|Hc].
  - intros [->|?]%elem_of_cons; [right; exists c; split; [left|done]|left; by right].
  - intros [->|H]%elem_of_cons; [left; left|].
    destruct (IH H) as [?|(c' & ? & ->)]; [left; by right|].
    right. exists c'. split; [by right|done].
Qed.
End Conditions.

Create Rewrite HintDb condition_lookup.
Create HintDb conditions discriminated.
#[export] Hint Rewrite @FindStatusCondition_first @SetStatusCondition_same
  @RemoveStatusCondition_same @setLastTransitionTime_same : condition_lookup.
#[export] Hint Resolve firstCondition_type firstCondition_elem : conditions.
