(* ===== verification/Types.v ===== *)
(** The API types of [api/v1alpha1]: the custom resources the operator reads
    and writes.  A Go [string]-based enumeration stays a string with the
    source's constants; values of third-party JSON types are their
    serialized text; [metav1.TypeMeta] is constant per kind and left out. *)
From stdpp Require Import base list option strings gmap.
From Stdlib Require Import ZArith.
From S2P Require Import Prelude GoText ApiMachinery.

Local Open Scope string_scope.
Local Open Scope list_scope.

(** Serialized [apiextensionsv1.JSON] or [JSONSchemaProps]. *)
Definition JSON := string.

(** ** Shared references and tools *)
Record SecretReference := MkSecretReference { secretRef_Name : string }.
Record LLMProviderReference := MkLLMProviderReference { llmRef_Name : string }.

Record MCPHeaderValueSource := MkMCPHeaderValueSource {
  mcpSource_Type : string;
  mcpSource_Secret : SecretReference;
}.

Record MCPHeader := MkMCPHeader {
  mcpHeader_Name : string;
  mcpHeader_ValueFrom : MCPHeaderValueSource;
}.

Record MCPServerConfig := MkMCPServerConfig {
  mcpServer_Name : string;
  mcpServer_URL : string;
  mcpServer_TimeoutSeconds : Z;
  mcpServer_Headers : list MCPHeader;
}.

Record SkillsSource := MkSkillsSource {
  skills_Image : string;
  skills_Paths : list string;
}.

Record SecretMountEnvVarConfig := MkSecretMountEnvVarConfig { envVar_Name : string }.
Record SecretMountFilePathConfig := MkSecretMountFilePathConfig { filePath_Path : string }.

Record SecretMountSpec := MkSecretMountSpec {
  mount_Type : string;
  mount_EnvVar : SecretMountEnvVarConfig;
  mount_FilePath : SecretMountFilePathConfig;
}.

Record SecretRequirement := MkSecretRequirement {
  secretReq_Name : string;
  secretReq_Description : string;
  secretReq_MountAs : SecretMountSpec;
}.

Record ToolsSpec := MkToolsSpec {
  tools_Skills : list SkillsSource;
  tools_MCPServers : list MCPServerConfig;
  tools_RequiredSecrets : list SecretRequirement;
}.

Definition ToolsSpec_IsZero (t : ToolsSpec) : bool :=
  (length (tools_Skills t) =? 0)%nat && (length (tools_MCPServers t) =? 0)%nat
  && (length (tools_RequiredSecrets t) =? 0)%nat.

(** ** Agent and LLMProvider *)
Record AgentTimeouts := MkAgentTimeouts {
  AnalysisSeconds : Z;
  ExecutionSeconds : Z;
  VerificationSeconds : Z;
  EscalationSeconds : Z;
}.

Record StepInstructions := MkStepInstructions {
  instr_SystemPrompt : string;
  instr_UserPrompt : string;
}.

Record AgentInstructions := MkAgentInstructions {
  instr_Analysis : option StepInstructions;
  instr_Execution : option StepInstructions;
  instr_Verification : option StepInstructions;
  instr_Escalation : option StepInstructions;
}.

Record AgentSpec := MkAgentSpec {
  agent_LLMProvider : LLMProviderReference;
  agent_Model : string;
  agent_Timeouts : AgentTimeouts;
  agent_MaxTurns : Z;
  agent_Instructions : option AgentInstructions;
  agent_ReasoningConfig : gmap string JSON;
}.

Record Agent := MkAgent { agent_Meta : ObjectMeta; agent_Spec : AgentSpec }.

Definition LLMProviderAnthropic : string := "Anthropic".
Definition LLMProviderGoogleCloudVertex : string := "GoogleCloudVertex".
Definition LLMProviderOpenAI : string := "OpenAI".
Definition LLMProviderAzureOpenAI : string := "AzureOpenAI".
Definition LLMProviderAWSBedrock : string := "AWSBedrock".

Record AnthropicConfig := MkAnthropicConfig {
  anthropic_CredentialsSecret : SecretReference;
  anthropic_URL : string;
}.

Record GoogleCloudVertexConfig := MkGoogleCloudVertexConfig {
  vertex_CredentialsSecret : SecretReference;
  vertex_ProjectID : string;
  vertex_Region : string;
  vertex_ModelProvider : string;
  vertex_URL : string;
}.

Record OpenAIConfig := MkOpenAIConfig {
  openai_CredentialsSecret : SecretReference;
  openai_URL : string;
}.

Record AzureOpenAIConfig := MkAzureOpenAIConfig {
  azure_CredentialsSecret : SecretReference;
  azure_Endpoint : string;
  azure_APIVersion : string;
  azure_URL : string;
}.

Record AWSBedrockConfig := MkAWSBedrockConfig {
  bedrock_CredentialsSecret : SecretReference;
  bedrock_Region : string;
  bedrock_URL : string;
}.

Record LLMProviderSpec := MkLLMProviderSpec {
  llm_Type : string;
  llm_Anthropic : AnthropicConfig;
  llm_GoogleCloudVertex : GoogleCloudVertexConfig;
  llm_OpenAI : OpenAIConfig;
  llm_AzureOpenAI : AzureOpenAIConfig;
  llm_AWSBedrock : AWSBedrockConfig;
}.

Record LLMProvider := MkLLMProvider { llm_Meta : ObjectMeta; llm_Spec : LLMProviderSpec }.

(** ** Analysis results *)
Record DiagnosisResult := MkDiagnosisResult {
  diag_Summary : string;
  diag_Confidence : string;
  diag_RootCause : string;
}.

Record ProposedAction := MkProposedAction {
  action_Command : string;
  action_Type : string;
  action_Description : string;
}.

Record RollbackPlan := MkRollbackPlan {
  rollback_Description : string;
  rollback_Command : string;
}.

Record RemediationPlan := MkRemediationPlan {
  plan_Description : string;
  plan_Actions : list ProposedAction;
  plan_Risk : string;
  plan_Reversible : string;
  plan_RollbackPlan : RollbackPlan;
}.

Record VerificationStep := MkVerificationStep {
  vstep_Name : string;
  vstep_Command : string;
  vstep_Expected : string;
  vstep_Type : string;
}.

Record VerificationPlan := MkVerificationPlan {
  vplan_Description : string;
  vplan_Steps : list VerificationStep;
}.

Record RBACRule := MkRBACRule {
  rule_Namespace : string;
  rule_APIGroups : list string;
  rule_Resources : list string;
  rule_ResourceNames : list string;
  rule_Verbs : list string;
  rule_Justification : string;
}.

Record RBACResult := MkRBACResult {
  rbac_NamespaceScoped : list RBACRule;
  rbac_ClusterScoped : list RBACRule;
}.

Record RemediationOption := MkRemediationOption {
  option_Title : string;
  option_Summary : string;
  option_Diagnosis : DiagnosisResult;
  option_RemediationPlan : RemediationPlan;
  option_Verification : VerificationPlan;
  option_RBAC : RBACResult;
  option_Components : option JSON;
}.

(** ** Status building blocks *)
Definition ActionOutcomeSucceeded : string := "Succeeded".
Definition ActionOutcomeFailed : string := "Failed".

Definition ActionOutcomeFromBool (success : bool) : string :=
  if success then ActionOutcomeSucceeded else ActionOutcomeFailed.

Record ExecutionAction := MkExecutionAction {
  exec_Type : string;
  exec_Description : string;
  exec_Outcome : string;
  exec_Output : string;
  exec_Error : string;
}.

Record VerifyCheck := MkVerifyCheck {
  check_Name : string;
  check_Source : string;
  check_Value : string;
  check_Result : string;
}.

Record SandboxInfo := MkSandboxInfo {
  sandbox_ClaimName : string;
  sandbox_Namespace : string;
}.

(** [SandboxInfo{}]. *)
Definition emptySandboxInfo : SandboxInfo := MkSandboxInfo "" "".

Record StepResultRef := MkStepResultRef {
  ref_Name : string;
  ref_Outcome : string;
}.

(** The four step statuses have the same fields. *)
Record StepStatus := MkStepStatus {
  step_Conditions : list Condition;
  step_Sandbox : SandboxInfo;
  step_Results : list StepResultRef;
}.

Record StepsStatus := MkStepsStatus {
  steps_Analysis : StepStatus;
  steps_Execution : StepStatus;
  steps_Verification : StepStatus;
  steps_Escalation : StepStatus;
}.

Record TokenUsage := MkTokenUsage {
  InputTokens : option Z;
  OutputTokens : option Z;
}.

Definition TokenUsage_IsZero (t : TokenUsage) : bool :=
  match InputTokens t, OutputTokens t with None, None => true | _, _ => false end.

(** ** AgenticRun *)
Record AnalysisOutputSpec := MkAnalysisOutputSpec {
  output_Mode : string;
  output_Schema : option JSON;
}.

Definition AnalysisOutputSpec_IsZero (a : AnalysisOutputSpec) : bool :=
  String.eqb (output_Mode a) "" &&
  match output_Schema a with None => true | Some _ => false end.

Record AgenticRunStep := MkAgenticRunStep { runStep_Agent : string }.

Definition AgenticRunStep_IsZero (s : AgenticRunStep) : bool :=
  String.eqb (runStep_Agent s) "".

Record AgenticRunSpec := MkAgenticRunSpec {
  spec_Request : string;
  spec_TargetCluster : string;
  spec_AnalysisOutput : AnalysisOutputSpec;
  spec_Tools : ToolsSpec;
  spec_Analysis : AgenticRunStep;
  spec_Execution : AgenticRunStep;
  spec_Verification : AgenticRunStep;
  spec_RevisionFeedback : string;
  spec_TerminalTTL : option Z;
}.

Record AgenticRunStatus := MkAgenticRunStatus {
  status_Conditions : list Condition;
  status_Steps : StepsStatus;
  status_TokenUsage : TokenUsage;
  status_TerminalTime : option Time;
  status_DeleteAfter : option Time;
}.

Record AgenticRun := MkAgenticRun {
  run_Meta : ObjectMeta;
  run_Spec : AgenticRunSpec;
  run_Status : AgenticRunStatus;
}.

Definition run_Name (r : AgenticRun) := meta_Name (run_Meta r).
Definition run_Namespace (r : AgenticRun) := meta_Namespace (run_Meta r).
Definition run_UID (r : AgenticRun) := meta_UID (run_Meta r).
Definition run_Generation (r : AgenticRun) := meta_Generation (run_Meta r).
Definition run_Labels (r : AgenticRun) := meta_Labels (run_Meta r).
Definition run_Annotations (r : AgenticRun) := meta_Annotations (run_Meta r).
Definition run_Finalizers (r : AgenticRun) := meta_Finalizers (run_Meta r).
Definition run_Conditions (r : AgenticRun) := status_Conditions (run_Status r).
Definition run_Steps (r : AgenticRun) := status_Steps (run_Status r).
(** [client.ObjectKeyFromObject(run)]. *)
Definition run_Key (r : AgenticRun) : NamespacedName := objectKey (run_Meta r).

(** Field updates of a run. *)
Definition withMeta (r : AgenticRun) (m : ObjectMeta) : AgenticRun :=
  MkAgenticRun m (run_Spec r) (run_Status r).
Definition withStatus (r : AgenticRun) (s : AgenticRunStatus) : AgenticRun :=
  MkAgenticRun (run_Meta r) (run_Spec r) s.
Definition withConditions (r : AgenticRun) (cs : list Condition) : AgenticRun :=
  let s := run_Status r in
  withStatus r (MkAgenticRunStatus cs (status_Steps s) (status_TokenUsage s)
                  (status_TerminalTime s) (status_DeleteAfter s)).
Definition withSteps (r : AgenticRun) (st : StepsStatus) : AgenticRun :=
  let s := run_Status r in
  withStatus r (MkAgenticRunStatus (status_Conditions s) st (status_TokenUsage s)
                  (status_TerminalTime s) (status_DeleteAfter s)).
Definition withTokenUsage (r : AgenticRun) (t : TokenUsage) : AgenticRun :=
  let s := run_Status r in
  withStatus r (MkAgenticRunStatus (status_Conditions s) (status_Steps s) t
                  (status_TerminalTime s) (status_DeleteAfter s)).
Definition withTerminal (r : AgenticRun) (terminal deleteAfter : option Time) : AgenticRun :=
  let s := run_Status r in
  withStatus r (MkAgenticRunStatus (status_Conditions s) (status_Steps s)
                  (status_TokenUsage s) terminal deleteAfter).

Lemma run_Conditions_with (r : AgenticRun) cs : run_Conditions (withConditions r cs) = cs.
Proof. done. Qed.

Definition withSandbox (st : StepStatus) (i : SandboxInfo) : StepStatus :=
  MkStepStatus (step_Conditions st) i (step_Results st).
Definition withResults (st : StepStatus) (rs : list StepResultRef) : StepStatus :=
  MkStepStatus (step_Conditions st) (step_Sandbox st) rs.

Definition withAnalysisStep (s : StepsStatus) (st : StepStatus) : StepsStatus :=
  MkStepsStatus st (steps_Execution s) (steps_Verification s) (steps_Escalation s).
Definition withExecutionStep (s : StepsStatus) (st : StepStatus) : StepsStatus :=
  MkStepsStatus (steps_Analysis s) st (steps_Verification s) (steps_Escalation s).
Definition withVerificationStep (s : StepsStatus) (st : StepStatus) : StepsStatus :=
  MkStepsStatus (steps_Analysis s) (steps_Execution s) st (steps_Escalation s).
Definition withEscalationStep (s : StepsStatus) (st : StepStatus) : StepsStatus :=
  MkStepsStatus (steps_Analysis s) (steps_Execution s) (steps_Verification s) st.

Definition AgenticRunConditionAnalyzed : string := "Analyzed".
Definition AgenticRunConditionExecuted : string := "Executed".
Definition AgenticRunConditionVerified : string := "Verified".
Definition AgenticRunConditionDenied : string := "Denied".
Definition AgenticRunConditionEscalated : string := "Escalated".
Definition AgenticRunConditionEmergencyStopped : string := "EmergencyStopped".
Definition AgenticRunConditionStopping : string := "Stopping".

Definition ReasonNoActionRequired : string := "NoActionRequired".
Definition ReasonVerificationFailed : string := "VerificationFailed".

(** ** Sandbox steps, approval and policy *)
Definition SandboxStepAnalysis : string := "Analysis".
Definition SandboxStepExecution : string := "Execution".
Definition SandboxStepVerification : string := "Verification".
Definition SandboxStepEscalation : string := "Escalation".

Definition ApprovalDecisionApproved : string := "Approved".
Definition ApprovalDecisionDenied : string := "Denied".

Definition ApprovalStageAnalysis : string := "Analysis".
Definition ApprovalStageExecution : string := "Execution".
Definition ApprovalStageVerification : string := "Verification".
Definition ApprovalStageEscalation : string := "Escalation".

Definition ApprovalModeAutomatic : string := "Automatic".
Definition ApprovalModeManual : string := "Manual".

Record ApproverInfo := MkApproverInfo {
  approver_UID : string;
  approver_Username : string;
  approver_ApprovedAt : string;
}.

Record AnalysisApproval := MkAnalysisApproval { analysisApproval_Agent : string }.
Record ExecutionApproval := MkExecutionApproval {
  executionApproval_Agent : string;
  executionApproval_Option : option Z;
}.
Record VerificationApproval := MkVerificationApproval { verificationApproval_Agent : string }.
Record EscalationApproval := MkEscalationApproval { escalationApproval_Agent : string }.

Record ApprovalStage := MkApprovalStage {
  stage_Type : string;
  stage_Decision : string;
  stage_Analysis : option AnalysisApproval;
  stage_Execution : option ExecutionApproval;
  stage_Verification : option VerificationApproval;
  stage_Escalation : option EscalationApproval;
}.

Record AgenticRunApprovalSpec := MkAgenticRunApprovalSpec {
  approval_Approver : ApproverInfo;
  approval_Stages : list ApprovalStage;
}.

Record ApprovalStageStatus := MkApprovalStageStatus {
  stageStatus_Conditions : list Condition;
  stageStatus_Name : string;
}.

Record AgenticRunApproval := MkAgenticRunApproval {
  approval_Meta : ObjectMeta;
  approval_Spec : AgenticRunApprovalSpec;
  approval_Status : list ApprovalStageStatus;
}.

Record ApprovalPolicyStage := MkApprovalPolicyStage {
  policyStage_Name : string;
  policyStage_Approval : string;
}.

Record ApprovalPolicySpec := MkApprovalPolicySpec {
  policy_Stages : list ApprovalPolicyStage;
  policy_MaxConcurrentRuns : Z;
}.

Record ApprovalPolicy := MkApprovalPolicy {
  policy_Meta : ObjectMeta;
  policy_Spec : ApprovalPolicySpec;
}.

(** [NewApprovalStage]: [None] is the panic on an unknown stage type. *)
Definition NewApprovalStage (typ decision agent : string) (opt : option Z)
    : option ApprovalStage :=
  let stage a e v s := Some (MkApprovalStage typ decision a e v s) in
  if String.eqb typ ApprovalStageAnalysis then
    stage (Some (MkAnalysisApproval agent)) None None None
  else if String.eqb typ ApprovalStageExecution then
    stage None (Some (MkExecutionApproval agent opt)) None None
  else if String.eqb typ ApprovalStageVerification then
    stage None None (Some (MkVerificationApproval agent)) None
  else if String.eqb typ ApprovalStageEscalation then
    stage None None None (Some (MkEscalationApproval agent))
  else None.

(** ** AgenticOLSConfig *)
Definition AgenticOLSConfigConditionSuspended : string := "Suspended".
Definition AgenticOLSConfigConditionSafeToResume : string := "SafeToResume".

Record AgenticOLSConfig := MkAgenticOLSConfig {
  config_Meta : ObjectMeta;
  config_Suspended : bool;             (* Spec.Suspended *)
  config_Conditions : list Condition;  (* Status.Conditions *)
}.

Definition withConfigConditions (c : AgenticOLSConfig) (cs : list Condition) : AgenticOLSConfig :=
  MkAgenticOLSConfig (config_Meta c) (config_Suspended c) cs.

(** ** Result custom resources *)
Definition ResultConditionStarted : string := "Started".
Definition ResultConditionCompleted : string := "Completed".
Definition ResultReasonStepStarted : string := "StepStarted".
Definition ResultReasonSucceeded : string := "Succeeded".
Definition ResultReasonFailed : string := "Failed".
Definition ResultReasonAgentTimeout : string := "AgentTimeout".

Definition ActionRequiredTrue : string := "True".
Definition ActionRequiredFalse : string := "False".

Definition ActionRequiredFromBool (b : bool) : string :=
  if b then ActionRequiredTrue else ActionRequiredFalse.

Record AnalysisResultStatus := MkAnalysisResultStatus {
  ar_Conditions : list Condition;
  ar_ActionRequired : string;
  ar_Diagnosis : DiagnosisResult;
  ar_Options : list RemediationOption;
  ar_Sandbox : SandboxInfo;
  ar_TokenUsage : TokenUsage;
  ar_FailureReason : string;
}.

Record ExecutionResultStatus := MkExecutionResultStatus {
  er_Conditions : list Condition;
  er_ActionsTaken : list ExecutionAction;
  er_Sandbox : SandboxInfo;
  er_TokenUsage : TokenUsage;
  er_FailureReason : string;
}.

Record VerificationResultStatus := MkVerificationResultStatus {
  vr_Conditions : list Condition;
  vr_Checks : list VerifyCheck;
  vr_Summary : string;
  vr_Sandbox : SandboxInfo;
  vr_TokenUsage : TokenUsage;
  vr_FailureReason : string;
}.

Record EscalationResultStatus := MkEscalationResultStatus {
  esr_Conditions : list Condition;
  esr_Summary : string;
  esr_Content : string;
  esr_Sandbox : SandboxInfo;
  esr_TokenUsage : TokenUsage;
  esr_FailureReason : string;
}.

(** The four result kinds carry the same metadata and spec
    ([AgenticRunName]) and differ in their status. *)
Inductive ResultStatus :=
| AnalysisResult (s : AnalysisResultStatus)
| ExecutionResult (s : ExecutionResultStatus)
| VerificationResult (s : VerificationResultStatus)
| EscalationResult (s : EscalationResultStatus).

Record ResultCR := MkResultCR {
  result_Meta : ObjectMeta;
  result_AgenticRunName : string;
  result_Status : ResultStatus;
}.

(** [GetConditions] and [SetConditions] of the four kinds. *)
Definition GetConditions (r : ResultStatus) : list Condition :=
  match r with
  | AnalysisResult s => ar_Conditions s
  | ExecutionResult s => er_Conditions s
  | VerificationResult s => vr_Conditions s
  | EscalationResult s => esr_Conditions s
  end.

Definition SetConditions (r : ResultStatus) (cs : list Condition) : ResultStatus :=
  match r with
  | AnalysisResult s =>
      AnalysisResult (MkAnalysisResultStatus cs (ar_ActionRequired s) (ar_Diagnosis s)
        (ar_Options s) (ar_Sandbox s) (ar_TokenUsage s) (ar_FailureReason s))
  | ExecutionResult s =>
      ExecutionResult (MkExecutionResultStatus cs (er_ActionsTaken s) (er_Sandbox s)
        (er_TokenUsage s) (er_FailureReason s))
  | VerificationResult s =>
      VerificationResult (MkVerificationResultStatus cs (vr_Checks s) (vr_Summary s)
        (vr_Sandbox s) (vr_TokenUsage s) (vr_FailureReason s))
  | EscalationResult s =>
      EscalationResult (MkEscalationResultStatus cs (esr_Summary s) (esr_Content s)
        (esr_Sandbox s) (esr_TokenUsage s) (esr_FailureReason s))
  end.

Definition withResultStatus (r : ResultCR) (s : ResultStatus) : ResultCR :=
  MkResultCR (result_Meta r) (result_AgenticRunName r) s.

(** Zero values, as a composite literal leaves the fields it does not name. *)
Definition zeroDiagnosis : DiagnosisResult := MkDiagnosisResult "" "" "".
Definition zeroTokenUsage : TokenUsage := MkTokenUsage None None.
Definition zeroApprover : ApproverInfo := MkApproverInfo "" "" "".
