(* ===== verification/Phase.v ===== *)
(** The display phase of a run ([DerivePhase] in
    [api/v1alpha1/agenticrun_types.go]) and the terminal phases
    ([isTerminal] in [controller/agenticrun/helpers.go]).

    [DerivePhase] is compared with the precedence table of the lifecycle
    documentation, and its dependence on the conditions is made explicit:
    it reads the first condition of six types and nothing else. *)
From stdpp Require Import base list option strings gmap.
From S2P Require Import Prelude GoText ApiMachinery Types.

Local Open Scope string_scope.
Local Open Scope list_scope.

Inductive AgenticRunPhase :=
| PhasePending | PhaseAnalyzing | PhaseProposed | PhaseExecuting | PhaseVerifying
| PhaseCompleted | PhaseFailed | PhaseDenied | PhaseEscalating | PhaseEscalated
| PhaseEmergencyStopped.

#[export] Instance AgenticRunPhase_eq_dec : EqDecision AgenticRunPhase.
Proof. solve_decision. Defined.

(** [string(phase)]. *)
Definition phaseString (p : AgenticRunPhase) : string :=
  match p with
  | PhasePending => "Pending" | PhaseAnalyzing => "Analyzing" | PhaseProposed => "Proposed"
  | PhaseExecuting => "Executing" | PhaseVerifying => "Verifying"
  | PhaseCompleted => "Completed" | PhaseFailed => "Failed" | PhaseDenied => "Denied"
  | PhaseEscalating => "Escalating" | PhaseEscalated => "Escalated"
  | PhaseEmergencyStopped => "EmergencyStopped"
  end.

(** [c != nil && c.Status == status]. *)
Definition condIs (c : option Condition) (status : ConditionStatus) : bool :=
  match c with
  | Some x => bool_decide (cond_Status x = status)
  | None => false
  end.

Definition DerivePhase (conditions : list Condition) : AgenticRunPhase :=
  let get := firstCondition conditions in
  if condIs (get AgenticRunConditionEmergencyStopped) ConditionTrue then PhaseEmergencyStopped
  else
  let escalated := get AgenticRunConditionEscalated in
  if condIs escalated ConditionTrue then PhaseEscalated
  else if condIs (get AgenticRunConditionDenied) ConditionTrue then PhaseDenied
  else
  match escalated with
  | Some e => match cond_Status e with
              | ConditionUnknown => PhaseEscalating
              | _ => PhaseFailed
              end
  | None =>
  match get AgenticRunConditionVerified with
  | Some c => match cond_Status c with
              | ConditionTrue => PhaseCompleted
              | ConditionUnknown => PhaseVerifying
              | _ => PhaseFailed
              end
  | None =>
  match get AgenticRunConditionExecuted with
  | Some c => match cond_Status c with
              | ConditionTrue => PhaseVerifying
              | ConditionUnknown => PhaseExecuting
              | _ => PhaseFailed
              end
  | None =>
  match get AgenticRunConditionAnalyzed with
  | Some c => match cond_Status c with
              | ConditionTrue => if String.eqb (cond_Reason c) ReasonNoActionRequired
                                 then PhaseCompleted else PhaseProposed
              | ConditionUnknown => PhaseAnalyzing
              | _ => PhaseFailed
              end
  | None => PhasePending
  end end end end.

Definition isTerminal (phase : AgenticRunPhase) : bool :=
  match phase with
  | PhaseCompleted | PhaseFailed | PhaseDenied | PhaseEscalated | PhaseEmergencyStopped => true
  | _ => false
  end.

(** [suspensionFailureCondition] of [handlers.go]: the condition that records
    the failure of the work a phase is doing. *)
Definition suspensionFailureCondition (phase : AgenticRunPhase) : string :=
  match phase with
  | PhasePending | PhaseAnalyzing => AgenticRunConditionAnalyzed
  | PhaseProposed | PhaseExecuting => AgenticRunConditionExecuted
  | PhaseVerifying => AgenticRunConditionVerified
  | PhaseEscalating => AgenticRunConditionEscalated
  | _ => ""
  end.

(** ** The view of the conditions the phase depends on *)
Definition statusOf (cs : list Condition) (typ : string) : option ConditionStatus :=
  cond_Status <$> firstCondition cs typ.

Definition noActionRequired (cs : list Condition) : bool :=
  match firstCondition cs AgenticRunConditionAnalyzed with
  | Some c => String.eqb (cond_Reason c) ReasonNoActionRequired
  | None => false
  end.

Definition phaseOfView (emergency escalated denied verified executed analyzed :
    option ConditionStatus) (noAction : bool) : AgenticRunPhase :=
  match emergency, escalated, denied, verified, executed, analyzed with
  | Some ConditionTrue, _, _, _, _, _ => PhaseEmergencyStopped
  | _, Some ConditionTrue, _, _, _, _ => PhaseEscalated
  | _, _, Some ConditionTrue, _, _, _ => PhaseDenied
  | _, Some ConditionUnknown, _, _, _, _ => PhaseEscalating
  | _, Some ConditionFalse, _, _, _, _ => PhaseFailed
  | _, None, _, Some ConditionTrue, _, _ => PhaseCompleted
  | _, None, _, Some ConditionUnknown, _, _ => PhaseVerifying
  | _, None, _, Some ConditionFalse, _, _ => PhaseFailed
  | _, None, _, None, Some ConditionTrue, _ => PhaseVerifying
  | _, None, _, None, Some ConditionUnknown, _ => PhaseExecuting
  | _, None, _, None, Some ConditionFalse, _ => PhaseFailed
  | _, None, _, None, None, Some ConditionTrue =>
      if noAction then PhaseCompleted else PhaseProposed
  | _, None, _, None, None, Some ConditionUnknown => PhaseAnalyzing
  | _, None, _, None, None, Some ConditionFalse => PhaseFailed
  | _, None, _, None, None, None => PhasePending
  end.

Lemma DerivePhase_view cs :
  DerivePhase cs =
  phaseOfView (statusOf cs AgenticRunConditionEmergencyStopped)
    (statusOf cs AgenticRunConditionEscalated) (statusOf cs AgenticRunConditionDenied)
    (statusOf cs AgenticRunConditionVerified) (statusOf cs AgenticRunConditionExecuted)
    (statusOf cs AgenticRunConditionAnalyzed) (noActionRequired cs).
Proof.
  unfold DerivePhase, statusOf, noActionRequired, condIs.
  destruct (firstCondition cs AgenticRunConditionEmergencyStopped) as [[? [] ? ? ? ?]|];
  destruct (firstCondition cs AgenticRunConditionEscalated) as [[? [] ? ? ? ?]|]; simpl; try done;
  destruct (firstCondition cs AgenticRunConditionDenied) as [[? [] ? ? ? ?]|]; simpl; try done;
  destruct (firstCondition cs AgenticRunConditionVerified) as [[? [] ? ? ? ?]|]; simpl; try done;
  destruct (firstCondition cs AgenticRunConditionExecuted) as [[? [] ? ? ? ?]|]; simpl; try done;
  destruct (firstCondition cs AgenticRunConditionAnalyzed) as [[? [] ? ? ? ?]|]; done.
Qed.

(** ** The precedence table of the lifecycle documentation

    A row fires when the first condition of its type has its status; the row
    for [Analyzed=True] with the no-action reason comes before the plain one. *)
Record PhaseRule := MkPhaseRule {
  rule_Type : string;
  rule_Status : ConditionStatus;
  rule_Reason : option string;
  rule_Phase : AgenticRunPhase;
}.

Definition phaseTable : list PhaseRule :=
  [ MkPhaseRule AgenticRunConditionEmergencyStopped ConditionTrue None PhaseEmergencyStopped;
    MkPhaseRule AgenticRunConditionEscalated ConditionTrue None PhaseEscalated;
    MkPhaseRule AgenticRunConditionDenied ConditionTrue None PhaseDenied;
    MkPhaseRule AgenticRunConditionEscalated ConditionUnknown None PhaseEscalating;
    MkPhaseRule AgenticRunConditionEscalated ConditionFalse None PhaseFailed;
    MkPhaseRule AgenticRunConditionVerified ConditionTrue None PhaseCompleted;
    MkPhaseRule AgenticRunConditionVerified ConditionUnknown None PhaseVerifying;
    MkPhaseRule AgenticRunConditionVerified ConditionFalse None PhaseFailed;
    MkPhaseRule AgenticRunConditionExecuted ConditionTrue None PhaseVerifying;
    MkPhaseRule AgenticRunConditionExecuted ConditionUnknown None PhaseExecuting;
    MkPhaseRule AgenticRunConditionExecuted ConditionFalse None PhaseFailed;
    MkPhaseRule AgenticRunConditionAnalyzed ConditionTrue (Some ReasonNoActionRequired)
      PhaseCompleted;
    MkPhaseRule AgenticRunConditionAnalyzed ConditionTrue None PhaseProposed;
    MkPhaseRule AgenticRunConditionAnalyzed ConditionUnknown None PhaseAnalyzing;
    MkPhaseRule AgenticRunConditionAnalyzed ConditionFalse None PhaseFailed ].

Definition ruleFires (cs : list Condition) (r : PhaseRule) : bool :=
  match firstCondition cs (rule_Type r) with
  | Some c => bool_decide (cond_Status c = rule_Status r) &&
              match rule_Reason r with
              | Some reason => String.eqb (cond_Reason c) reason
              | None => true
              end
  | None => false
  end.

Definition phaseByTable (cs : list Condition) : AgenticRunPhase :=
  from_option rule_Phase PhasePending (find (ruleFires cs) phaseTable).

(** C23: on every list of conditions [DerivePhase] gives the phase of the first
    row of the documented precedence table that fires, and [Pending] when no
    row does. *)
Theorem DerivePhase_precedence (cs : list Condition) : DerivePhase cs = phaseByTable cs.
Proof.
  rewrite DerivePhase_view.
  unfold phaseByTable, phaseTable, ruleFires, statusOf, noActionRequired. cbn [find rule_Type].
  destruct (firstCondition cs AgenticRunConditionEmergencyStopped) as [[? [] ? ? ? ?]|]; cbn;
  try done;
  destruct (firstCondition cs AgenticRunConditionEscalated) as [[? [] ? ? ? ?]|]; cbn; try done;
  destruct (firstCondition cs AgenticRunConditionDenied) as [[? [] ? ? ? ?]|]; cbn; try done;
  destruct (firstCondition cs AgenticRunConditionVerified) as [[? [] ? ? ? ?]|]; cbn; try done;
  destruct (firstCondition cs AgenticRunConditionExecuted) as [[? [] ? ? ? ?]|]; cbn; try done;
  destruct (firstCondition cs AgenticRunConditionAnalyzed) as [[? [] ? ? ? ?]|]; cbn; try done;
  by destruct (String.eqb _ _).
Qed.

(** ** Transport of views across condition updates *)
Section Views.
Context `{KL : ApiMachineryLaws}.

Lemma statusOf_set_same now cs c :
  statusOf (SetStatusCondition now cs c) (cond_Type c) = Some (cond_Status c).
Proof.
  unfold statusOf. destruct (SetStatusCondition_fields now cs c) as [t ->]. done.
Qed.

Lemma statusOf_set_other now cs c typ :
  typ ≠ cond_Type c → statusOf (SetStatusCondition now cs c) typ = statusOf cs typ.
Proof. intros. unfold statusOf. by rewrite SetStatusCondition_other. Qed.

Lemma statusOf_remove_same cs typ : statusOf (RemoveStatusCondition cs typ) typ = None.
Proof. unfold statusOf. by rewrite RemoveStatusCondition_same. Qed.

Lemma statusOf_remove_other cs typ typ' :
  typ' ≠ typ → statusOf (RemoveStatusCondition cs typ) typ' = statusOf cs typ'.
Proof. intros. unfold statusOf. by rewrite RemoveStatusCondition_other. Qed.

Lemma statusOf_setTime cs typ t typ' :
  statusOf (setLastTransitionTime cs typ t) typ' = statusOf cs typ'.
Proof.
  unfold statusOf. destruct (decide (typ' = typ)) as [->|?].
  - rewrite setLastTransitionTime_same. by destruct (firstCondition cs typ).
  - by rewrite setLastTransitionTime_other.
Qed.

Lemma noAction_set_other now cs c :
  AgenticRunConditionAnalyzed ≠ cond_Type c →
  noActionRequired (SetStatusCondition now cs c) = noActionRequired cs.
Proof. intros. unfold noActionRequired. by rewrite SetStatusCondition_other. Qed.

Lemma noAction_set_same now cs c :
  cond_Type c = AgenticRunConditionAnalyzed →
  noActionRequired (SetStatusCondition now cs c)
  = String.eqb (cond_Reason c) ReasonNoActionRequired.
Proof.
  intros Ht. unfold noActionRequired. rewrite <- Ht.
  destruct (SetStatusCondition_fields now cs c) as [t ->]. done.
Qed.

Lemma noAction_remove_other cs typ :
  AgenticRunConditionAnalyzed ≠ typ →
  noActionRequired (RemoveStatusCondition cs typ) = noActionRequired cs.
Proof. intros. unfold noActionRequired. by rewrite RemoveStatusCondition_other. Qed.

Lemma noAction_setTime cs typ t :
  noActionRequired (setLastTransitionTime cs typ t) = noActionRequired cs.
Proof.
  unfold noActionRequired. destruct (decide (AgenticRunConditionAnalyzed = typ)) as [<-|?].
  - rewrite setLastTransitionTime_same. by destruct (firstCondition cs _).
  - by rewrite setLastTransitionTime_other.
Qed.

(** Setting a condition whose type is none of the six leaves the phase. *)
Lemma DerivePhase_set_transparent now cs c :
  cond_Type c ∉ [AgenticRunConditionEmergencyStopped; AgenticRunConditionEscalated;
                 AgenticRunConditionDenied; AgenticRunConditionVerified;
                 AgenticRunConditionExecuted; AgenticRunConditionAnalyzed] →
  DerivePhase (SetStatusCondition now cs c) = DerivePhase cs.
Proof.
  intros Hn. rewrite !DerivePhase_view.
  rewrite !statusOf_set_other, noAction_set_other; [done|..];
    intros Heq; apply Hn; rewrite <- Heq; decide_closed.
Qed.

(** The stop marker does not take part in the phase: recording
    [Stopping], with any status, reason and transition time, leaves the
    phase of the run as it was. *)
Theorem Stopping_phase_transparent now at_ cs status reason message generation :
  DerivePhase (setLastTransitionTime
    (SetStatusCondition now cs
       (NewCondition AgenticRunConditionStopping status reason message generation))
    AgenticRunConditionStopping at_)
  = DerivePhase cs.
Proof.
  rewrite DerivePhase_view, !statusOf_setTime, noAction_setTime, <- DerivePhase_view.
  apply DerivePhase_set_transparent. decide_closed.
Qed.

(** A terminal phase has a decisive condition. *)
Lemma DerivePhase_failed_cause cs :
  DerivePhase cs = PhaseFailed →
  ∃ typ, typ ∈ [AgenticRunConditionEscalated; AgenticRunConditionVerified;
                AgenticRunConditionExecuted; AgenticRunConditionAnalyzed] ∧
         statusOf cs typ = Some ConditionFalse.
Proof.
  rewrite DerivePhase_view.
  destruct (statusOf cs AgenticRunConditionEmergencyStopped) as [[]|] eqn:?;
  destruct (statusOf cs AgenticRunConditionEscalated) as [[]|] eqn:?;
  destruct (statusOf cs AgenticRunConditionDenied) as [[]|] eqn:?;
  destruct (statusOf cs AgenticRunConditionVerified) as [[]|] eqn:?;
  destruct (statusOf cs AgenticRunConditionExecuted) as [[]|] eqn:?;
  destruct (statusOf cs AgenticRunConditionAnalyzed) as [[]|] eqn:?; simpl;
  try case_match; try done; intros _;
    first [ exists AgenticRunConditionEscalated; split; [decide_closed|assumption]
          | exists AgenticRunConditionVerified; split; [decide_closed|assumption]
          | exists AgenticRunConditionExecuted; split; [decide_closed|assumption]
          | exists AgenticRunConditionAnalyzed; split; [decide_closed|assumption] ].
Qed.
End Views.

(** Case analysis on the statuses the phase of [cs] depends on, in the order of
    precedence; branches decided early are closed early. *)
Ltac phase_cases cs :=
  destruct (statusOf cs AgenticRunConditionEmergencyStopped) as [[]|]; simpl in *; try done;
  destruct (statusOf cs AgenticRunConditionEscalated) as [[]|]; simpl in *; try done;
  destruct (statusOf cs AgenticRunConditionDenied) as [[]|]; simpl in *; try done;
  destruct (statusOf cs AgenticRunConditionVerified) as [[]|]; simpl in *; try done;
  destruct (statusOf cs AgenticRunConditionExecuted) as [[]|]; simpl in *; try done;
  destruct (statusOf cs AgenticRunConditionAnalyzed) as [[]|]; simpl in *; try done.

(** Computes the statuses of a list of conditions built by the operations. *)
Ltac status_simpl :=
  rewrite ?statusOf_setTime, ?noAction_setTime;
  repeat first
    [ rewrite statusOf_set_same
    | rewrite statusOf_set_other by done
    | rewrite statusOf_remove_same
    | rewrite statusOf_remove_other by done
    | rewrite noAction_set_other by done
    | rewrite noAction_set_same by done
    | rewrite noAction_remove_other by done ].

(** Solves a goal on the phase of conditions built from [cs] by the operations. *)
Ltac phase_solve cs :=
  rewrite ?run_Conditions_with, DerivePhase_view; status_simpl; phase_cases cs.

Section Failing.
Context `{KL : ApiMachineryLaws}.

(** Failing the work of the current phase makes the run [Failed]. *)
Lemma DerivePhase_fail now cs reason message generation :
  isTerminal (DerivePhase cs) = false →
  DerivePhase (SetStatusCondition now cs
    (NewCondition (suspensionFailureCondition (DerivePhase cs)) ConditionFalse
       reason message generation)) = PhaseFailed.
Proof.
  rewrite (DerivePhase_view (SetStatusCondition _ _ _)). intros Hnt.
  destruct (DerivePhase cs) eqn:Hp; try done; rewrite DerivePhase_view in Hp;
    cbn [suspensionFailureCondition]; status_simpl;
    phase_cases cs; by case_match.
Qed.

(** Failing a step never takes a run out of the terminal phases. *)
Lemma DerivePhase_fail_terminal now cs typ reason message generation :
  typ ∈ [AgenticRunConditionAnalyzed; AgenticRunConditionExecuted;
         AgenticRunConditionVerified; AgenticRunConditionEscalated] →
  isTerminal (DerivePhase cs) = true →
  isTerminal (DerivePhase (SetStatusCondition now cs
    (NewCondition typ ConditionFalse reason message generation))) = true.
Proof.
  intros Ht. rewrite (DerivePhase_view cs), (DerivePhase_view (SetStatusCondition _ _ _)).
  repeat (apply elem_of_cons in Ht as [->|Ht]); try (by apply elem_of_nil in Ht);
    status_simpl; phase_cases cs; by repeat case_match.
Qed.
End Failing.

(** ** How far a run has come

    The rank of each step's condition: not begun, under way, succeeded, failed; and
    whether the run was denied or emergency-stopped. *)
Definition markRank (s : option ConditionStatus) : nat :=
  match s with
  | None => 0
  | Some ConditionUnknown => 1
  | Some ConditionTrue => 2
  | Some ConditionFalse => 3
  end.
Definition markFlag (s : option ConditionStatus) : nat :=
  match s with Some ConditionTrue => 1 | _ => 0 end.

Definition marksOf (cs : list Condition) : list nat :=
  [ markRank (statusOf cs AgenticRunConditionAnalyzed);
    markRank (statusOf cs AgenticRunConditionExecuted);
    markRank (statusOf cs AgenticRunConditionVerified);
    markRank (statusOf cs AgenticRunConditionEscalated);
    markFlag (statusOf cs AgenticRunConditionDenied);
    markFlag (statusOf cs AgenticRunConditionEmergencyStopped) ].

(** No mark goes back, and the phase only changes with a mark. *)
Definition forward (cs cs' : list Condition) : Prop :=
  Forall2 le (marksOf cs) (marksOf cs') ∧
  (marksOf cs' = marksOf cs → DerivePhase cs' = DerivePhase cs).

Lemma markRank_inj s s' : markRank s = markRank s' → s = s'.
Proof. by destruct s as [[]|], s' as [[]|]. Qed.

Lemma phaseOfView_flags em em' es de de' ve ex an na :
  markFlag em = markFlag em' → markFlag de = markFlag de' →
  phaseOfView em es de ve ex an na = phaseOfView em' es de' ve ex an na.
Proof.
  destruct em as [[]|], em' as [[]|]; try done; destruct es as [[]|]; try done;
    destruct de as [[]|], de' as [[]|]; done.
Qed.

Lemma phaseOfView_noAction em es de ve ex an na na' :
  (an = Some ConditionTrue → na = na') →
  phaseOfView em es de ve ex an na = phaseOfView em es de ve ex an na'.
Proof. intros H. destruct an as [[]|]; [by rewrite H| | |]; repeat case_match; done. Qed.

(** The marks determine the phase, but for the reason of a successful analysis. *)
Lemma marks_phase cs cs' :
  marksOf cs' = marksOf cs →
  (statusOf cs AgenticRunConditionAnalyzed = Some ConditionTrue →
   noActionRequired cs' = noActionRequired cs) →
  DerivePhase cs' = DerivePhase cs.
Proof.
  unfold marksOf. intros [= Ha%markRank_inj He%markRank_inj Hv%markRank_inj Hs%markRank_inj Hd Hm] Hn.
  rewrite !DerivePhase_view, Ha, He, Hv, Hs, (phaseOfView_flags _ _ _ _ _ _ _ _ _ Hm Hd).
  by apply phaseOfView_noAction.
Qed.

Lemma forward_refl cs : forward cs cs.
Proof. split; [unfold marksOf; by repeat constructor|done]. Qed.

Lemma marks_antisym (a b c : list nat) :
  Forall2 le a b → Forall2 le b c → c = a → b = a.
Proof.
  intros H. revert c. induction H as [|x y a b Hxy _ IH]; intros c Hc; [done|].
  inversion Hc; subst. intros [= -> ->]. f_equal; [lia|by eapply IH].
Qed.

Lemma forward_trans cs1 cs2 cs3 : forward cs1 cs2 → forward cs2 cs3 → forward cs1 cs3.
Proof.
  intros [H1 P1] [H2 P2]. split.
  - etrans; eassumption.
  - intros He. pose proof (marks_antisym _ _ _ H1 H2 He) as H12.
    rewrite P2 by congruence. by apply P1.
Qed.

Section Forward.
Context `{KL : ApiMachineryLaws}.

(** Compares marks one by one. *)
Ltac marks_le tac :=
  unfold marksOf; status_simpl;
  repeat (apply Forall2_cons; split); first [by apply Forall2_nil | lia | tac].

(** Each way the controllers set a condition goes forward. *)
Lemma forward_fail now cs typ reason msg gen :
  typ ∈ [AgenticRunConditionAnalyzed; AgenticRunConditionExecuted;
         AgenticRunConditionVerified; AgenticRunConditionEscalated] →
  forward cs (SetStatusCondition now cs (NewCondition typ ConditionFalse reason msg gen)).
Proof.
  assert (Hr : ∀ s, (markRank s ≤ 3)%nat) by (intros [[]|]; simpl; lia).
  rewrite !elem_of_cons. intros [->|[->|[->|[->|?%elem_of_nil]]]]; [..|done];
    split; try (marks_le ltac:(apply Hr));
    intros Hm; apply marks_phase; try exact Hm; intros Ha; try (by status_simpl).
  exfalso. revert Hm. unfold marksOf. status_simpl. by rewrite Ha.
Qed.

Lemma forward_undecided now cs typ st reason msg gen :
  typ ∈ [AgenticRunConditionAnalyzed; AgenticRunConditionExecuted;
         AgenticRunConditionVerified; AgenticRunConditionEscalated] →
  statusOf cs typ ∈ [None; Some ConditionUnknown] →
  forward cs (SetStatusCondition now cs (NewCondition typ st reason msg gen)).
Proof.
  intros Ht Hs.
  assert (Hr : (markRank (statusOf cs typ) ≤ markRank (Some st))%nat).
  { rewrite !elem_of_cons in Hs. destruct Hs as [->|[->|?%elem_of_nil]]; [..|done];
      destruct st; simpl; lia. }
  assert (Hu : statusOf cs typ ≠ Some ConditionTrue).
  { intros He. rewrite He in Hs. revert Hs. decide_closed. }
  rewrite !elem_of_cons in Ht. destruct Ht as [->|[->|[->|[->|?%elem_of_nil]]]]; [..|done];
    split; try (marks_le ltac:(exact Hr));
    intros Hm; apply marks_phase; try exact Hm; intros Ha; first [by status_simpl|done].
Qed.

Lemma forward_flag now cs typ reason msg gen :
  typ ∈ [AgenticRunConditionDenied; AgenticRunConditionEmergencyStopped] →
  forward cs (SetStatusCondition now cs (NewCondition typ ConditionTrue reason msg gen)).
Proof.
  assert (Hr : ∀ s, (markFlag s ≤ 1)%nat) by (intros [[]|]; simpl; lia).
  rewrite !elem_of_cons. intros [->|[->|?%elem_of_nil]]; [..|done];
    (split; [marks_le ltac:(apply Hr)|];
     intros Hm; apply marks_phase; [exact Hm|]; intros Ha; by status_simpl).
Qed.

(** A condition the phase does not depend on. *)
Lemma forward_other now cs typ st reason msg gen :
  typ ∉ [AgenticRunConditionEmergencyStopped; AgenticRunConditionEscalated;
         AgenticRunConditionDenied; AgenticRunConditionVerified;
         AgenticRunConditionExecuted; AgenticRunConditionAnalyzed] →
  forward cs (SetStatusCondition now cs (NewCondition typ st reason msg gen)).
Proof.
  intros Ht. split; [|intros _; by apply DerivePhase_set_transparent].
  unfold marksOf. rewrite !statusOf_set_other; [by repeat constructor|..];
    simpl; intros <-; apply Ht; decide_closed.
Qed.

Lemma forward_stopping now cs st reason msg gen :
  forward cs (SetStatusCondition now cs
    (NewCondition AgenticRunConditionStopping st reason msg gen)).
Proof. apply forward_other. decide_closed. Qed.

Lemma forward_setTime cs typ t : forward cs (setLastTransitionTime cs typ t).
Proof.
  split; [marks_le done|]. intros Hm. apply marks_phase; [done|]. intros _. apply noAction_setTime.
Qed.

(** Nothing is forgotten when a condition that is not there is removed. *)
Lemma forward_remove_verified cs :
  statusOf cs AgenticRunConditionVerified = None →
  forward cs (RemoveStatusCondition cs AgenticRunConditionVerified).
Proof.
  intros Hv. split; [marks_le ltac:(by rewrite Hv)|].
  intros Hm. apply marks_phase; [done|]. intros _. by status_simpl.
Qed.
End Forward.
