(* ===== verification/Objects.v ===== *)
(** The cluster objects behind a sandbox: RBAC objects, accounts, secrets,
    configuration maps, pods and the sandbox resources, with what the operator
    reads and writes of them.  The fields of a pod specification the operator
    never looks at are carried along unchanged, as their serialized text. *)
From stdpp Require Import base list option strings gmap.
From Stdlib Require Import ZArith.
From S2P Require Import Prelude GoText ApiMachinery Types.

Local Open Scope string_scope.
Local Open Scope list_scope.

(** ** [k8s.io/api/rbac/v1] *)
Record PolicyRule := MkPolicyRule {
  policy_APIGroups : list string;
  policy_Resources : list string;
  policy_ResourceNames : list string;
  policy_Verbs : list string;
}.

Record RoleRef := MkRoleRef {
  roleRef_APIGroup : string;
  roleRef_Kind : string;
  roleRef_Name : string;
}.

Record Subject := MkSubject {
  subject_Kind : string;
  subject_APIGroup : string;
  subject_Name : string;
  subject_Namespace : string;
}.

(** The specification of a binding: its role and its subjects. *)
Record Binding := MkBinding {
  binding_RoleRef : RoleRef;
  binding_Subjects : list Subject;
}.

#[export] Instance PolicyRule_eq_dec : EqDecision PolicyRule.
Proof. solve_decision. Defined.
#[export] Instance RoleRef_eq_dec : EqDecision RoleRef.
Proof. solve_decision. Defined.
#[export] Instance Subject_eq_dec : EqDecision Subject.
Proof. solve_decision. Defined.
#[export] Instance Binding_eq_dec : EqDecision Binding.
Proof. solve_decision. Defined.

(** [rbacv1.GroupName] and [rbacv1.ServiceAccountKind]. *)
Definition rbacGroupName : string := "rbac.authorization.k8s.io".
Definition ServiceAccountKind : string := "ServiceAccount".

(** ** [k8s.io/api/core/v1]: the pod specification *)
Inductive EnvVarSource :=
| SecretKeyRef (name key : string) (isOptional : option bool)
| OtherEnvVarSource (raw : JSON).

Record EnvVar := MkEnvVar {
  env_Name : string;
  env_Value : string;
  env_ValueFrom : option EnvVarSource;
}.

Inductive EnvFromSource :=
| EnvFromSecret (name : string)
| OtherEnvFrom (raw : JSON).

Inductive VolumeSource :=
| SecretVolume (secretName : string)
| ConfigMapVolume (name : string)
| ImageVolume (reference pullPolicy : string)
| OtherVolume (raw : JSON).

Record Volume := MkVolume { volume_Name : string; volume_Source : VolumeSource }.

Record VolumeMount := MkVolumeMount {
  mnt_Name : string;
  mnt_MountPath : string;
  mnt_SubPath : string;
  mnt_ReadOnly : bool;
  mnt_Rest : JSON;
}.

Record Container := MkContainer {
  ctr_Env : list EnvVar;
  ctr_EnvFrom : list EnvFromSource;
  ctr_VolumeMounts : list VolumeMount;
  ctr_TerminationMessagePolicy : string;
  ctr_Rest : JSON;
}.

Record PodSpec := MkPodSpec {
  pspec_Containers : list Container;
  pspec_Volumes : list Volume;
  pspec_ServiceAccountName : string;
  pspec_AutomountServiceAccountToken : option bool;
  pspec_RestartPolicy : string;
  pspec_ActiveDeadlineSeconds : option Z;
  pspec_Rest : JSON;
}.

(** A pod as the sandbox manager creates and reads it. *)
Record PodObject := MkPodObject {
  podobj_Spec : PodSpec;
  podobj_Phase : string;   (* Status.Phase *)
}.

(** ** The sandbox resources ([agents.x-k8s.io])

    They are unstructured in the code; the fields are those it writes or
    reads.  The sandbox name in the status of a claim is what
    [unstructured.NestedString] finds there: nothing, a string, or an error
    when the field has another type. *)
Record SandboxTemplateSpec := MkSandboxTemplateSpec {
  tmpl_NetworkPolicyManagement : string;
  tmpl_PodLabels : gmap string string;
  tmpl_PodAnnotations : gmap string string;
  tmpl_PodSpec : JSON;
}.

Record SandboxWarmPoolSpec := MkSandboxWarmPoolSpec {
  pool_Replicas : Z;
  pool_TemplateRef : string;
}.

Record SandboxClaimSpec := MkSandboxClaimSpec {
  claim_WarmPoolRef : string;
  claim_ShutdownPolicy : string;
  claim_StatusSandboxName : res (option string);
}.

(** ** Objects by kind *)
Inductive Kind :=
| KRole | KRoleBinding | KClusterRole | KClusterRoleBinding
| KServiceAccount | KSecret | KConfigMap | KPod
| KSandboxTemplate | KSandboxWarmPool | KSandboxClaim | KSandbox
| KCustomResourceDefinition.

#[export] Instance Kind_eq_dec : EqDecision Kind.
Proof. solve_decision. Defined.

(** What an object of a kind carries beside its metadata. *)
Definition content (k : Kind) : Type :=
  match k with
  | KRole | KClusterRole => list PolicyRule
  | KRoleBinding | KClusterRoleBinding => Binding
  | KSecret | KConfigMap => gmap string string
  | KPod => PodObject
  | KSandboxTemplate => SandboxTemplateSpec
  | KSandboxWarmPool => SandboxWarmPoolSpec
  | KSandboxClaim => SandboxClaimSpec
  | KServiceAccount | KSandbox | KCustomResourceDefinition => unit
  end.

Record Object (k : Kind) := MkObject { obj_Meta : ObjectMeta; obj_Content : content k }.
Arguments MkObject {k} obj_Meta obj_Content.
Arguments obj_Meta {k} o.
Arguments obj_Content {k} o.

Definition obj_Name {k} (o : Object k) : string := meta_Name (obj_Meta o).
Definition obj_Namespace {k} (o : Object k) : string := meta_Namespace (obj_Meta o).
Definition obj_UID {k} (o : Object k) : string := meta_UID (obj_Meta o).
Definition obj_Labels {k} (o : Object k) : gmap string string := meta_Labels (obj_Meta o).
(** [client.ObjectKeyFromObject(o)]. *)
Definition obj_Key {k} (o : Object k) : NamespacedName := objectKey (obj_Meta o).

(** An object literal with a name, a namespace and labels. *)
Definition newMeta (name namespace : string) (labels : gmap string string) : ObjectMeta :=
  MkObjectMeta name namespace "" "" 0%Z 0%Z None labels ∅ [] [].

Definition withOwners (m : ObjectMeta) (owners : list OwnerReference) : ObjectMeta :=
  MkObjectMeta (meta_Name m) (meta_Namespace m) (meta_UID m) (meta_ResourceVersion m)
    (meta_Generation m) (meta_CreationTimestamp m) (meta_DeletionTimestamp m)
    (meta_Labels m) (meta_Annotations m) owners (meta_Finalizers m).

Definition withObjMeta {k} (o : Object k) (m : ObjectMeta) : Object k :=
  MkObject m (obj_Content o).

(** ** Access to a cluster *)

(** A [rest.Config]: the fields the operator reads or sets. *)
Record RestConfig := MkRestConfig {
  rc_Host : string;
  rc_CAData : string;
  rc_ServerName : string;
  rc_Insecure : bool;
  rc_ExecProvider : bool;       (* not nil *)
  rc_AuthProvider : bool;       (* not nil *)
  rc_BearerTokenFile : string;
  rc_CAFile : string;
  rc_CertFile : string;
  rc_KeyFile : string;
  rc_Timeout : Duration;
  rc_Rest : JSON;
}.

(** The clients: of the hub, the uncached reader of the hub, and the client
    [NewClientFromConfig] makes for a spoke. *)
Inductive Client :=
| HubClient
| HubReader
| SpokeClient (config : RestConfig).

(** [SpokeAccess] of [spoke.go]. *)
Record SpokeAccess := MkSpokeAccess {
  sa_Client : Client;
  sa_Config : RestConfig;
  sa_Namespace : string;
  sa_ProxyURL : string;
}.

(** List options: all objects, [client.HasLabels], [client.MatchingLabels]. *)
Inductive Selector :=
| Everything
| HasLabels (keys : list string)
| MatchingLabels (labels : gmap string string).

(** The options of a deletion: [GracePeriodSeconds(0)], a UID precondition,
    [PropagationPolicy(Orphan)]. *)
Record DeleteOptions := MkDeleteOptions {
  del_ZeroGrace : bool;
  del_UID : option string;
  del_Orphan : bool;
}.

Definition plainDelete : DeleteOptions := MkDeleteOptions false None false.
