(* ===== verification/Effects.v ===== *)
(** The calls the controllers make, and the values those calls exchange.

    [eff] lists every call of the run controller and of the global suspension
    controller that leaves the modelled code: API reads and writes, the agent
    caller interface ([agent.go]), the sandbox manager, the audit logger, the
    configuration cache, the clock.  [answer] is the type of what comes back.
    Nothing is assumed of the answers: a handler's theorem holds whatever the
    API server, another controller or the clock does between two calls. *)
From stdpp Require Import base list option strings gmap.
From Stdlib Require Import ZArith.
From S2P Require Import Prelude GoText ApiMachinery Types Objects.

Local Open Scope string_scope.
Local Open Scope list_scope.

(** ** Agent outputs ([agent.go]) *)
Record AnalysisOutput := MkAnalysisOutput {
  ao_Success : bool;
  ao_Summary : string;
  ao_ActionRequired : option bool;
  ao_Options : list RemediationOption;
  ao_Diagnosis : option DiagnosisResult;
}.

(** [nil] means that action is required. *)
Definition IsActionRequired (a : AnalysisOutput) : bool :=
  match ao_ActionRequired a with None => true | Some b => b end.

Record ExecutionOutput := MkExecutionOutput {
  eo_Success : bool;
  eo_Summary : string;
  eo_ActionsTaken : list ExecutionAction;
}.

Record VerificationOutput := MkVerificationOutput {
  vo_Success : bool;
  vo_Checks : list VerifyCheck;
  vo_Summary : string;
}.

Record EscalationOutput := MkEscalationOutput {
  eso_Success : bool;
  eso_Summary : string;
  eso_Content : string;
}.

(** ** Resolved workflow ([resolve.go]) *)
Record resolvedStep := MkResolvedStep {
  rs_Agent : Agent;
  rs_LLM : LLMProvider;
  rs_Tools : ToolsSpec;
}.

Record resolvedWorkflow := MkResolvedWorkflow {
  rw_Analysis : resolvedStep;
  rw_Execution : option resolvedStep;      (* nil = skip execution *)
  rw_Verification : option resolvedStep;   (* nil = skip verification *)
}.

(** ** Suspension ([suspension_cleanup.go]) *)
Record SuspensionCleanup := MkSuspensionCleanup {
  sc_Pending : list string;
  sc_Failures : list string;
  sc_Unverified : list string;
}.

(** [SuspensionCleanup.Confirmed]. *)
Definition Confirmed (c : SuspensionCleanup) : bool :=
  (length (sc_Pending c) =? 0)%nat && (length (sc_Failures c) =? 0)%nat
  && (length (sc_Unverified c) =? 0)%nat.

Record SuspensionActivation := MkSuspensionActivation {
  act_UID : string;
  act_Generation : Z;
  act_Start : Time;
}.

(** ** Pods *)
Record ContainerStateTerminated := MkTerminated { term_ExitCode : Z; term_Message : string }.

Record ContainerStatus := MkContainerStatus {
  cs_Name : string;
  cs_RunningStartedAt : option Time;                  (* State.Running *)
  cs_Terminated : option ContainerStateTerminated;    (* State.Terminated *)
}.

Record Pod := MkPod {
  pod_Meta : ObjectMeta;
  pod_Phase : string;
  pod_ContainerStatuses : list ContainerStatus;
}.

Definition PodPending : string := "Pending".
Definition PodRunning : string := "Running".
Definition PodSucceeded : string := "Succeeded".
Definition PodFailed : string := "Failed".
Definition PodUnknown : string := "Unknown".

(** ** Operator configuration ([pkg/configuration/config.go]) *)
Record Config := MkConfig {
  cfg_SandboxMode : string;
  cfg_SandboxPodSpec : option PodSpec;
  cfg_TLSProfile : string;
  cfg_TLSMinVersion : string;
  cfg_TLSCipherSuites : string;
  cfg_AdditionalCAConfigMap : string;
  cfg_OTELCollectorEndpoint : string;
  cfg_OTELAdminEndpoint : string;
  cfg_OTELCASecretName : string;
  cfg_OTELCredentialsSecret : string;
  cfg_MCPEndpoint : string;
  cfg_MCPCASecretName : string;
  cfg_RHOKPEndpoint : string;
  cfg_RHOKPCASecretName : string;
  cfg_ToolOutputInspectionEnabled : bool;
  cfg_TerminalTTLDays : Z;
}.

(** ** Controller results *)
Record Result := MkResult { Requeue : bool; RequeueAfter : Duration }.
Definition emptyResult : Result := MkResult false 0%Z.
Definition requeueNow : Result := MkResult true 0%Z.
Definition requeueAfter (d : Duration) : Result := MkResult false d.

(** What a handler returns: [(ctrl.Result, error)]. *)
Definition outcome : Type := Result * option error.
Definition ok (r : Result) : outcome := (r, None).
Definition fail (e : error) : outcome := (emptyResult, Some e).

(** The calls of the audit logger; [result] is the CR passed to [CompleteStep]. *)
Inductive AuditCall :=
| EmitApprovalSpan (run : AgenticRun) (approval : option AgenticRunApproval) (title : string)
| EmitTerminalSpan (run : AgenticRun) (phase reason : string)
| CompleteStep (run : AgenticRun) (step : string) (result : option ResultCR)
| BeginStep (run : AgenticRun) (step : string)
| EmitAgenticRunReceived (run : AgenticRun)
| SpanEvent (name : string)
| AuditCleanup (run : AgenticRun)
| AuditCleanupDeleted (key : NamespacedName).

(** The kinds of unstructured sandbox objects. *)
Inductive SandboxKind := KindSandbox | KindSandboxClaim.

Inductive eff : Type :=
(* uncached API reader *)
| ApiGetRun (key : NamespacedName)
| ApiListRuns
| ApiGetConfig (name : string)
(* client: run *)
| PatchRun (base obj : AgenticRun) (optimisticLock : bool)
| StatusPatchRun (base obj : AgenticRun)
| DeleteRun (obj : AgenticRun)
| ListRuns
| ListRunsWithLabel (key value : string)
(* client: approval and workflow resources *)
| GetPolicy (name : string)
| GetApproval (key : NamespacedName)
| CreateApproval (obj : AgenticRunApproval)
| GetAgent (name : string)
| GetLLMProvider (name : string)
| GetSecret (key : NamespacedName)
(* client: result CRs *)
| GetResult (kind : string) (key : NamespacedName)
| CreateResult (obj : ResultCR)
| StatusPatchResult (base obj : ResultCR)
(* client: pods and sandboxes *)
| ListPods (namespace : string) (hasLabels : list string)
| GetSandboxMeta (kind : SandboxKind) (key : NamespacedName)
| ListClaims (namespace : string)
(* client: global configuration *)
| StatusPatchConfig (base obj : AgenticOLSConfig)
| RecordEvent (obj : AgenticOLSConfig) (type reason message : string)
(* agent caller *)
| Analyze (run : AgenticRun) (step : resolvedStep)
| Execute (run : AgenticRun) (step : resolvedStep) (opt : option RemediationOption)
| Verify (run : AgenticRun) (step : resolvedStep) (opt : option RemediationOption)
    (exec : option ExecutionOutput)
| Escalate (run : AgenticRun) (step : resolvedStep)
| ReleaseSandboxes (run : AgenticRun) (zeroGrace : bool)
| ReleaseSandbox (run : AgenticRun) (step : string)
(* sandbox manager and spoke access *)
| CleanupSuspension (uid : string) (activation : option SuspensionActivation)
| SpokeAccessForRun (run : AgenticRun)
| CleanupStepRBAC (spoke : option SpokeAccess) (run : AgenticRun) (step : string)
(* cluster objects, through a client *)
| ObjGet (c : Client) (k : Kind) (key : NamespacedName)
| ObjList (c : Client) (k : Kind) (namespace : string) (selector : Selector)
| ObjCreate (c : Client) (k : Kind) (obj : Object k)
| ObjUpdate (c : Client) (k : Kind) (obj : Object k)
| ObjPatch (c : Client) (k : Kind) (base obj : Object k)
| ObjLabel (c : Client) (k : Kind) (key : NamespacedName) (uid resourceVersion : string)
    (labels : gmap string string)
| ObjDelete (c : Client) (k : Kind) (key : NamespacedName) (opts : DeleteOptions)
| CreateToken (config : RestConfig) (namespace name : string) (expirationSeconds : Z)
(* the process-wide cache of reader bindings *)
| LoadReaderBindings
| StoreReaderBindings (names : list string)
(* log store, audit, configuration, clock, contexts, the completion mutex *)
| Traceparent   (* the span in the context, as [traceparentFromContext] formats it *)
| DeleteLogs (traceID : string)
| Audit (c : AuditCall)
| ConfigGet
| Now
| ContextWithTimeout (d : Duration)
| ContextErr         (* of the innermost context *)
| ParentContextErr   (* of the context it was derived from *)
| Sleep (d : Duration)   (* select on ctx.Done() and time.After(d) *)
| Lock
| Unlock.

Definition answer (e : eff) : Type :=
  match e with
  | ApiGetRun _ => res AgenticRun
  | ApiListRuns => res (list AgenticRun)
  | ApiGetConfig _ => res AgenticOLSConfig
  | PatchRun _ _ _ | StatusPatchRun _ _ => res AgenticRun
  | DeleteRun _ => option error
  | ListRuns | ListRunsWithLabel _ _ => res (list AgenticRun)
  | GetPolicy _ => res ApprovalPolicy
  | GetApproval _ | CreateApproval _ => res AgenticRunApproval
  | GetAgent _ => res Agent
  | GetLLMProvider _ => res LLMProvider
  | GetSecret _ => res (gmap string string)
  | GetResult _ _ | CreateResult _ | StatusPatchResult _ _ => res ResultCR
  | ListPods _ _ => res (list Pod)
  | GetSandboxMeta _ _ => res ObjectMeta
  | ListClaims _ => res (list ObjectMeta)
  | StatusPatchConfig _ _ => res AgenticOLSConfig
  | RecordEvent _ _ _ _ => unit
  | Analyze _ _ | Execute _ _ _ | Verify _ _ _ _ | Escalate _ _ => option error
  | ReleaseSandboxes _ _ | ReleaseSandbox _ _ => option error
  | CleanupSuspension _ _ => SuspensionCleanup * option error
  | SpokeAccessForRun _ => option SpokeAccess * option error
  | CleanupStepRBAC _ _ _ => option error
  | ObjGet _ k _ | ObjLabel _ k _ _ _ _ => res (Object k)
  | ObjCreate _ k _ | ObjUpdate _ k _ | ObjPatch _ k _ _ => res (Object k)
  | ObjList _ k _ _ => res (list (Object k))
  | ObjDelete _ _ _ _ => option error
  | CreateToken _ _ _ _ => res string
  | LoadReaderBindings => list string
  | StoreReaderBindings _ => unit
  | Traceparent => string
  | DeleteLogs _ => option error
  | Audit _ => unit
  | ConfigGet => option Config
  | Now => Time
  | ContextWithTimeout _ => unit
  | ContextErr | ParentContextErr => option error
  | Sleep _ => option error
  | Lock | Unlock => unit
  end.

(** A program of the operator. *)
Abbreviation M := (prog answer).
Abbreviation trace := (list (event answer)).

(** ** Classes of calls the theorems speak of *)

(** The call launches workflow work. *)
Definition launches (ev : event answer) : bool :=
  match ev with
  | Ev (Analyze _ _) _ | Ev (Execute _ _ _) _ | Ev (Verify _ _ _ _) _
  | Ev (Escalate _ _) _ => true
  | _ => false
  end.

Definition isExecute (ev : event answer) : bool :=
  match ev with Ev (Execute _ _ _) _ => true | _ => false end.

(** The call writes a run: its metadata, its status, or deletes it. *)
Definition writesRun (ev : event answer) : bool :=
  match ev with
  | Ev (PatchRun _ _ _) _ | Ev (StatusPatchRun _ _) _ | Ev (DeleteRun _) _ => true
  | _ => false
  end.

Definition isStatusPatch (ev : event answer) : bool :=
  match ev with Ev (StatusPatchRun _ _) _ => true | _ => false end.

(** No call of the trace is in the class [p]. *)
Definition none (p : event answer → bool) (tr : trace) : Prop := Forall (λ ev, p ev = false) tr.

Lemma none_app p tr1 tr2 : none p (tr1 ++ tr2) ↔ none p tr1 ∧ none p tr2.
Proof. apply Forall_app. Qed.

Lemma none_cons p ev tr : none p (ev :: tr) ↔ p ev = false ∧ none p tr.
Proof. apply List.Forall_cons_iff. Qed.

Lemma none_nil p : none p [].
Proof. constructor. Qed.

(** The status patches of a run in a trace, as (base, object) pairs, and those
    the API server accepted. *)
Definition statusPatchOf (ev : event answer) : option (AgenticRun * AgenticRun) :=
  match ev with Ev (StatusPatchRun base obj) _ => Some (base, obj) | _ => None end.

Definition acceptedPatchOf (ev : event answer) : option (AgenticRun * AgenticRun) :=
  match ev with
  | Ev (StatusPatchRun base obj) (Ok _) => Some (base, obj)
  | _ => None
  end.

Definition statusPatches (tr : trace) : list (AgenticRun * AgenticRun) :=
  omap statusPatchOf tr.

Definition acceptedPatches (tr : trace) : list (AgenticRun * AgenticRun) :=
  omap acceptedPatchOf tr.

Lemma statusPatches_app tr1 tr2 :
  statusPatches (tr1 ++ tr2) = statusPatches tr1 ++ statusPatches tr2.
Proof. apply omap_app. Qed.

Lemma acceptedPatches_app tr1 tr2 :
  acceptedPatches (tr1 ++ tr2) = acceptedPatches tr1 ++ acceptedPatches tr2.
Proof. apply omap_app. Qed.

#[export] Hint Resolve none_nil : core.

(** The fields of [AgenticRunReconciler]: the namespace, and which of the
    collaborators are set (a pointer or interface field that is not [nil]). *)
Record AgenticRunReconciler := MkReconciler {
  r_Namespace : string;
  r_APIReader : bool;
  r_Agent : bool;
  r_Sandbox : bool;
  r_Config : bool;
  r_Audit : bool;
  r_TempLog : bool;
}.

(** [if x != nil { return ..., x }] on an optional error. *)
Definition onErr {A} (e : option error) (bad : error → M A) (good : M A) : M A :=
  match e with Some err => bad err | None => good end.

Lemma emits_onErr {A} P (e : option error) (bad : error → M A) good :
  (∀ err, emits P (bad err)) → emits P good → emits P (onErr e bad good).
Proof. intros Hb Hg. destruct e; [apply Hb|exact Hg]. Qed.

(** [if r.Audit != nil { ... }]. *)
Definition auditIf (enabled : bool) (c : AuditCall) : M unit :=
  if enabled then call (Audit c) else Ret tt.
