(* ===== verification/Approval.v ===== *)
(** Approval ([controller/agenticrun/approval.go]): the cluster policy, the
    per-run approval resource, and the decisions the handlers take from them. *)
From stdpp Require Import base list option strings gmap.
From Stdlib Require Import ZArith.
From S2P Require Import Prelude GoText ApiMachinery Types Effects.

Local Open Scope string_scope.
Local Open Scope list_scope.
Local Open Scope prog_scope.

Section Approval.
Context `{K : ApiMachinery}.

Definition getApprovalPolicy : M (res (option ApprovalPolicy)) :=
  r <- call (GetPolicy "cluster") ;;
  match r with
  | Err err => if IsNotFound err then Ret (Ok None)
               else Ret (Err (wrapError "get ApprovalPolicy" err))
  | Ok policy => Ret (Ok (Some policy))
  end.

Definition getAgenticRunApproval (run : AgenticRun) (namespace : string)
    : M (res AgenticRunApproval) :=
  call (GetApproval (MkNamespacedName namespace (run_Name run))).

(** The stages a new approval gets from an [Automatic] policy. *)
Definition autoStage (run : AgenticRun) (ps : ApprovalPolicyStage) : list ApprovalStage :=
  let stage typ := option_list (NewApprovalStage typ "" "" None) in
  if negb (String.eqb (policyStage_Approval ps) ApprovalModeAutomatic) then []
  else if String.eqb (policyStage_Name ps) SandboxStepAnalysis then stage ApprovalStageAnalysis
  else if String.eqb (policyStage_Name ps) SandboxStepExecution then
    if AgenticRunStep_IsZero (spec_Execution (run_Spec run)) then []
    else stage ApprovalStageExecution
  else if String.eqb (policyStage_Name ps) SandboxStepVerification then
    if AgenticRunStep_IsZero (spec_Verification (run_Spec run)) then []
    else stage ApprovalStageVerification
  else [].

Definition autoStages (run : AgenticRun) (policy : option ApprovalPolicy) : list ApprovalStage :=
  match policy with
  | Some p => flat_map (autoStage run) (policy_Stages (policy_Spec p))
  | None => []
  end.

Definition newApproval (run : AgenticRun) (policy : option ApprovalPolicy) (namespace : string)
    : AgenticRunApproval :=
  MkAgenticRunApproval
    (MkObjectMeta (run_Name run) namespace "" "" 0%Z 0%Z None ∅ ∅
       [MkOwnerReference "agentic.openshift.io/v1alpha1" "AgenticRun" (run_Name run)
          (run_UID run) (Some true) (Some true)] [])
    (MkAgenticRunApprovalSpec zeroApprover (autoStages run policy)) [].

Definition ensureAgenticRunApproval (run : AgenticRun) (policy : option ApprovalPolicy)
    (namespace : string) : M (res AgenticRunApproval) :=
  existing <- getAgenticRunApproval run namespace ;;
  match existing with
  | Ok approval => Ret (Ok approval)
  | Err err =>
      if negb (IsNotFound err) then Ret (Err (wrapError "get AgenticRunApproval" err))
      else
        created <- call (CreateApproval (newApproval run policy namespace)) ;;
        match created with
        | Ok approval => Ret (Ok approval)
        | Err err' =>
            if IsAlreadyExists err' then getAgenticRunApproval run namespace
            else Ret (Err (wrapError "create AgenticRunApproval" err'))
        end
  end.

Definition policyStageIs (stage mode : string) (ps : ApprovalPolicyStage) : bool :=
  String.eqb (policyStage_Name ps) stage && String.eqb (policyStage_Approval ps) mode.

Definition isStagePolicyManual (policy : option ApprovalPolicy) (stage : string) : bool :=
  match policy with
  | None => false
  | Some p => existsb (policyStageIs stage ApprovalModeManual) (policy_Stages (policy_Spec p))
  end.

Definition isAutoApprovedByPolicy (policy : option ApprovalPolicy) (stage : string) : bool :=
  match policy with
  | None => false
  | Some p => existsb (policyStageIs stage ApprovalModeAutomatic) (policy_Stages (policy_Spec p))
  end.

Definition approvalStages (approval : option AgenticRunApproval) : list ApprovalStage :=
  match approval with Some a => approval_Stages (approval_Spec a) | None => [] end.

Definition isStageApproved (approval : option AgenticRunApproval)
    (policy : option ApprovalPolicy) (stage : string) : bool :=
  if existsb (λ s, String.eqb (stage_Type s) stage &&
                   negb (String.eqb (stage_Decision s) ApprovalDecisionDenied))
       (approvalStages approval)
  then true
  else if match policy with
          | Some p => existsb (policyStageIs stage ApprovalModeAutomatic)
                        (policy_Stages (policy_Spec p))
          | None => false
          end
  then true
  else if String.eqb stage SandboxStepEscalation && negb (isStagePolicyManual policy stage)
  then true
  else false.

Definition isStageDenied (approval : option AgenticRunApproval) (stage : string) : bool :=
  existsb (λ s, String.eqb (stage_Type s) stage &&
                String.eqb (stage_Decision s) ApprovalDecisionDenied)
    (approvalStages approval).

(** The agent named by the arm of the stage, if the arm is there. *)
Definition armAgent (stage : string) (s : ApprovalStage) : option string :=
  if String.eqb stage SandboxStepAnalysis then analysisApproval_Agent <$> stage_Analysis s
  else if String.eqb stage SandboxStepExecution then
    executionApproval_Agent <$> stage_Execution s
  else if String.eqb stage SandboxStepVerification then
    verificationApproval_Agent <$> stage_Verification s
  else if String.eqb stage SandboxStepEscalation then
    escalationApproval_Agent <$> stage_Escalation s
  else None.

Fixpoint overrideAgent (stages : list ApprovalStage) (stage : string) : string :=
  match stages with
  | [] => ""
  | s :: ss =>
      if negb (String.eqb (stage_Type s) stage) then overrideAgent ss stage
      else match armAgent stage s with
           | Some agent => agent
           | None => overrideAgent ss stage
           end
  end.

Definition getStageOverrideAgent (approval : option AgenticRunApproval) (stage : string)
    : string :=
  overrideAgent (approvalStages approval) stage.

Fixpoint stageOption (stages : list ApprovalStage) : Z :=
  match stages with
  | [] => 0
  | s :: ss =>
      if String.eqb (stage_Type s) ApprovalStageExecution then
        match stage_Execution s with
        | Some e => match executionApproval_Option e with
                    | Some o => o
                    | None => stageOption ss
                    end
        | None => stageOption ss
        end
      else stageOption ss
  end.

Definition getStageOption (approval : option AgenticRunApproval) : Z :=
  stageOption (approvalStages approval).

(** ** Facts *)
Lemma isStageApproved_spec approval policy stage :
  isStageApproved approval policy stage = true ↔
  (∃ s, s ∈ approvalStages approval ∧ stage_Type s = stage ∧
        stage_Decision s ≠ ApprovalDecisionDenied)
  ∨ isAutoApprovedByPolicy policy stage = true
  ∨ (stage = SandboxStepEscalation ∧ isStagePolicyManual policy stage = false).
Proof.
  unfold isStageApproved, isAutoApprovedByPolicy.
  set (auto := match policy with Some p => _ | None => _ end).
  destruct (existsb _ (approvalStages approval)) eqn:Hex.
  - apply existsb_exists in Hex as (s & Hin & Hs). bool_hyps.
    split; [intros _; left; exists s; rewrite list_elem_of_In; auto|done].
  - assert (Hno : ¬ ∃ s, s ∈ approvalStages approval ∧ stage_Type s = stage ∧
        stage_Decision s ≠ ApprovalDecisionDenied).
    { intros (s & Hin & <- & Hd). apply not_true_iff_false in Hex. apply Hex.
      apply existsb_exists. exists s. rewrite <- list_elem_of_In.
      rewrite String.eqb_refl, andb_true_l, negb_true_iff, String.eqb_neq. done. }
    destruct auto; [tauto|].
    destruct (String.eqb_spec stage SandboxStepEscalation); simpl;
      destruct (isStagePolicyManual policy stage); simpl; naive_solver.
Qed.

Lemma isStageDenied_spec approval stage :
  isStageDenied approval stage = true ↔
  ∃ s, s ∈ approvalStages approval ∧ stage_Type s = stage ∧
       stage_Decision s = ApprovalDecisionDenied.
Proof.
  unfold isStageDenied. rewrite existsb_exists. split.
  - intros (s & Hin & Hs). bool_hyps. exists s. by rewrite list_elem_of_In.
  - intros (s & Hin & <- & Hd). exists s. rewrite <- list_elem_of_In, Hd, String.eqb_refl. done.
Qed.

Lemma autoStage_elem run ps s :
  s ∈ autoStage run ps →
  policyStage_Approval ps = ApprovalModeAutomatic ∧ stage_Type s = policyStage_Name ps ∧
  stage_Decision s = "" ∧ stage_Type s ≠ SandboxStepEscalation ∧
  (stage_Type s = SandboxStepExecution →
   AgenticRunStep_IsZero (spec_Execution (run_Spec run)) = false) ∧
  (stage_Type s = SandboxStepVerification →
   AgenticRunStep_IsZero (spec_Verification (run_Spec run)) = false).
Proof.
  unfold autoStage.
  destruct (String.eqb_spec (policyStage_Approval ps) ApprovalModeAutomatic); simpl;
    [|by intros ?%elem_of_nil].
  destruct (String.eqb_spec (policyStage_Name ps) SandboxStepAnalysis) as [->|?];
    [intros ->%list_elem_of_singleton; done|].
  destruct (String.eqb_spec (policyStage_Name ps) SandboxStepExecution) as [->|?].
  { destruct (AgenticRunStep_IsZero (spec_Execution _)) eqn:?; [by intros ?%elem_of_nil|].
    intros ->%list_elem_of_singleton; done. }
  destruct (String.eqb_spec (policyStage_Name ps) SandboxStepVerification) as [->|?];
    [|by intros ?%elem_of_nil].
  destruct (AgenticRunStep_IsZero (spec_Verification _)) eqn:?; [by intros ?%elem_of_nil|].
  intros ->%list_elem_of_singleton; done.
Qed.

Lemma autoStages_elem run policy s :
  s ∈ autoStages run policy →
  isAutoApprovedByPolicy policy (stage_Type s) = true ∧ stage_Decision s = "" ∧
  stage_Type s ≠ SandboxStepEscalation ∧
  (stage_Type s = SandboxStepExecution →
   AgenticRunStep_IsZero (spec_Execution (run_Spec run)) = false) ∧
  (stage_Type s = SandboxStepVerification →
   AgenticRunStep_IsZero (spec_Verification (run_Spec run)) = false).
Proof.
  destruct policy as [p|]; simpl; [|by intros ?%elem_of_nil].
  rewrite list_elem_of_In, in_flat_map. intros (ps & Hin & Hs).
  apply list_elem_of_In, autoStage_elem in Hs as (Ha & Ht & Hd & ?).
  split; [|done]. apply existsb_exists. exists ps. split; [done|].
  unfold policyStageIs. rewrite Ht, Ha, !String.eqb_refl. done.
Qed.

(** The approval the controller creates for a run approves exactly what
    the policy approves automatically: it denies no stage, approves no step
    the run does not have, and never the escalation. *)
Theorem newApproval_stages run policy namespace :
  let a := Some (newApproval run policy namespace) in
  (∀ stage, isStageDenied a stage = false) ∧
  (∀ s, s ∈ approvalStages a →
     isAutoApprovedByPolicy policy (stage_Type s) = true ∧
     stage_Type s ≠ SandboxStepEscalation ∧
     (stage_Type s = SandboxStepExecution →
      AgenticRunStep_IsZero (spec_Execution (run_Spec run)) = false) ∧
     (stage_Type s = SandboxStepVerification →
      AgenticRunStep_IsZero (spec_Verification (run_Spec run)) = false)) ∧
  (∀ stage, isStageApproved a policy stage = isStageApproved None policy stage).
Proof.
  simpl. split; [|split].
  - intros stage. apply not_true_iff_false. intros (s & Hin & _ & Hd)%isStageDenied_spec.
    apply autoStages_elem in Hin as (_ & Hd' & _). rewrite Hd in Hd'. done.
  - intros s (? & _ & ? & ?)%autoStages_elem. done.
  - intros stage. apply eq_true_iff_eq. rewrite !isStageApproved_spec. simpl.
    split; [|intros [(s & ?%elem_of_nil & _)|?]; tauto].
    intros [(s & Hin & <- & _)|?]; [|tauto].
    apply autoStages_elem in Hin as (? & _). tauto.
Qed.
End Approval.
