(* ===== verification/Resolve.v ===== *)
(** Workflow resolution ([controller/agenticrun/resolve.go]) and the limits of
    a step ([limits.go]): which agent, model provider and tools each step of a
    run uses, and how long it may take. *)
From stdpp Require Import base list option strings gmap.
From Stdlib Require Import ZArith.
From S2P Require Import Prelude GoText ApiMachinery Types Effects Approval.

Local Open Scope string_scope.
Local Open Scope list_scope.
Local Open Scope prog_scope.

Section Resolve.
Context `{K : ApiMachinery}.

(** [credentialsSecretName] of [podspec_builder.go]. *)
Definition credentialsSecretName (llm : LLMProvider) : string :=
  let s := llm_Spec llm in
  if String.eqb (llm_Type s) LLMProviderAnthropic then
    secretRef_Name (anthropic_CredentialsSecret (llm_Anthropic s))
  else if String.eqb (llm_Type s) LLMProviderGoogleCloudVertex then
    secretRef_Name (vertex_CredentialsSecret (llm_GoogleCloudVertex s))
  else if String.eqb (llm_Type s) LLMProviderOpenAI then
    secretRef_Name (openai_CredentialsSecret (llm_OpenAI s))
  else if String.eqb (llm_Type s) LLMProviderAzureOpenAI then
    secretRef_Name (azure_CredentialsSecret (llm_AzureOpenAI s))
  else if String.eqb (llm_Type s) LLMProviderAWSBedrock then
    secretRef_Name (bedrock_CredentialsSecret (llm_AWSBedrock s))
  else "".

Definition stepAgentName (step : AgenticRunStep) : string :=
  if negb (String.eqb (runStep_Agent step) "") then runStep_Agent step else "default".

Definition effectiveStepAgentName (approval : option AgenticRunApproval) (stage : string)
    (step : AgenticRunStep) : string :=
  let override := getStageOverrideAgent approval stage in
  if negb (String.eqb override "") then override else stepAgentName step.

Definition agentLLMName (a : Agent) : string := llmRef_Name (agent_LLMProvider (agent_Spec a)).

(** The agent and its provider, or the issues that make it unusable. *)
Definition validateAgentDependencies (namespace agentName0 : string)
    : M ((Agent * LLMProvider) + list error) :=
  let agentName := if String.eqb agentName0 "" then "default" else agentName0 in
  a <- call (GetAgent agentName) ;;
  match a with
  | Err err =>
      Ret (inr [if IsNotFound err then errorString ("Agent " +:+ Quote agentName +:+ " not found")
                else wrapError ("get Agent " +:+ Quote agentName) err])
  | Ok agent =>
      let llmName := agentLLMName agent in
      l <- call (GetLLMProvider llmName) ;;
      match l with
      | Err err =>
          Ret (inr [if IsNotFound err
                    then errorString ("Agent " +:+ Quote agentName +:+
                           " references missing LLMProvider " +:+ Quote llmName)
                    else wrapError ("get LLMProvider " +:+ Quote llmName +:+
                           " referenced by Agent " +:+ Quote agentName) err])
      | Ok llm =>
          let secretName := credentialsSecretName llm in
          if String.eqb secretName "" then
            Ret (inr [errorString ("LLMProvider " +:+ Quote llmName +:+
                        " has no credentials Secret configured")])
          else
            s <- call (GetSecret (MkNamespacedName namespace secretName)) ;;
            match s with
            | Ok _ => Ret (inl (agent, llm))
            | Err err =>
                Ret (inr [if IsNotFound err
                          then errorString ("LLMProvider " +:+ Quote llmName +:+
                                 " references missing Secret " +:+ Quote secretName +:+
                                 " in namespace " +:+ Quote namespace)
                          else wrapError ("get Secret " +:+ Quote secretName +:+
                                 " for LLMProvider " +:+ Quote llmName) err])
            end
      end
  end.

(** The accumulators of [validateAgenticRun]. *)
Record Validation := MkValidation {
  val_Errors : list error;
  val_Agents : list string;
  val_ValidatedAgents : gmap string Agent;
  val_ValidatedLLMs : gmap string LLMProvider;
}.

Definition emptyValidation : Validation := MkValidation [] [] ∅ ∅.

(** [steps]: the stage, its spec and whether it is configured. *)
Definition workflowSteps (run : AgenticRun) : list (string * AgenticRunStep * bool) :=
  let s := run_Spec run in
  [ (SandboxStepAnalysis, spec_Analysis s, true);
    (SandboxStepExecution, spec_Execution s, negb (AgenticRunStep_IsZero (spec_Execution s)));
    (SandboxStepVerification, spec_Verification s,
       negb (AgenticRunStep_IsZero (spec_Verification s)));
    (SandboxStepEscalation, spec_Analysis s, true) ].

Definition validateStep (approval : option AgenticRunApproval) (operatorNamespace : string)
    (entry : string * AgenticRunStep * bool) (v : Validation) : M Validation :=
  let '(stage, step, configured) := entry in
  if negb configured then Ret v
  else
    let agentName := effectiveStepAgentName approval stage step in
    if String.eqb agentName "" || bool_decide (agentName ∈ val_Agents v) then Ret v
    else
      d <- validateAgentDependencies operatorNamespace agentName ;;
      match d with
      | inl (agent, llm) =>
          Ret (MkValidation (val_Errors v) (val_Agents v ++ [agentName])
                 (<[agentName := agent]> (val_ValidatedAgents v))
                 (<[agentLLMName agent := llm]> (val_ValidatedLLMs v)))
      | inr issues =>
          Ret (MkValidation (val_Errors v ++ issues) (val_Agents v ++ [agentName])
                 (val_ValidatedAgents v) (val_ValidatedLLMs v))
      end.

Definition validateAgenticRun (run : AgenticRun) (approval : option AgenticRunApproval)
    (operatorNamespace : string) : M Validation :=
  foldM (workflowSteps run) emptyValidation (validateStep approval operatorNamespace).

Definition lookupStep (v : Validation) (tools : ToolsSpec)
    (approval : option AgenticRunApproval) (stage : string) (step : AgenticRunStep)
    (errPrefix : string) : res resolvedStep :=
  let agentName := effectiveStepAgentName approval stage step in
  match val_ValidatedAgents v !! agentName with
  | None => Err (errorString (errPrefix +:+ ": get Agent " +:+ Quote agentName))
  | Some agent =>
      match val_ValidatedLLMs v !! agentLLMName agent with
      | None => Err (errorString (errPrefix +:+ ": get LLMProvider " +:+
                       Quote (agentLLMName agent) +:+ " (referenced by Agent " +:+
                       Quote agentName +:+ ")"))
      | Some llm => Ok (MkResolvedStep agent llm tools)
      end
  end.

(** A step that may be left out of the workflow. *)
Definition lookupOptional (v : Validation) (tools : ToolsSpec)
    (approval : option AgenticRunApproval) (stage : string) (step : AgenticRunStep)
    (errPrefix : string) : res (option resolvedStep) :=
  if AgenticRunStep_IsZero step then Ok None
  else match lookupStep v tools approval stage step errPrefix with
       | Ok s => Ok (Some s)
       | Err e => Err e
       end.

Definition resolveAgenticRun (run : AgenticRun) (approval : option AgenticRunApproval)
    (operatorNamespace : string) : M (res resolvedWorkflow) :=
  v <- validateAgenticRun run approval operatorNamespace ;;
  Ret
    match val_Errors v with
    | _ :: _ => Err (joinError (val_Errors v))
    | [] =>
        let s := run_Spec run in
        let tools := spec_Tools s in
        match lookupStep v tools approval SandboxStepAnalysis (spec_Analysis s)
                "resolve analysis step" with
        | Err e => Err e
        | Ok analysis =>
            match lookupOptional v tools approval SandboxStepExecution (spec_Execution s)
                    "resolve execution step" with
            | Err e => Err e
            | Ok execution =>
                match lookupOptional v tools approval SandboxStepVerification
                        (spec_Verification s) "resolve verification step" with
                | Err e => Err e
                | Ok verification => Ok (MkResolvedWorkflow analysis execution verification)
                end
            end
        end
    end.

(** ** The validation invariant

    Every agent recorded was read under its name, its provider is recorded
    under the name it refers to, and an agent seen without issues is
    recorded. *)
Definition validationOk (v : Validation) : Prop :=
  (val_Errors v = [] → ∀ n, n ∈ val_Agents v → is_Some (val_ValidatedAgents v !! n)) ∧
  (∀ n a, val_ValidatedAgents v !! n = Some a →
          is_Some (val_ValidatedLLMs v !! agentLLMName a)).

Lemma emptyValidation_ok : validationOk emptyValidation.
Proof. split; simpl; [by intros _ n ?%elem_of_nil|]. intros n a. by rewrite lookup_empty. Qed.

Lemma validateAgentDependencies_issues ns name tr issues :
  runs (validateAgentDependencies ns name) tr (inr issues) → issues ≠ [].
Proof. unfold validateAgentDependencies. intros H. repeat runs_step; by simplify_eq. Qed.

Lemma validateStep_ok approval ns entry v tr v' :
  validationOk v → runs (validateStep approval ns entry v) tr v' → validationOk v'.
Proof.
  intros [Ha Hl] H. unfold validateStep in H. destruct entry as [[stage step] configured].
  repeat runs_step; try done; simplify_eq/=; split; simpl.
  - intros He n [Hn| ->%list_elem_of_singleton]%elem_of_app.
    + apply lookup_insert_is_Some'. right. by apply Ha.
    + apply lookup_insert_is_Some'. by left.
  - intros n a0 [[<- <-]|[_ Hn]]%lookup_insert_Some; apply lookup_insert_is_Some'; [by left|].
    right. by eapply Hl.
  - intros He. apply app_eq_nil in He as [_ ->].
    by apply validateAgentDependencies_issues in Hrun.
  - done.
Qed.

Definition stepSeen (approval : option AgenticRunApproval)
    (entry : string * AgenticRunStep * bool) (v : Validation) : Prop :=
  let '(stage, step, configured) := entry in
  configured = true → effectiveStepAgentName approval stage step ≠ "" →
  effectiveStepAgentName approval stage step ∈ val_Agents v.

Lemma validateStep_seen approval ns entry v tr v' :
  runs (validateStep approval ns entry v) tr v' →
  stepSeen approval entry v' ∧ (∀ n, n ∈ val_Agents v → n ∈ val_Agents v').
Proof.
  intros H. unfold validateStep in H. destruct entry as [[stage step] configured].
  unfold stepSeen. destruct configured; simpl in H; [|apply runs_ret in H as [_ ->]; done].
  destruct (_ || _) eqn:Hseen.
  - apply runs_ret in H as [_ ->]. split; [|done]. intros _ Hne.
    apply orb_true_iff in Hseen as [Hb|Hb]; bool_hyps; done.
  - repeat runs_step; simplify_eq/=; split; intros; apply elem_of_app; auto;
      right; apply list_elem_of_singleton; done.
Qed.

Lemma foldM_seen approval ns entries v tr v' :
  runs (foldM entries v (validateStep approval ns)) tr v' →
  (∀ entry, entry ∈ entries → stepSeen approval entry v') ∧
  (∀ n, n ∈ val_Agents v → n ∈ val_Agents v').
Proof.
  revert v tr. induction entries as [|e es IH]; intros v tr; cbn.
  - intros [_ ->]. split; [by intros ? ?%elem_of_nil|done].
  - intros (tr1 & v1 & tr2 & _ & H1 & H2)%runs_bind.
    apply validateStep_seen in H1 as [Hs Hm]. apply IH in H2 as [Hs' Hm'].
    split; [|eauto]. intros entry [->|?]%elem_of_cons; [|eauto].
    destruct e as [[stage step] configured]. unfold stepSeen in *. eauto.
Qed.

Lemma effectiveStepAgentName_nonempty approval stage step :
  effectiveStepAgentName approval stage step ≠ "".
Proof.
  unfold effectiveStepAgentName, stepAgentName.
  destruct (String.eqb_spec (getStageOverrideAgent approval stage) ""); simpl; [|done].
  destruct (String.eqb_spec (runStep_Agent step) ""); done.
Qed.

Lemma validateAgenticRun_ok run approval ns tr v :
  runs (validateAgenticRun run approval ns) tr v →
  validationOk v ∧ ∀ entry, entry ∈ workflowSteps run → stepSeen approval entry v.
Proof.
  intros H. split.
  - eapply (foldM_inv validationOk); [|by apply emptyValidation_ok|exact H].
    intros ? ? ? ? _ ? ?. by eapply validateStep_ok.
  - by apply foldM_seen in H as [? _].
Qed.

Lemma lookupStep_ok v tools approval stage step pfx :
  validationOk v → val_Errors v = [] →
  effectiveStepAgentName approval stage step ∈ val_Agents v →
  ∃ agent llm,
    lookupStep v tools approval stage step pfx = Ok (MkResolvedStep agent llm tools) ∧
    val_ValidatedAgents v !! effectiveStepAgentName approval stage step = Some agent ∧
    val_ValidatedLLMs v !! agentLLMName agent = Some llm.
Proof.
  intros [Ha Hl] He Hn. destruct (Ha He _ Hn) as [agent Hag].
  destruct (Hl _ _ Hag) as [llm Hllm]. unfold lookupStep.
  rewrite Hag, Hllm. eauto.
Qed.

Lemma lookupOptional_ok v tools approval stage step configured pfx :
  validationOk v → val_Errors v = [] →
  configured = negb (AgenticRunStep_IsZero step) →
  stepSeen approval (stage, step, configured) v →
  ∃ o, lookupOptional v tools approval stage step pfx = Ok o ∧
       (o = None ↔ AgenticRunStep_IsZero step = true).
Proof.
  intros Hok He Hc Hs. unfold lookupOptional.
  destruct (AgenticRunStep_IsZero step) eqn:Hz; [by exists None|].
  destruct (lookupStep_ok v tools approval stage step pfx Hok He) as (a & l & -> & _).
  - apply Hs; [by subst|apply effectiveStepAgentName_nonempty].
  - eexists. split; [done|]. split; done.
Qed.

(** Resolution never gets stuck on a lookup: it fails only with the
    joined issues of the validation, and when it succeeds the workflow has an
    execution (verification) step exactly when the run configures one. *)
Theorem resolveAgenticRun_total run approval ns tr r :
  runs (resolveAgenticRun run approval ns) tr r →
  match r with
  | Err e => ∃ issues, issues ≠ [] ∧ e = joinError issues
  | Ok w =>
      (rw_Execution w = None ↔
       AgenticRunStep_IsZero (spec_Execution (run_Spec run)) = true) ∧
      (rw_Verification w = None ↔
       AgenticRunStep_IsZero (spec_Verification (run_Spec run)) = true)
  end.
Proof.
  unfold resolveAgenticRun. intros (tr1 & v & tr2 & -> & Hv & [_ ->])%runs_bind.
  apply validateAgenticRun_ok in Hv as [Hok Hseen].
  destruct (val_Errors v) as [|e es] eqn:He; [|by exists (e :: es)].
  destruct (lookupStep_ok v (spec_Tools (run_Spec run)) approval SandboxStepAnalysis
    (spec_Analysis (run_Spec run)) "resolve analysis step" Hok He) as (a & l & -> & _).
  { apply (Hseen (SandboxStepAnalysis, _, true)); [left|done|].
    apply effectiveStepAgentName_nonempty. }
  edestruct (lookupOptional_ok v (spec_Tools (run_Spec run)) approval SandboxStepExecution
    (spec_Execution (run_Spec run)) _ "resolve execution step" Hok He eq_refl)
    as (oe & -> & Hoe); [apply Hseen; right; left|].
  edestruct (lookupOptional_ok v (spec_Tools (run_Spec run)) approval SandboxStepVerification
    (spec_Verification (run_Spec run)) _ "resolve verification step" Hok He eq_refl)
    as (ov & -> & Hov); [apply Hseen; do 2 right; left|].
  done.
Qed.

(** ** Limits ([limits.go]) *)
Definition DefaultAnalysisTimeout : Z := 600.
Definition DefaultExecutionTimeout : Z := 600.
Definition DefaultVerificationTimeout : Z := 1800.
Definition DefaultEscalationTimeout : Z := 600.
Definition DefaultMaxTurns : Z := 200.

(** The timeout the agent configures for the step, if it is positive. *)
Definition configuredTimeout (agent : option Agent) (step : string) : option Z :=
  let positive z := if (0 <? z)%Z then Some z else None in
  match agent with
  | None => None
  | Some a =>
      let t := agent_Timeouts (agent_Spec a) in
      if String.eqb step "analysis" then positive (AnalysisSeconds t)
      else if String.eqb step "execution" then positive (ExecutionSeconds t)
      else if String.eqb step "verification" then positive (VerificationSeconds t)
      else if String.eqb step "escalation" then positive (EscalationSeconds t)
      else None
  end.

Definition resolveTimeout (agent : option Agent) (step : string) : Z :=
  match configuredTimeout agent step with
  | Some t => t
  | None =>
      if String.eqb step "execution" then DefaultExecutionTimeout
      else if String.eqb step "verification" then DefaultVerificationTimeout
      else if String.eqb step "escalation" then DefaultEscalationTimeout
      else DefaultAnalysisTimeout
  end.

Definition resolveMaxTurns (agent : option Agent) : Z :=
  match agent with
  | Some a => if (0 <? agent_MaxTurns (agent_Spec a))%Z then agent_MaxTurns (agent_Spec a)
              else DefaultMaxTurns
  | None => DefaultMaxTurns
  end.

Lemma resolveTimeout_pos agent step : (0 < resolveTimeout agent step)%Z.
Proof.
  unfold resolveTimeout.
  destruct (configuredTimeout agent step) as [t|] eqn:Ht.
  - unfold configuredTimeout in Ht. repeat case_match; simplify_eq; bool_hyps; lia.
  - repeat case_match; vm_compute; done.
Qed.
End Resolve.
