(* ===== verification/PodSpecBuilder.v ===== *)
(** The pod specification of a sandbox ([controller/agenticrun/podspec_builder.go]):
    the overlay of agent, model provider, tools and telemetry on the base
    specification of the configuration. *)
From stdpp Require Import base list option strings gmap sorting.
From Stdlib Require Import ZArith Lia.
From S2P Require Import Prelude GoText Json ApiMachinery Types Objects Effects Approval Resolve.

Local Open Scope string_scope.
Local Open Scope list_scope.

Definition ErrBuildBasePodSpec : string := "base PodSpec with at least one container is required".
Definition ErrBuildAgentRequired : string := "agent is required".
Definition ErrBuildLLMRequired : string := "LLMProvider is required".
Definition ErrBuildSARequired : string := "serviceAccount is required".
Definition ErrBuildInputCMRequired : string := "inputConfigMapName is required".
Definition llmCredsMountPath : string := "/var/run/secrets/llm-credentials".
Definition llmCredsVolumeName : string := "llm-credentials".
Definition inputConfigMapVolumeName : string := "input".
Definition inputConfigMapMountPath : string := "/input".
Definition mcpHeadersMountRoot : string := "/var/secrets/mcp".
Definition mcpServersEnvVar : string := "LIGHTSPEED_MCP_SERVERS".
Definition tlsMountRoot : string := "/var/run/secrets/lightspeed/tls".
Definition additionalCAVolumeName : string := "additional-ca".
Definition additionalCAMountPath : string := tlsMountRoot +:+ "/additional-ca".
Definition otelCAVolumeName : string := "otel-ca".
Definition otelCAMountPath : string := tlsMountRoot +:+ "/otel".
Definition mcpCAVolumeName : string := "mcp-ca".
Definition mcpCAMountPath : string := tlsMountRoot +:+ "/mcp".
Definition rhokpCAVolumeName : string := "rhokp-ca".
Definition rhokpCAMountPath : string := tlsMountRoot +:+ "/rhokp".
Definition rhokpCASecretKey : string := "rhokp-ca.crt".
Definition traceparentEnvVar : string := "TRACEPARENT".
Definition MCPHeaderSourceTypeSecret : string := "Secret".
Definition SecretMountEnvVar : string := "EnvVar".
Definition SecretMountFilePath : string := "FilePath".

(** Marshalling a raw [apiextensionsv1.JSON]: its text compacted, or an error. *)
Class RawJSON := { MarshalRaw : JSON → res string }.

(** ** Updates of a container *)
Definition envVar (name value : string) : EnvVar := MkEnvVar name value None.
Definition readOnlyMount (name path : string) : VolumeMount :=
  MkVolumeMount name path "" true "".

Definition addEnv (c : Container) (env : list EnvVar) : Container :=
  MkContainer (ctr_Env c ++ env) (ctr_EnvFrom c) (ctr_VolumeMounts c)
    (ctr_TerminationMessagePolicy c) (ctr_Rest c).
Definition addEnvFrom (c : Container) (src : EnvFromSource) : Container :=
  MkContainer (ctr_Env c) (ctr_EnvFrom c ++ [src]) (ctr_VolumeMounts c)
    (ctr_TerminationMessagePolicy c) (ctr_Rest c).
Definition withMounts (c : Container) (ms : list VolumeMount) : Container :=
  MkContainer (ctr_Env c) (ctr_EnvFrom c) ms (ctr_TerminationMessagePolicy c) (ctr_Rest c).
Definition addMounts (c : Container) (ms : list VolumeMount) : Container :=
  withMounts c (ctr_VolumeMounts c ++ ms).
Definition withTerminationPolicy (c : Container) (policy : string) : Container :=
  MkContainer (ctr_Env c) (ctr_EnvFrom c) (ctr_VolumeMounts c) policy (ctr_Rest c).

(** ** Merging

    Both merges keep a list and the positions of its keys: an entry with a known
    key replaces the one at its position, another is appended. *)
Section Merge.
Context {A : Type} (key : A → string).

Definition mergeOne (st : list A * gmap string nat) (v : A) : list A * gmap string nat :=
  let '(out, byKey) := st in
  match byKey !! key v with
  | Some idx => (<[idx := v]> out, byKey)
  | None => (out ++ [v], <[key v := length out]> byKey)
  end.

(** [for i, v := range base { byKey[v.Key] = i }]. *)
Definition indexOf (base : list A) : gmap string nat :=
  fold_left (λ m '(i, v), <[key v := i]> m) (imap pair base) ∅.

Definition mergeAll (base overlay : list A) : list A :=
  fst (fold_left mergeOne overlay (base, indexOf base)).

(** The last entry with a key. *)
Fixpoint lastWith (k : string) (xs : list A) : option A :=
  match xs with
  | [] => None
  | x :: xs' => match lastWith k xs' with
                | Some y => Some y
                | None => if String.eqb (key x) k then Some x else None
                end
  end.

Definition indexed (st : list A * gmap string nat) : Prop :=
  NoDup (map key (fst st)) ∧
  ∀ k i, snd st !! k = Some i ↔ ∃ v, fst st !! i = Some v ∧ key v = k.

Lemma indexOf_snoc base v :
  indexOf (base ++ [v]) = <[key v := length base]> (indexOf base).
Proof.
  unfold indexOf. rewrite imap_app, fold_left_app. cbn. by rewrite Nat.add_0_r.
Qed.

Lemma indexed_init base : NoDup (map key base) → indexed (base, indexOf base).
Proof.
  intros Hnd. split; [done|]. cbn [fst snd]. revert Hnd.
  induction base as [|v base IH] using rev_ind; intros Hnd k i.
  - unfold indexOf. cbn. rewrite lookup_empty. split; [done|]. by intros (v & ? & _).
  - rewrite map_app, NoDup_app in Hnd. destruct Hnd as (Hnd & Hnew & _).
    rewrite indexOf_snoc. destruct (decide (k = key v)) as [->|Hk].
    + rewrite lookup_insert_eq. split.
      * intros [= <-]. exists v. by rewrite lookup_app_r, Nat.sub_diag by done.
      * intros (w & Hw & He). f_equal. apply lookup_app_Some in Hw as [Hw|[Hle Hw]].
        -- exfalso. apply (Hnew (key w)); [|rewrite He; left].
           apply list_elem_of_lookup. exists i. by rewrite list_lookup_fmap, Hw.
        -- destruct (i - length base) as [|n] eqn:Hi; [lia|done].
    + rewrite lookup_insert_ne by done. rewrite IH by done. split.
      * intros (w & Hw & He). exists w. split; [by apply lookup_app_l_Some|done].
      * intros (w & Hw & He). exists w. split; [|done].
        apply lookup_app_Some in Hw as [Hw|[Hle Hw]]; [done|].
        destruct (i - length base) as [|n]; cbn in Hw; [|done]. by injection Hw as <-.
Qed.

(** One entry replaces the one with its key. *)
Lemma mergeOne_spec st v :
  indexed st →
  indexed (mergeOne st v) ∧
  ∀ x, x ∈ fst (mergeOne st v) ↔ x = v ∨ (x ∈ fst st ∧ key x ≠ key v).
Proof.
  destruct st as [out byKey]. intros [Hnd Hix]. cbn [fst snd] in *. unfold mergeOne.
  destruct (byKey !! key v) as [idx|] eqn:Hk; cbn [fst snd].
  - apply Hix in Hk as (w & Hw & He).
    assert (Hkeys : map key (<[idx:=v]> out) = map key out).
    { change (key <$> <[idx:=v]> out = key <$> out). rewrite list_fmap_insert.
      apply list_insert_id. by rewrite list_lookup_fmap, Hw; cbn; rewrite He. }
    split.
    + split; cbn [fst snd]; [by rewrite Hkeys|]. intros k i. rewrite Hix.
      assert (Heq : (key <$> <[idx:=v]> out) !! i = (key <$> out) !! i)
        by (change (key <$> ?l) with (map key l); by rewrite Hkeys).
      rewrite !list_lookup_fmap in Heq. split; intros (y & Hy & <-); rewrite Hy in Heq; cbn in Heq.
      * destruct (<[idx:=v]> out !! i) as [z|] eqn:Hz; [|done]. injection Heq as Heq. eauto.
      * destruct (out !! i) as [z|] eqn:Hz; [|done]. injection Heq as Heq. eauto.
    + intros x. rewrite list_elem_of_lookup. split.
      * intros [i Hi]. destruct (decide (i = idx)) as [->|Hne].
        -- rewrite list_lookup_insert_eq in Hi by by eapply lookup_lt_Some. left. congruence.
        -- rewrite list_lookup_insert_ne in Hi by done. right.
           split; [by eapply list_elem_of_lookup_2|]. intros Hkx.
           apply Hne. eapply (NoDup_lookup (key <$> out)); [done| |];
             rewrite list_lookup_fmap; [by rewrite Hi|]. rewrite Hw. cbn. congruence.
      * intros [->|[[i Hi]%list_elem_of_lookup Hkx]].
        -- exists idx. apply list_lookup_insert_eq. by eapply lookup_lt_Some.
        -- exists i. rewrite list_lookup_insert_ne; [done|]. intros ->. congruence.
  - assert (Hnone : ∀ x, x ∈ out → key x ≠ key v).
    { intros x [i Hi]%list_elem_of_lookup Hkx.
      assert (byKey !! key v = Some i) by (apply Hix; eauto). congruence. }
    split; [split; cbn [fst snd]|].
    + rewrite map_app. apply NoDup_app. split; [done|]. split; [|apply NoDup_singleton].
      intros k Hin. cbn. rewrite list_elem_of_singleton. intros ->.
      apply list_elem_of_fmap in Hin as (x & Hx & Hin). by apply (Hnone x).
    + intros k i. destruct (decide (k = key v)) as [->|Hkv].
      * rewrite lookup_insert_eq. split.
        -- intros [= <-]. exists v. by rewrite lookup_app_r, Nat.sub_diag by done.
        -- intros (w & Hw & He). f_equal. apply lookup_app_Some in Hw as [Hw|[Hle Hw]].
           ++ exfalso. by apply (Hnone w); [eapply list_elem_of_lookup_2|].
           ++ destruct (i - length out) as [|n] eqn:Hi; [lia|done].
      * rewrite lookup_insert_ne by done. rewrite Hix. split.
        -- intros (w & Hw & He). exists w. split; [by apply lookup_app_l_Some|done].
        -- intros (w & Hw & He). exists w. split; [|done].
           apply lookup_app_Some in Hw as [Hw|[Hle Hw]]; [done|].
           destruct (i - length out) as [|n]; cbn in Hw; [|done]. by injection Hw as <-.
    + intros x. rewrite elem_of_app, list_elem_of_singleton. naive_solver.
Qed.

Lemma mergeFold_spec st overlay :
  indexed st →
  NoDup (map key (fst (fold_left mergeOne overlay st))) ∧
  ∀ x, x ∈ fst (fold_left mergeOne overlay st) ↔
       lastWith (key x) overlay = Some x ∨ (x ∈ fst st ∧ lastWith (key x) overlay = None).
Proof.
  revert st. induction overlay as [|v overlay IH]; intros st Hst; cbn [fold_left].
  - split; [apply Hst|]. intros x. cbn. naive_solver.
  - apply (mergeOne_spec _ v) in Hst as [Hst Hel]. destruct (IH _ Hst) as [Hn Hx].
    split; [done|]. intros x. rewrite Hx, Hel. cbn [lastWith].
    destruct (lastWith (key x) overlay); [naive_solver|].
    destruct (String.eqb_spec (key v) (key x)); naive_solver.
Qed.

(** The merged list has one entry per key: the last one of the overlay, and
    where the overlay has none the one of the base. *)
Lemma mergeAll_spec base overlay :
  NoDup (map key base) →
  NoDup (map key (mergeAll base overlay)) ∧
  ∀ x, x ∈ mergeAll base overlay ↔
       lastWith (key x) overlay = Some x ∨ (x ∈ base ∧ lastWith (key x) overlay = None).
Proof. intros Hnd%indexed_init. exact (mergeFold_spec _ overlay Hnd). Qed.

Lemma lastWith_elem k xs x : lastWith k xs = Some x → x ∈ xs ∧ key x = k.
Proof.
  induction xs as [|y xs IH]; cbn; [done|]. destruct (lastWith k xs) as [z|].
  - intros [= ->]. destruct (IH eq_refl). split; [by right|done].
  - destruct (String.eqb_spec (key y) k); [|done]. intros [= <-]. split; [left|done].
Qed.

Lemma lastWith_None k xs x : lastWith k xs = None → x ∈ xs → key x ≠ k.
Proof.
  induction xs as [|y xs IH]; cbn; [by intros _ ?%elem_of_nil|].
  destruct (lastWith k xs) as [z|]; [done|]. destruct (String.eqb_spec (key y) k); [done|].
  intros _ [->|?]%elem_of_cons; [done|by apply IH].
Qed.
End Merge.

Definition mergeVolumes (base overlay : list Volume) : list Volume :=
  mergeAll volume_Name base overlay.

Definition mergeVolumeMounts (mounts : list VolumeMount) : list VolumeMount :=
  mergeAll mnt_MountPath [] mounts.

(** ** Parts of the overlay: volumes, mounts, environment *)

Definition providerURL (llm : LLMProvider) : string :=
  let s := llm_Spec llm in
  if String.eqb (llm_Type s) LLMProviderAnthropic then anthropic_URL (llm_Anthropic s)
  else if String.eqb (llm_Type s) LLMProviderGoogleCloudVertex then
    vertex_URL (llm_GoogleCloudVertex s)
  else if String.eqb (llm_Type s) LLMProviderOpenAI then openai_URL (llm_OpenAI s)
  else if String.eqb (llm_Type s) LLMProviderAzureOpenAI then azure_URL (llm_AzureOpenAI s)
  else if String.eqb (llm_Type s) LLMProviderAWSBedrock then bedrock_URL (llm_AWSBedrock s)
  else "".

Definition providerTypeString (t : string) : string :=
  if String.eqb t LLMProviderAnthropic then "anthropic"
  else if String.eqb t LLMProviderGoogleCloudVertex then "vertex"
  else if String.eqb t LLMProviderOpenAI then "openai"
  else if String.eqb t LLMProviderAzureOpenAI then "azure"
  else if String.eqb t LLMProviderAWSBedrock then "bedrock"
  else ToLower t.

(** The variable is set when the value is not empty. *)
Definition envIfSet (name value : string) : list EnvVar :=
  if String.eqb value "" then [] else [envVar name value].

Definition providerSpecificEnv (llm : LLMProvider) : list EnvVar :=
  let s := llm_Spec llm in
  let url := envIfSet "LIGHTSPEED_PROVIDER_URL" (providerURL llm) in
  if String.eqb (llm_Type s) LLMProviderAnthropic then url
  else if String.eqb (llm_Type s) LLMProviderGoogleCloudVertex then
    let cfg := llm_GoogleCloudVertex s in
    [ envVar "LIGHTSPEED_MODEL_PROVIDER" (ToLower (vertex_ModelProvider cfg));
      envVar "LIGHTSPEED_PROVIDER_PROJECT" (vertex_ProjectID cfg);
      envVar "LIGHTSPEED_PROVIDER_REGION" (vertex_Region cfg) ] ++ url
  else if String.eqb (llm_Type s) LLMProviderOpenAI then url
  else if String.eqb (llm_Type s) LLMProviderAzureOpenAI then
    let cfg := llm_AzureOpenAI s in
    envVar "LIGHTSPEED_PROVIDER_URL"
      (if negb (String.eqb (azure_URL cfg) "") then azure_URL cfg else azure_Endpoint cfg)
    :: envIfSet "LIGHTSPEED_PROVIDER_API_VERSION" (azure_APIVersion cfg)
  else if String.eqb (llm_Type s) LLMProviderAWSBedrock then
    envVar "LIGHTSPEED_PROVIDER_REGION" (bedrock_Region (llm_AWSBedrock s)) :: url
  else [].

(** Volumes, mounts and variables that one part of the overlay adds. *)
Record Overlay := MkOverlay {
  ov_Volumes : list Volume;
  ov_Mounts : list VolumeMount;
  ov_Env : list EnvVar;
}.

Definition emptyOverlay : Overlay := MkOverlay [] [] [].
Definition joinOverlay (a b : Overlay) : Overlay :=
  MkOverlay (ov_Volumes a ++ ov_Volumes b) (ov_Mounts a ++ ov_Mounts b) (ov_Env a ++ ov_Env b).

(** A secret mounted read-only as a whole. *)
Definition mountedSecret (volume path secretName : string) : Overlay :=
  MkOverlay [MkVolume volume (SecretVolume secretName)] [readOnlyMount volume path] [].

Definition buildSkills (skills : list SkillsSource) : Overlay :=
  match skills with
  | [] => emptyOverlay
  | s :: _ =>
      if String.eqb (skills_Image s) "" then emptyOverlay
      else
        MkOverlay [MkVolume "skills" (ImageVolume (skills_Image s) "Always")]
          (map (λ p, MkVolumeMount "skills" (pathJoin ["/app/skills"; pathBase p])
                       (TrimPrefix p "/") true "") (skills_Paths s)) []
  end.

Definition headerIsSecret (h : MCPHeader) : bool :=
  String.eqb (mcpSource_Type (mcpHeader_ValueFrom h)) MCPHeaderSourceTypeSecret.
Definition headerSecret (h : MCPHeader) : string :=
  secretRef_Name (mcpSource_Secret (mcpHeader_ValueFrom h)).

(** [mcpHeaderEnvEntry] and [mcpServerEnvEntry] as they are marshalled. *)
Definition headerEntry (h : MCPHeader) : Json :=
  let secretName := if headerIsSecret h then headerSecret h else "" in
  JObject ([("name", JString (mcpHeader_Name h));
            ("source", JString (mcpSource_Type (mcpHeader_ValueFrom h)))] ++
           omitEmpty (String.eqb secretName "") ("secretName", JString secretName)).

Definition serverEntry (s : MCPServerConfig) : Json :=
  JObject ([("name", JString (mcpServer_Name s)); ("url", JString (mcpServer_URL s))] ++
           omitEmpty (mcpServer_TimeoutSeconds s =? 0)%Z
             ("timeout", JNumber (mcpServer_TimeoutSeconds s)) ++
           omitEmpty (length (mcpServer_Headers s) =? 0)%nat
             ("headers", JArray (map headerEntry (mcpServer_Headers s)))).

Definition headerOverlay (h : MCPHeader) : Overlay :=
  if headerIsSecret h then
    mountedSecret ("mcp-header-" +:+ headerSecret h)
      (mcpHeadersMountRoot +:+ "/" +:+ headerSecret h) (headerSecret h)
  else emptyOverlay.

(** Marshalling these entries cannot fail. *)
Definition buildMCPServers (servers : list MCPServerConfig) : Overlay :=
  let headers := concat (map mcpServer_Headers servers) in
  joinOverlay (fold_right joinOverlay emptyOverlay (map headerOverlay headers))
    (MkOverlay [] [] [envVar mcpServersEnvVar (render (JArray (map serverEntry servers)))]).

Definition requiredSecret (s : SecretRequirement) : Overlay :=
  let mountAs := secretReq_MountAs s in
  if String.eqb (mount_Type mountAs) SecretMountFilePath then
    mountedSecret ("req-" +:+ secretReq_Name s) (filePath_Path (mount_FilePath mountAs))
      (secretReq_Name s)
  else if String.eqb (mount_Type mountAs) SecretMountEnvVar then
    MkOverlay [] [] [MkEnvVar (envVar_Name (mount_EnvVar mountAs)) ""
                       (Some (SecretKeyRef (secretReq_Name s) "token" (Some true)))]
  else emptyOverlay.

Definition buildRequiredSecrets (secrets : list SecretRequirement) : Overlay :=
  fold_right joinOverlay emptyOverlay (map requiredSecret secrets).

(** The certificate authority of a service, when its secret is named. *)
Definition caSecret (volume path secretName : string) : Overlay :=
  if String.eqb secretName "" then emptyOverlay else mountedSecret volume path secretName.

Definition appendOTELEnvVars (cfg : Config) (runUID step : string) : Overlay :=
  if String.eqb (cfg_OTELCollectorEndpoint cfg) "" then emptyOverlay
  else
    joinOverlay
      (MkOverlay [] [] [ envVar "OTEL_EXPORTER_OTLP_ENDPOINT" (cfg_OTELCollectorEndpoint cfg);
                         envVar "LIGHTSPEED_AGENTICRUN_UID" runUID;
                         envVar "LIGHTSPEED_AGENTICRUN_STEP" step ])
      (caSecret otelCAVolumeName otelCAMountPath (cfg_OTELCASecretName cfg)).

Definition appendMCPCAVolume (cfg : Config) : Overlay :=
  caSecret mcpCAVolumeName mcpCAMountPath (cfg_MCPCASecretName cfg).

Definition appendRHOKPEnvVars (cfg : Config) : Overlay :=
  if String.eqb (cfg_RHOKPEndpoint cfg) "" then emptyOverlay
  else
    joinOverlay
      (MkOverlay [] [] (envVar "LIGHTSPEED_RHOKP_ENDPOINT" (cfg_RHOKPEndpoint cfg) ::
         (if String.eqb (cfg_RHOKPCASecretName cfg) "" then []
          else [envVar "LIGHTSPEED_RHOKP_CA_CERTIFICATE"
                  (rhokpCAMountPath +:+ "/" +:+ rhokpCASecretKey)])))
      (caSecret rhokpCAVolumeName rhokpCAMountPath (cfg_RHOKPCASecretName cfg)).

(** The additional trust bundle, a configuration map. *)
Definition additionalCA (cfg : Config) : Overlay :=
  if String.eqb (cfg_AdditionalCAConfigMap cfg) "" then emptyOverlay
  else MkOverlay [MkVolume additionalCAVolumeName (ConfigMapVolume (cfg_AdditionalCAConfigMap cfg))]
         [readOnlyMount additionalCAVolumeName additionalCAMountPath] [].

(** The credentials of the model provider and the input of the step. *)
Definition inputOverlay (secretName inputConfigMapName : string) : Overlay :=
  joinOverlay (mountedSecret llmCredsVolumeName llmCredsMountPath secretName)
    (MkOverlay [MkVolume inputConfigMapVolumeName (ConfigMapVolume inputConfigMapName)]
       [readOnlyMount inputConfigMapVolumeName inputConfigMapMountPath] []).

Definition toolsOverlay (tools : option ToolsSpec) : Overlay :=
  match tools with
  | None => emptyOverlay
  | Some t =>
      joinOverlay (buildSkills (tools_Skills t))
        (joinOverlay
           (if (0 <? length (tools_MCPServers t))%nat then buildMCPServers (tools_MCPServers t)
            else emptyOverlay)
           (buildRequiredSecrets (tools_RequiredSecrets t)))
  end.

Definition configOverlay (cfg : option Config) (runUID step : string) : Overlay :=
  match cfg with
  | None => emptyOverlay
  | Some c =>
      joinOverlay (appendOTELEnvVars c runUID step)
        (joinOverlay (appendMCPCAVolume c) (joinOverlay (appendRHOKPEnvVars c) (additionalCA c)))
  end.

Section Build.
Context `{RJ : RawJSON}.

(** The entries of [reasoningConfig] in the order of their keys, or the first error. *)
Fixpoint marshalEntries (keys : list string) (m : gmap string JSON) : res (list (string * Json)) :=
  match keys with
  | [] => Ok []
  | k :: keys' =>
      match MarshalRaw (default ("" : JSON) (m !! k)) with
      | Err e => Err e
      | Ok raw =>
          match marshalEntries keys' m with
          | Err e => Err e
          | Ok es => Ok ((k, JRaw raw) :: es)
          end
      end
  end.

Definition marshalReasoningConfig (m : gmap string JSON) : res string :=
  match marshalEntries (sortStrings (elements (dom m))) m with
  | Err e => Err e
  | Ok es => Ok (render (JObject es))
  end.

(** [if len(agent.Spec.ReasoningConfig) > 0]. *)
Definition reasoningEnv (agent : Agent) : res (list EnvVar) :=
  let m := agent_ReasoningConfig (agent_Spec agent) in
  if bool_decide (m = ∅) then Ok []
  else match marshalReasoningConfig m with
       | Err e => Err (wrapError "marshal reasoningConfig" e)
       | Ok text => Ok [envVar "LIGHTSPEED_REASONING_CONFIG" text]
       end.

Definition agentEnv (agent : Agent) (llm : LLMProvider) (cfg : option Config)
    (timeoutSeconds maxTurns : Z) : list EnvVar :=
  [ envVar "LIGHTSPEED_PROVIDER" (providerTypeString (llm_Type (llm_Spec llm)));
    envVar "LIGHTSPEED_MODEL" (agent_Model (agent_Spec agent));
    envVar "LIGHTSPEED_AGENT_TIMEOUT_SECONDS" (Itoa timeoutSeconds);
    envVar "LIGHTSPEED_AGENT_MAX_TURNS" (Itoa maxTurns);
    envVar "LIGHTSPEED_TOOL_OUTPUT_INSPECTION_ENABLED"
      (if from_option cfg_ToolOutputInspectionEnabled true cfg then "true" else "false") ] ++
  match cfg with
  | None => []
  | Some c => [ envVar "LIGHTSPEED_TLS_PROFILE" (cfg_TLSProfile c);
                envVar "LIGHTSPEED_TLS_MIN_VERSION" (cfg_TLSMinVersion c);
                envVar "LIGHTSPEED_TLS_CIPHER_SUITES" (cfg_TLSCipherSuites c) ]
  end ++ providerSpecificEnv llm.

(** [appendAuditEnvVars] and [appendTraceEnvVars]. *)
Definition auditEnv (traceparent : string) : list EnvVar :=
  envVar "LIGHTSPEED_AUDIT_ENABLED" "true" :: envIfSet traceparentEnvVar traceparent.

Definition Build (base : option PodSpec) (agent : option Agent) (llm : option LLMProvider)
    (tools : option ToolsSpec) (cfg : option Config)
    (step runUID serviceAccount inputConfigMapName traceparent : string)
    (timeoutSeconds maxTurns : Z) : res PodSpec :=
  match base with
  | None => Err (errorString ErrBuildBasePodSpec)
  | Some spec =>
      match pspec_Containers spec with
      | [] => Err (errorString ErrBuildBasePodSpec)
      | container :: others =>
          match agent, llm with
          | None, _ => Err (errorString ErrBuildAgentRequired)
          | _, None => Err (errorString ErrBuildLLMRequired)
          | Some a, Some l =>
              if String.eqb serviceAccount "" then Err (errorString ErrBuildSARequired)
              else if String.eqb inputConfigMapName "" then
                Err (errorString ErrBuildInputCMRequired)
              else
                match reasoningEnv a with
                | Err e => Err e
                | Ok reasoning =>
                    let secretName := credentialsSecretName l in
                    let overlay :=
                      joinOverlay (inputOverlay secretName inputConfigMapName)
                        (joinOverlay (toolsOverlay tools) (configOverlay cfg runUID step)) in
                    let c1 := addEnv (withTerminationPolicy container "FallbackToLogsOnError")
                                (agentEnv a l cfg timeoutSeconds maxTurns ++ reasoning) in
                    let c2 := addEnvFrom c1 (EnvFromSecret secretName) in
                    let c3 := addEnv (addMounts c2 (ov_Mounts overlay)) (ov_Env overlay) in
                    let c4 := addEnv (withMounts c3 (mergeVolumeMounts (ctr_VolumeMounts c3)))
                                (auditEnv traceparent) in
                    Ok (MkPodSpec (c4 :: others)
                          (mergeVolumes (pspec_Volumes spec) (ov_Volumes overlay))
                          serviceAccount (Some true) "Never" (pspec_ActiveDeadlineSeconds spec)
                          (pspec_Rest spec))
                end
          end
      end
  end.
End Build.

(** ** What a built specification guarantees *)

(** The mounts of an overlay are read-only and mount its volumes. *)
Definition soundOverlay (o : Overlay) : Prop :=
  ∀ m, m ∈ ov_Mounts o →
       mnt_ReadOnly m = true ∧ mnt_Name m ∈ map volume_Name (ov_Volumes o).

Lemma sound_emptyOverlay : soundOverlay emptyOverlay.
Proof. by intros m ?%elem_of_nil. Qed.

Lemma sound_env env : soundOverlay (MkOverlay [] [] env).
Proof. by intros m ?%elem_of_nil. Qed.

Lemma sound_join a b : soundOverlay a → soundOverlay b → soundOverlay (joinOverlay a b).
Proof.
  intros Ha Hb m. cbn. rewrite map_app, !elem_of_app. intros [[? ?]%Ha|[? ?]%Hb]; auto.
Qed.

Lemma sound_mounted vol path secret : soundOverlay (mountedSecret vol path secret).
Proof. intros m ->%list_elem_of_singleton. split; [done|left]. Qed.

Lemma sound_ca vol path secret : soundOverlay (caSecret vol path secret).
Proof. unfold caSecret. destruct (String.eqb _ _); [apply sound_emptyOverlay|apply sound_mounted]. Qed.

Lemma sound_fold {A} (f : A → Overlay) xs :
  (∀ x, soundOverlay (f x)) → soundOverlay (fold_right joinOverlay emptyOverlay (map f xs)).
Proof.
  intros Hf. induction xs as [|x xs IH]; cbn [map fold_right]; [apply sound_emptyOverlay|].
  by apply sound_join.
Qed.

Create HintDb overlay discriminated.
#[export] Hint Resolve sound_emptyOverlay sound_env sound_join sound_mounted sound_ca sound_fold : overlay.

Lemma sound_skills skills : soundOverlay (buildSkills skills).
Proof.
  unfold buildSkills. destruct skills as [|s skills]; [auto with overlay|].
  destruct (String.eqb _ _); [auto with overlay|].
  intros m (p & -> & _)%list_elem_of_fmap. split; [done|left].
Qed.

Lemma sound_servers servers : soundOverlay (buildMCPServers servers).
Proof.
  apply sound_join; [|auto with overlay]. apply sound_fold. intros h. unfold headerOverlay.
  destruct (headerIsSecret h); auto with overlay.
Qed.

Lemma sound_secrets secrets : soundOverlay (buildRequiredSecrets secrets).
Proof.
  apply sound_fold. intros s. unfold requiredSecret. destruct (String.eqb _ _);
    [auto with overlay|]. destruct (String.eqb _ _); auto with overlay.
Qed.

Lemma sound_input secret cm : soundOverlay (inputOverlay secret cm).
Proof.
  apply sound_join; [auto with overlay|]. intros m ->%list_elem_of_singleton.
  split; [done|left].
Qed.

Lemma sound_tools tools : soundOverlay (toolsOverlay tools).
Proof.
  destruct tools as [t|]; cbn [toolsOverlay]; [|auto with overlay].
  apply sound_join; [apply sound_skills|]. apply sound_join; [|apply sound_secrets].
  destruct (_ <? _)%nat; [apply sound_servers|auto with overlay].
Qed.

Lemma sound_config cfg runUID step : soundOverlay (configOverlay cfg runUID step).
Proof.
  destruct cfg as [c|]; cbn [configOverlay]; [|auto with overlay].
  apply sound_join; [|apply sound_join; [|apply sound_join]].
  - unfold appendOTELEnvVars. destruct (String.eqb _ _); auto with overlay.
  - unfold appendMCPCAVolume. auto with overlay.
  - unfold appendRHOKPEnvVars. destruct (String.eqb _ _); auto with overlay.
  - unfold additionalCA. destruct (String.eqb _ _); [auto with overlay|].
    intros m ->%list_elem_of_singleton. split; [done|left].
Qed.

#[export] Hint Resolve sound_input sound_tools sound_config : overlay.

(** A name that is declared stays declared. *)
Lemma mergeVolumes_names base overlay n :
  NoDup (map volume_Name base) →
  n ∈ map volume_Name base ∨ n ∈ map volume_Name overlay →
  n ∈ map volume_Name (mergeVolumes base overlay).
Proof.
  intros Hnd Hn. destruct (mergeAll_spec volume_Name base overlay Hnd) as [_ Hel].
  destruct (lastWith volume_Name n overlay) as [v|] eqn:Hl.
  - destruct (lastWith_elem _ _ _ _ Hl) as [_ <-]. apply list_elem_of_fmap. exists v.
    split; [done|]. apply Hel. by left.
  - destruct Hn as [(v & -> & Hv)%list_elem_of_fmap|(v & -> & Hv)%list_elem_of_fmap].
    + apply list_elem_of_fmap. exists v. split; [done|]. apply Hel. by right.
    + by destruct (lastWith_None _ _ _ _ Hl Hv).
Qed.

Section BuildFacts.
Context `{RJ : RawJSON}.

(** C30: a built specification is well-formed: on a base whose volumes have distinct
    names, the result still has distinct volume names and distinct mount paths;
    the agent container mounts, beside what the base mounts, only volumes that
    are declared, and all of them read-only (credentials, input, secrets of the
    tools, certificates); the pod runs as the account of the step and is never
    restarted; and the other containers are those of the base. *)
Theorem Build_wellformed spec container others agent llm tools cfg step runUID
    serviceAccount inputCM traceparent timeoutSeconds maxTurns out :
  pspec_Containers spec = container :: others →
  NoDup (map volume_Name (pspec_Volumes spec)) →
  Build (Some spec) agent llm tools cfg step runUID serviceAccount inputCM traceparent
    timeoutSeconds maxTurns = Ok out →
  ∃ c, pspec_Containers out = c :: others ∧
    NoDup (map mnt_MountPath (ctr_VolumeMounts c)) ∧
    NoDup (map volume_Name (pspec_Volumes out)) ∧
    (∀ m, m ∈ ctr_VolumeMounts c →
       m ∈ ctr_VolumeMounts container ∨
       (mnt_ReadOnly m = true ∧ mnt_Name m ∈ map volume_Name (pspec_Volumes out))) ∧
    (∀ n, n ∈ map volume_Name (pspec_Volumes spec) → n ∈ map volume_Name (pspec_Volumes out)) ∧
    pspec_ServiceAccountName out = serviceAccount ∧ serviceAccount ≠ "" ∧
    pspec_AutomountServiceAccountToken out = Some true ∧ pspec_RestartPolicy out = "Never" ∧
    ctr_Env container `prefix_of` ctr_Env c.
Proof.
  intros Hc Hnd H. unfold Build in H. rewrite Hc in H.
  destruct agent as [a|]; [|done]. destruct llm as [l|]; [|done].
  destruct (String.eqb_spec serviceAccount "") as [|Hsa]; [done|].
  destruct (String.eqb inputCM ""); [done|]. destruct (reasoningEnv a) as [reasoning|e]; [|done].
  set (overlay := joinOverlay _ _) in H.
  assert (Hso : soundOverlay overlay) by (unfold overlay; auto with overlay).
  injection H as <-. cbn. eexists. split; [done|]. cbn.
  destruct (mergeAll_spec mnt_MountPath [] (ctr_VolumeMounts container ++ ov_Mounts overlay))
    as [Hmn Hmel]; [constructor|].
  destruct (mergeAll_spec volume_Name _ (ov_Volumes overlay) Hnd) as [Hvn _].
  split; [exact Hmn|]. split; [exact Hvn|]. split.
  - intros m [Hl|[?%elem_of_nil _]]%Hmel; [|done].
    apply lastWith_elem in Hl as [[Hm|Hm]%elem_of_app _]; [by left|right].
    apply Hso in Hm as [Hr Hn]. split; [done|]. apply mergeVolumes_names; [done|by right].
  - split; [intros n Hn; apply mergeVolumes_names; [done|by left]|].
    do 4 (split; [done|]). rewrite <- !app_assoc. by apply prefix_app_r.
Qed.

Lemma marshalEntries_total (m : gmap string JSON) keys :
  (∀ k, k ∈ keys → is_Some (m !! k)) →
  (∃ es, marshalEntries keys m = Ok es) ↔
  ∀ k raw, k ∈ keys → m !! k = Some raw → ∃ text, MarshalRaw raw = Ok text.
Proof.
  induction keys as [|k keys IH]; intros Hdom; cbn [marshalEntries].
  - split; [by intros _ k raw ?%elem_of_nil|by eexists].
  - destruct (Hdom k) as [raw Hraw]; [left|]. rewrite Hraw. cbn.
    specialize (IH (λ k' Hk', Hdom k' (list_elem_of_further _ _ _ Hk'))).
    destruct (MarshalRaw raw) as [text|e] eqn:Hm; cycle 1.
    { split; [by intros [? ?]|]. intros Hall.
      destruct (Hall k raw) as [text Ht]; [left|done|congruence]. }
    destruct (marshalEntries keys m) as [es|e].
    + split; [|by eexists]. intros _ k' raw' [->|Hk']%elem_of_cons Hr.
      * rewrite Hraw in Hr. injection Hr as <-. eauto.
      * by eapply IH; [eexists|..].
    + split; [by intros [? ?]|]. intros Hall. destruct IH as [_ IH].
      destruct IH as [? ?]; [|done]. intros k' raw' Hk'. apply Hall. by right.
Qed.

Lemma reasoningEnv_total a :
  (∃ env, reasoningEnv a = Ok env) ↔
  ∀ k raw, agent_ReasoningConfig (agent_Spec a) !! k = Some raw → ∃ text, MarshalRaw raw = Ok text.
Proof.
  unfold reasoningEnv, marshalReasoningConfig.
  generalize (agent_ReasoningConfig (agent_Spec a)). intros m. case_bool_decide as Hm.
  { split; [|by eexists]. intros _ k raw. by rewrite Hm, lookup_empty. }
  assert (Hk : ∀ k, k ∈ sortStrings (elements (dom m)) ↔ is_Some (m !! k)).
  { intros k. unfold sortStrings. rewrite (merge_sort_Permutation strLe), elem_of_elements.
    by rewrite elem_of_dom. }
  destruct (marshalEntries_total m (sortStrings (elements (dom m)))) as [H1 H2]; [by intros k ?%Hk|].
  destruct (marshalEntries _ m) as [es|e].
  - split; [|by eexists]. intros _ k raw Hr. eapply H1; [by eexists|apply Hk; eauto|done].
  - split; [by intros [? ?]|]. intros Hall. destruct H2 as [? ?]; [|done].
    intros k raw _. apply Hall.
Qed.

(** [Build] refuses exactly the incomplete requests: it returns a
    specification if and only if there is a base with a container, an agent, a
    provider, an account and an input, and every value of the agent's reasoning
    configuration can be marshalled. *)
Theorem Build_total base agent llm tools cfg step runUID serviceAccount inputCM traceparent
    timeoutSeconds maxTurns :
  (∃ out, Build base agent llm tools cfg step runUID serviceAccount inputCM traceparent
            timeoutSeconds maxTurns = Ok out) ↔
  (∃ spec, base = Some spec ∧ pspec_Containers spec ≠ []) ∧ llm ≠ None ∧
  serviceAccount ≠ "" ∧ inputCM ≠ "" ∧
  ∃ a, agent = Some a ∧
    ∀ k raw, agent_ReasoningConfig (agent_Spec a) !! k = Some raw → ∃ text, MarshalRaw raw = Ok text.
Proof.
  unfold Build. destruct base as [spec|]; cycle 1.
  { split; [by intros [? ?]|]. by intros [(? & ? & _) _]. }
  destruct (pspec_Containers spec) as [|container others] eqn:Hc.
  { split; [by intros [? ?]|]. intros [(? & [= <-] & ?) _]. congruence. }
  destruct agent as [a|]; cycle 1.
  { split; [by intros [? ?]|]. by intros (_ & _ & _ & _ & ? & ? & _). }
  destruct llm as [l|]; [|split; [by intros [? ?]|]; by intros (_ & ? & _)].
  destruct (String.eqb_spec serviceAccount "");
    [split; [by intros [? ?]|]; by intros (_ & _ & ? & _)|].
  destruct (String.eqb_spec inputCM "");
    [split; [by intros [? ?]|]; by intros (_ & _ & _ & ? & _)|].
  pose proof (reasoningEnv_total a) as Hreason. destruct (reasoningEnv a) as [env|e].
  - split; [|by eexists]. intros _. split; [exists spec; split; [done|congruence]|].
    do 3 (split; [done|]). exists a. split; [done|]. apply Hreason. by eexists.
  - split; [by intros [? ?]|]. intros (_ & _ & _ & _ & a' & [= <-] & Hall).
    apply Hreason in Hall as [? ?]. done.
Qed.
End BuildFacts.
