(* ===== verification/Results.v ===== *)
(** Result custom resources ([controller/agenticrun/results.go]): their names,
    their conditions, the bound on a recorded failure reason, and the
    create-or-update that makes recording a result idempotent. *)
From stdpp Require Import base list option strings gmap.
From Stdlib Require Import ZArith Lia.
From S2P Require Import Prelude GoText ApiMachinery Types Effects.

Local Open Scope string_scope.
Local Open Scope list_scope.
Local Open Scope prog_scope.

Definition maxResultFailureReason : Z := 8192.

(** [for limit > 0 && !utf8.ValidString(reason[:limit]) { limit-- }]. *)
Fixpoint validLimit (reason : string) (limit : nat) : nat :=
  match limit with
  | O => O
  | S n => if ValidString (str_take limit reason) then limit else validLimit reason n
  end.

Definition boundedFailureReason (reason : string) : string :=
  if (len reason <=? maxResultFailureReason)%Z then reason
  else
    let limit := validLimit reason (Z.to_nat (maxResultFailureReason - len "...")) in
    TrimSpace (str_take limit reason) +:+ "...".

(** [truncateK8sName] of [rbac.go]. *)
Definition truncateK8sName (name : string) : string :=
  if (63 <? String.length name)%nat then TrimRight (str_take 63 name) "-._" else name.

Definition resultCRName (agenticRunName step : string) (index : nat) : string :=
  truncateK8sName (agenticRunName +:+ "-" +:+ step +:+ "-" +:+ Itoa (Z.of_nat index)).

Definition agenticRunOwnerRef (run : AgenticRun) : OwnerReference :=
  MkOwnerReference "agentic.openshift.io/v1alpha1" "AgenticRun" (run_Name run) (run_UID run)
    (Some true) None.

Definition LabelRun : string := "agentic.openshift.io/run".
Definition LabelStep : string := "agentic.openshift.io/step".

Definition resultLabels (runUID step : string) : gmap string string :=
  <[LabelRun := runUID]> {[LabelStep := step]}.

Definition resultConditions (startTime : option Time) (completionTime : Time) (outcome : string)
    : list Condition :=
  let started :=
    match startTime with
    | Some t => [MkCondition ResultConditionStarted ConditionTrue 0 t ResultReasonStepStarted ""]
    | None => []
    end in
  let reason := if String.eqb outcome ActionOutcomeSucceeded then ResultReasonSucceeded
                else ResultReasonFailed in
  started ++ [MkCondition ResultConditionCompleted ConditionTrue 0 completionTime reason ""].

(** [copyResultStatus] on two objects of one kind; of different kinds it does nothing. *)
Definition copyResultStatus (dst src : ResultStatus) : ResultStatus :=
  match dst, src with
  | AnalysisResult d, AnalysisResult s =>
      AnalysisResult (MkAnalysisResultStatus (ar_Conditions d) (ar_ActionRequired s)
        (ar_Diagnosis s) (ar_Options s) (ar_Sandbox s) (ar_TokenUsage s) (ar_FailureReason s))
  | ExecutionResult d, ExecutionResult s =>
      ExecutionResult (MkExecutionResultStatus (er_Conditions d) (er_ActionsTaken s)
        (er_Sandbox s) (er_TokenUsage s) (er_FailureReason s))
  | VerificationResult d, VerificationResult s =>
      VerificationResult (MkVerificationResultStatus (vr_Conditions d) (vr_Checks s)
        (vr_Summary s) (vr_Sandbox s) (vr_TokenUsage s) (vr_FailureReason s))
  | EscalationResult d, EscalationResult s =>
      EscalationResult (MkEscalationResultStatus (esr_Conditions d) (esr_Summary s)
        (esr_Content s) (esr_Sandbox s) (esr_TokenUsage s) (esr_FailureReason s))
  | _, _ => dst
  end.

Section Results.
Context `{K : ApiMachinery} (r : AgenticRunReconciler).

Definition withResultMeta (o : ResultCR) (m : ObjectMeta) : ResultCR :=
  MkResultCR m (result_AgenticRunName o) (result_Status o).

(** [obj.SetUID], [obj.SetCreationTimestamp]. *)
Definition withIdentity (m from : ObjectMeta) : ObjectMeta :=
  MkObjectMeta (meta_Name m) (meta_Namespace m) (meta_UID from) (meta_ResourceVersion m)
    (meta_Generation m) (meta_CreationTimestamp from) (meta_DeletionTimestamp m)
    (meta_Labels m) (meta_Annotations m) (meta_OwnerReferences m) (meta_Finalizers m).

(** The object as the calls leave it, or the error. *)
Definition createIdempotent (obj : ResultCR) (kind : string) : M (res ResultCR) :=
  let name := meta_Name (result_Meta obj) in
  created <- call (CreateResult obj) ;;
  match created with
  | Err err =>
      if IsAlreadyExists err then
        got <- call (GetResult kind (objectKey (result_Meta obj))) ;;
        match got with
        | Err getErr =>
            Ret (Err (wrapError ("get existing " +:+ kind +:+ " " +:+ name) getErr))
        | Ok existing =>
            let conditions := GetConditions (result_Status obj) in
            let patched := withResultStatus existing
              (copyResultStatus (SetConditions (result_Status existing) conditions)
                 (result_Status obj)) in
            p <- call (StatusPatchResult existing patched) ;;
            match p with
            | Err patchErr =>
                Ret (Err (wrapError ("update existing " +:+ kind +:+ " " +:+ name +:+ " status")
                            patchErr))
            | Ok _ =>
                Ret (Ok (withResultMeta obj
                           (withIdentity (result_Meta obj) (result_Meta existing))))
            end
        end
      else Ret (Err (wrapError ("create " +:+ kind +:+ " " +:+ name) err))
  | Ok obj' =>
      let withStatus :=
        withResultMeta obj
          (withResourceVersion (result_Meta obj) (meta_ResourceVersion (result_Meta obj'))) in
      p <- call (StatusPatchResult obj' withStatus) ;;
      match p with
      | Err err =>
          Ret (Err (wrapError ("patch " +:+ kind +:+ " " +:+
                               meta_Name (result_Meta obj') +:+ " status") err))
      | Ok _ => Ret (Ok obj')
      end
  end.

(** The metadata of a new result and its completion time. *)
Definition newResultMeta (run : AgenticRun) (crName step : string) : ObjectMeta :=
  MkObjectMeta crName (r_Namespace r) "" "" 0%Z 0%Z None (resultLabels (run_UID run) step) ∅
    [agenticRunOwnerRef run] [].

Definition completedAt (completionTime : option Time) : M Time :=
  now <- call Now ;; Ret (default now completionTime).

(** The tail of the four creators: create, and return the snapshot with the
    identity the server gave. *)
Definition createSnapshot (cr : ResultCR) (kind : string) : M (res ResultCR) :=
  created <- createIdempotent cr kind ;;
  Ret match created with
      | Err e => Err e
      | Ok obj => Ok (withResultMeta cr (withIdentity (result_Meta cr) (result_Meta obj)))
      end.

Definition createAnalysisResult (run : AgenticRun) (result : option AnalysisOutput)
    (sandbox : SandboxInfo) (startTime completionTime : option Time) (failureReason : string)
    : M (string * res ResultCR) :=
  let crName := resultCRName (run_Name run) "analysis"
                  (length (step_Results (steps_Analysis (run_Steps run))) + 1) in
  let outcome := match result with
                 | Some o => ActionOutcomeFromBool (ao_Success o)
                 | None => ActionOutcomeFailed
                 end in
  completed <- completedAt completionTime ;;
  let conditions := resultConditions startTime completed outcome in
  let reason := boundedFailureReason failureReason in
  let status :=
    match result with
    | None => MkAnalysisResultStatus conditions "" zeroDiagnosis [] sandbox zeroTokenUsage reason
    | Some o =>
        MkAnalysisResultStatus conditions (ActionRequiredFromBool (IsActionRequired o))
          (match ao_Diagnosis o with
           | Some d => if negb (IsActionRequired o) && negb (String.eqb (diag_Summary d) "")
                          && negb (String.eqb (diag_RootCause d) "")
                       then d else zeroDiagnosis
           | None => zeroDiagnosis
           end)
          (ao_Options o) sandbox zeroTokenUsage reason
    end in
  created <- createSnapshot (MkResultCR (newResultMeta run crName "analysis") (run_Name run)
                               (AnalysisResult status)) "AnalysisResult" ;;
  Ret (crName, created).

Definition createExecutionResult (run : AgenticRun) (result : option ExecutionOutput)
    (sandbox : SandboxInfo) (startTime completionTime : option Time) (failureReason : string)
    : M (string * res ResultCR) :=
  let crName := resultCRName (run_Name run) "execution"
                  (length (step_Results (steps_Execution (run_Steps run))) + 1) in
  let outcome := match result with
                 | Some o => ActionOutcomeFromBool (eo_Success o)
                 | None => ActionOutcomeFailed
                 end in
  completed <- completedAt completionTime ;;
  let status :=
    MkExecutionResultStatus (resultConditions startTime completed outcome)
      (match result with Some o => eo_ActionsTaken o | None => [] end)
      sandbox zeroTokenUsage (boundedFailureReason failureReason) in
  created <- createSnapshot (MkResultCR (newResultMeta run crName "execution") (run_Name run)
                               (ExecutionResult status)) "ExecutionResult" ;;
  Ret (crName, created).

Definition createVerificationResult (run : AgenticRun) (result : option VerificationOutput)
    (sandbox : SandboxInfo) (startTime completionTime : option Time) (failureReason : string)
    : M (string * res ResultCR) :=
  let crName := resultCRName (run_Name run) "verification"
                  (length (step_Results (steps_Verification (run_Steps run))) + 1) in
  let outcome := match result with
                 | Some o => ActionOutcomeFromBool (vo_Success o)
                 | None => ActionOutcomeFailed
                 end in
  completed <- completedAt completionTime ;;
  let status :=
    MkVerificationResultStatus (resultConditions startTime completed outcome)
      (match result with Some o => vo_Checks o | None => [] end)
      (match result with Some o => vo_Summary o | None => "" end)
      sandbox zeroTokenUsage (boundedFailureReason failureReason) in
  created <- createSnapshot (MkResultCR (newResultMeta run crName "verification")
                               (run_Name run) (VerificationResult status))
               "VerificationResult" ;;
  Ret (crName, created).

Definition createEscalationResult (run : AgenticRun) (result : option EscalationOutput)
    (sandbox : SandboxInfo) (startTime completionTime : option Time) (failureReason : string)
    : M (string * res ResultCR) :=
  let crName := resultCRName (run_Name run) "escalation"
                  (length (step_Results (steps_Escalation (run_Steps run))) + 1) in
  let outcome := match result with
                 | Some o => ActionOutcomeFromBool (eso_Success o)
                 | None => ActionOutcomeFailed
                 end in
  completed <- completedAt completionTime ;;
  let status :=
    MkEscalationResultStatus (resultConditions startTime completed outcome)
      (match result with Some o => eso_Summary o | None => "" end)
      (match result with Some o => eso_Content o | None => "" end)
      sandbox zeroTokenUsage (boundedFailureReason failureReason) in
  created <- createSnapshot (MkResultCR (newResultMeta run crName "escalation")
                               (run_Name run) (EscalationResult status))
               "EscalationResult" ;;
  Ret (crName, created).
End Results.

(** ** Bounds *)
Lemma validLimit_spec reason limit :
  (validLimit reason limit ≤ limit)%nat ∧
  ValidString (str_take (validLimit reason limit) reason) = true.
Proof.
  induction limit as [|n IH]; simpl.
  - split; [lia|]. unfold str_take. by destruct reason.
  - destruct (ValidString (str_take (S n) reason)) eqn:Hv; [by split|].
    destruct IH. split; [lia|done].
Qed.

(** A recorded failure reason is at most 8192 bytes long, is the reason
    itself when that fits, and is valid UTF-8 whenever it had to be cut. *)
Theorem boundedFailureReason_bounded reason :
  (len (boundedFailureReason reason) ≤ maxResultFailureReason)%Z ∧
  ((len reason ≤ maxResultFailureReason)%Z → boundedFailureReason reason = reason) ∧
  ((maxResultFailureReason < len reason)%Z → ValidString (boundedFailureReason reason) = true).
Proof.
  unfold boundedFailureReason.
  destruct (Z.leb_spec (len reason) maxResultFailureReason) as [Hle|Hgt];
    [split; [done|split; [done|lia]]|].
  destruct (validLimit_spec reason (Z.to_nat (maxResultFailureReason - len "..."))) as [Hl Hv].
  set (limit := validLimit _ _) in *. split; [|split; [lia|intros _]].
  - unfold len. rewrite string_length_app.
    pose proof (TrimSpace_length (str_take limit reason)).
    pose proof (str_take_length limit reason).
    change (len "...") with 3%Z in Hl. change (String.length "...") with 3%nat.
    unfold maxResultFailureReason in *. lia.
  - by rewrite ValidString_app by (by apply TrimSpace_valid).
Qed.

Lemma truncateK8sName_length name : (String.length (truncateK8sName name) ≤ 63)%nat.
Proof.
  unfold truncateK8sName. destruct (Nat.ltb_spec 63 (String.length name)); [|lia].
  etrans; [apply trimRightAny_length|apply str_take_length].
Qed.
