(* ===== verification/Helpers.v ===== *)
(** Shared decisions and guards of the run controller
    ([controller/agenticrun/helpers.go] and the suspension helpers of
    [handlers.go]): transient errors and retries, the durable stop marker, the
    guard every late status write passes, and the failure of a step. *)
From stdpp Require Import base list option strings gmap.
From Stdlib Require Import ZArith Lia.
From S2P Require Import Prelude GoText ApiMachinery Types Phase Effects Approval Results.

Local Open Scope string_scope.
Local Open Scope list_scope.
Local Open Scope prog_scope.

Definition preserveSandboxAnnotation : string := "agentic.openshift.io/preserve-sandbox".
Definition cleanupTimeout : Duration := (30 * Second)%Z.
Definition SuspensionStopWindow : Duration := (10 * Second)%Z.
Definition suspensionRequeueAfter : Duration := (5 * Second)%Z.
Definition rbacCleanupFinalizer : string := "agentic.openshift.io/execution-rbac-cleanup".
Definition templogCleanupFinalizer : string := "agentic.openshift.io/templog-cleanup".
Definition templogCleanupAttemptsAnnotation : string :=
  "agentic.openshift.io/templog-cleanup-attempts".
Definition templogMaxCleanupAttempts : Z := 3.
Definition templogCleanupRequeueAfter : Duration := (5 * Second)%Z.
Definition terminalTTLLabel : string := "agentic.openshift.io/ttl-managed".
Definition rbacNamespacesAnnotation : string := "agentic.openshift.io/rbac-namespaces".

Definition reasonInProgress : string := "InProgress".
Definition reasonComplete : string := "Complete".
Definition reasonFailed : string := "Failed".
Definition reasonSkipped : string := "Skipped".
Definition reasonPassed : string := "Passed".
Definition reasonWorkflowFailed : string := "WorkflowResolutionFailed".
Definition reasonUserDenied : string := "UserDenied".
Definition reasonRevising : string := "Revising".
Definition reasonRevisionComplete : string := "RevisionComplete".
Definition reasonSystemSuspended : string := "SystemSuspended".
Definition reasonTeardownComplete : string := "TeardownComplete".
Definition reasonTeardownFailed : string := "TeardownFailed".
Definition reasonEmergencyStopFailed : string := "EmergencyStopFailed".
Definition reasonNoActionRequired : string := ReasonNoActionRequired.

Definition AnnotationRunName : string := "agentic.openshift.io/run-name".
Definition sandboxModeSandboxClaim : string := "sandbox-claim".
Definition LabelComponent : string := "agentic.openshift.io/component".
Definition defaultSandboxSA : string := "lightspeed-agent".

Definition maxCreateRetries : nat := 3.
Definition retryBaseDelay : Duration := (5 * Second)%Z.

Definition preserveFailedSandbox (run : AgenticRun) : bool :=
  foldEq (TrimSpace (mapGet (run_Annotations run) preserveSandboxAnnotation)) "true".

(** [1 << (attempt - 1)] on an [int64], the shift count being positive. *)
Definition retryBackoff (attempt : Z) : Duration :=
  wrap64 (retryBaseDelay * wrap64 (Z.shiftl 1 (attempt - 1))).

Definition hasSandboxClaims (run : AgenticRun) : bool :=
  let claim st := negb (String.eqb (sandbox_ClaimName (step_Sandbox st)) "") in
  let s := run_Steps run in
  claim (steps_Analysis s) || claim (steps_Execution s) || claim (steps_Verification s)
  || claim (steps_Escalation s).

Fixpoint terminalReasonOf (cs : list Condition) : string :=
  match cs with
  | [] => ""
  | c :: cs' =>
      if bool_decide (cond_Status c = ConditionFalse) && String.eqb (cond_Reason c) reasonFailed
      then cond_Message c
      else if bool_decide (cond_Status c = ConditionTrue)
              && (String.eqb (cond_Reason c) reasonUserDenied
                  || String.eqb (cond_Reason c) reasonSystemSuspended
                  || String.eqb (cond_Reason c) reasonNoActionRequired)
      then cond_Message c
      else terminalReasonOf cs'
  end.

Definition terminalReason (run : AgenticRun) : string := terminalReasonOf (run_Conditions run).

(** A condition [c != nil && c.Status == status && c.Reason == reason]. *)
Definition condHas (c : option Condition) (status : ConditionStatus) (reason : string) : bool :=
  match c with
  | Some x => bool_decide (cond_Status x = status) && String.eqb (cond_Reason x) reason
  | None => false
  end.

Definition resetExecutionAndVerification (s : StepsStatus) : StepsStatus :=
  let s1 := withExecutionStep s (withSandbox (steps_Execution s) emptySandboxInfo) in
  withVerificationStep s1 (withSandbox (steps_Verification s1) emptySandboxInfo).

(** [latest := refs[len(refs)-1]]. *)
Definition latestRef (refs : list StepResultRef) : option StepResultRef := last refs.

(** The status of a step, if the name is one of the four. *)
Definition stepStatusOf (s : StepsStatus) (step : string) : option StepStatus :=
  if String.eqb step "analysis" then Some (steps_Analysis s)
  else if String.eqb step "execution" then Some (steps_Execution s)
  else if String.eqb step "verification" then Some (steps_Verification s)
  else if String.eqb step "escalation" then Some (steps_Escalation s)
  else None.

Definition sandboxClaimName (run : AgenticRun) (step : string) : string :=
  from_option (λ st, sandbox_ClaimName (step_Sandbox st)) "" (stepStatusOf (run_Steps run) step).

(** [nextResultIndex] of [input_configmap.go]. *)
Definition nextResultIndex (run : AgenticRun) (step : string) : nat :=
  from_option (λ st, length (step_Results st) + 1) 1 (stepStatusOf (run_Steps run) step).

Section Helpers.
Context `{K : ApiMachinery} (r : AgenticRunReconciler).

(** [client.IgnoreNotFound] on a possibly nil error. *)
Definition ignoreNotFound (e : option error) : option error :=
  match e with Some err => IgnoreNotFound err | None => None end.

Definition isTransient (err : error) : bool :=
  if IsServerTimeout err || IsTimeout err || IsTooManyRequests err
     || IsServiceUnavailable err || IsInternalError err || IsConflict err
  then true
  else errorsAny isNetError err.

(** The loop of [retryOnTransient] from [attempt] on, with [left] attempts left.
    The function sets a variable of its caller, [seen] being its last value. *)
Fixpoint retryFrom {A} (left : nat) (attempt : Z) (seen : A) (lastErr : option error)
    (fn : M (A * option error)) : M (A * option error) :=
  match left with
  | O => Ret (seen, lastErr)
  | S left' =>
      out <- fn ;;
      let '(value, o) := out in
      match o with
      | None => Ret (value, None)
      | Some err =>
          if negb (isTransient err) then Ret (value, Some err)
          else if (attempt <? Z.of_nat maxCreateRetries)%Z then
            done <- call (Sleep (retryBackoff attempt)) ;;
            match done with
            | Some ctxErr => Ret (value, Some ctxErr)
            | None => retryFrom left' (attempt + 1) value (Some err) fn
            end
          else retryFrom left' (attempt + 1) value (Some err) fn
      end
  end.

Definition retryOnTransient {A} (seen : A) (fn : M (A * option error)) : M (A * option error) :=
  retryFrom maxCreateRetries 1 seen None fn.

Definition find (run : AgenticRun) (typ : string) : option Condition :=
  FindStatusCondition (run_Conditions run) typ.

Definition isEmergencyStopFailure (c : Condition) : bool :=
  bool_decide (cond_Status c = ConditionFalse)
  && String.eqb (cond_Reason c) reasonEmergencyStopFailed.

Definition HasFinalStopOutcome (run : AgenticRun) : bool :=
  let stopping := find run AgenticRunConditionStopping in
  if condHas stopping ConditionFalse reasonTeardownComplete
     || condHas stopping ConditionFalse reasonTeardownFailed then true
  else if condIs (find run AgenticRunConditionEmergencyStopped) ConditionTrue then true
  else existsb isEmergencyStopFailure (run_Conditions run).

Definition HasAcceptedStop (run : AgenticRun) : bool :=
  if condHas (find run AgenticRunConditionStopping) ConditionTrue reasonSystemSuspended
  then true
  else HasFinalStopOutcome run.

Definition isNoActionRequired (run : AgenticRun) : bool :=
  condHas (find run AgenticRunConditionAnalyzed) ConditionTrue reasonNoActionRequired.

Definition needsRevision (run : AgenticRun) : bool :=
  if String.eqb (spec_RevisionFeedback (run_Spec run)) "" then false
  else match find run AgenticRunConditionAnalyzed with
       | None => false
       | Some analyzed => (cond_ObservedGeneration analyzed <? run_Generation run)%Z
       end.

Definition conditionTime (conditions : list Condition) (condType : string) : option Time :=
  cond_LastTransitionTime <$> FindStatusCondition conditions condType.

(** [meta.SetStatusCondition(&run.Status.Conditions, ...)] with
    [ObservedGeneration: run.Generation]: it reads the clock. *)
Definition setCondition (run : AgenticRun) (typ : string) (status : ConditionStatus)
    (reason message : string) : M AgenticRun :=
  now <- call Now ;;
  Ret (withConditions run
         (SetStatusCondition now (run_Conditions run)
            (NewCondition typ status reason message (run_Generation run)))).

Definition setVerificationSkipped (run : AgenticRun) : M AgenticRun :=
  setCondition run AgenticRunConditionVerified ConditionTrue reasonSkipped
    "Verification step not configured in workflow".

(** [statusPatch] with an optimistic lock: on success [run] becomes the
    server's answer. *)
Definition statusPatch (run base : AgenticRun) : M (res AgenticRun) :=
  call (StatusPatchRun base run).

Definition readRunnableRun (key : NamespacedName) (uid : string) : M (res AgenticRun) :=
  if negb (r_APIReader r) then
    Ret (Err (errorString "uncached API reader is required before run workflow work"))
  else
    got <- call (ApiGetRun key) ;;
    match got with
    | Err err => Ret (Err err)
    | Ok current =>
        if negb (String.eqb (run_UID current) uid) || HasAcceptedStop current
        then Ret (Err errStopAccepted)
        else
          config <- call (ApiGetConfig "cluster") ;;
          match config with
          | Err err => if negb (IsNotFound err) then Ret (Err err) else Ret (Ok current)
          | Ok c => if config_Suspended c then Ret (Err errStopAccepted) else Ret (Ok current)
          end
    end.

Definition isStopAcceptedError (err : error) : bool := errorsAny isSentinelStop err.

(** [append(step.Results, StepResultRef{Name: name, Outcome: Failed})]. *)
Definition appendResult (st : StepStatus) (name outcome : string) : StepStatus :=
  withResults st (step_Results st ++ [MkStepResultRef name outcome]).

(** The [switch conditionType] of [failStep]: create the failure result of
    the step and, when that succeeds, refer to it. *)
Definition recordFailure (run : AgenticRun) (conditionType : string) (completedAt : Time)
    (message : string) : M AgenticRun :=
  let startTime := conditionTime (run_Conditions run) conditionType in
  let s := run_Steps run in
  let add (created : string * res ResultCR) upd st :=
    match snd created with
    | Ok _ => withSteps run (upd s (appendResult st (fst created) ActionOutcomeFailed))
    | Err _ => run
    end in
  if String.eqb conditionType AgenticRunConditionAnalyzed then
    created <- createAnalysisResult r run None (step_Sandbox (steps_Analysis s))
                 startTime (Some completedAt) message ;;
    Ret (add created withAnalysisStep (steps_Analysis s))
  else if String.eqb conditionType AgenticRunConditionExecuted then
    created <- createExecutionResult r run None (step_Sandbox (steps_Execution s))
                 startTime (Some completedAt) message ;;
    Ret (add created withExecutionStep (steps_Execution s))
  else if String.eqb conditionType AgenticRunConditionVerified then
    created <- createVerificationResult r run None (step_Sandbox (steps_Verification s))
                 startTime (Some completedAt) message ;;
    Ret (add created withVerificationStep (steps_Verification s))
  else if String.eqb conditionType AgenticRunConditionEscalated then
    created <- createEscalationResult r run None (step_Sandbox (steps_Escalation s))
                 startTime (Some completedAt) message ;;
    Ret (add created withEscalationStep (steps_Escalation s))
  else Ret run.

Definition failStep (run : AgenticRun) (conditionType : string) (err : error) : M outcome :=
  if negb (r_APIReader r) then
    Ret (fail (errorString "uncached API reader is required before failing a run step"))
  else
    guard <- readRunnableRun (run_Key run) (run_UID run) ;;
    match guard with
    | Err guardErr =>
        if isSentinelStop guardErr then Ret (ok requeueNow) else Ret (fail guardErr)
    | Ok base =>
        completed <- call Now ;;
        run1 <- recordFailure base conditionType completed (Error err) ;;
        run2 <- setCondition run1 conditionType ConditionFalse reasonFailed (Error err) ;;
        statusPatch run2 base ;;;
        Ret (ok emptyResult)
    end.

Definition analysisStatus (o : ResultCR) : AnalysisResultStatus :=
  match result_Status o with
  | AnalysisResult s => s
  | _ => MkAnalysisResultStatus [] "" zeroDiagnosis [] emptySandboxInfo zeroTokenUsage ""
  end.

Definition getLatestAnalysisResult (run : AgenticRun) : M (res (option ResultCR)) :=
  match latestRef (step_Results (steps_Analysis (run_Steps run))) with
  | None => Ret (Ok None)
  | Some latest =>
      got <- call (GetResult "AnalysisResult"
                     (MkNamespacedName (r_Namespace r) (ref_Name latest))) ;;
      match got with
      | Err err => Ret (Err (wrapError ("get AnalysisResult " +:+ ref_Name latest) err))
      | Ok result => Ret (Ok (Some result))
      end
  end.

Definition selectedOption (run : AgenticRun) : M (res (option RemediationOption)) :=
  got <- getLatestAnalysisResult run ;;
  Ret match got with
      | Err err => Err err
      | Ok None => Ok None
      | Ok (Some result) => Ok (head (ar_Options (analysisStatus result)))
      end.

(** [result.Status.Options = []RemediationOption{selected}]. *)
Definition withOptions (o : ResultCR) (opts : list RemediationOption) : ResultCR :=
  match result_Status o with
  | AnalysisResult s =>
      withResultStatus o (AnalysisResult (MkAnalysisResultStatus (ar_Conditions s)
        (ar_ActionRequired s) (ar_Diagnosis s) opts (ar_Sandbox s) (ar_TokenUsage s)
        (ar_FailureReason s)))
  | _ => o
  end.

(** [None] is a panic on a slice index. *)
Definition trimNonSelectedOptions (run : AgenticRun) (approval : option AgenticRunApproval)
    : M (option (res (option RemediationOption))) :=
  got <- getLatestAnalysisResult run ;;
  match got with
  | Err err => Ret (Some (Err err))
  | Ok None => Ret (Some (Ok None))
  | Ok (Some result) =>
      let options := ar_Options (analysisStatus result) in
      match options with
      | [] => Ret (Some (Ok None))
      | [single] => Ret (Some (Ok (Some single)))
      | _ =>
          let idx := getStageOption approval in
          if (idx <? 0)%Z || (Z.of_nat (length options) <=? idx)%Z then
            Ret (Some (Err (errorString
              ("selected option index " +:+ Itoa idx +:+ " out of range (have " +:+
               Itoa (Z.of_nat (length options)) +:+ " options)"))))
          else
            match options !! Z.to_nat idx with
            | None => Ret None   (* index out of range *)
            | Some selected =>
                p <- call (StatusPatchResult result (withOptions result [selected])) ;;
                match p with
                | Err err => Ret (Some (Err (wrapError "trim AnalysisResult options" err)))
                | Ok trimmed =>
                    match ar_Options (analysisStatus trimmed) with
                    | [] => Ret None   (* Options[0] of the server's answer *)
                    | o :: _ => Ret (Some (Ok (Some o)))
                    end
                end
            end
      end
  end.

(** ** Runs of the helpers *)

(** The call neither writes a run nor launches work. *)
Definition quiet (ev : event answer) : Prop := writesRun ev = false ∧ launches ev = false.

Lemma createIdempotent_quiet obj kind : emits quiet (createIdempotent obj kind).
Proof. unfold createIdempotent. emits_walk done. Qed.

Lemma createSnapshot_quiet cr kind : emits quiet (createSnapshot cr kind).
Proof.
  apply emits_bind; [apply createIdempotent_quiet|]. intros []; apply emits_ret.
Qed.

Lemma recordFailure_quiet run ct t msg : emits quiet (recordFailure run ct t msg).
Proof.
  unfold recordFailure, createAnalysisResult, createExecutionResult, createVerificationResult,
    createEscalationResult, completedAt.
  emits_walk done; apply createSnapshot_quiet.
Qed.

Lemma readRunnableRun_quiet key uid : emits quiet (readRunnableRun key uid).
Proof. unfold readRunnableRun. emits_walk done. Qed.

Lemma setCondition_quiet run typ st reason msg : emits quiet (setCondition run typ st reason msg).
Proof. unfold setCondition. emits_walk done. Qed.

Lemma getLatestAnalysisResult_quiet run : emits quiet (getLatestAnalysisResult run).
Proof. unfold getLatestAnalysisResult. emits_walk done. Qed.

Lemma selectedOption_quiet run : emits quiet (selectedOption run).
Proof. unfold selectedOption. emits_walk ltac:(apply getLatestAnalysisResult_quiet). 
  apply getLatestAnalysisResult_quiet. Qed.

Lemma trimNonSelectedOptions_quiet run approval :
  emits quiet (trimNonSelectedOptions run approval).
Proof.
  unfold trimNonSelectedOptions. emits_walk done. apply getLatestAnalysisResult_quiet.
Qed.

Lemma setCondition_run run typ st reason msg tr run' :
  runs (setCondition run typ st reason msg) tr run' →
  ∃ now, run' = withConditions run
    (SetStatusCondition now (run_Conditions run)
       (NewCondition typ st reason msg (run_Generation run))).
Proof. unfold setCondition. intros H. repeat runs_step. eauto. Qed.

Lemma quiet_no_patches tr : Forall quiet tr → statusPatches tr = [].
Proof.
  intros H. apply omap_none. eapply Forall_impl; [exact H|].
  intros [e a] [Hw _]. by destruct e.
Qed.

Lemma quiet_no_launches tr : Forall quiet tr → none launches tr.
Proof. intros H. eapply Forall_impl; [exact H|]. by intros ? [_ ?]. Qed.

(** What the guard lets through: the run as just read, of the same UID, without
    an accepted stop, while the global configuration does not suspend. *)
Definition guarded (key : NamespacedName) (uid : string) (tr : trace) (current : AgenticRun)
    : Prop :=
  ∃ config, tr = [Ev (ApiGetRun key) (Ok current); Ev (ApiGetConfig "cluster") config] ∧
    run_UID current = uid ∧ HasAcceptedStop current = false ∧
    match config with
    | Ok c => config_Suspended c = false
    | Err e => IsNotFound e = true
    end.

Lemma readRunnableRun_ok key uid tr current :
  runs (readRunnableRun key uid) tr (Ok current) → guarded key uid tr current.
Proof.
  unfold readRunnableRun, guarded. intros H. repeat runs_step; simplify_eq; bool_hyps;
    eexists; repeat split; eauto.
Qed.

(** The results of every step are kept, in order. *)
Definition resultsKept (base obj : AgenticRun) : Prop :=
  step_Results (steps_Analysis (run_Steps base))
    `prefix_of` step_Results (steps_Analysis (run_Steps obj)) ∧
  step_Results (steps_Execution (run_Steps base))
    `prefix_of` step_Results (steps_Execution (run_Steps obj)) ∧
  step_Results (steps_Verification (run_Steps base))
    `prefix_of` step_Results (steps_Verification (run_Steps obj)) ∧
  step_Results (steps_Escalation (run_Steps base))
    `prefix_of` step_Results (steps_Escalation (run_Steps obj)).

Lemma recordFailure_run run ct t msg tr run' :
  runs (recordFailure run ct t msg) tr run' →
  run_Conditions run' = run_Conditions run ∧ run_Meta run' = run_Meta run ∧
  run_Spec run' = run_Spec run ∧ resultsKept run run'.
Proof.
  unfold recordFailure, resultsKept. intros H.
  repeat runs_step; repeat case_match; simplify_eq/=;
    repeat split; solve [done | by apply prefix_app_r].
Qed.

(** The two shapes of a run of [failStep]: the guard stops it, or it patches
    the freshly read run once, at its end. *)
Lemma failStep_run run ct err tr o :
  runs (failStep run ct err) tr o →
  Forall quiet tr ∨
  ∃ tr0 base obj now ans,
    tr = tr0 ++ [Ev (StatusPatchRun base obj) ans] ∧ Forall quiet tr0 ∧ o = ok emptyResult ∧
    (∃ trg tr1, tr0 = trg ++ tr1 ∧ guarded (run_Key run) (run_UID run) trg base) ∧
    run_Conditions obj = SetStatusCondition now (run_Conditions base)
      (NewCondition ct ConditionFalse reasonFailed (Error err) (run_Generation base)) ∧
    resultsKept base obj.
Proof.
  unfold failStep. intros H. runs_step; [runs_step; by left|].
  apply runs_bind in H as (trg & guard & tr1 & -> & Hg & H).
  pose proof (readRunnableRun_quiet _ _ _ _ Hg) as Hq.
  destruct guard as [base|e]; cycle 1.
  { left. runs_step; runs_step; by rewrite app_nil_r. }
  right. run_call H now.
  apply runs_bind in H as (tr3 & run1 & tr4 & -> & Hr & H).
  apply runs_bind in H as (tr5 & run2 & tr6 & -> & Hs & H).
  pose proof (recordFailure_quiet _ _ _ _ _ _ Hr) as Hq3.
  pose proof (setCondition_quiet _ _ _ _ _ _ _ Hs) as Hq5.
  apply recordFailure_run in Hr as (Hc & Hm & _ & Hk).
  apply setCondition_run in Hs as [now' ->].
  unfold statusPatch in H. run_call H ans. runs_step.
  exists (trg ++ Ev Now now :: tr3 ++ tr5), base. do 3 eexists.
  split; [by rewrite <- !app_assoc; simpl; rewrite <- !app_assoc|].
  split; [rewrite !Forall_app, Forall_cons, Forall_app; repeat split; done|].
  split; [done|]. split; [eexists _, _; split; [done|by apply readRunnableRun_ok]|].
  simpl. unfold run_Generation, run_Conditions in *. rewrite Hc, Hm. split; [done|exact Hk].
Qed.

Lemma failStep_no_launch run ct err : emits (λ ev, launches ev = false) (failStep run ct err).
Proof.
  intros tr o [Hq|(tr0 & base & obj & now & ans & -> & Hq & _)]%failStep_run.
  - by apply quiet_no_launches.
  - apply Forall_app; split; [by apply quiet_no_launches|repeat constructor].
Qed.

(** ** Retries *)
Definition sleepOf (ev : event answer) : option Duration :=
  match ev with Ev (Sleep d) _ => Some d | _ => None end.
Definition sleeps (tr : trace) : list Duration := omap sleepOf tr.

Lemma sleeps_none {A} (m : M A) tr o :
  emits (λ ev, sleepOf ev = None) m → runs m tr o → sleeps tr = [].
Proof.
  intros Hm H. apply omap_none. by eapply Hm.
Qed.

Fixpoint waits (left : nat) (attempt : Z) : list Duration :=
  match left with
  | O => []
  | S left' =>
      if (attempt <? Z.of_nat maxCreateRetries)%Z
      then retryBackoff attempt :: waits left' (attempt + 1)
      else waits left' (attempt + 1)
  end.

Lemma retryFrom_waits {A} (fn : M (A * option error)) left attempt seen lastErr tr o :
  emits (λ ev, sleepOf ev = None) fn →
  runs (retryFrom left attempt seen lastErr fn) tr o →
  sleeps tr `prefix_of` waits left attempt ∧
  (∀ err, snd o = Some err → sleeps tr = [] → (attempt < Z.of_nat maxCreateRetries)%Z →
     (0 < left)%nat → isTransient err = false).
Proof.
  intros Hfn. revert attempt seen lastErr tr.
  induction left as [|left IH]; intros attempt seen lastErr tr H; cbn [retryFrom waits] in H |- *.
  { apply runs_ret in H as [-> ->]. split; [done|lia]. }
  apply runs_bind in H as (tr1 & [value o1] & tr2 & -> & H1 & H).
  unfold sleeps. rewrite omap_app. fold (sleeps tr1) (sleeps tr2).
  rewrite (sleeps_none fn tr1 (value, o1)) by done. simpl.
  destruct o1 as [err|]; [|runs_step; simpl; split; [apply prefix_nil|done]].
  destruct (isTransient err) eqn:Ht; cbn [negb] in H;
    [|runs_step; simpl; split; [apply prefix_nil|by intros ? [= <-]]].
  destruct (Z.ltb_spec attempt (Z.of_nat maxCreateRetries)).
  - run_call H r1. destruct r1 as [ctxErr|].
    + runs_step. simpl. split; [apply prefix_cons, prefix_nil|done].
    + apply IH in H as [H _]. simpl. split; [by apply prefix_cons|done].
  - apply IH in H as [H _]. split; [done|lia].
Qed.

(** Creating an object is retried with back-off: whatever the attempts
    answer, the operator waits at most twice, five and then ten seconds, and
    an error it gives up on without waiting is not transient. *)
Theorem retryOnTransient_backoff {A} (fn : M (A * option error)) seen tr o :
  emits (λ ev, sleepOf ev = None) fn →
  runs (retryOnTransient seen fn) tr o →
  sleeps tr `prefix_of` [(5 * Second)%Z; (10 * Second)%Z] ∧
  (∀ err, snd o = Some err → sleeps tr = [] → isTransient err = false).
Proof.
  intros Hfn H. apply retryFrom_waits in H as [Hp Ht]; [|done].
  split; [exact Hp|]. intros err He Hn. apply Ht; try done. unfold maxCreateRetries. lia.
Qed.

(** ** Failing a step *)

(** A step fails on the run as the API server holds it: the one status
    patch [failStep] may send starts from a run just read under the same UID,
    with no accepted stop and no global suspension; it keeps every recorded
    result; and when the condition is the one of the work in progress the
    run is [Failed] afterwards. *)
Theorem failStep_fails `{!ApiMachineryLaws K} run ct err tr o base obj :
  runs (failStep run ct err) tr o →
  (base, obj) ∈ statusPatches tr →
  statusPatches tr = [(base, obj)] ∧
  (∃ trg, guarded (run_Key run) (run_UID run) trg base ∧ trg `prefix_of` tr) ∧
  resultsKept base obj ∧
  (isTerminal (DerivePhase (run_Conditions base)) = false →
   ct = suspensionFailureCondition (DerivePhase (run_Conditions base)) →
   DerivePhase (run_Conditions obj) = PhaseFailed).
Proof.
  intros H Hin. apply failStep_run in H as
    [Hq|(tr0 & base' & obj' & now & ans & -> & Hq & _ & (trg & tr1 & -> & Hg) & Hc & Hk)].
  { by rewrite (quiet_no_patches _ Hq) in Hin; apply elem_of_nil in Hin. }
  rewrite statusPatches_app, (quiet_no_patches _ Hq) in *. simpl in *.
  apply list_elem_of_singleton in Hin. simplify_eq.
  split; [done|]. split; [exists trg; split; [done|]|].
  { rewrite <- app_assoc. by apply prefix_app_r. }
  split; [done|]. intros Hnt ->. rewrite Hc. by apply DerivePhase_fail.
Qed.

(** ** Selecting an option *)
Definition resultPatchOf (ev : event answer) : option (ResultCR * ResultCR) :=
  match ev with Ev (StatusPatchResult base obj) _ => Some (base, obj) | _ => None end.

(** The option an approval selects is in range or execution is not
    reached: the analysis result is patched only down to the one option at
    the approved index, and a panic on the options would need the API server
    to answer that patch with a result that has none. *)
Theorem trimNonSelectedOptions_in_range run approval tr o :
  runs (trimNonSelectedOptions run approval) tr o →
  (∀ base obj, (base, obj) ∈ omap resultPatchOf tr →
     ∃ opt, (0 ≤ getStageOption approval)%Z ∧
       ar_Options (analysisStatus base) !! Z.to_nat (getStageOption approval) = Some opt ∧
       obj = withOptions base [opt]) ∧
  (o = None → ∃ base obj trimmed, Ev (StatusPatchResult base obj) (Ok trimmed) ∈ tr ∧
     ar_Options (analysisStatus trimmed) = []).
Proof.
  unfold trimNonSelectedOptions. intros (tr1 & got & tr2 & -> & Hg & H)%runs_bind.
  assert (Hq : emits (λ ev, resultPatchOf ev = None) (getLatestAnalysisResult run))
    by (unfold getLatestAnalysisResult; emits_walk done).
  apply Hq, omap_none in Hg. rewrite omap_app, Hg, app_nil_l.
  assert (Hret : ∀ v, runs (Ret v) tr2 o → v ≠ None → omap resultPatchOf tr2 = [] ∧ o ≠ None)
    by (intros v [-> ->]%runs_ret ?; done).
  destruct got as [[result|]|err];
    [|by destruct (Hret _ H) as [-> ?]; [done|set_solver]..].
  destruct (ar_Options (analysisStatus result)) as [|opt1 [|opt2 opts]] eqn:Hopts;
    [by destruct (Hret _ H) as [-> ?]; [done|set_solver]..|].
  destruct (_ || _) eqn:Hrange; [by destruct (Hret _ H) as [-> ?]; [done|set_solver]|].
  bool_hyps. destruct (_ !! _) as [selected|] eqn:Hsel; cycle 1.
  { apply lookup_ge_None in Hsel. lia. }
  run_call H p. assert (Hp : omap resultPatchOf tr = [] ∧ (o = None →
    ∃ trimmed, p = Ok trimmed ∧ ar_Options (analysisStatus trimmed) = [])).
  { destruct p as [trimmed|e]; [|by runs_step].
    destruct (ar_Options (analysisStatus trimmed)) eqn:?; runs_step;
      (split; [done|]); intros; simplify_eq; eauto. }
  destruct Hp as [Hp Ho]. rewrite omap_cons, Hp. simpl. split.
  - intros base obj [= -> ->]%list_elem_of_singleton. rewrite Hopts. eauto.
  - intros (trimmed & -> & ?)%Ho. exists result, (withOptions result [selected]), trimmed.
    split; [|done]. apply elem_of_app. right. left.
Qed.
End Helpers.

(** A condition that was just set. *)
Lemma condHas_set `{K : ApiMachinery} {KL : ApiMachineryLaws K} now run cs c status reason typ :
  cond_Type c = typ →
  run_Conditions run = SetStatusCondition now cs c →
  condHas (find run typ) status reason
  = bool_decide (cond_Status c = status) && String.eqb (cond_Reason c) reason.
Proof.
  intros <- Hc. unfold find. rewrite FindStatusCondition_first, Hc.
  destruct (SetStatusCondition_fields now cs c) as [t ->]. done.
Qed.
