(* ===== verification/InputConfigMap.v ===== *)
(** The input of a sandbox ([controller/agenticrun/input_configmap.go], the
    templates of [helpers.go] and the agent context of [sandbox_agent.go]):
    what previous attempts, the approved option and the execution tell the
    agent, the prompts of a step, and the configuration map that carries them. *)
From stdpp Require Import base list option strings gmap.
From Stdlib Require Import ZArith Lia.
From S2P Require Import Prelude GoText Json ApiMachinery Types Objects Phase Effects Approval.
From S2P Require Import Resolve PodSpecBuilder Results Helpers.

Local Open Scope string_scope.
Local Open Scope list_scope.

Definition ErrBuildInputConfigMap : string := "build input ConfigMap".
Definition ErrBuildResultTemplate : string := "build result template".
Definition ErrMarshalInputContext : string := "marshal input context".
Definition ErrMarshalResultTemplate : string := "marshal result template".
Definition ErrUnknownStep : string := "unknown step".
Definition inputConfigMapKeyQuery : string := "query".
Definition inputConfigMapKeySystemPrompt : string := "system-prompt".
Definition inputConfigMapKeySchema : string := "output-schema".
Definition inputConfigMapKeyCtx : string := "context".
Definition inputConfigMapKeyTmpl : string := "result-template".
Definition maxRenderedTemplateSize : Z := 32768 * 4.

(** ** The agent context *)
Record agentPreviousAttempt := MkPreviousAttempt {
  attempt_Number : Z;
  attempt_FailureReason : string;
}.

Record agentExecutionResult := MkAgentExecutionResult {
  aer_Success : bool;
  aer_ActionsTaken : list ExecutionAction;
}.

Record agentContext := MkAgentContext {
  ctx_PreviousAttempts : list agentPreviousAttempt;
  ctx_ApprovedOption : option RemediationOption;
  ctx_ExecutionResult : option agentExecutionResult;
}.

Definition emptyAgentContext : agentContext := MkAgentContext [] None None.

Definition executionOutputToAgentResult (exec : option ExecutionOutput)
    : option agentExecutionResult :=
  (λ e, MkAgentExecutionResult (eo_Success e) (eo_ActionsTaken e)) <$> exec.

(** [int32(i + 1)] of a slice index. *)
Definition wrap32s (z : Z) : Z := ((z + 2 ^ 31) mod 2 ^ 32 - 2 ^ 31)%Z.

Definition collectFailedResults (results : list StepResultRef) (stepName : string)
    : list agentPreviousAttempt :=
  omap (λ '(i, ref),
    if String.eqb (ref_Outcome ref) ActionOutcomeSucceeded then None
    else Some (MkPreviousAttempt (wrap32s (Z.of_nat i + 1))
                 (stepName +:+ " attempt " +:+ Itoa (Z.of_nat i + 1) +:+ " failed")))
    (imap pair results).

Definition buildAgentContext (run : AgenticRun) : agentContext :=
  let s := run_Steps run in
  MkAgentContext
    (collectFailedResults (step_Results (steps_Analysis s)) "analysis" ++
     collectFailedResults (step_Results (steps_Execution s)) "execution" ++
     collectFailedResults (step_Results (steps_Verification s)) "verification") None None.

(** ** JSON of the API types

    A list without elements is a nil slice: it is left out, and a struct
    without fields is the zero value [omitzero] leaves out. *)
Definition strField (name value : string) : list (string * Json) :=
  omitEmpty (String.eqb value "") (name, JString value).
Definition listField {A} (name : string) (f : A → Json) (xs : list A) : list (string * Json) :=
  omitEmpty (length xs =? 0)%nat (name, JArray (map f xs)).
Definition structField (name : string) (fields : list (string * Json)) : list (string * Json) :=
  omitEmpty (length fields =? 0)%nat (name, JObject fields).

Definition diagnosisFields (d : DiagnosisResult) : list (string * Json) :=
  strField "summary" (diag_Summary d) ++ strField "confidence" (diag_Confidence d) ++
  strField "rootCause" (diag_RootCause d).

Definition actionJson (a : ProposedAction) : Json :=
  JObject (strField "command" (action_Command a) ++ strField "type" (action_Type a) ++
           strField "description" (action_Description a)).

Definition rollbackFields (r : RollbackPlan) : list (string * Json) :=
  strField "description" (rollback_Description r) ++ strField "command" (rollback_Command r).

Definition planFields (p : RemediationPlan) : list (string * Json) :=
  strField "description" (plan_Description p) ++ listField "actions" actionJson (plan_Actions p) ++
  strField "risk" (plan_Risk p) ++ strField "reversible" (plan_Reversible p) ++
  structField "rollbackPlan" (rollbackFields (plan_RollbackPlan p)).

Definition vstepJson (v : VerificationStep) : Json :=
  JObject (strField "name" (vstep_Name v) ++ strField "command" (vstep_Command v) ++
           strField "expected" (vstep_Expected v) ++ strField "type" (vstep_Type v)).

Definition verificationFields (v : VerificationPlan) : list (string * Json) :=
  strField "description" (vplan_Description v) ++ listField "steps" vstepJson (vplan_Steps v).

Definition ruleJson (r : RBACRule) : Json :=
  JObject (strField "namespace" (rule_Namespace r) ++
           listField "apiGroups" JString (rule_APIGroups r) ++
           listField "resources" JString (rule_Resources r) ++
           listField "resourceNames" JString (rule_ResourceNames r) ++
           listField "verbs" JString (rule_Verbs r) ++
           strField "justification" (rule_Justification r)).

Definition rbacFields (r : RBACResult) : list (string * Json) :=
  listField "namespaceScoped" ruleJson (rbac_NamespaceScoped r) ++
  listField "clusterScoped" ruleJson (rbac_ClusterScoped r).

Definition executionActionJson (a : ExecutionAction) : Json :=
  JObject (strField "type" (exec_Type a) ++ strField "description" (exec_Description a) ++
           strField "outcome" (exec_Outcome a) ++ strField "output" (exec_Output a) ++
           strField "error" (exec_Error a)).

(** [actionsTaken] has no [omitempty]: a nil slice is [null]. *)
Definition executionResultJson (r : agentExecutionResult) : Json :=
  JObject [("success", JBool (aer_Success r));
           ("actionsTaken", match aer_ActionsTaken r with
                            | [] => JRaw "null"
                            | actions => JArray (map executionActionJson actions)
                            end)].

Definition attemptJson (a : agentPreviousAttempt) : Json :=
  JObject (("attempt", JNumber (attempt_Number a)) ::
           strField "failureReason" (attempt_FailureReason a)).

(** ** Templates

    [text/template]: parsing may fail; executing writes pieces of text and may
    fail after some of them.  The data of the templates are records. *)
Inductive TemplateData :=
| analysisQuery (request : string) (hasExecution hasVerification : bool)
| executionQuery (optionJSON : string)
| verificationQuery (optionJSON executionJSON : string)
| revisionData (generation : Z) (agenticRunName namespace feedback : string)
| escalationData (name namespace resultNamespace request : string)
    (analysisResults executionResults verificationResults : list StepResultRef).

(** The template library, the files embedded in the operator, [json.Indent], the
    JSON of object metadata, and the value that [json.Unmarshal] reads in the JSON
    of a [JSONSchemaProps] ([None]: it cannot be marshalled). *)
Class Rendering := {
  parseTemplate : string → option error;
  executeTemplate : string → TemplateData → list string * option error;
  readEmbedded : string → res string;
  Indent : string → string;
  marshalResult : string → ObjectMeta → string → res string;
  componentsOf : JSON → option Json;
}.

(** [limitedWriter.Write] on each piece, from the buffer [buf] on. *)
Fixpoint writeLimited (limit : Z) (buf : string) (pieces : list string) : res string :=
  match pieces with
  | [] => Ok buf
  | p :: pieces' =>
      if (limit <? len buf + len p)%Z
      then Err (errorString ("rendered template exceeds " +:+ Itoa limit +:+ " bytes"))
      else writeLimited limit (buf +:+ p) pieces'
  end.

Section InputConfigMap.
Context `{RJ : RawJSON} `{R : Rendering}.

Definition renderTemplate (tmpl : string) (data : TemplateData) : res string :=
  match parseTemplate tmpl with
  | Some err => Err (wrapError "template parse" err)
  | None =>
      let '(pieces, failed) := executeTemplate tmpl data in
      match writeLimited maxRenderedTemplateSize "" pieces, failed with
      | Err err, _ => Err (wrapError "template exec" err)
      | Ok _, Some err => Err (wrapError "template exec" err)
      | Ok text, None => Ok text
      end
  end.

Definition readBuiltinTemplate (name : string) : res string :=
  match readEmbedded name with
  | Err err => Err (wrapError ("read built-in template " +:+ name) err)
  | Ok content => Ok content
  end.

Definition buildRevisionContext (run : AgenticRun) : res string :=
  match readBuiltinTemplate "templates/revision_context.tmpl" with
  | Err err => Err err
  | Ok tmpl => renderTemplate tmpl (revisionData (run_Generation run) (run_Name run)
                 (run_Namespace run) (spec_RevisionFeedback (run_Spec run)))
  end.

Definition buildEscalationRequest (run : AgenticRun) (resultNamespace : string) : res string :=
  match readBuiltinTemplate "templates/escalation_request.tmpl" with
  | Err err => Err err
  | Ok tmpl =>
      renderTemplate tmpl (escalationData (run_Name run) (run_Namespace run) resultNamespace
        (spec_Request (run_Spec run)) (step_Results (steps_Analysis (run_Steps run)))
        (step_Results (steps_Execution (run_Steps run)))
        (step_Results (steps_Verification (run_Steps run))))
  end.

(** The components of an option are raw JSON: marshalling them may fail. *)
Definition optionJson (o : RemediationOption) : res Json :=
  let fields :=
    strField "title" (option_Title o) ++ strField "summary" (option_Summary o) ++
    structField "diagnosis" (diagnosisFields (option_Diagnosis o)) ++
    structField "remediationPlan" (planFields (option_RemediationPlan o)) ++
    structField "verification" (verificationFields (option_Verification o)) ++
    structField "rbac" (rbacFields (option_RBAC o)) in
  match option_Components o with
  | None => Ok (JObject fields)
  | Some raw => match MarshalRaw raw with
                | Err e => Err e
                | Ok text => Ok (JObject (fields ++ [("components", JRaw text)]))
                end
  end.

Definition contextJson (c : agentContext) : res Json :=
  let attempts := listField "previousAttempts" attemptJson (ctx_PreviousAttempts c) in
  let exec := match ctx_ExecutionResult c with
              | None => []
              | Some r => [("executionResult", executionResultJson r)]
              end in
  match ctx_ApprovedOption c with
  | None => Ok (JObject (attempts ++ exec))
  | Some o => match optionJson o with
              | Err e => Err e
              | Ok j => Ok (JObject (attempts ++ ("approvedOption", j) :: exec))
              end
  end.

(** [prettyJSON] of a pointer that may be nil; an error gives [{}] as well. *)
Definition prettyJSON (j : option (res Json)) : string :=
  match j with Some (Ok v) => Indent (render v) | _ => "{}" end.

(** ** The prompts of a step *)
Definition stepInstructions (i : AgentInstructions) (step : string) : option StepInstructions :=
  if String.eqb step "analysis" then instr_Analysis i
  else if String.eqb step "execution" then instr_Execution i
  else if String.eqb step "verification" then instr_Verification i
  else if String.eqb step "escalation" then instr_Escalation i
  else None.

Definition resolveStepPrompts (agent : option Agent) (step builtinTemplate : string)
    : res (string * string) :=
  let si := agent ≫= (λ a, agent_Instructions (agent_Spec a) ≫= (λ i, stepInstructions i step)) in
  let systemPrompt := from_option instr_SystemPrompt "" si in
  let userPrompt := from_option instr_UserPrompt "" si in
  if negb (String.eqb userPrompt "") then Ok (systemPrompt, userPrompt)
  else match readBuiltinTemplate builtinTemplate with
       | Err err => Err err
       | Ok tmpl => Ok (systemPrompt, tmpl)
       end.

(** The prompt of a step rendered with [data], which may itself fail. *)
Definition promptWith (agent : option Agent) (step builtinTemplate : string)
    (data : res TemplateData) : res (string * string) :=
  match resolveStepPrompts agent step builtinTemplate with
  | Err err => Err err
  | Ok (systemPrompt, tmpl) =>
      match data with
      | Err err => Err err
      | Ok d => match renderTemplate tmpl d with
                | Err err => Err err
                | Ok query => Ok (systemPrompt, query)
                end
      end
  end.

Definition analysisData (run : AgenticRun) : res TemplateData :=
  let s := run_Spec run in
  let query request := analysisQuery request (negb (AgenticRunStep_IsZero (spec_Execution s)))
                         (negb (AgenticRunStep_IsZero (spec_Verification s))) in
  if negb (String.eqb (spec_RevisionFeedback s) "") then
    match buildRevisionContext run with
    | Err err => Err err
    | Ok revCtx => Ok (query (spec_Request s +:+ newline +:+ newline +:+ revCtx))
    end
  else Ok (query (spec_Request s)).

Definition resolvePrompts (agent : option Agent) (step operatorNamespace : string)
    (run : AgenticRun) (agentCtx : agentContext) : res (string * string) :=
  let optionJSON := prettyJSON (optionJson <$> ctx_ApprovedOption agentCtx) in
  if String.eqb step "analysis" then
    promptWith agent step "templates/analysis_query.tmpl" (analysisData run)
  else if String.eqb step "execution" then
    promptWith agent step "templates/execution_query.tmpl" (Ok (executionQuery optionJSON))
  else if String.eqb step "verification" then
    promptWith agent step "templates/verification_query.tmpl"
      (Ok (verificationQuery optionJSON
             (prettyJSON ((λ r, Ok (executionResultJson r)) <$> ctx_ExecutionResult agentCtx))))
  else if String.eqb step "escalation" then
    let s := run_Steps run in
    promptWith agent step "templates/escalation_request.tmpl"
      (Ok (escalationData (run_Name run) (run_Namespace run) operatorNamespace
             (spec_Request (run_Spec run)) (step_Results (steps_Analysis s))
             (step_Results (steps_Execution s)) (step_Results (steps_Verification s))))
  else Ok ("", "").

(** ** The configuration map *)
Definition inputConfigMapName (step uid : string) : string := "ls-" +:+ step +:+ "-" +:+ uid.

(** The kind of result a step writes. *)
Definition resultKind (step : string) : option string :=
  if String.eqb step "analysis" then Some "AnalysisResult"
  else if String.eqb step "execution" then Some "ExecutionResult"
  else if String.eqb step "verification" then Some "VerificationResult"
  else if String.eqb step "escalation" then Some "EscalationResult"
  else None.

(** The metadata of the result the sandbox is to create. *)
Definition resultTemplateMeta (run : AgenticRun) (step namespace : string) : ObjectMeta :=
  withOwners
    (newMeta (resultCRName (run_Name run) step (nextResultIndex run step)) namespace
       (resultLabels (run_UID run) step))
    [agenticRunOwnerRef run].

Definition quoted (s : string) : string := quoteByte +:+ s +:+ quoteByte.

Definition buildResultTemplate (run : AgenticRun) (step namespace : string) : res string :=
  match resultKind step with
  | None =>
      Err (errorString (ErrBuildResultTemplate +:+ ": " +:+ ErrUnknownStep +:+ " " +:+ quoted step))
  | Some kind =>
      match marshalResult kind (resultTemplateMeta run step namespace) (run_Name run) with
      | Err err => Err (wrapError ErrMarshalResultTemplate err)
      | Ok raw => Ok raw
      end
  end.

Definition buildInputConfigMap (operatorNamespace : string) (run : AgenticRun) (step : string)
    (agent : option Agent) (schema : string) (agentCtx : option agentContext)
    : res (Object KConfigMap) :=
  let ctx := default emptyAgentContext agentCtx in
  match contextJson ctx with
  | Err err => Err (wrapError ErrMarshalInputContext err)
  | Ok ctxJSON =>
      match buildResultTemplate run step operatorNamespace with
      | Err err => Err (wrapError ErrBuildInputConfigMap err)
      | Ok tmpl =>
          match resolvePrompts agent step operatorNamespace run ctx with
          | Err err => Err (wrapError ("resolve prompts for step " +:+ step) err)
          | Ok (systemPrompt, query) =>
              let data : gmap string string :=
                <[inputConfigMapKeyQuery := query]>
                (<[inputConfigMapKeySchema := schema]>
                (<[inputConfigMapKeyCtx := render ctxJSON]>
                 {[inputConfigMapKeyTmpl := tmpl]})) in
              Ok (MkObject (k := KConfigMap)
                    (withOwners
                       (newMeta (inputConfigMapName step (run_UID run)) operatorNamespace
                          (<[LabelRun := run_UID run]> {[LabelStep := step]}))
                       [agenticRunOwnerRef run])
                    (if String.eqb systemPrompt "" then data
                     else <[inputConfigMapKeySystemPrompt := systemPrompt]> data))
          end
      end
  end.
End InputConfigMap.

(** ** Facts *)

(** A rendered prompt is bounded: whatever the template and its data expand
    to, [renderTemplate] yields a text of at most 131072 bytes (32768 characters
    of at most four bytes), which is the text the template produced, or an error. *)
Lemma renderTemplate_text `{R : Rendering} tmpl data text :
  renderTemplate tmpl data = Ok text →
  parseTemplate tmpl = None ∧ (len text ≤ 131072)%Z ∧
  ∃ pieces, executeTemplate tmpl data = (pieces, None) ∧ text = String.concat "" pieces.
Proof.
  unfold renderTemplate. destruct (parseTemplate tmpl); [done|].
  destruct (executeTemplate tmpl data) as [pieces failed].
  assert (Hw : ∀ buf out, (len buf ≤ maxRenderedTemplateSize)%Z →
    writeLimited maxRenderedTemplateSize buf pieces = Ok out →
    (len out ≤ maxRenderedTemplateSize)%Z ∧ out = buf +:+ String.concat "" pieces).
  { induction pieces as [|p pieces IH]; intros buf out Hb; cbn [writeLimited].
    - intros [= <-]. split; [done|]. cbn. by rewrite string_app_nil_r.
    - destruct (Z.ltb_spec maxRenderedTemplateSize (len buf + len p)); [done|].
      intros [Hl ->]%IH; [|unfold len in *; rewrite string_length_app; lia].
      split; [done|]. rewrite <- string_app_assoc. f_equal. destruct pieces; cbn; [|done].
      by rewrite string_app_nil_r. }
  destruct (writeLimited _ _ _) as [out|err] eqn:He; [|done]. destruct failed; [done|].
  intros [= <-]. apply Hw in He as [Hl Ho]; [|done]. split; [done|]. split; [exact Hl|].
  by exists pieces.
Qed.

Lemma elem_of_imap_pair {A} (xs : list A) i x : (i, x) ∈ imap pair xs ↔ xs !! i = Some x.
Proof.
  rewrite elem_of_lookup_imap. split.
  - by intros (j & y & [= -> ->] & ?).
  - intros. by exists i, x.
Qed.

(** The previous attempts told to the agent are exactly the failed results, with
    their position counted from one. *)
Lemma collectFailedResults_spec results stepName a :
  a ∈ collectFailedResults results stepName ↔
  ∃ i ref, results !! i = Some ref ∧ ref_Outcome ref ≠ ActionOutcomeSucceeded ∧
    a = MkPreviousAttempt (wrap32s (Z.of_nat i + 1))
          (stepName +:+ " attempt " +:+ Itoa (Z.of_nat i + 1) +:+ " failed").
Proof.
  unfold collectFailedResults. rewrite elem_of_omap. split.
  - intros ([i ref] & Hin%elem_of_imap_pair & Hf). exists i, ref. split; [done|].
    destruct (String.eqb_spec (ref_Outcome ref) ActionOutcomeSucceeded); by simplify_eq.
  - intros (i & ref & Hl & Hn & ->). exists (i, ref). rewrite elem_of_imap_pair.
    split; [done|]. by destruct (String.eqb_spec (ref_Outcome ref) ActionOutcomeSucceeded).
Qed.

Section InputConfigMapFacts.
Context `{RJ : RawJSON} `{R : Rendering}.

(** *** The prompts the API documents for a step ([crd-api.md], rules 10h to 10l) *)

(** The request an analysis is told: that of the run, with the feedback of a revision
    behind it, rendered with the template for revisions. *)
Definition requestTold (run : AgenticRun) (request : string) : Prop :=
  let s := run_Spec run in
  if String.eqb (spec_RevisionFeedback s) "" then request = spec_Request s
  else ∃ tmpl feedback, readEmbedded "templates/revision_context.tmpl" = Ok tmpl ∧
    renderTemplate tmpl (revisionData (run_Generation run) (run_Name run) (run_Namespace run)
      (spec_RevisionFeedback s)) = Ok feedback ∧
    request = spec_Request s +:+ newline +:+ newline +:+ feedback.

(** The text for a value that may be missing: its JSON, indented, or the empty object. *)
Definition told {A} (json : A → res Json) (x : option A) (text : string) : Prop :=
  match x with
  | None => text = "{}"
  | Some v => ∃ j, json v = Ok j ∧ text = Indent (render j)
  end.

(** For each step: its instructions in the agent, its built-in template and its data. *)
Inductive promptRule (ns : string) (run : AgenticRun) (ctx : agentContext) :
    string → (AgentInstructions → option StepInstructions) → string → TemplateData → Prop :=
| rule_analysis request :
    requestTold run request →
    promptRule ns run ctx "analysis" instr_Analysis "templates/analysis_query.tmpl"
      (analysisQuery request (negb (AgenticRunStep_IsZero (spec_Execution (run_Spec run))))
         (negb (AgenticRunStep_IsZero (spec_Verification (run_Spec run)))))
| rule_execution option :
    told optionJson (ctx_ApprovedOption ctx) option →
    promptRule ns run ctx "execution" instr_Execution "templates/execution_query.tmpl"
      (executionQuery option)
| rule_verification option executed :
    told optionJson (ctx_ApprovedOption ctx) option →
    told (λ r, Ok (executionResultJson r)) (ctx_ExecutionResult ctx) executed →
    promptRule ns run ctx "verification" instr_Verification "templates/verification_query.tmpl"
      (verificationQuery option executed)
| rule_escalation :
    promptRule ns run ctx "escalation" instr_Escalation "templates/escalation_request.tmpl"
      (escalationData (run_Name run) (run_Namespace run) ns (spec_Request (run_Spec run))
         (step_Results (steps_Analysis (run_Steps run))) (step_Results (steps_Execution (run_Steps run)))
         (step_Results (steps_Verification (run_Steps run)))).

(** What the agent says about a step, of all agents and none. *)
Definition agentSays (agent : option Agent) (instr : AgentInstructions → option StepInstructions)
    (field : StepInstructions → string) : string :=
  match agent with
  | Some a => match agent_Instructions (agent_Spec a) with
              | Some i => match instr i with Some si => field si | None => "" end
              | None => ""
              end
  | None => ""
  end.

(** The template of the query: the user prompt of the agent, or the built-in one. *)
Definition queryTemplate (userPrompt builtin tmpl : string) : Prop :=
  if String.eqb userPrompt "" then readEmbedded builtin = Ok tmpl else tmpl = userPrompt.

Lemma promptWith_run agent step builtin data sys query instr :
  promptWith agent step builtin data = Ok (sys, query) →
  (∀ i, stepInstructions i step = instr i) →
  sys = agentSays agent instr instr_SystemPrompt ∧
  ∃ tmpl d, queryTemplate (agentSays agent instr instr_UserPrompt) builtin tmpl ∧
    data = Ok d ∧ renderTemplate tmpl d = Ok query.
Proof.
  unfold promptWith, resolveStepPrompts, queryTemplate, agentSays, readBuiltinTemplate.
  intros H Hi. set (si := agent ≫= _) in H.
  assert (Hsi : si = match agent with
    | Some a => match agent_Instructions (agent_Spec a) with Some i => instr i | None => None end
    | None => None end).
  { subst si. destruct agent as [a|]; [|done]. cbn.
    destruct (agent_Instructions (agent_Spec a)); [apply Hi|done]. }
  clearbody si. subst si.
  destruct agent as [a|]; [destruct (agent_Instructions (agent_Spec a)) as [i|];
    [destruct (instr i) as [s|]|]|]; cbn in H;
    [destruct (String.eqb (instr_UserPrompt s) "") eqn:Hu; cbn in H|..]; rewrite ?Hu; cbn.
  2: destruct data as [d|]; [|done]; destruct (renderTemplate _ _) eqn:Hr; simplify_eq;
    split; [done|]; by exists (instr_UserPrompt s), d.
  all: destruct (readEmbedded builtin) as [tmpl|]; [|done]; destruct data as [d|]; [|done];
    destruct (renderTemplate _ _) eqn:Hr; simplify_eq; split; [done|]; by exists tmpl, d.
Qed.

Lemma analysisData_rule run d :
  analysisData run = Ok d →
  ∃ request, requestTold run request ∧
    d = analysisQuery request (negb (AgenticRunStep_IsZero (spec_Execution (run_Spec run))))
          (negb (AgenticRunStep_IsZero (spec_Verification (run_Spec run)))).
Proof.
  unfold analysisData, requestTold, buildRevisionContext, readBuiltinTemplate.
  destruct (String.eqb _ ""); cbn; [intros [= <-]; eauto|].
  destruct (readEmbedded _) as [tmpl|] eqn:Ht; [|done].
  destruct (renderTemplate _ _) as [text|] eqn:Hr; [|done]. intros [= <-].
  eexists. split; [|done]. eauto.
Qed.

Lemma told_pretty {A} (json : A → res Json) x :
  (∀ v, x = Some v → ∃ j, json v = Ok j) → told json x (prettyJSON (json <$> x)).
Proof.
  destruct x as [v|]; [|done]. intros H. destruct (H v eq_refl) as [j Hj].
  exists j. cbn. by rewrite Hj.
Qed.

Lemma contextJson_option ctx j o :
  contextJson ctx = Ok j → ctx_ApprovedOption ctx = Some o → ∃ j', optionJson o = Ok j'.
Proof. unfold contextJson. intros H Hx. rewrite Hx in H. destruct (optionJson o); [by eexists|done]. Qed.

(** The prompts that are resolved are the documented ones. *)
Lemma resolvePrompts_rule agent step ns run ctx j kind sys query :
  resolvePrompts agent step ns run ctx = Ok (sys, query) →
  contextJson ctx = Ok j → resultKind step = Some kind →
  ∃ instr builtin tmpl d, promptRule ns run ctx step instr builtin d ∧
    sys = agentSays agent instr instr_SystemPrompt ∧
    queryTemplate (agentSays agent instr instr_UserPrompt) builtin tmpl ∧
    renderTemplate tmpl d = Ok query.
Proof.
  intros H Hj Hk. pose proof (λ o, contextJson_option ctx j o Hj) as Ho.
  apply told_pretty in Ho.
  assert (Hx : told (λ r, Ok (executionResultJson r)) (ctx_ExecutionResult ctx)
    (prettyJSON ((λ r, Ok (executionResultJson r)) <$> ctx_ExecutionResult ctx)))
    by (apply told_pretty; eauto).
  assert (Hp : ∀ builtin data instr,
    promptWith agent step builtin data = Ok (sys, query) →
    (∀ i, stepInstructions i step = instr i) →
    (∀ d, data = Ok d → promptRule ns run ctx step instr builtin d) →
    ∃ instr builtin tmpl d, promptRule ns run ctx step instr builtin d ∧
      sys = agentSays agent instr instr_SystemPrompt ∧
      queryTemplate (agentSays agent instr instr_UserPrompt) builtin tmpl ∧
      renderTemplate tmpl d = Ok query).
  { intros builtin data instr Hw Hi Hd.
    destruct (promptWith_run _ _ _ _ _ _ _ Hw Hi) as (Hs & tmpl & d & Ht & He & Hr).
    exists instr, builtin, tmpl, d. auto. }
  unfold resolvePrompts, resultKind in *.
  destruct (String.eqb_spec step "analysis") as [->|].
  { eapply Hp; [exact H|done|]. intros d (request & ? & ->)%analysisData_rule. by constructor. }
  destruct (String.eqb_spec step "execution") as [->|].
  { eapply Hp; [exact H|done|]. intros d [= <-]. by constructor. }
  destruct (String.eqb_spec step "verification") as [->|].
  { eapply Hp; [exact H|done|]. intros d [= <-]. by constructor. }
  destruct (String.eqb_spec step "escalation") as [->|]; [|done].
  eapply Hp; [exact H|done|]. intros d [= <-]. constructor.
Qed.

(** C31: the configuration map of a step has what the sandbox needs: it is named and
    labelled after the step and the run, owned by the run, and carries the output
    schema, the context, a template for the result the run will look for (the next
    result of the step), and the prompts documented for the step.  The system prompt is
    that of the agent's instructions for this step, and there exactly when it is not
    empty; the query is the agent's user prompt for this step, or the built-in template
    of the step when the agent has none, rendered without an error with the data of the
    step: for the analysis the request, with the rendered feedback of a revision; for
    the execution the approved option; for the verification the option and the outcome
    of the execution; for the escalation the run, its request and its results. *)
Theorem buildInputConfigMap_complete ns run step agent schema agentCtx cm :
  buildInputConfigMap ns run step agent schema agentCtx = Ok cm →
  let data := (obj_Content (k := KConfigMap) cm : gmap string string) in
  let ctx := default emptyAgentContext agentCtx in
  obj_Key cm = MkNamespacedName ns (inputConfigMapName step (run_UID run)) ∧
  meta_OwnerReferences (obj_Meta cm) = [agenticRunOwnerRef run] ∧
  mapGet (obj_Labels cm) LabelRun = run_UID run ∧ mapGet (obj_Labels cm) LabelStep = step ∧
  data !! inputConfigMapKeySchema = Some schema ∧
  (∃ j, contextJson ctx = Ok j ∧ data !! inputConfigMapKeyCtx = Some (render j)) ∧
  (∃ kind raw, resultKind step = Some kind ∧
     marshalResult kind
       (withOwners (newMeta (resultCRName (run_Name run) step (nextResultIndex run step)) ns
          (resultLabels (run_UID run) step)) [agenticRunOwnerRef run]) (run_Name run) = Ok raw ∧
     data !! inputConfigMapKeyTmpl = Some raw) ∧
  ∃ instr builtin tmpl d pieces,
    promptRule ns run ctx step instr builtin d ∧
    (let systemPrompt := agentSays agent instr instr_SystemPrompt in
     data !! inputConfigMapKeySystemPrompt
       = if String.eqb systemPrompt "" then None else Some systemPrompt) ∧
    queryTemplate (agentSays agent instr instr_UserPrompt) builtin tmpl ∧
    parseTemplate tmpl = None ∧ executeTemplate tmpl d = (pieces, None) ∧
    (len (String.concat "" pieces) ≤ 131072)%Z ∧
    data !! inputConfigMapKeyQuery = Some (String.concat "" pieces).
Proof.
  unfold buildInputConfigMap, buildResultTemplate. destruct (contextJson _) as [j|] eqn:Hc; [|done].
  destruct (resultKind step) as [kind|] eqn:Hk; [|done].
  destruct (marshalResult _ _ _) as [raw|] eqn:Hm; [|done].
  destruct (resolvePrompts _ _ _ _ _) as [[systemPrompt query]|] eqn:Hp; [|done].
  intros [= <-]. cbn [obj_Content obj_Meta obj_Key].
  split; [done|]. split; [done|]. split; [reflexivity|]. split; [reflexivity|].
  destruct (resolvePrompts_rule _ _ _ _ _ _ _ _ _ Hp Hc Hk)
    as (instr & builtin & tmpl & d & Hrule & Hs & Ht & Hq).
  pose proof (renderTemplate_text _ _ _ Hq) as (Hparse & Hlen & pieces & Hpieces & ->).
  destruct (String.eqb systemPrompt "") eqn:Hempty;
    rewrite ?(lookup_insert_ne (M := gmap string) _ inputConfigMapKeySystemPrompt) by done.
  all: split; [done|]; split; [by exists j|]; split; [by exists kind, raw|].
  all: exists instr, builtin, tmpl, d, pieces; rewrite <- Hs, Hempty; done.
Qed.
End InputConfigMapFacts.
