(* ===== verification/Schemas.v ===== *)
(** The output schemas of the steps ([controller/agenticrun/schemas.go]): the
    texts the operator holds, with the limits of [sandbox_agent.go] filled in, and
    [outputSchemaForStep], which for an analysis reads the text, adapts the
    properties of an option to the run, and writes it again.  A quotation mark of
    the texts is written as a backquote here. *)
From stdpp Require Import base list option strings sets.
From Stdlib Require Import ZArith Lia Ascii String.
From S2P Require Import Prelude GoText Crypto Json ApiMachinery Types InputConfigMap.

Local Open Scope string_scope.
Local Open Scope list_scope.

(** ** The limits *)
Definition maxLenDiagnosisSummary : Z := 8192.
Definition maxLenDiagnosisRootCause : Z := 8192.
Definition maxLenOptionTitle : Z := 256.
Definition maxLenOptionSummary : Z := 1024.
Definition maxLenPlanDescription : Z := 8192.
Definition maxLenActionCommand : Z := 4096.
Definition maxLenActionType : Z := 256.
Definition maxLenActionDescription : Z := 4096.
Definition maxLenRollbackDescription : Z := 4096.
Definition maxLenRollbackCommand : Z := 4096.
Definition maxLenVerificationDescription : Z := 4096.
Definition maxLenVerificationStepName : Z := 253.
Definition maxLenVerificationStepCommand : Z := 4096.
Definition maxLenVerificationStepExpected : Z := 1024.
Definition maxLenVerificationStepType : Z := 256.
Definition maxLenRBACJustification : Z := 1024.

(** [strings.NewReplacer]: at each byte the first of the pairs whose old string is
    there, or the byte; [fuel] bounds the bytes left. *)
Fixpoint replaceFirst (pairs : list (string * string)) (s : string) : option (string * string) :=
  match pairs with
  | [] => None
  | (old, new) :: pairs' =>
      match cutPrefix old s with
      | Some rest => Some (new, rest)
      | None => replaceFirst pairs' s
      end
  end.

Fixpoint replaceFrom (fuel : nat) (pairs : list (string * string)) (s : string) : string :=
  match fuel, s with
  | S fuel', String c s' =>
      match replaceFirst pairs s with
      | Some (new, rest) => new +:+ replaceFrom fuel' pairs rest
      | None => String c (replaceFrom fuel' pairs s')
      end
  | _, _ => ""
  end.

Definition Replace (pairs : list (string * string)) (s : string) : string :=
  replaceFrom (String.length s) pairs s.

Definition schemaReplacer : list (string * string) :=
  [ ("{{maxLenDiagnosisSummary}}", Itoa maxLenDiagnosisSummary);
    ("{{maxLenDiagnosisRootCause}}", Itoa maxLenDiagnosisRootCause);
    ("{{maxLenOptionTitle}}", Itoa maxLenOptionTitle);
    ("{{maxLenOptionSummary}}", Itoa maxLenOptionSummary);
    ("{{maxLenPlanDescription}}", Itoa maxLenPlanDescription);
    ("{{maxLenActionCommand}}", Itoa maxLenActionCommand);
    ("{{maxLenActionType}}", Itoa maxLenActionType);
    ("{{maxLenActionDescription}}", Itoa maxLenActionDescription);
    ("{{maxLenRollbackDescription}}", Itoa maxLenRollbackDescription);
    ("{{maxLenRollbackCommand}}", Itoa maxLenRollbackCommand);
    ("{{maxLenVerificationDescription}}", Itoa maxLenVerificationDescription);
    ("{{maxLenVerificationStepName}}", Itoa maxLenVerificationStepName);
    ("{{maxLenVerificationStepCommand}}", Itoa maxLenVerificationStepCommand);
    ("{{maxLenVerificationStepExpected}}", Itoa maxLenVerificationStepExpected);
    ("{{maxLenVerificationStepType}}", Itoa maxLenVerificationStepType);
    ("{{maxLenRBACJustification}}", Itoa maxLenRBACJustification)].

(** A text with its quotation marks. *)
Fixpoint quotes (s : string) : string :=
  match s with
  | "" => ""
  | String c s' => (if Ascii.eqb c "`" then quoteByte else String c "") +:+ quotes s'
  end.

(** ** The texts *)
Definition AnalysisOutputSchema : string := Replace schemaReplacer (quotes "{
  `type`: `object`,
  `properties`: {
    `actionRequired`: {
      `type`: `string`,
      `enum`: [`True`, `False`],
      `description`: `Whether remediation action is required. Set to 'False' when the issue is a false alarm, already self-healed, or no cluster changes are needed. When 'False', provide a diagnosis explaining why no action is needed and omit options.`
    },
    `diagnosis`: {
      `type`: `object`,
      `description`: `Top-level root cause analysis. Required when actionRequired is false. When actionRequired is true, diagnosis is provided per-option instead.`,
      `properties`: {
        `summary`: { `type`: `string`, `maxLength`: {{maxLenDiagnosisSummary}}, `description`: `Markdown-formatted diagnosis summary explaining the problem, symptoms, and findings` },
        `rootCause`: { `type`: `string`, `maxLength`: {{maxLenDiagnosisRootCause}}, `description`: `Keep the root cause concise: explain the causal chain, including affected services when relevant, in a few sentences. Put detailed findings in the diagnosis summary` }
      },
      `required`: [`summary`, `rootCause`]
    },
    `options`: {
      `type`: `array`,
      `description`: `One or more remediation options, ordered by recommendation. Required when actionRequired is true. Provide an empty array [] when actionRequired is false.`,
      `minItems`: 0,
      `items`: {
        `type`: `object`,
        `properties`: {
          `title`: { `type`: `string`, `maxLength`: {{maxLenOptionTitle}}, `description`: `Short human-readable title for this option (e.g., 'Increase memory limit', 'Scale horizontally')` },
          `summary`: { `type`: `string`, `maxLength`: {{maxLenOptionSummary}}, `description`: `Brief one-paragraph summary of this remediation approach` },
          `diagnosis`: {
            `type`: `object`,
            `properties`: {
              `summary`: { `type`: `string`, `maxLength`: {{maxLenDiagnosisSummary}}, `description`: `Markdown-formatted root cause analysis explaining the problem, symptoms, and findings` },
              `rootCause`: { `type`: `string`, `maxLength`: {{maxLenDiagnosisRootCause}}, `description`: `Keep the root cause concise: explain the causal chain, including affected services when relevant, in a few sentences. Put detailed findings in the diagnosis summary` }
            },
            `required`: [`summary`, `rootCause`]
          },
          `remediationPlan`: {
            `type`: `object`,
            `properties`: {
              `description`: { `type`: `string`, `maxLength`: {{maxLenPlanDescription}}, `description`: `Markdown-formatted summary of the overall remediation approach` },
              `actions`: {
                `type`: `array`,
                `description`: `Ordered list of exact remediation actions. Each action is one kubectl/oc command or MCP tool call.`,
                `items`: {
                  `type`: `object`,
                  `properties`: {
                    `command`: { `type`: `string`, `maxLength`: {{maxLenActionCommand}}, `description`: `Exact executable kubectl/oc command or MCP tool name with JSON arguments (e.g., 'update_deployment_image({\`namespace\`:\`production\`})')` },
                    `type`: { `type`: `string`, `maxLength`: {{maxLenActionType}}, `description`: `Action phase category (e.g., 'pre-check', 'mutation', 'wait', 'post-check')` },
                    `description`: { `type`: `string`, `maxLength`: {{maxLenActionDescription}}, `description`: `What this action does and why` }
                  },
                  `required`: [`command`, `type`, `description`]
                }
              },
              `reversible`: { `type`: `string`, `enum`: [`Reversible`, `Irreversible`, `Partial`], `description`: `Whether this remediation can be rolled back. Reversible: fully undoable. Irreversible: cannot undo. Partial: some actions undoable` },
              `rollbackPlan`: {
                `type`: `object`,
                `description`: `How to undo the remediation if it fails or causes issues. Required when reversible is Reversible or Partial.`,
                `properties`: {
                  `description`: { `type`: `string`, `maxLength`: {{maxLenRollbackDescription}}, `description`: `How to undo the remediation if it fails or causes issues` },
                  `command`: { `type`: `string`, `maxLength`: {{maxLenRollbackCommand}}, `description`: `The rollback command or steps to execute` }
                },
                `required`: [`description`, `command`]
              }
            },
            `required`: [`description`, `actions`, `reversible`]
          },
          `verification`: {
            `type`: `object`,
            `properties`: {
              `description`: { `type`: `string`, `maxLength`: {{maxLenVerificationDescription}}, `description`: `Summary of how to verify the remediation worked` },
              `steps`: {
                `type`: `array`,
                `description`: `Ordered verification checks for the verification agent to run after execution`,
                `items`: {
                  `type`: `object`,
                  `properties`: {
                    `name`: { `type`: `string`, `maxLength`: {{maxLenVerificationStepName}}, `description`: `Short check identifier (e.g., 'pod-running', 'memory-usage-normal')` },
                    `command`: { `type`: `string`, `maxLength`: {{maxLenVerificationStepCommand}}, `description`: `Command or API call to run (e.g., 'oc get pod -n production -l app=web -o jsonpath={.status.phase}')` },
                    `expected`: { `type`: `string`, `maxLength`: {{maxLenVerificationStepExpected}}, `description`: `Expected output or condition (e.g., 'Running', 'ready=true')` },
                    `type`: { `type`: `string`, `maxLength`: {{maxLenVerificationStepType}}, `description`: `Check category (e.g., 'command', 'metric', 'condition')` }
                  },
                  `required`: [`name`, `type`]
                }
              }
            },
            `required`: [`description`]
          },
          `rbac`: {
            `type`: `object`,
            `properties`: {
              `namespaceScoped`: {
                `type`: `array`,
                `description`: `RBAC rules scoped to their declared namespaces`,
                `items`: {
                  `type`: `object`,
                  `properties`: {
                    `namespace`: { `type`: `string`, `pattern`: `^[a-z0-9]([-a-z0-9]*[a-z0-9])?$`, `maxLength`: 63, `description`: `Target namespace for this rule. Must be a valid Kubernetes namespace name (lowercase alphanumeric and hyphens, no wildcards).` },
                    `apiGroups`: { `type`: `array`, `items`: { `type`: `string` }, `description`: `API groups (e.g., '', 'apps', 'batch'). Use empty string '' for the core API group (pods, services, configmaps, etc.)` },
                    `resources`: { `type`: `array`, `items`: { `type`: `string` }, `description`: `Resource types (e.g., 'pods', 'deployments', 'configmaps')` },
                    `resourceNames`: { `type`: `array`, `items`: { `type`: `string` }, `description`: `Restrict to specific named resources. Omit to allow all resources of the given type` },
                    `verbs`: { `type`: `array`, `items`: { `type`: `string` }, `description`: `Allowed operations (e.g., 'get', 'list', 'patch', 'delete')` },
                    `justification`: { `type`: `string`, `maxLength`: {{maxLenRBACJustification}}, `description`: `Why this permission is needed (e.g., 'Need to patch deployment to increase memory limit')` }
                  },
                  `required`: [`namespace`, `apiGroups`, `resources`, `verbs`, `justification`]
                }
              },
              `clusterScoped`: {
                `type`: `array`,
                `description`: `RBAC rules for cluster-wide or non-namespaced resources (e.g., nodes, CRDs)`,
                `items`: {
                  `type`: `object`,
                  `properties`: {
                    `apiGroups`: { `type`: `array`, `items`: { `type`: `string` }, `description`: `API groups (e.g., '', 'apps', 'batch'). Use empty string '' for the core API group (pods, services, configmaps, etc.)` },
                    `resources`: { `type`: `array`, `items`: { `type`: `string` }, `description`: `Resource types (e.g., 'nodes', 'clusterroles')` },
                    `resourceNames`: { `type`: `array`, `items`: { `type`: `string` }, `description`: `Restrict to specific named resources. Omit to allow all resources of the given type` },
                    `verbs`: { `type`: `array`, `items`: { `type`: `string` }, `description`: `Allowed operations (e.g., 'get', 'list', 'patch', 'delete')` },
                    `justification`: { `type`: `string`, `maxLength`: {{maxLenRBACJustification}}, `description`: `Why this permission is needed` }
                  },
                  `required`: [`apiGroups`, `resources`, `verbs`, `justification`]
                }
              }
            }
          }
        },
        `required`: [`title`, `diagnosis`, `remediationPlan`, `verification`]
      }
    }
  },
  `required`: [`actionRequired`, `options`]
}").

Definition MinimalAnalysisOutputSchema : string := Replace schemaReplacer (quotes "{
  `type`: `object`,
  `properties`: {
    `actionRequired`: {
      `type`: `string`,
      `enum`: [`True`, `False`],
      `description`: `Whether remediation action is required. Set to 'False' when the issue is a false alarm, already self-healed, or no cluster changes are needed.`
    },
    `diagnosis`: {
      `type`: `object`,
      `description`: `Top-level root cause analysis. Required when actionRequired is false.`,
      `properties`: {
        `summary`: { `type`: `string`, `maxLength`: {{maxLenDiagnosisSummary}}, `description`: `Markdown-formatted diagnosis summary` },
        `rootCause`: { `type`: `string`, `maxLength`: {{maxLenDiagnosisRootCause}}, `description`: `Keep the root cause concise: explain the causal chain, including affected services when relevant, in a few sentences. Put detailed findings in the diagnosis summary` }
      },
      `required`: [`summary`, `rootCause`]
    },
    `options`: {
      `type`: `array`,
      `description`: `One or more output options, ordered by recommendation. Required when actionRequired is true.`,
      `minItems`: 0,
      `items`: {
        `type`: `object`,
        `properties`: {
          `title`: { `type`: `string`, `maxLength`: {{maxLenOptionTitle}}, `description`: `Short human-readable title for this option` }
        },
        `required`: [`title`]
      }
    }
  },
  `required`: [`actionRequired`, `options`]
}").

Definition ExecutionOutputSchema : string := quotes "{
  `type`: `object`,
  `properties`: {
    `success`: { `type`: `boolean`, `description`: `Whether all execution actions completed successfully` },
    `actionsTaken`: {
      `type`: `array`,
      `description`: `List of actions actually performed, in order`,
      `items`: {
        `type`: `object`,
        `properties`: {
          `type`: { `type`: `string`, `description`: `Action category (e.g., 'patch', 'scale', 'restart')` },
          `description`: { `type`: `string`, `description`: `What was done (e.g., 'Patched deployment/web to set memory limit to 512Mi')` },
          `outcome`: { `type`: `string`, `enum`: [`Succeeded`, `Failed`], `description`: `Whether this individual action succeeded or failed` },
          `output`: { `type`: `string`, `description`: `Command output or API response from the action` },
          `error`: { `type`: `string`, `description`: `Error message if the action failed` }
        },
        `required`: [`type`, `description`, `outcome`]
      }
    }
  },
  `required`: [`success`, `actionsTaken`]
}".

Definition VerificationOutputSchema : string := quotes "{
  `type`: `object`,
  `properties`: {
    `success`: { `type`: `boolean`, `description`: `Whether all verification checks passed` },
    `checks`: {
      `type`: `array`,
      `description`: `Individual verification check results`,
      `items`: {
        `type`: `object`,
        `properties`: {
          `name`: { `type`: `string`, `maxLength`: 253, `description`: `Check identifier matching the analysis verification plan (e.g., 'pod-running')` },
          `source`: { `type`: `string`, `maxLength`: 4096, `description`: `The command or query that was run (e.g., 'oc get pod -n production -o jsonpath={.status.phase}', 'promql: rate(container_cpu_usage_seconds_total[5m])')` },
          `value`: { `type`: `string`, `maxLength`: 4096, `description`: `Actual observed value (e.g., 'Running', '3 replicas')` },
          `result`: { `type`: `string`, `enum`: [`Passed`, `Failed`], `description`: `Whether the observed value matches expectations` }
        },
        `required`: [`name`, `result`, `source`, `value`]
      }
    },
    `summary`: { `type`: `string`, `description`: `Overall verification summary in Markdown` }
  },
  `required`: [`success`, `checks`, `summary`]
}".

Definition EscalationOutputSchema : string := quotes "{
  `type`: `object`,
  `properties`: {
    `success`: { `type`: `boolean`, `description`: `Whether the escalation analysis completed successfully` },
    `summary`: { `type`: `string`, `description`: `Markdown summary of the escalation analysis and recommendations` },
    `content`: { `type`: `string`, `description`: `Detailed escalation content: root cause analysis across all failed attempts, recommended next steps, and any information for the escalation target` }
  },
  `required`: [`success`, `summary`, `content`]
}".

Definition defaultOutputSchemas : list (string * string) :=
  [("analysis", AnalysisOutputSchema); ("execution", ExecutionOutputSchema);
   ("verification", VerificationOutputSchema); ("escalation", EscalationOutputSchema)].

(** ** [json.Unmarshal] into an [any]

    For the texts above and what [json.Marshal] makes of their parts: integers,
    and strings whose escapes are single characters.  Any other text is not read
    ([None]); [schemas_read] shows that all of these are. *)
Definition isSpace (c : ascii) : bool :=
  existsb (λ n, (nat_of_ascii c =? n)%nat) [32; 10; 13; 9].

Fixpoint skipSpace (s : string) : string :=
  match s with String c s' => if isSpace c then skipSpace s' else s | "" => "" end.

Definition unescape (c : ascii) : option ascii :=
  if (nat_of_ascii c =? 34)%nat || (nat_of_ascii c =? 92)%nat || (nat_of_ascii c =? 47)%nat then Some c
  else if Ascii.eqb c "n" then Some (byte 10)
  else if Ascii.eqb c "t" then Some (byte 9)
  else if Ascii.eqb c "r" then Some (byte 13)
  else if Ascii.eqb c "b" then Some (byte 8)
  else if Ascii.eqb c "f" then Some (byte 12)
  else None.

(** The rest of a string literal: its value, and the text behind it. *)
Fixpoint readChars (s : string) : option (string * string) :=
  match s with
  | "" => None
  | String c s' =>
      if (nat_of_ascii c =? 34)%nat then Some ("", s')
      else if (nat_of_ascii c =? 92)%nat then
        match s' with
        | String e s'' =>
            d ← unescape e ; '(t, rest) ← readChars s'' ; Some (String d t, rest)
        | "" => None
        end
      else '(t, rest) ← readChars s' ; Some (String c t, rest)
  end.

Fixpoint readDigits (acc : Z) (s : string) : Z * string :=
  match s with
  | String c s' =>
      match digitOf c with Some d => readDigits (10 * acc + d)%Z s' | None => (acc, s) end
  | "" => (acc, "")
  end.

(** A value, the elements of an array, the members of an object. *)
Fixpoint readValue (fuel : nat) (s : string) : option (Json * string) :=
  match fuel with
  | O => None
  | S fuel' =>
      match skipSpace s with
      | "" => None
      | String c s' =>
          if (nat_of_ascii c =? 34)%nat then
            '(t, rest) ← readChars s' ; Some (JString t, rest)
          else if Ascii.eqb c "{" then
            '(fields, rest) ← readMembers fuel' s' ; Some (JObject fields, rest)
          else if Ascii.eqb c "[" then
            '(xs, rest) ← readElements fuel' s' ; Some (JArray xs, rest)
          else match digitOf c with
               | Some _ => let '(z, rest) := readDigits 0 (String c s') in Some (JNumber z, rest)
               | None =>
                   match cutPrefix "true" (String c s'), cutPrefix "false" (String c s') with
                   | Some rest, _ => Some (JBool true, rest)
                   | _, Some rest => Some (JBool false, rest)
                   | None, None => None
                   end
               end
      end
  end
with readElements (fuel : nat) (s : string) : option (list Json * string) :=
  match fuel with
  | O => None
  | S fuel' =>
      match cutPrefix "]" (skipSpace s) with
      | Some rest => Some ([], rest)
      | None =>
          '(x, rest) ← readValue fuel' s ;
          match cutPrefix "," (skipSpace rest) with
          | Some rest => '(xs, rest) ← readElements fuel' rest ; Some (x :: xs, rest)
          | None => rest ← cutPrefix "]" (skipSpace rest) ; Some ([x], rest)
          end
      end
  end
with readMembers (fuel : nat) (s : string) : option (list (string * Json) * string) :=
  match fuel with
  | O => None
  | S fuel' =>
      match cutPrefix "}" (skipSpace s) with
      | Some rest => Some ([], rest)
      | None =>
          s' ← cutPrefix quoteByte (skipSpace s) ;
          '(k, rest) ← readChars s' ;
          rest ← cutPrefix ":" (skipSpace rest) ;
          '(v, rest) ← readValue fuel' rest ;
          match cutPrefix "," (skipSpace rest) with
          | Some rest => '(fields, rest) ← readMembers fuel' rest ; Some ((k, v) :: fields, rest)
          | None => rest ← cutPrefix "}" (skipSpace rest) ; Some ([(k, v)], rest)
          end
      end
  end.

Definition Unmarshal (text : string) : option Json :=
  '(v, rest) ← readValue (String.length text) text ;
  if String.eqb (skipSpace rest) "" then Some v else None.

(** ** [json.Marshal] of an [any]: the keys of a map are sorted *)
Fixpoint insertKey (k : string) (v : Json) (fields : list (string * Json)) : list (string * Json) :=
  match fields with
  | [] => [(k, v)]
  | (k', v') :: fields' =>
      if String.ltb k' k then (k', v') :: insertKey k v fields' else (k, v) :: fields
  end.

Fixpoint sortKeys (j : Json) : Json :=
  match j with
  | JArray xs => JArray (map sortKeys xs)
  | JObject fields =>
      JObject (fold_right (λ '(k, v) sorted, insertKey k (sortKeys v) sorted) [] fields)
  | j => j
  end.

Definition Marshal (j : Json) : string := render (sortKeys j).

(** ** Maps *)
Fixpoint field (k : string) (fields : list (string * Json)) : option Json :=
  match fields with
  | [] => None
  | (k', v) :: fields' => if String.eqb k' k then Some v else field k fields'
  end.

(** [m[k] = v]. *)
Fixpoint setField (k : string) (v : Json) (fields : list (string * Json)) : list (string * Json) :=
  match fields with
  | [] => [(k, v)]
  | (k', v') :: fields' =>
      if String.eqb k' k then (k, v) :: fields' else (k', v') :: setField k v fields'
  end.

(** [v.(map[string]any)[k].(map[string]any)]: [None] is the panic. *)
Definition objectAt (k : string) (fields : list (string * Json)) : option (list (string * Json)) :=
  match field k fields with Some (JObject fs) => Some fs | _ => None end.

Definition unmarshalMap (text : string) : option (list (string * Json)) :=
  match Unmarshal text with Some (JObject fs) => Some fs | _ => None end.

(** ** The properties of an option *)

(** The maps down to the properties of an option: the schema, its properties, the
    options, the items of the options, their properties. *)
Definition optionPath (text : string) :=
  schema ← unmarshalMap text ;
  properties ← objectAt "properties" schema ;
  options ← objectAt "options" properties ;
  items ← objectAt "items" options ;
  props ← objectAt "properties" items ;
  Some (schema, properties, options, items, props).

(** [builtInPropertyJSON], as [init] fills it. *)
Definition builtInPropertyJSON : list (string * string) :=
  match optionPath AnalysisOutputSchema with
  | Some (_, _, _, _, allProps) => map (λ '(k, v), (k, Marshal v)) allProps
  | None => []
  end.

Fixpoint textOf (name : string) (texts : list (string * string)) : string :=
  match texts with
  | [] => ""
  | (k, t) :: texts' => if String.eqb k name then t else textOf name texts'
  end.

Definition injectBuiltInProperty (props : list (string * Json)) (name : string)
    : list (string * Json) :=
  setField name (default (JRaw "null") (Unmarshal (textOf name builtInPropertyJSON))) props.

Definition AnalysisOutputModeDefault : string := "Default".
Definition AnalysisOutputModeMinimal : string := "Minimal".

Section Schemas.
Context `{R : Rendering}.

(** What the code does to the properties and the list of required ones. *)
Definition executionProperties (minimal executes : bool)
    (p : list (string * Json) * list string) : list (string * Json) * list string :=
  let '(props, required) := p in
  if negb executes then (props, required)
  else
    let '(props, required) :=
      if minimal then
        (injectBuiltInProperty (injectBuiltInProperty props "remediationPlan") "rbac",
         required ++ ["remediationPlan"])
      else (props, required) in
    (props, required ++ ["rbac"]).

Definition verificationProperties (minimal verifies : bool)
    (p : list (string * Json) * list string) : list (string * Json) * list string :=
  let '(props, required) := p in
  if negb verifies then (props, required)
  else ((if minimal then injectBuiltInProperty props "verification" else props),
        required ++ ["verification"]).

Definition customProperties (customSchema : option JSON)
    (p : list (string * Json) * list string) : list (string * Json) * list string :=
  let '(props, required) := p in
  match customSchema ≫= componentsOf with
  | Some components => (setField "components" components props, required ++ ["components"])
  | None => (props, required)
  end.

(** The properties of an option and the required ones, from those of the base. *)
Definition optionProperties (mode : string) (run : AgenticRun) (props : list (string * Json))
    : list (string * Json) * list string :=
  let minimal := String.eqb mode AnalysisOutputModeMinimal in
  customProperties (output_Schema (spec_AnalysisOutput (run_Spec run)))
    (verificationProperties minimal (negb (AgenticRunStep_IsZero (spec_Verification (run_Spec run))))
       (executionProperties minimal (negb (AgenticRunStep_IsZero (spec_Execution (run_Spec run))))
          (props,
           "title" :: if String.eqb mode AnalysisOutputModeDefault
                      then ["diagnosis"; "remediationPlan"] else []))).

Definition effectiveMode (run : AgenticRun) : string :=
  let mode := output_Mode (spec_AnalysisOutput (run_Spec run)) in
  if String.eqb mode "" then AnalysisOutputModeDefault else mode.

(** The schema of an analysis: [None] if the base is not of the expected shape. *)
Definition analysisSchema (run : AgenticRun) : option Json :=
  let mode := effectiveMode run in
  let base := if String.eqb mode AnalysisOutputModeMinimal
              then MinimalAnalysisOutputSchema else AnalysisOutputSchema in
  '(schema, properties, options, items, props) ← optionPath base ;
  let '(props, required) := optionProperties mode run props in
  let items := setField "required" (JArray (map JString required))
                 (setField "properties" (JObject props) items) in
  Some (JObject (setField "properties"
    (JObject (setField "options" (JObject (setField "items" (JObject items) options)) properties))
    schema)).

Definition outputSchemaForStep (stepName : string) (run : AgenticRun) : string :=
  if negb (String.eqb stepName "analysis") then textOf stepName defaultOutputSchemas
  else default "" (Marshal <$> analysisSchema run).
End Schemas.

(** ** What the schemas say *)

(** The texts are read, and an option of a base declares the properties that the
    code adds to the required ones without declaring them. *)
Definition declares (names : list string) (props : list (string * Json)) : bool :=
  forallb (λ name, bool_decide (is_Some (field name props))) names.

Definition builtInProperties : list string :=
  ["title"; "diagnosis"; "remediationPlan"; "rbac"; "verification"].

Lemma schemas_read :
  forallb (λ '(_, text), bool_decide (is_Some (unmarshalMap text))) defaultOutputSchemas = true.
Proof. vm_compute. reflexivity. Qed.

Lemma base_declares text names :
  (text, names) ∈ [(AnalysisOutputSchema, builtInProperties); (MinimalAnalysisOutputSchema, ["title"])] →
  from_option (λ '(_, _, _, _, props), declares names props) false (optionPath text) = true.
Proof.
  rewrite !elem_of_cons, elem_of_nil.
  intros [[= -> ->]|[[= -> ->]|[]]]; vm_compute; reflexivity.
Qed.

(** A property that is injected is the one of the full schema, written and read again. *)
Lemma builtIn_read :
  from_option (λ '(_, _, _, _, props), forallb (λ '(k, v),
      bool_decide (Marshal <$> Unmarshal (textOf k builtInPropertyJSON) = Some (Marshal v))) props)
    false (optionPath AnalysisOutputSchema) = true.
Proof. vm_compute. reflexivity. Qed.

Lemma field_setField k k' v fs :
  field k (setField k' v fs) = if String.eqb k' k then Some v else field k fs.
Proof.
  induction fs as [|[k0 v0] fs IH]; cbn; [done|].
  destruct (String.eqb_spec k0 k') as [->|Hn]; cbn.
  - by destruct (String.eqb k' k).
  - rewrite IH. destruct (String.eqb_spec k0 k) as [->|]; [|done].
    by destruct (String.eqb_spec k' k) as [->|].
Qed.

Lemma objectAt_setField k fs v : objectAt k (setField k (JObject v) fs) = Some v.
Proof. unfold objectAt. by rewrite field_setField, String.eqb_refl. Qed.

Lemma field_setField_keeps k k' v fs : is_Some (field k fs) → is_Some (field k (setField k' v fs)).
Proof. rewrite field_setField. by destruct (String.eqb k' k). Qed.

(** An option of the base has no property [components]. *)
Lemma base_free text :
  text ∈ [AnalysisOutputSchema; MinimalAnalysisOutputSchema] →
  from_option (λ '(_, _, _, _, props), bool_decide (field "components" props = None)) false
    (optionPath text) = true.
Proof. rewrite !elem_of_cons, elem_of_nil. intros [->|[->|[]]]; vm_compute; reflexivity. Qed.

Lemma field_inject k name props :
  is_Some (field k (injectBuiltInProperty props name)) ↔ k = name ∨ is_Some (field k props).
Proof.
  unfold injectBuiltInProperty. generalize (default (JRaw "null") (Unmarshal (textOf name builtInPropertyJSON))).
  intros v. rewrite field_setField. destruct (String.eqb_spec name k) as [->|Hn].
  - split; [by left|by eexists].
  - split; [by right|by intros [->|]].
Qed.

Lemma field_inject_other k name props :
  k ≠ name → field k (injectBuiltInProperty props name) = field k props.
Proof.
  unfold injectBuiltInProperty. rewrite field_setField. intros Hn.
  by destruct (String.eqb_spec name k).
Qed.

#[local] Opaque injectBuiltInProperty AnalysisOutputSchema MinimalAnalysisOutputSchema.

(** The object that describes an option in a schema. *)
Definition optionItems (schema : Json) : option (list (string * Json)) :=
  match schema with
  | JObject fs =>
      properties ← objectAt "properties" fs ;
      options ← objectAt "options" properties ;
      objectAt "items" options
  | _ => None
  end.

Section SchemaFacts.
Context `{R : Rendering} (run : AgenticRun).
Abbreviation executes := (AgenticRunStep_IsZero (spec_Execution (run_Spec run)) = false).
Abbreviation verifies := (AgenticRunStep_IsZero (spec_Verification (run_Spec run)) = false).
Abbreviation custom := (output_Schema (spec_AnalysisOutput (run_Spec run)) ≫= componentsOf).

(** What an option must have, and that it is declared; [base] are the properties of
    the text that the mode selects. *)
Definition optionOk (mode : string) (props : list (string * Json)) (required : list string) : Prop :=
  NoDup required ∧ (∀ name, name ∈ required → is_Some (field name props)) ∧
  "title" ∈ required ∧
  ("remediationPlan" ∈ required ↔ mode = AnalysisOutputModeDefault ∨
     (mode = AnalysisOutputModeMinimal ∧ executes)) ∧
  ("rbac" ∈ required ↔ executes) ∧ ("verification" ∈ required ↔ verifies) ∧
  ("components" ∈ required ↔ is_Some custom) ∧ field "components" props = custom.

(** Membership in a list of literals, as a computation. *)
Ltac decide_member :=
  first
    [ split; intros _;
      [ first [done | by left | by right | by eexists]
      | apply (bool_decide_unpack _); vm_compute; exact I ]
    | split; intros H;
      [ exfalso; apply (bool_decide_pack _) in H; vm_compute in H; exact H
      | exfalso; repeat match type of H with _ ∨ _ => destruct H as [H|H] | _ ∧ _ => destruct H as [? H] end;
        first [discriminate H | congruence | destruct H as [? H]; discriminate H] ] ].

Lemma optionProperties_ok mode base :
  declares (if String.eqb mode AnalysisOutputModeMinimal then ["title"] else builtInProperties) base
    = true →
  field "components" base = None →
  optionOk mode (fst (optionProperties mode run base)) (snd (optionProperties mode run base)).
Proof.
  intros Hd Hc. unfold declares in Hd. rewrite forallb_forall in Hd.
  setoid_rewrite bool_decide_eq_true in Hd. setoid_rewrite <- list_elem_of_In in Hd.
  unfold optionProperties, customProperties, verificationProperties, executionProperties.
  destruct (String.eqb_spec mode AnalysisOutputModeMinimal) as [->|Hm];
    [change (String.eqb AnalysisOutputModeMinimal AnalysisOutputModeDefault) with false
    |destruct (String.eqb_spec mode AnalysisOutputModeDefault) as [->|Hm']];
    destruct (AgenticRunStep_IsZero (spec_Execution _)) eqn:He;
    destruct (AgenticRunStep_IsZero (spec_Verification _)) eqn:Hv;
    destruct custom as [c|] eqn:Hcu; cbn [negb fst snd app];
    unfold optionOk; rewrite ?He, ?Hv, ?Hcu;
    (split_and!;
      [apply (bool_decide_unpack _); vm_compute; exact I
      |intros name; rewrite !elem_of_cons, elem_of_nil; intros Hn; rewrite ?field_setField;
       destruct (String.eqb_spec "components" name); try (by eexists);
       rewrite ?field_inject; unfold builtInProperties in Hd; set_solver
      |set_solver|decide_member..
      |rewrite ?field_setField, ?field_inject_other by done; done]).
Qed.

(** The analysis agent is asked for what the run will use.  Whatever the mode of
    the output, the schema sent for an analysis exists; everything it requires of an
    option is declared there, once; an option must have a title, RBAC exactly when the
    run executes, a verification exactly when it verifies, a remediation plan by
    default and, in the minimal mode, when the run executes, and the components
    exactly when the user gave a schema for them, which is the one declared. *)
Theorem outputSchema_declares :
  ∃ schema items props required,
    outputSchemaForStep "analysis" run = Marshal schema ∧
    optionItems schema = Some items ∧ objectAt "properties" items = Some props ∧
    field "required" items = Some (JArray (map JString required)) ∧
    optionOk (effectiveMode run) props required.
Proof.
  set (mode := effectiveMode run).
  set (base := if String.eqb mode AnalysisOutputModeMinimal
               then MinimalAnalysisOutputSchema else AnalysisOutputSchema).
  assert (Hin : (base, if String.eqb mode AnalysisOutputModeMinimal then ["title"] else builtInProperties)
    ∈ [(AnalysisOutputSchema, builtInProperties); (MinimalAnalysisOutputSchema, ["title"])])
    by (subst base; destruct (String.eqb _ _); [right; left|left]).
  assert (Hin' : base ∈ [AnalysisOutputSchema; MinimalAnalysisOutputSchema])
    by (subst base; destruct (String.eqb _ _); [right; left|left]).
  pose proof (base_declares _ _ Hin) as Hd. pose proof (base_free _ Hin') as Hf.
  destruct (optionPath base) as [((((schema & properties) & options) & items) & props)|] eqn:Hp;
    [|discriminate Hd].
  cbn [from_option] in Hd, Hf. apply bool_decide_eq_true in Hf.
  pose proof (optionProperties_ok mode props Hd Hf) as Hok.
  unfold outputSchemaForStep, analysisSchema. fold mode base. rewrite Hp. cbn [mbind option_bind].
  destruct (optionProperties mode run props) as [props' required] eqn:Ho. cbn [fst snd] in Hok.
  eexists _, _, props', required. split; [reflexivity|]. cbn [optionItems].
  rewrite objectAt_setField. cbn [mbind option_bind]. rewrite objectAt_setField.
  cbn [mbind option_bind]. rewrite objectAt_setField. split; [reflexivity|].
  rewrite (field_setField "required"), String.eqb_refl. split_and!; [|reflexivity|exact Hok].
  unfold objectAt. rewrite !field_setField. reflexivity.
Qed.
End SchemaFacts.
