(* ===== verification/Rbac.v ===== *)
(** The RBAC of sandboxes ([controller/agenticrun/rbac.go]): reader bindings
    of a step's account, the roles of an approved option, the role to write a
    result, and their removal. *)
From stdpp Require Import base list option strings gmap.
From Stdlib Require Import ZArith Lia Ascii.
From S2P Require Import Prelude GoText Crypto ApiMachinery Types Objects Phase Effects Approval.
From S2P Require Import Resolve Results Helpers.

Local Open Scope string_scope.
Local Open Scope list_scope.
Local Open Scope prog_scope.

Definition ErrCreateSandboxSA : string := "create sandbox SA".
Definition ErrCreateRole : string := "create Role in".
Definition ErrCreateRoleBinding : string := "create RoleBinding in".
Definition ErrCreateClusterRole : string := "create ClusterRole".
Definition ErrCreateClusterRoleBinding : string := "create ClusterRoleBinding".
Definition ErrAddReaderSubject : string := "add subject to reader ClusterRoleBinding".
Definition ErrRemoveReaderSubject : string := "remove subject from reader ClusterRoleBinding".
Definition ErrDeleteRoleBinding : string := "delete RoleBinding in".
Definition ErrDeleteRole : string := "delete Role in".
Definition ErrDeleteClusterRoleBinding : string := "delete ClusterRoleBinding".
Definition ErrDeleteClusterRole : string := "delete ClusterRole".

(** ** Names and labels *)

Definition stepAbbrev (step : string) : string :=
  if String.eqb step "analysis" then "anl"
  else if String.eqb step "execution" then "exe"
  else if String.eqb step "verification" then "ver"
  else if String.eqb step "escalation" then "esc"
  else step.

Definition perRunCRBName (runUID step : string) (index : nat) : string :=
  truncateK8sName ("ls-reader-" +:+ stepAbbrev step +:+ "-" +:+ runUID +:+ "-" +:+
                   Itoa (Z.of_nat index)).

Definition sandboxSAName (run : AgenticRun) (step : string) : string :=
  "ls-" +:+ stepAbbrev step +:+ "-" +:+ run_UID run.

Definition readerBindingName (runUID step sourceName : string) : string :=
  truncateK8sName ("ls-reader-" +:+ stepAbbrev step +:+ "-" +:+ runUID +:+ "-" +:+
                   hex (take 4 (Sum256 sourceName))).

Definition resultRoleName (runUID step : string) : string :=
  "ls-result-" +:+ step +:+ "-" +:+ runUID.

Definition executionRoleName (agenticRunName : string) : string :=
  truncateK8sName ("ls-exec-" +:+ agenticRunName).

Definition clusterRoleName (agenticRunName : string) : string :=
  truncateK8sName ("ls-exec-cluster-" +:+ agenticRunName).

Definition rbacLabels (runUID component : string) : gmap string string :=
  <[LabelRun := runUID]> {[LabelComponent := component]}.

(** [for k, v := range extra { labels[k] = v }]. *)
Definition withExtra (extra labels : gmap string string) : gmap string string := extra ∪ labels.

Definition spokeReaderBindingNames : list string :=
  ["lightspeed-hub:cluster-reader"; "lightspeed-hub:cluster-monitoring-view"].

(** The key of a cluster-scoped object. *)
Definition clusterKey (name : string) : NamespacedName := MkNamespacedName "" name.

Definition serviceAccountSubject (name namespace : string) : Subject :=
  MkSubject ServiceAccountKind "" name namespace.

(** ** Rules *)

Definition normalizeCoreAPIGroup (groups : list string) : list string :=
  map (λ g, if String.eqb g "core" then "" else g) groups.

Definition rbacRulesToPolicyRules (rules : list RBACRule) : list PolicyRule :=
  map (λ r, MkPolicyRule (normalizeCoreAPIGroup (rule_APIGroups r)) (rule_Resources r)
              (rule_ResourceNames r) (rule_Verbs r)) rules.

(** The loop of [rbacTargetNamespaces], [seen] being its map. *)
Fixpoint targetNamespacesFrom (seen : list string) (rules : list RBACRule) : list string :=
  match rules with
  | [] => []
  | rule :: rules' =>
      let ns := rule_Namespace rule in
      if negb (String.eqb ns "") && negb (bool_decide (ns ∈ seen))
      then ns :: targetNamespacesFrom (ns :: seen) rules'
      else targetNamespacesFrom seen rules'
  end.

Definition rbacTargetNamespaces (rbacResult : option RBACResult) : list string :=
  match rbacResult with
  | None => []
  | Some rbac => targetNamespacesFrom [] (rbac_NamespaceScoped rbac)
  end.

Definition rulesIn (rbac : RBACResult) (ns : string) : list RBACRule :=
  List.filter (λ rule, String.eqb (rule_Namespace rule) ns) (rbac_NamespaceScoped rbac).

Definition annotatedRBACNamespaces (run : AgenticRun) : list string :=
  let val := mapGet (run_Annotations run) rbacNamespacesAnnotation in
  if String.eqb val "" then [] else Split val ",".

(** [run.Annotations[key] = value]. *)
Definition annotate (run : AgenticRun) (key value : string) : AgenticRun :=
  withMeta run (withAnnotations (run_Meta run) (<[key := value]> (run_Annotations run))).

(** [stepResultResource]. *)
Definition stepResultResource (step : string) : option string :=
  if String.eqb step "analysis" then Some "analysisresults"
  else if String.eqb step "execution" then Some "executionresults"
  else if String.eqb step "verification" then Some "verificationresults"
  else if String.eqb step "escalation" then Some "escalationresults"
  else None.

Definition agenticGroup : string := "agentic.openshift.io".

Definition resultRules (step resource resultName : string) : list PolicyRule :=
  [ MkPolicyRule [agenticGroup] [resource] [] ["create"];
    MkPolicyRule [agenticGroup] [resource; resource +:+ "/status"] [resultName]
      ["get"; "patch"; "update"] ] ++
  (if String.eqb step "escalation" then
     [MkPolicyRule [agenticGroup] ["analysisresults"; "executionresults"; "verificationresults"]
        [] ["get"; "list"]]
   else []).

(** ** Reader bindings

    The event of an informer: a binding, or the last known state of a deleted
    one. *)
Inductive InformerObject :=
| InformerBinding (o : Object KClusterRoleBinding)
| DeletedFinalStateUnknown (o : InformerObject)
| InformerOther.

Definition isReaderSubject (namespace : string) (s : Subject) : bool :=
  String.eqb (subject_Kind s) ServiceAccountKind && String.eqb (subject_Name s) defaultSandboxSA
  && String.eqb (subject_Namespace s) namespace.

Fixpoint readerBindingReferencesServiceAccount (obj : InformerObject) (namespace : string) : bool :=
  match obj with
  | InformerBinding o => existsb (isReaderSubject namespace) (binding_Subjects (obj_Content o))
  | DeletedFinalStateUnknown o => readerBindingReferencesServiceAccount o namespace
  | InformerOther => false
  end.

Section Rbac.
Context `{K : ApiMachinery}.

(** [c.Delete], ignoring a missing object. *)
Definition deleteIfExists (c : Client) (k : Kind) (key : NamespacedName) : M (option error) :=
  e <- call (ObjDelete c k key plainDelete) ;;
  Ret match e with
      | Some err => if IsNotFound err then None else Some err
      | None => None
      end.

(** Deletes the bindings created so far; errors are logged. *)
Definition cleanupCreatedCRBs (c : Client) (names : list string) : M unit :=
  foldM names tt (λ name _,
    deleteIfExists c KClusterRoleBinding (clusterKey name) ;;; Ret tt).

Definition spokeBinding (runUID step sourceName : string) (index : nat) (subject : Subject)
    (extraLabels : gmap string string) (source : Object KClusterRoleBinding)
    : Object KClusterRoleBinding :=
  MkObject (k := KClusterRoleBinding)
    (newMeta (perRunCRBName runUID step index) ""
       (withExtra extraLabels (rbacLabels runUID "reader-rbac")))
    (MkBinding (binding_RoleRef (obj_Content source)) [subject]).

Definition addReaderSubjectOnSpoke (c : Client) (runUID step saName spokeNS : string)
    (extraLabels : gmap string string) : M (option error) :=
  let subject := serviceAccountSubject saName spokeNS in
  forEach (imap pair spokeReaderBindingNames) []
    (λ '(i, sourceName) created,
       got <- call (ObjGet c KClusterRoleBinding (clusterKey sourceName)) ;;
       match got with
       | Err err =>
           cleanupCreatedCRBs c created ;;;
           Ret (inr (Some (wrapError (ErrAddReaderSubject +:+ ": get source " +:+ sourceName) err)))
       | Ok source =>
           let crbName := perRunCRBName runUID step i in
           made <- call (ObjCreate c KClusterRoleBinding
                           (spokeBinding runUID step sourceName i subject extraLabels source)) ;;
           match made with
           | Ok _ => Ret (inl (created ++ [crbName]))
           | Err err =>
               if IsAlreadyExists err then Ret (inl created)
               else
                 cleanupCreatedCRBs c created ;;;
                 Ret (inr (Some (wrapError
                   (ErrCreateClusterRoleBinding +:+ " " +:+ crbName) err)))
           end
       end)
    (λ _, Ret None).

(** [if err != nil && firstErr == nil { firstErr = err }]. *)
Definition keepFirst (firstErr err : option error) : option error :=
  match firstErr with Some e => Some e | None => err end.

(** The deletion of a reader binding, with its error as the loops report it. *)
Definition deleteReader (c : Client) (what name : string) (key : NamespacedName)
    : M (option error) :=
  e <- deleteIfExists c KClusterRoleBinding key ;; Ret (wrapError (what +:+ " " +:+ name) <$> e).

Definition removeReaderSubjectOnSpoke (c : Client) (runUID step : string) : M (option error) :=
  foldM (seq 0 (length spokeReaderBindingNames)) None (λ i firstErr,
    let crbName := perRunCRBName runUID step i in
    e <- deleteReader c ErrDeleteClusterRoleBinding crbName (clusterKey crbName) ;;
    Ret (keepFirst firstErr e)).

Definition discoverReaderBindings (c : Client) (operatorNS : string) : M (res (list string)) :=
  got <- call (ObjList c KClusterRoleBinding "" Everything) ;;
  match got with
  | Err err => Ret (Err (wrapError "list ClusterRoleBindings for reader discovery" err))
  | Ok items =>
      let names := map obj_Name
        (List.filter (λ o : Object KClusterRoleBinding, existsb (isReaderSubject operatorNS)
                             (binding_Subjects (obj_Content o))) items) in
      match names with
      | [] =>
          Ret (Err (errorString
            ("no ClusterRoleBinding found with subject " +:+ operatorNS +:+ "/" +:+
             defaultSandboxSA +:+ " — ensure reader RBAC is configured")))
      | _ => call (StoreReaderBindings names) ;;; Ret (Ok names)
      end
  end.

Definition resolveReaderBindings (c : Client) (operatorNS : string) : M (res (list string)) :=
  names <- call LoadReaderBindings ;;
  match names with
  | [] => discoverReaderBindings c operatorNS
  | _ => Ret (Ok names)
  end.

Definition invalidateReaderBindings : M unit := call (StoreReaderBindings []).

(** [readerBindingEventHandlers] of [reconciler.go]: an event about a binding of the
    sandbox account, as it was or as it is, empties the cache. *)
Definition onReaderBindings (namespace : string) (objs : list InformerObject) : M unit :=
  if existsb (λ o, readerBindingReferencesServiceAccount o namespace) objs
  then invalidateReaderBindings else Ret tt.
Definition readerBindingAdded (namespace : string) (obj : InformerObject) : M unit :=
  onReaderBindings namespace [obj].
Definition readerBindingUpdated (namespace : string) (oldObj newObj : InformerObject) : M unit :=
  onReaderBindings namespace [oldObj; newObj].
Definition readerBindingDeleted (namespace : string) (obj : InformerObject) : M unit :=
  onReaderBindings namespace [obj].

Definition readerBinding (runUID step sourceName : string) (subject : Subject)
    (source : Object KClusterRoleBinding) : Object KClusterRoleBinding :=
  MkObject (k := KClusterRoleBinding)
    (newMeta (readerBindingName runUID step sourceName) ""
       (<[LabelRun := runUID]> (<[LabelStep := step]> {[LabelComponent := "reader-rbac"]})))
    (MkBinding (binding_RoleRef (obj_Content source)) [subject]).

(** The closure [cleanupCreated]: errors are logged. *)
Definition cleanupCreated (c : Client) (created : list string) : M unit :=
  call (ContextWithTimeout cleanupTimeout) ;;;
  foldM created tt (λ name _,
    call (ObjDelete c KClusterRoleBinding (clusterKey name) plainDelete) ;;; Ret tt).

Definition ownedReader (runUID step : string) (o : Object KClusterRoleBinding) : bool :=
  String.eqb (mapGet (obj_Labels o) LabelRun) runUID
  && String.eqb (mapGet (obj_Labels o) LabelStep) step
  && String.eqb (mapGet (obj_Labels o) LabelComponent) "reader-rbac".

(** The body of the loop of [addReaderSubjectForBindings]: the created names,
    or what the function returns. *)
Definition addReaderBinding (c : Client) (runUID step : string) (subject : Subject)
    (sourceName : string) (created : list string) : M (list string + option error) :=
  let abort (err : error) : M (list string + option error) :=
    cleanupCreated c created ;;; Ret (inr (Some err)) in
  got <- call (ObjGet c KClusterRoleBinding (clusterKey sourceName)) ;;
  match got with
  | Err err =>
      abort (if IsNotFound err
             then suffixError errReaderBindingsStale (sourceName +:+ ": " +:+ Error err)
             else wrapError (ErrAddReaderSubject +:+ " " +:+ sourceName) err)
  | Ok source =>
      let binding := readerBinding runUID step sourceName subject source in
      let name := obj_Name binding in
      let what := ErrAddReaderSubject +:+ " " +:+ name in
      made <- call (ObjCreate c KClusterRoleBinding binding) ;;
      match made with
      | Ok _ => Ret (inl (created ++ [name]))
      | Err err =>
          if IsAlreadyExists err then
            found <- call (ObjGet c KClusterRoleBinding (clusterKey name)) ;;
            match found with
            | Err getErr => abort (wrapError (what +:+ ": get existing binding") getErr)
            | Ok existing =>
                if bool_decide (obj_Content (k := KClusterRoleBinding) existing = obj_Content binding)
                then Ret (inl created)
                else if negb (ownedReader runUID step existing)
                then abort (errorString (what +:+ ": existing binding is not owned by this run"))
                else
                  deleted <- call (ObjDelete c KClusterRoleBinding (obj_Key existing) plainDelete) ;;
                  let recreate :=
                    again <- call (ObjCreate c KClusterRoleBinding binding) ;;
                    match again with
                    | Err createErr => abort (wrapError (what +:+ ": recreate binding") createErr)
                    | Ok _ => Ret (inl (created ++ [name]))
                    end in
                  match deleted with
                  | Some deleteErr =>
                      if negb (IsNotFound deleteErr)
                      then abort (wrapError (what +:+ ": delete stale binding") deleteErr)
                      else recreate
                  | None => recreate
                  end
            end
          else abort (wrapError what err)
      end
  end.

Definition addReaderSubjectForBindings (c : Client) (runUID step saName namespace : string)
    (names : list string) : M (option error) :=
  forEach names [] (addReaderBinding c runUID step (serviceAccountSubject saName namespace))
    (λ _, Ret None).

Definition addReaderSubject (c : Client) (runUID step saName namespace : string)
    : M (option error) :=
  retry 2
    (resolved <- resolveReaderBindings c namespace ;;
     match resolved with
     | Err err => Ret (Some (Some (wrapError ErrAddReaderSubject err)))
     | Ok names =>
         e <- addReaderSubjectForBindings c runUID step saName namespace names ;;
         if match e with Some err => errorsAny isSentinelStale err | None => false end
         then call (StoreReaderBindings []) ;;; Ret None
         else Ret (Some e)
     end)
    (Ret (Some (errorString (ErrAddReaderSubject +:+
       ": cached reader bindings remained stale after refresh")))).

Definition removeReaderSubject (c : Client) (runUID step : string) : M (option error) :=
  got <- call (ObjList c KClusterRoleBinding ""
                 (MatchingLabels (<[LabelRun := runUID]>
                    (<[LabelStep := step]> {[LabelComponent := "reader-rbac"]})))) ;;
  match got with
  | Err err =>
      Ret (Some (wrapError (ErrRemoveReaderSubject +:+ ": list per-run reader bindings") err))
  | Ok items =>
      foldM items None (λ binding firstErr,
        e <- deleteReader c ErrRemoveReaderSubject (obj_Name binding) (obj_Key binding) ;;
        Ret (keepFirst firstErr e))
  end.

(** ** Execution RBAC *)

(** [err != nil && !apierrors.IsAlreadyExists(err)] of a creation. *)
Definition createIfMissing (c : Client) (k : Kind) (obj : Object k) : M (option error) :=
  made <- call (ObjCreate c k obj) ;;
  Ret match made with
      | Err err => if IsAlreadyExists err then None else Some err
      | Ok _ => None
      end.

Definition roleObject (name namespace : string) (labels : gmap string string)
    (rules : list PolicyRule) : Object KRole :=
  MkObject (k := KRole) (newMeta name namespace labels) rules.

Definition roleBindingObject (name namespace : string) (labels : gmap string string)
    (subjects : list Subject) : Object KRoleBinding :=
  MkObject (k := KRoleBinding) (newMeta name namespace labels)
    (MkBinding (MkRoleRef rbacGroupName "Role" name) subjects).

Definition clusterRoleObject (name : string) (labels : gmap string string)
    (rules : list PolicyRule) : Object KClusterRole :=
  MkObject (k := KClusterRole) (newMeta name "" labels) rules.

Definition clusterRoleBindingObject (name : string) (labels : gmap string string)
    (subjects : list Subject) : Object KClusterRoleBinding :=
  MkObject (k := KClusterRoleBinding) (newMeta name "" labels)
    (MkBinding (MkRoleRef rbacGroupName "ClusterRole" name) subjects).

(** The role and the binding of one namespace. *)
Definition ensureNamespaceRBAC (c : Client) (roleName : string) (labels : gmap string string)
    (subjects : list Subject) (rbac : RBACResult) (ns : string) : M (option error) :=
  e <- createIfMissing c KRole
         (roleObject roleName ns labels (rbacRulesToPolicyRules (rulesIn rbac ns))) ;;
  onErr e (λ err, Ret (Some (wrapError (ErrCreateRole +:+ " " +:+ ns) err)))
  (e <- createIfMissing c KRoleBinding (roleBindingObject roleName ns labels subjects) ;;
   Ret (wrapError (ErrCreateRoleBinding +:+ " " +:+ ns) <$> e)).

Definition ensureClusterRBAC (c : Client) (crName : string) (labels : gmap string string)
    (subjects : list Subject) (rules : list RBACRule) : M (option error) :=
  e <- createIfMissing c KClusterRole
         (clusterRoleObject crName labels (rbacRulesToPolicyRules rules)) ;;
  onErr e (λ err, Ret (Some (wrapError (ErrCreateClusterRole +:+ " " +:+ crName) err)))
  (e <- createIfMissing c KClusterRoleBinding
          (clusterRoleBindingObject crName labels subjects) ;;
   Ret (wrapError (ErrCreateClusterRoleBinding +:+ " " +:+ crName) <$> e)).

(** A loop over names that stops at the first error. *)
Definition untilError (xs : list string) (body : string → M (option error))
    (done : M (option error)) : M (option error) :=
  forEach xs tt (λ x _,
    e <- body x ;;
    Ret match e with Some err => inr (Some err) | None => inl tt end) (λ _, done).

(** The run as the function leaves it (its annotation is set before anything is
    created), and the error. *)
Definition ensureExecutionRBAC (c : Client) (run : AgenticRun) (rbacResult : option RBACResult)
    (operatorNS : string) (extraLabels : gmap string string)
    : M (AgenticRun * option error) :=
  match rbacResult with
  | None => Ret (run, None)
  | Some rbac =>
      let saName := sandboxSAName run "execution" in
      let roleName := executionRoleName (run_UID run) in
      let labels := withExtra extraLabels (rbacLabels (run_UID run) "execution-rbac") in
      let subjects := [serviceAccountSubject saName operatorNS] in
      let targetNS := rbacTargetNamespaces rbacResult in
      let scoped := (0 <? length (rbac_NamespaceScoped rbac))%nat in
      let run' := if scoped && (0 <? length targetNS)%nat
                  then annotate run rbacNamespacesAnnotation (Join targetNS ",") else run in
      e <- untilError (if scoped then targetNS else [])
             (ensureNamespaceRBAC c roleName labels subjects rbac)
             (if (0 <? length (rbac_ClusterScoped rbac))%nat
              then ensureClusterRBAC c (clusterRoleName (run_UID run)) labels subjects
                     (rbac_ClusterScoped rbac)
              else Ret None) ;;
      Ret (run', e)
  end.

(** The binding and the role of one namespace. *)
Definition cleanupNamespaceRBAC (c : Client) (roleName ns : string) : M (option error) :=
  let key := MkNamespacedName ns roleName in
  e <- deleteIfExists c KRoleBinding key ;;
  onErr e (λ err, Ret (Some (wrapError (ErrDeleteRoleBinding +:+ " " +:+ ns) err)))
  (e <- deleteIfExists c KRole key ;;
   Ret (wrapError (ErrDeleteRole +:+ " " +:+ ns) <$> e)).

Definition cleanupExecutionRBAC (c : Client) (run : AgenticRun) : M (option error) :=
  let roleName := executionRoleName (run_UID run) in
  let crName := clusterRoleName (run_UID run) in
  untilError (annotatedRBACNamespaces run) (cleanupNamespaceRBAC c roleName)
    (e <- deleteIfExists c KClusterRoleBinding (clusterKey crName) ;;
     onErr e (λ err, Ret (Some (wrapError (ErrDeleteClusterRoleBinding +:+ " " +:+ crName) err)))
     (e <- deleteIfExists c KClusterRole (clusterKey crName) ;;
      Ret (wrapError (ErrDeleteClusterRole +:+ " " +:+ crName) <$> e))).

(** ** The role to write one result *)
Definition ensureResultRBAC (c : Client) (run : AgenticRun) (step serviceAccount operatorNS : string)
    : M (option error) :=
  match stepResultResource step with
  | None => Ret (Some (errorString ("unknown step " +:+ Quote step +:+ " for result RBAC")))
  | Some resource =>
      let roleName := resultRoleName (run_UID run) step in
      let labels := rbacLabels (run_UID run) "result-rbac" in
      let resultName := resultCRName (run_Name run) step (nextResultIndex run step) in
      e <- createIfMissing c KRole
             (roleObject roleName operatorNS labels (resultRules step resource resultName)) ;;
      onErr e (λ err, Ret (Some (wrapError ("create result Role " +:+ roleName) err)))
      (e <- createIfMissing c KRoleBinding
              (roleBindingObject roleName operatorNS labels
                 [serviceAccountSubject serviceAccount operatorNS]) ;;
       Ret (wrapError ("create result RoleBinding " +:+ roleName) <$> e))
  end.

(** Get an object, change its owners, patch it. *)
Definition patchOwners (c : Client) (k : Kind) (key : NamespacedName) (getWhat setWhat : string)
    (upd : list OwnerReference → list OwnerReference) : M (option error) :=
  got <- call (ObjGet c k key) ;;
  match got with
  | Err err => Ret (Some (wrapError getWhat err))
  | Ok base =>
      let m := obj_Meta base in
      p <- call (ObjPatch c k base (withObjMeta base (withOwners m (upd (meta_OwnerReferences m))))) ;;
      Ret match p with Err err => Some (wrapError setWhat err) | Ok _ => None end
  end.

Definition setResultRBACOwner (c : Client) (runUID step : string) (owner : OwnerReference)
    (operatorNS : string) : M (option error) :=
  let roleName := resultRoleName runUID step in
  let key := MkNamespacedName operatorNS roleName in
  e <- patchOwners c KRole key ("get result Role " +:+ roleName)
         ("set owner on result Role " +:+ roleName) (λ refs, refs ++ [owner]) ;;
  onErr e (λ err, Ret (Some err))
  (patchOwners c KRoleBinding key ("get result RoleBinding " +:+ roleName)
     ("set owner on result RoleBinding " +:+ roleName) (λ refs, refs ++ [owner])).
End Rbac.

(** ** What the calls do *)

(** The deletion was accepted, or the object was not there. *)
Definition gone `{K : ApiMachinery} (ans : option error) : Prop :=
  match ans with Some err => IsNotFound err = true | None => True end.

Section RbacFacts.
Context `{K : ApiMachinery}.

Lemma deleteIfExists_run c k key tr e :
  runs (deleteIfExists c k key) tr e →
  ∃ ans, tr = [Ev (ObjDelete c k key plainDelete) ans] ∧ (e = None → gone ans).
Proof.
  unfold deleteIfExists. intros H. run_call H ans. runs_step. exists ans. split; [done|].
  destruct ans as [err|]; simpl; [|done]. by destruct (IsNotFound err).
Qed.

Lemma createIfMissing_run c k o tr e :
  runs (createIfMissing c k o) tr e →
  ∃ ans, tr = [Ev (ObjCreate c k o) ans].
Proof. unfold createIfMissing. intros H. run_call H ans. runs_step. by exists ans. Qed.

(** A loop that returned no error did the work of every element. *)
Lemma untilError_None xs body fin tr :
  runs (untilError xs body fin) tr None →
  (∀ x, x ∈ xs → ∃ tr1, tr1 ⊆ tr ∧ runs (body x) tr1 None) ∧
  ∃ tr2, tr2 ⊆ tr ∧ runs fin tr2 None.
Proof.
  unfold untilError. revert tr. induction xs as [|x xs IH]; intros tr; cbn [forEach].
  - intros H. split; [by intros x ?%elem_of_nil|]. by exists tr.
  - intros (t1 & o & t2 & -> & Hb & H)%runs_bind.
    apply runs_bind in Hb as (t3 & e & t4 & -> & Hb & Hr). apply runs_ret in Hr as [-> ->].
    destruct e as [err|]; [by apply runs_ret in H as [_ ?]|].
    destruct (IH _ H) as [Hxs (tr2 & Hs & Hf)]. split.
    + intros y [->|Hy]%elem_of_cons; [exists t3; split; [|done]; set_solver|].
      destruct (Hxs y Hy) as (tr1 & ? & ?). exists tr1. split; [set_solver|done].
    + exists tr2. split; [set_solver|done].
Qed.

Lemma emits_untilError P xs body fin :
  (∀ x, x ∈ xs → emits P (body x)) → emits P fin → emits P (untilError xs body fin).
Proof.
  intros Hb Hf. apply emits_forEach; [|done]. intros x _ Hx. apply emits_bind; [by apply Hb|].
  intros e. apply emits_ret.
Qed.

(** A loop that keeps the first error: no error means that every element went well. *)
Lemma keepFirst_None_run {A} (xs : list A) (body : A → M (option error)) acc tr :
  runs (foldM xs acc (λ x firstErr, e <- body x ;; Ret (keepFirst firstErr e))) tr None →
  acc = None ∧ ∀ x, x ∈ xs → ∃ tr1, tr1 ⊆ tr ∧ runs (body x) tr1 None.
Proof.
  revert acc tr. induction xs as [|x xs IH]; intros acc tr; cbn [foldM].
  - intros [-> <-]%runs_ret. split; [done|]. by intros x ?%elem_of_nil.
  - intros (t1 & acc' & t2 & -> & Hb & H)%runs_bind.
    apply runs_bind in Hb as (t3 & e & t4 & -> & Hb & [-> ->]%runs_ret).
    apply IH in H as [Hn Hxs]. destruct acc as [e0|]; [done|]. cbn in Hn. subst e.
    split; [done|]. intros y [->|Hy]%elem_of_cons; [exists t3; split; [set_solver|done]|].
    destruct (Hxs y Hy) as (tr1 & ? & ?). exists tr1. split; [set_solver|done].
Qed.

(** The trace deletes the object of a key. *)
Definition removed (c : Client) (k : Kind) (key : NamespacedName) (tr : trace) : Prop :=
  ∃ ans, Ev (ObjDelete c k key plainDelete) ans ∈ tr ∧ gone ans.

Lemma removed_mono c k key tr tr' : tr ⊆ tr' → removed c k key tr → removed c k key tr'.
Proof. intros Hs (ans & Hin & Hg). exists ans. split; [by apply Hs|done]. Qed.

Lemma deleteIfExists_removed c k key tr (w : error → error) :
  runs (e <- deleteIfExists c k key ;; Ret (w <$> e)) tr None → removed c k key tr.
Proof.
  intros (t1 & e & t2 & -> & (ans & -> & Hg)%deleteIfExists_run & [-> He]%runs_ret)%runs_bind.
  destruct e; [done|]. exists ans. split; [left|by apply Hg].
Qed.

Lemma removeReaderSubject_removed c runUID step tr :
  runs (removeReaderSubject c runUID step) tr None →
  ∃ sel items, Ev (ObjList c KClusterRoleBinding "" sel) (Ok items) ∈ tr ∧
    sel = MatchingLabels (<[LabelRun := runUID]>
            (<[LabelStep := step]> {[LabelComponent := "reader-rbac"]})) ∧
    ∀ o, o ∈ items → removed c KClusterRoleBinding (obj_Key o) tr.
Proof.
  unfold removeReaderSubject. intros H. run_call H got.
  destruct got as [items|err]; [|by apply runs_ret in H as [_ ?]].
  do 2 eexists. split; [left|]. split; [done|]. intros o Ho.
  apply keepFirst_None_run in H as [_ Hall]. destruct (Hall o Ho) as (tr1 & Hs & Hr).
  apply deleteIfExists_removed in Hr. eapply removed_mono; [|exact Hr]. set_solver.
Qed.

Lemma removeReaderSubjectOnSpoke_removed c runUID step tr :
  runs (removeReaderSubjectOnSpoke c runUID step) tr None →
  ∀ i, i < length spokeReaderBindingNames →
       removed c KClusterRoleBinding (clusterKey (perRunCRBName runUID step i)) tr.
Proof.
  intros [_ Hall]%keepFirst_None_run i Hi.
  destruct (Hall i) as (tr1 & Hs & Hr%deleteIfExists_removed);
    [apply list_elem_of_In, in_seq; lia|].
  by eapply removed_mono.
Qed.

(** *** The namespaces of an option *)
Lemma targetNamespacesFrom_elem seen rules ns :
  ns ∈ targetNamespacesFrom seen rules ↔
  ns ∉ seen ∧ ns ≠ "" ∧ ∃ rule, rule ∈ rules ∧ rule_Namespace rule = ns.
Proof.
  revert seen. induction rules as [|rule rules IH]; intros seen; cbn.
  - split; [by intros ?%elem_of_nil|]. by intros (_ & _ & ? & ?%elem_of_nil & _).
  - destruct (String.eqb_spec (rule_Namespace rule) "") as [He|He]; cbn.
    + rewrite IH. setoid_rewrite elem_of_cons. naive_solver.
    + case_bool_decide as Hs; cbn; rewrite ?elem_of_cons, IH; setoid_rewrite elem_of_cons;
        [naive_solver|].
      split.
      * intros [->|(Hn & ? & r & ? & ?)]; [eauto 6|]. split; [naive_solver|eauto 6].
      * intros (Hn & Hne & r & [->|Hr] & Hns); [by left|].
        destruct (decide (ns = rule_Namespace rule)); [by left|right]. naive_solver.
Qed.

Lemma targetNamespacesFrom_NoDup seen rules : NoDup (targetNamespacesFrom seen rules).
Proof.
  revert seen. induction rules as [|rule rules IH]; intros seen; cbn; [constructor|].
  destruct (_ && _); [|apply IH]. constructor; [|apply IH].
  rewrite targetNamespacesFrom_elem. set_solver.
Qed.

Lemma rbacTargetNamespaces_elem rbac ns :
  ns ∈ rbacTargetNamespaces (Some rbac) ↔
  ns ≠ "" ∧ ∃ rule, rule ∈ rbac_NamespaceScoped rbac ∧ rule_Namespace rule = ns.
Proof. cbn. rewrite targetNamespacesFrom_elem. set_solver. Qed.

(** What an annotated run says is what the option named. *)
Lemma annotated_roundtrip run ns :
  ns ≠ [] → Forall (λ n, n ≠ "" ∧ hasByte "," n = false) ns →
  annotatedRBACNamespaces (annotate run rbacNamespacesAnnotation (Join ns ",")) = ns.
Proof.
  intros Hn Hf. unfold annotatedRBACNamespaces, annotate, mapGet, run_Annotations. cbn.
  rewrite lookup_insert_eq. cbn.
  assert (Hj : Join ns "," ≠ "").
  { destruct Hf as [|x xs [Hx _] _]; [done|]. destruct xs; cbn; [done|]. by destruct x. }
  apply String.eqb_neq in Hj. rewrite Hj. apply Split_Join; [done|].
  eapply Forall_impl; [exact Hf|]. by intros ? [_ ?].
Qed.
End RbacFacts.

(** ** Least privilege and removal of the execution RBAC *)
Section ExecutionRBAC.
Context `{K : ApiMachinery}.

Definition executionSubjects (run : AgenticRun) (operatorNS : string) : list Subject :=
  [serviceAccountSubject (sandboxSAName run "execution") operatorNS].

(** An object the approved option [rbac] grants to the execution of [run]. *)
Definition grantedObject (run : AgenticRun) (rbac : RBACResult) (operatorNS : string) (k : Kind)
    : Object k → Prop :=
  match k with
  | KRole => λ o,
      obj_Name o = executionRoleName (run_UID run) ∧ obj_Namespace o ≠ "" ∧
      ∀ pr, pr ∈ (obj_Content o : list PolicyRule) ↔
            ∃ rule, rule ∈ rbac_NamespaceScoped rbac ∧ rule_Namespace rule = obj_Namespace o ∧
                    [pr] = rbacRulesToPolicyRules [rule]
  | KRoleBinding => λ o,
      obj_Name o = executionRoleName (run_UID run) ∧
      (∃ rule, rule ∈ rbac_NamespaceScoped rbac ∧ rule_Namespace rule = obj_Namespace o) ∧
      obj_Content o = MkBinding (MkRoleRef rbacGroupName "Role" (executionRoleName (run_UID run)))
                        (executionSubjects run operatorNS)
  | KClusterRole => λ o,
      obj_Name o = clusterRoleName (run_UID run) ∧
      ∀ pr, pr ∈ (obj_Content o : list PolicyRule) ↔
            ∃ rule, rule ∈ rbac_ClusterScoped rbac ∧ [pr] = rbacRulesToPolicyRules [rule]
  | KClusterRoleBinding => λ o,
      obj_Name o = clusterRoleName (run_UID run) ∧ rbac_ClusterScoped rbac ≠ [] ∧
      obj_Content o
      = MkBinding (MkRoleRef rbacGroupName "ClusterRole" (clusterRoleName (run_UID run)))
          (executionSubjects run operatorNS)
  | _ => λ _, False
  end.

(** The call creates, through the client [c], an object that [P] accepts. *)
Definition creates (c : Client) (P : ∀ k, Object k → Prop) (ev : event answer) : Prop :=
  match ev with Ev (ObjCreate c' k o) _ => c' = c ∧ P k o | _ => False end.

Lemma policyRules_elem rules pr :
  pr ∈ rbacRulesToPolicyRules rules ↔
  ∃ rule, rule ∈ rules ∧ [pr] = rbacRulesToPolicyRules [rule].
Proof.
  unfold rbacRulesToPolicyRules. rewrite list_elem_of_In, in_map_iff.
  setoid_rewrite <- list_elem_of_In. cbn. naive_solver.
Qed.

Lemma rulesIn_elem rbac ns rule :
  rule ∈ rulesIn rbac ns ↔ rule ∈ rbac_NamespaceScoped rbac ∧ rule_Namespace rule = ns.
Proof.
  unfold rulesIn. by rewrite list_elem_of_In, filter_In, <- list_elem_of_In, String.eqb_eq.
Qed.

Lemma emits_createIfMissing c P k o :
  P k o → emits (creates c P) (createIfMissing c k o).
Proof. intros HP tr e [ans ->]%createIfMissing_run. by constructor. Qed.

(** C19: least privilege: whatever the API server answers, setting up the RBAC of
    an execution only creates objects the approved option grants: in a namespace
    the option names, a role with exactly the rules of the option for that
    namespace, bound to the account of this run's execution and to nothing else,
    and for the cluster a role with exactly its cluster-scoped rules. *)
Theorem ensureExecutionRBAC_grants c run rbac operatorNS extraLabels tr run' e :
  runs (ensureExecutionRBAC c run (Some rbac) operatorNS extraLabels) tr (run', e) →
  Forall (creates c (grantedObject run rbac operatorNS)) tr.
Proof.
  unfold ensureExecutionRBAC. cbv zeta.
  intros (t1 & e' & t2 & -> & H & [-> _]%runs_ret)%runs_bind. rewrite app_nil_r.
  revert t1 e' H. apply emits_untilError.
  - intros ns Hns. destruct (_ <? _)%nat; [|by apply elem_of_nil in Hns].
    apply rbacTargetNamespaces_elem in Hns as (Hne & Hrule). unfold ensureNamespaceRBAC.
    apply emits_bind; [apply emits_createIfMissing|intros e1; apply emits_onErr].
    + split; [done|]. split; [done|]. intros pr. cbn. rewrite policyRules_elem.
      setoid_rewrite rulesIn_elem. naive_solver.
    + intros err. apply emits_ret.
    + apply emits_bind; [by apply emits_createIfMissing|intros; apply emits_ret].
  - destruct (rbac_ClusterScoped rbac) as [|rule rules] eqn:Hc; [apply emits_ret|].
    cbn [length Nat.ltb Nat.leb]. unfold ensureClusterRBAC.
    apply emits_bind; [apply emits_createIfMissing|intros e1; apply emits_onErr].
    + split; [done|]. intros pr. rewrite Hc. apply policyRules_elem.
    + intros err. apply emits_ret.
    + apply emits_bind; [apply emits_createIfMissing|intros; apply emits_ret].
      split; [done|]. by rewrite Hc.
Qed.

(** Where the objects of the execution RBAC live. *)
Lemma ensureExecutionRBAC_keys c run rbac operatorNS extraLabels tr run' e k o ans :
  runs (ensureExecutionRBAC c run (Some rbac) operatorNS extraLabels) tr (run', e) →
  Ev (ObjCreate c k o) ans ∈ tr →
  (k ∈ [KRole; KRoleBinding] ∧ ∃ ns, ns ∈ rbacTargetNamespaces (Some rbac) ∧
     obj_Key o = MkNamespacedName ns (executionRoleName (run_UID run))) ∨
  (k ∈ [KClusterRole; KClusterRoleBinding] ∧
     obj_Key o = clusterKey (clusterRoleName (run_UID run))).
Proof.
  set (P := λ k (o : Object k),
    (k ∈ [KRole; KRoleBinding] ∧ ∃ ns, ns ∈ rbacTargetNamespaces (Some rbac) ∧
       obj_Key o = MkNamespacedName ns (executionRoleName (run_UID run))) ∨
    (k ∈ [KClusterRole; KClusterRoleBinding] ∧
       obj_Key o = clusterKey (clusterRoleName (run_UID run)))).
  intros H Hin. assert (Hf : Forall (creates c P) tr).
  { revert H. unfold ensureExecutionRBAC. cbv zeta.
    intros (t1 & e' & t2 & -> & H & [-> _]%runs_ret)%runs_bind. rewrite app_nil_r in *.
    clear Hin. revert t1 e' H. apply emits_untilError.
    - intros ns Hns. destruct (_ <? _)%nat; [|by apply elem_of_nil in Hns].
      unfold ensureNamespaceRBAC. apply emits_bind; [apply emits_createIfMissing|intros; apply emits_onErr].
      + left. split; [left|]. by exists ns.
      + intros err. apply emits_ret.
      + apply emits_bind; [apply emits_createIfMissing|intros; apply emits_ret].
        left. split; [right; left|]. by exists ns.
    - destruct (_ <? _)%nat; [|apply emits_ret]. unfold ensureClusterRBAC.
      apply emits_bind; [apply emits_createIfMissing|intros; apply emits_onErr].
      + right. split; [left|done].
      + intros err. apply emits_ret.
      + apply emits_bind; [apply emits_createIfMissing|intros; apply emits_ret].
        right. split; [right; left|done]. }
  rewrite Forall_forall in Hf. by destruct (Hf _ Hin) as [_ HP].
Qed.
End ExecutionRBAC.

Section Removal.
Context `{K : ApiMachinery}.

Lemma ensureExecutionRBAC_run' c run rbac operatorNS extraLabels tr run' e :
  runs (ensureExecutionRBAC c run (Some rbac) operatorNS extraLabels) tr (run', e) →
  run' = if (0 <? length (rbacTargetNamespaces (Some rbac)))%nat
         then annotate run rbacNamespacesAnnotation (Join (rbacTargetNamespaces (Some rbac)) ",")
         else run.
Proof.
  unfold ensureExecutionRBAC. cbv zeta.
  intros (t1 & e' & t2 & -> & _ & [_ [= -> _]]%runs_ret)%runs_bind.
  unfold rbacTargetNamespaces. by destruct (rbac_NamespaceScoped rbac).
Qed.

(** Two deletions of one key, the second when the first reports no error. *)
Lemma deleteTwo_run c k1 k2 key (w1 w2 : error → error) tr k :
  runs (e <- deleteIfExists c k1 key ;;
        onErr e (λ err, Ret (Some (w1 err)))
        (e <- deleteIfExists c k2 key ;; Ret (w2 <$> e))) tr None →
  k ∈ [k1; k2] → removed c k key tr.
Proof.
  intros (t1 & e1 & t2 & -> & (a1 & -> & Hg1)%deleteIfExists_run & H)%runs_bind Hk.
  destruct e1 as [err|]; [by apply runs_ret in H as [_ ?]|].
  apply runs_bind in H as (t3 & e2 & t4 & -> & (a2 & -> & Hg2)%deleteIfExists_run & H).
  apply runs_ret in H as [-> He2]. destruct e2 as [err|]; [done|].
  rewrite !elem_of_cons, elem_of_nil in Hk.
  destruct Hk as [->|[->|[]]]; [exists a1|exists a2]; (split; [|by auto]); rewrite ?elem_of_app, ?list_elem_of_singleton; auto.
Qed.

(** A cleanup without an error removed the role of every namespace of the
    annotation and the cluster role, with their bindings. *)
Lemma cleanupExecutionRBAC_removed c run tr :
  runs (cleanupExecutionRBAC c run) tr None →
  (∀ ns k, ns ∈ annotatedRBACNamespaces run → k ∈ [KRoleBinding; KRole] →
     removed c k (MkNamespacedName ns (executionRoleName (run_UID run))) tr) ∧
  ∀ k, k ∈ [KClusterRoleBinding; KClusterRole] →
     removed c k (clusterKey (clusterRoleName (run_UID run))) tr.
Proof.
  intros [Hns (tr2 & Hs & H)]%untilError_None. split.
  - intros ns k Hin Hk. destruct (Hns _ Hin) as (tr1 & Hs1 & H1).
    eapply removed_mono; [exact Hs1|]. by eapply deleteTwo_run.
  - intros k Hk. eapply removed_mono; [exact Hs|]. by eapply deleteTwo_run.
Qed.

(** Nothing is left behind: setting up the RBAC of an execution, even when it
    fails half-way, leaves a run whose annotation is enough for the cleanup: a
    cleanup that reports no error deletes every object the setup tried to create
    (a namespace is a DNS label, it contains no comma). *)
Theorem execution_rbac_removed c run rbac operatorNS extraLabels tr run' e tr' k o ans :
  (∀ rule, rule ∈ rbac_NamespaceScoped rbac → hasByte "," (rule_Namespace rule) = false) →
  runs (ensureExecutionRBAC c run (Some rbac) operatorNS extraLabels) tr (run', e) →
  runs (cleanupExecutionRBAC c run') tr' None →
  Ev (ObjCreate c k o) ans ∈ tr →
  removed c k (obj_Key o) tr'.
Proof.
  intros Hcomma He [Hns Hcl]%cleanupExecutionRBAC_removed Hin.
  pose proof (ensureExecutionRBAC_run' _ _ _ _ _ _ _ _ He) as Hrun.
  assert (Huid : run_UID run' = run_UID run) by (rewrite Hrun; by destruct (_ <? _)%nat).
  rewrite Huid in Hns, Hcl.
  destruct (ensureExecutionRBAC_keys _ _ _ _ _ _ _ _ _ _ _ He Hin)
    as [(Hk & ns & Hel & ->)|(Hk & ->)]; [|apply Hcl; set_solver].
  apply Hns; [|set_solver].
  assert (Hne : rbacTargetNamespaces (Some rbac) ≠ [])
    by (intros Hn; rewrite Hn in Hel; by apply elem_of_nil in Hel).
  rewrite Hrun. replace (0 <? _)%nat with true
    by (destruct (rbacTargetNamespaces (Some rbac)); done).
  rewrite annotated_roundtrip; [done|done|]. apply Forall_forall. intros x Hx.
  apply rbacTargetNamespaces_elem in Hx as (Hx & rule & Hr & <-). split; [done|by apply Hcomma].
Qed.
End Removal.

(** ** Reader bindings: all or nothing *)
Section ReaderBindings.
Context `{K : ApiMachinery}.

(** A binding that was created is asked to be deleted in the calls after it. *)
Definition rolledBack (ev : event answer) (rest : trace) : Prop :=
  match ev with
  | Ev (ObjCreate c KClusterRoleBinding o) (Ok _) =>
      ∃ ans, Ev (ObjDelete c KClusterRoleBinding (clusterKey (obj_Name o)) plainDelete) ans ∈ rest
  | _ => True
  end.

(** The server has a binding that gives [subject] the role of the reader
    binding [sourceName]: one that was created, or one that was there. *)
Definition readerGranted (c : Client) (subject : Subject) (sourceName : string) (tr : trace)
    : Prop :=
  ∃ source, Ev (ObjGet c KClusterRoleBinding (clusterKey sourceName)) (Ok source) ∈ tr ∧
  ∃ name, (∃ o ans, Ev (ObjCreate c KClusterRoleBinding o) (Ok ans) ∈ tr ∧ obj_Name o = name ∧
             obj_Content o = MkBinding (binding_RoleRef (obj_Content source)) [subject]) ∨
          (∃ o, Ev (ObjGet c KClusterRoleBinding (clusterKey name)) (Ok o) ∈ tr ∧
             obj_Content o = MkBinding (binding_RoleRef (obj_Content source)) [subject]).

Lemma rolledBack_mono ev r r' : r ⊆ r' → rolledBack ev r → rolledBack ev r'.
Proof.
  destruct ev as [e ans]; destruct e; try done; destruct k; try done; destruct ans; try done.
  intros Hs [x Hx]. exists x. by apply Hs.
Qed.

Lemma readerGranted_mono c subject name tr tr' :
  tr ⊆ tr' → readerGranted c subject name tr → readerGranted c subject name tr'.
Proof.
  intros Hs (source & Hg & n & [(o & x & Ho & Hc)|(o & Ho & Hc)]); exists source;
    (split; [by apply Hs|]); exists n; [left; exists o, x|right; exists o];
    (split; [by apply Hs|done]).
Qed.

Lemma cleanupCreated_run c created tr u :
  runs (cleanupCreated c created) tr u →
  Forall (λ ev, rolledBack ev []) tr ∧
  ∀ name, name ∈ created →
    ∃ ans, Ev (ObjDelete c KClusterRoleBinding (clusterKey name) plainDelete) ans ∈ tr.
Proof.
  unfold cleanupCreated. intros H. run_call H x. revert tr0 H.
  enough (Hall : ∀ names tr1 v,
    runs (foldM names tt (λ name _,
      call (ObjDelete c KClusterRoleBinding (clusterKey name) plainDelete) ;;; Ret tt)) tr1 v →
    Forall (λ ev, rolledBack ev []) tr1 ∧
    ∀ name, name ∈ names →
      ∃ ans, Ev (ObjDelete c KClusterRoleBinding (clusterKey name) plainDelete) ans ∈ tr1).
  { intros tr1 [Hf Hd]%Hall. split; [by constructor|]. intros name Hn.
    destruct (Hd name Hn) as [a Ha]. exists a. by right. }
  induction names as [|n names IH]; intros tr1 v; cbn [foldM].
  - intros [-> _]%runs_ret. split; [constructor|by intros ? ?%elem_of_nil].
  - intros (t1 & [] & t2 & -> & H1 & H)%runs_bind. run_call H1 a. apply runs_ret in H1 as [-> _].
    apply IH in H as [Hf Hd]. split; [by constructor|].
    intros name [->|Hn]%elem_of_cons; [exists a; left|].
    destruct (Hd name Hn) as [a' Ha]. exists a'. by right.
Qed.

Lemma readerRecreated c runUID step subject sourceName created source a1 a2 existing a4 o :
  let name := readerBindingName runUID step sourceName in
  let tr := [Ev (ObjGet c KClusterRoleBinding (clusterKey sourceName)) (Ok source);
             Ev (ObjCreate c KClusterRoleBinding
                   (readerBinding runUID step sourceName subject source)) (Err a1);
             Ev (ObjGet c KClusterRoleBinding (clusterKey name)) a2;
             Ev (ObjDelete c KClusterRoleBinding existing plainDelete) a4;
             Ev (ObjCreate c KClusterRoleBinding
                   (readerBinding runUID step sourceName subject source)) (Ok o)] in
  readerGranted c subject sourceName tr ∧ created ⊆ created ++ [name] ∧
  ∀ rest, (∀ n, n ∈ created ++ [name] → ∃ ans,
             Ev (ObjDelete c KClusterRoleBinding (clusterKey n) plainDelete) ans ∈ rest) →
          Forall (λ ev, rolledBack ev rest) tr.
Proof.
  intros name tr. split; [|split; [set_solver|]].
  - exists source. split; [left|]. eexists. left. do 2 eexists. split; [do 4 right; left|done].
  - intros rest Hd. repeat constructor. apply Hd. set_solver.
Qed.

(** The error [e] is returned after a rollback of [created]. *)
Definition undone (c : Client) (created : list string) (e : option error) (tr : trace) : Prop :=
  e ≠ None ∧ Forall (λ ev, rolledBack ev []) tr ∧
  ∀ name, name ∈ created → ∃ ans,
    Ev (ObjDelete c KClusterRoleBinding (clusterKey name) plainDelete) ans ∈ tr.

Lemma undone_cons c created e ev tr :
  rolledBack ev [] → undone c created e tr → undone c created e (ev :: tr).
Proof.
  intros Hev (He & Hf & Hd). split; [done|]. split; [by constructor|].
  intros name Hn. destruct (Hd name Hn) as [x Hx]. exists x. by right.
Qed.

Lemma abort_undone c created err tr (out : list string + option error) :
  runs (cleanupCreated c created ;;; Ret (inr (Some err))) tr out →
  ∃ e, out = inr e ∧ undone c created e tr.
Proof.
  intros (t1 & u & t2 & -> & [Hf Hd]%cleanupCreated_run & [-> ->]%runs_ret)%runs_bind.
  rewrite app_nil_r. exists (Some err). by repeat split.
Qed.

Ltac abort_case H :=
  apply abort_undone in H as (? & -> & H); do 6 (try (apply undone_cons; [done|])); exact H.

(** One source binding: it adds what it created, or it undoes everything. *)
Lemma addReaderBinding_run c runUID step subject sourceName created tr out :
  runs (addReaderBinding c runUID step subject sourceName created) tr out →
  match out with
  | inl created' =>
      readerGranted c subject sourceName tr ∧ created ⊆ created' ∧
      ∀ rest, (∀ name, name ∈ created' → ∃ ans,
                 Ev (ObjDelete c KClusterRoleBinding (clusterKey name) plainDelete) ans ∈ rest) →
              Forall (λ ev, rolledBack ev rest) tr
  | inr e => undone c created e tr
  end.
Proof.
  unfold addReaderBinding. intros H. run_call H got.
  destruct got as [source|err]; [|abort_case H].
  run_call H made. destruct made as [o|err].
  { apply runs_ret in H as [-> ->]. split; [|split].
    - exists source. split; [left|]. eexists. left. do 2 eexists. split; [right; left|done].
    - set_solver.
    - intros rest Hd. repeat constructor. apply Hd. set_solver. }
  destruct (IsAlreadyExists err); [|abort_case H].
  run_call H found. destruct found as [existing|getErr]; [|abort_case H].
  case_bool_decide as Hsame.
  { apply runs_ret in H as [-> ->]. split; [|split; [done|]].
    - exists source. split; [left|]. eexists. right. exists existing.
      split; [right; right; left|exact Hsame].
    - intros rest _. repeat constructor. }
  destruct (negb _); [abort_case H|].
  run_call H deleted.
  destruct deleted as [deleteErr|]; [destruct (negb _); [abort_case H|]|];
    (run_call H again; destruct again as [o|createErr]; [|abort_case H];
     apply runs_ret in H as [-> ->]; by apply readerRecreated).
Qed.

(** The loop over the source bindings. *)
Lemma addReaderLoop_run c runUID step subject names created tr e :
  runs (forEach names created (addReaderBinding c runUID step subject) (λ _, Ret None)) tr e →
  match e with
  | None => ∀ name, name ∈ names → readerGranted c subject name tr
  | Some _ => followed rolledBack tr ∧
      ∀ name, name ∈ created → ∃ ans,
        Ev (ObjDelete c KClusterRoleBinding (clusterKey name) plainDelete) ans ∈ tr
  end.
Proof.
  revert created tr. induction names as [|n names IH]; intros created tr; cbn [forEach].
  - intros [-> ->]%runs_ret. by intros name ?%elem_of_nil.
  - intros (t1 & out & t2 & -> & Hb%addReaderBinding_run & H)%runs_bind.
    destruct out as [created'|e'].
    + destruct Hb as (Hg & Hsub & Hr). apply IH in H. destruct e as [err|].
      * destruct H as [Hf Hd]. split.
        -- apply followed_app; [intros ???; apply rolledBack_mono|by apply Hr|done].
        -- intros name Hn%Hsub. destruct (Hd name Hn) as [x Hx]. exists x.
           apply elem_of_app. by right.
      * intros name [->|Hn]%elem_of_cons.
        -- eapply readerGranted_mono; [|exact Hg]. set_solver.
        -- eapply readerGranted_mono; [|by apply H]. set_solver.
    + apply runs_ret in H as [-> ->]. destruct Hb as (He & Hf & Hd). rewrite app_nil_r.
      destruct e' as [err|]; [|done]. split; [|done].
      rewrite <- (app_nil_r t1).
      apply followed_app; [intros ???; apply rolledBack_mono|done|done].
Qed.

Lemma resolveReaderBindings_run c operatorNS tr o :
  runs (resolveReaderBindings c operatorNS) tr o →
  Forall (λ ev, rolledBack ev []) tr ∧
  ∀ names, o = Ok names →
    names ≠ [] ∧ (Ev LoadReaderBindings names ∈ tr ∨ Ev (StoreReaderBindings names) tt ∈ tr).
Proof.
  unfold resolveReaderBindings. intros H. run_call H cached. destruct cached as [|n ns].
  - unfold discoverReaderBindings in H. run_call H got.
    destruct got as [items|err]; [|runs_step; split; [by repeat constructor|done]].
    destruct (map _ _) as [|n ns]; [runs_step; split; [by repeat constructor|done]|].
    run_call H u. runs_step. split; [by repeat constructor|]. intros names [= <-].
    split; [done|]. destruct u. right. right. right. left.
  - runs_step. split; [by repeat constructor|]. intros names [= <-]. split; [done|left; left].
Qed.

(** What an attempt leaves: access, or nothing. *)
Definition readerOutcome (c : Client) (subject : Subject) (e : option error) (tr : trace) : Prop :=
  match e with
  | None =>
      ∃ names, (Ev LoadReaderBindings names ∈ tr ∨ Ev (StoreReaderBindings names) tt ∈ tr) ∧
               names ≠ [] ∧ ∀ name, name ∈ names → readerGranted c subject name tr
  | Some _ => followed rolledBack tr
  end.

Lemma readerOutcome_app c subject e tr1 tr2 :
  followed rolledBack tr1 → readerOutcome c subject e tr2 →
  readerOutcome c subject e (tr1 ++ tr2).
Proof.
  destruct e as [err|]; cbn.
  - intros H1 H2. induction tr1 as [|ev tr1 IH]; cbn in *; [done|].
    destruct H1 as [Hev H1]. split; [|by apply IH].
    eapply rolledBack_mono; [|exact Hev]. set_solver.
  - intros _ (names & Hn & Hne & Hg). exists names.
    split; [destruct Hn; [left|right]; apply elem_of_app; by right|]. split; [done|].
    intros name Hname. eapply readerGranted_mono; [|by apply Hg]. set_solver.
Qed.

Lemma followed_quiet tr : Forall (λ ev, rolledBack ev []) tr → followed rolledBack tr.
Proof.
  intros H. rewrite <- (app_nil_r tr).
  apply followed_app; [intros ???; apply rolledBack_mono|done|done].
Qed.

End ReaderBindings.
