(* ===== verification/Spoke.v ===== *)
(** Spoke clusters ([controller/agenticrun/spoke.go]): access from a stored
    kubeconfig, tokens and kubeconfigs of sandboxes, labels, and the removal of
    the RBAC of a step on the hub or on a spoke. *)
From stdpp Require Import base list option strings gmap.
From Stdlib Require Import ZArith Lia Ascii.
From S2P Require Import Prelude GoText Crypto ApiMachinery Types Objects Phase Effects Approval.
From S2P Require Import Resolve Results Helpers Rbac.

Local Open Scope string_scope.
Local Open Scope list_scope.
Local Open Scope prog_scope.

Definition spokeKubeconfigPrefix : string := "spoke-kubeconfig-".
Definition spokeManagedNamespace : string := "openshift-lightspeed-managed".
Definition kubeconfigKey : string := "kubeconfig".
Definition spokeDialTimeout : Duration := (10 * Second)%Z.
Definition maxLabelValueLen : nat := 63.
Definition ErrGetSpokeKubeconfig : string := "get spoke kubeconfig Secret".
Definition ErrParseSpokeKubeconfig : string := "parse spoke kubeconfig".
Definition ErrCreateSpokeClient : string := "create spoke client".
Definition ErrSpokeInsecureTLS : string :=
  "spoke kubeconfig has insecure TLS or non-HTTPS endpoint".
Definition ErrRequestSpokeToken : string := "request spoke SA token".
Definition ErrBuildSandboxKubeconfig : string := "build sandbox kubeconfig".
Definition sandboxKubeconfigPrefix : string := "ls-sandbox-kubeconfig-".
Definition spokeKubeconfigMountPath : string := "/var/run/secrets/spoke-kubeconfig".
Definition spokeKubeconfigFileName : string := "kubeconfig".
Definition spokeKubeconfigVolume : string := "spoke-kubeconfig".
Definition spokeTokenExpiration : Z := 86400.
Definition LabelSpokeCluster : string := "hub.openshift.io/spoke-cluster".
Definition LabelAgenticRun : string := "hub.openshift.io/agentic-run".

(** ** [k8s.io/client-go]: kubeconfigs and clients *)
Record KubeCluster := MkKubeCluster {
  kc_Server : string;
  kc_CertificateAuthorityData : string;
  kc_TLSServerName : string;
  kc_ProxyURL : string;
}.

Record KubeContext := MkKubeContext { kctx_Cluster : string; kctx_AuthInfo : string }.

Record KubeConfig := MkKubeConfig {
  kube_Clusters : gmap string KubeCluster;
  kube_AuthInfos : gmap string string;   (* the tokens *)
  kube_Contexts : gmap string KubeContext;
  kube_CurrentContext : string;
}.

(** The functions of [clientcmd], [rest] and the two constructors of clients,
    of which only the error matters here. *)
Class ClientCmd := {
  RESTConfigFromKubeConfig : string → res RestConfig;
  IsConfigTransportTLS : RestConfig → bool;
  LoadKubeConfig : string → res KubeConfig;
  WriteKubeConfig : KubeConfig → res string;
  NewClientFromConfig : RestConfig → option error;
  NewClientsetFromConfig : RestConfig → option error;
}.

(** ** Labels and names *)

Definition truncateLabelValue (v : string) : string :=
  if (String.length v <=? maxLabelValueLen)%nat then v
  else str_take (maxLabelValueLen - 8) v +:+ "-" +:+ str_take 7 (hex (Sum256 v)).

Definition spokeExtraLabels (runName targetCluster : string) : gmap string string :=
  <[LabelSpokeCluster := truncateLabelValue targetCluster]>
    {[LabelAgenticRun := truncateLabelValue runName]}.

Definition spokeLabels (runUID runName targetCluster component : string) : gmap string string :=
  withExtra (spokeExtraLabels runName targetCluster)
    (<[LabelRun := runUID]> {[LabelComponent := component]}).

Definition sandboxKubeconfigSecretName (runUID step : string) : string :=
  truncateK8sName (sandboxKubeconfigPrefix +:+ stepAbbrev step +:+ "-" +:+ runUID).

(** ** Access to a spoke *)

(** [cfg.Timeout = d]. *)
Definition withTimeout (c : RestConfig) (d : Duration) : RestConfig :=
  MkRestConfig (rc_Host c) (rc_CAData c) (rc_ServerName c) (rc_Insecure c) (rc_ExecProvider c)
    (rc_AuthProvider c) (rc_BearerTokenFile c) (rc_CAFile c) (rc_CertFile c) (rc_KeyFile c) d
    (rc_Rest c).

(** The kubeconfig runs a plugin or names a file of the operator. *)
Definition externalCredentials (c : RestConfig) : bool :=
  rc_ExecProvider c || rc_AuthProvider c || negb (String.eqb (rc_BearerTokenFile c) "")
  || negb (String.eqb (rc_CAFile c) "") || negb (String.eqb (rc_CertFile c) "")
  || negb (String.eqb (rc_KeyFile c) "").

Section Spoke.
Context `{K : ApiMachinery} `{CC : ClientCmd}.

Definition proxyURLOf (kubeconfig : string) : string :=
  match LoadKubeConfig kubeconfig with
  | Err _ => ""
  | Ok raw =>
      match kube_Contexts raw !! kube_CurrentContext raw with
      | Some ctx => from_option kc_ProxyURL "" (kube_Clusters raw !! kctx_Cluster ctx)
      | None => ""
      end
  end.

Definition spokeAccessForRun (run : AgenticRun) (operatorNS : string)
    : M (option SpokeAccess * option error) :=
  let tc := spec_TargetCluster (run_Spec run) in
  if String.eqb tc "" then Ret (None, None)
  else
    let secretName := spokeKubeconfigPrefix +:+ tc in
    let bad (e : error) : M (option SpokeAccess * option error) := Ret (None, Some e) in
    got <- call (ObjGet HubClient KSecret (MkNamespacedName operatorNS secretName)) ;;
    match got with
    | Err err => bad (wrapError (ErrGetSpokeKubeconfig +:+ " " +:+ secretName) err)
    | Ok secret =>
        match (obj_Content (k := KSecret) secret : gmap string string) !! kubeconfigKey with
        | None =>
            bad (errorString (ErrParseSpokeKubeconfig +:+ " " +:+ secretName +:+ ": missing " +:+
                              Quote kubeconfigKey +:+ " key"))
        | Some kubeconfig =>
            match RESTConfigFromKubeConfig kubeconfig with
            | Err err => bad (wrapError (ErrParseSpokeKubeconfig +:+ " " +:+ secretName) err)
            | Ok cfg =>
                if negb (IsConfigTransportTLS cfg) || rc_Insecure cfg
                then bad (errorString (ErrSpokeInsecureTLS +:+ ": " +:+ secretName))
                else if externalCredentials cfg
                then bad (errorString (ErrParseSpokeKubeconfig +:+ " " +:+ secretName +:+
                       ": external credential providers and file references are not allowed"))
                else
                  let cfg' := withTimeout cfg spokeDialTimeout in
                  match NewClientFromConfig cfg' with
                  | Some err =>
                      bad (wrapError (ErrCreateSpokeClient +:+ " for spoke " +:+ tc) err)
                  | None =>
                      Ret (Some (MkSpokeAccess (SpokeClient cfg') cfg' spokeManagedNamespace
                                   (proxyURLOf kubeconfig)), None)
                  end
            end
        end
    end.

Definition requestSpokeToken (cfg : RestConfig) (saName spokeNS : string) : M (res string) :=
  match NewClientsetFromConfig cfg with
  | Some err => Ret (Err (wrapError (ErrRequestSpokeToken +:+ ": create clientset") err))
  | None =>
      got <- call (CreateToken cfg spokeNS saName spokeTokenExpiration) ;;
      Ret match got with
          | Err err =>
              Err (wrapError (ErrRequestSpokeToken +:+ " " +:+ spokeNS +:+ "/" +:+ saName) err)
          | Ok token => Ok token
          end
  end.

Definition buildSandboxKubeconfig (spoke : SpokeAccess) (token : string) : res string :=
  let cfg := sa_Config spoke in
  let cluster := MkKubeCluster (rc_Host cfg) (rc_CAData cfg) (rc_ServerName cfg)
                   (sa_ProxyURL spoke) in
  match WriteKubeConfig (MkKubeConfig {["spoke" := cluster]} {["sandbox" := token]}
          {["spoke" := MkKubeContext "spoke" "sandbox"]} "spoke") with
  | Err err => Err (wrapError ErrBuildSandboxKubeconfig err)
  | Ok data => Ok data
  end.

(** ** Removal of the RBAC of a step *)
Definition cleanupStepRBAC (spoke : option SpokeAccess) (hubNS : string) (run : AgenticRun)
    (step : string) : M (option error) :=
  if negb (String.eqb (spec_TargetCluster (run_Spec run)) "") && bool_decide (spoke = None :> option _)
  then Ret None
  else
    let '(c, ns) := match spoke with
                    | Some s => (sa_Client s, sa_Namespace s)
                    | None => (HubClient, hubNS)
                    end in
    let runUID := run_UID run in
    e1 <- match spoke with
          | Some _ => removeReaderSubjectOnSpoke c runUID step
          | None => removeReaderSubject c runUID step
          end ;;
    e2 <- (if String.eqb step "execution" then cleanupExecutionRBAC c run else Ret None) ;;
    e3 <- deleteIfExists c KServiceAccount (MkNamespacedName ns (sandboxSAName run step)) ;;
    Ret (keepFirst (keepFirst e1 e2) e3).
End Spoke.

(** ** Facts *)
Lemma str_take_app_length n s : String.length (str_take n s) = Nat.min n (String.length s).
Proof.
  unfold str_take. revert s. induction n as [|n IH]; intros [|c s]; cbn; [done..|]. by rewrite IH.
Qed.

(** Label values fit in the 63 bytes Kubernetes allows. *)
Lemma truncateLabelValue_length v : (String.length (truncateLabelValue v) ≤ 63)%nat.
Proof.
  unfold truncateLabelValue, maxLabelValueLen. destruct (Nat.leb_spec (String.length v) 63); [done|].
  rewrite !string_length_app, !str_take_app_length. change (String.length "-") with 1%nat. lia.
Qed.

Section SpokeFacts.
Context `{K : ApiMachinery} `{CC : ClientCmd}.

(** C26: a spoke is only reached with credentials that stay safe: access that
    [spokeAccessForRun] grants comes from the Secret of the run's target cluster
    in the operator namespace, its endpoint is TLS that verifies the server, and
    its kubeconfig neither runs a plugin nor reads a file of the operator; the
    client has a dial timeout; and a local run never gets access to a spoke. *)
Theorem spokeAccessForRun_secure run operatorNS tr access e :
  runs (spokeAccessForRun run operatorNS) tr (Some access, e) →
  e = None ∧ spec_TargetCluster (run_Spec run) ≠ "" ∧
  ∃ secret kubeconfig cfg,
    Ev (ObjGet HubClient KSecret (MkNamespacedName operatorNS
          (spokeKubeconfigPrefix +:+ spec_TargetCluster (run_Spec run)))) (Ok secret) ∈ tr ∧
    (obj_Content (k := KSecret) secret : gmap string string) !! kubeconfigKey = Some kubeconfig ∧
    RESTConfigFromKubeConfig kubeconfig = Ok cfg ∧
    IsConfigTransportTLS cfg = true ∧ rc_Insecure cfg = false ∧
    rc_ExecProvider cfg = false ∧ rc_AuthProvider cfg = false ∧
    rc_BearerTokenFile cfg = "" ∧ rc_CAFile cfg = "" ∧ rc_CertFile cfg = "" ∧
    rc_KeyFile cfg = "" ∧
    sa_Config access = withTimeout cfg spokeDialTimeout ∧
    sa_Client access = SpokeClient (sa_Config access) ∧
    sa_Namespace access = spokeManagedNamespace.
Proof.
  unfold spokeAccessForRun. destruct (String.eqb_spec (spec_TargetCluster (run_Spec run)) "");
    [by intros [_ ?]%runs_ret|].
  intros H. run_call H got. destruct got as [secret|err]; [|by apply runs_ret in H as [_ ?]].
  destruct (_ !! kubeconfigKey) as [kubeconfig|] eqn:Hk; [|by apply runs_ret in H as [_ ?]].
  destruct (RESTConfigFromKubeConfig kubeconfig) as [cfg|err] eqn:Hc;
    [|by apply runs_ret in H as [_ ?]].
  destruct (negb _ || _) eqn:Ht; [by apply runs_ret in H as [_ ?]|].
  destruct (externalCredentials cfg) eqn:Hx; [by apply runs_ret in H as [_ ?]|].
  destruct (NewClientFromConfig _); [by apply runs_ret in H as [_ ?]|].
  apply runs_ret in H as [-> [= -> ->]]. unfold externalCredentials in Hx. bool_hyps.
  split; [done|]. split; [done|]. exists secret, kubeconfig, cfg.
  split; [left|]. by repeat split.
Qed.

(** The cleanup of a step is complete: when [cleanupStepRBAC] reports no error,
    the step's account, its reader bindings (those labelled as of this run and
    step, or on a spoke those with the names of the run) and, for an execution,
    the role, the cluster role and their bindings in every namespace of the
    annotation are gone from the cluster the step worked on; only a run on a
    spoke that cannot be reached is left alone. *)
Theorem cleanupStepRBAC_complete spoke hubNS run step tr :
  runs (cleanupStepRBAC spoke hubNS run step) tr None →
  let '(c, ns) := match spoke with
                  | Some s => (sa_Client s, sa_Namespace s) | None => (HubClient, hubNS) end in
  (tr = [] ∧ spec_TargetCluster (run_Spec run) ≠ "" ∧ spoke = None) ∨
  (removed c KServiceAccount (MkNamespacedName ns (sandboxSAName run step)) tr ∧
   (match spoke with
    | Some _ => ∀ i, (i < length spokeReaderBindingNames)%nat →
        removed c KClusterRoleBinding (clusterKey (perRunCRBName (run_UID run) step i)) tr
    | None => ∃ items,
        Ev (ObjList c KClusterRoleBinding "" (MatchingLabels (<[LabelRun := run_UID run]>
              (<[LabelStep := step]> {[LabelComponent := "reader-rbac"]})))) (Ok items) ∈ tr ∧
        ∀ o, o ∈ items → removed c KClusterRoleBinding (obj_Key o) tr
    end) ∧
   (step = "execution" →
    (∀ n k, n ∈ annotatedRBACNamespaces run → k ∈ [KRoleBinding; KRole] →
       removed c k (MkNamespacedName n (executionRoleName (run_UID run))) tr) ∧
    ∀ k, k ∈ [KClusterRoleBinding; KClusterRole] →
       removed c k (clusterKey (clusterRoleName (run_UID run))) tr)).
Proof.
  unfold cleanupStepRBAC. destruct (_ && _) eqn:Hg.
  { intros [-> _]%runs_ret. bool_hyps. subst. by left. }
  clear Hg. set (cn := match spoke with Some s => _ | None => _ end). intros H.
  assert (Hc : match spoke with Some s => cn = (sa_Client s, sa_Namespace s)
               | None => cn = (HubClient, hubNS) end) by (by destruct spoke).
  destruct cn as [c ns]. right.
  apply runs_bind in H as (t1 & e1 & t2 & -> & H1 & H).
  apply runs_bind in H as (t3 & e2 & t4 & -> & H2 & H).
  apply runs_bind in H as (t5 & e3 & t6 & -> & H3 & H).
  apply runs_ret in H as [-> He]. destruct e1; [done|]. destruct e2; [done|]. cbn in He. subst e3.
  apply deleteIfExists_run in H3 as (ans & -> & Hg).
  split; [exists ans; split; [set_solver|by apply Hg]|]. split.
  - destruct spoke as [s|]; injection Hc as -> ->.
    + intros i Hi. eapply removed_mono; [|by eapply removeReaderSubjectOnSpoke_removed]. set_solver.
    + apply removeReaderSubject_removed in H1 as (sel & items & Hin & -> & Hall).
      exists items. split; [set_solver|]. intros o Ho. eapply removed_mono; [|by apply Hall].
      set_solver.
  - intros ->. rewrite String.eqb_refl in H2. apply cleanupExecutionRBAC_removed in H2 as [Hn Hcl].
    split; intros; (eapply removed_mono; [|eauto]); set_solver.
Qed.
End SpokeFacts.
