(* ===== verification/SandboxManager.v ===== *)
(** The sandbox manager ([controller/agenticrun/sandbox_manager.go]): creation
    of a sandbox with its account, roles, kubeconfig and input, as a bare pod or
    as a claim; its release; and the cleanup of a creation that failed. *)
From stdpp Require Import base list option strings gmap.
From Stdlib Require Import ZArith Lia.
From S2P Require Import Prelude GoText Crypto Json ApiMachinery Types Objects Phase Effects.
From S2P Require Import Approval Resolve PodSpecBuilder Results Helpers InputConfigMap Schemas Rbac Spoke.

Local Open Scope string_scope.
Local Open Scope list_scope.
Local Open Scope prog_scope.

Definition errBuildPodSpec : string := "build pod spec".
Definition errCreatePod : string := "create pod for".
Definition errDeletePod : string := "delete pod".
Definition errEnsureAgentTemplate : string := "ensure agent template".
Definition errCreateSandboxClaim : string := "failed to create SandboxClaim for".
Definition errDeleteSandboxClaim : string := "failed to delete SandboxClaim".
Definition errCreateInputConfigMap : string := "create input ConfigMap".
Definition errCreateSandbox : string := "create sandbox".
Definition sandboxDeletionTimeout : Duration := (2 * Minute)%Z.
Definition sandboxPodNameAnnotation : string := "agents.x-k8s.io/pod-name".
Definition groupVersion : string := "agentic.openshift.io/v1alpha1".
Definition claimGroupVersion : string := "extensions.agents.x-k8s.io/v1beta1".

(** The manager: which collaborators are set, its namespace, the time it waits for
    a pod to disappear, and whether its configuration forces bare pods. *)
Record SandboxManager := MkSandboxManager {
  sm_Reader : bool;
  sm_Audit : bool;
  sm_Namespace : string;
  sm_DeletionTimeout : Duration;
  sm_ForceBareMode : bool;   (* config != nil && config.ForceBareMode *)
}.

(** [encoding/json] on a pod specification, and [metav1.IsControlledBy]. *)
Class SandboxLibs := {
  MarshalPodSpec : PodSpec → res JSON;
  UnmarshalObject : JSON → res JSON;
  IsControlledBy : ObjectMeta → ObjectMeta → bool;
}.

(** The reader of the manager, which is all [readRunnableRun] uses. *)
Definition readerOf (m : SandboxManager) : AgenticRunReconciler :=
  MkReconciler (sm_Namespace m) (sm_Reader m) false false false false false.

(** The owner references of a sandbox resource and of a kubeconfig Secret. *)
Definition sandboxOwner (run : AgenticRun) : OwnerReference :=
  MkOwnerReference groupVersion "AgenticRun" (run_Name run) (run_UID run) (Some true) (Some true).
Definition secretOwner (run : AgenticRun) : OwnerReference :=
  MkOwnerReference groupVersion "AgenticRun" (run_Name run) (run_UID run) None None.
Definition podOwner (name uid : string) : OwnerReference :=
  MkOwnerReference "v1" "Pod" name uid None None.
Definition claimOwner (name uid : string) : OwnerReference :=
  MkOwnerReference claimGroupVersion "SandboxClaim" name uid None None.

Definition sandboxLabels (run : AgenticRun) (step : string) : gmap string string :=
  <[LabelRun := run_UID run]> {[LabelStep := step]}.

(** The metadata of a template, a warm pool; a pod and a claim name the run too. *)
Definition sandboxMeta (run : AgenticRun) (name namespace step : string) : ObjectMeta :=
  withOwners (newMeta name namespace (sandboxLabels run step)) [sandboxOwner run].
Definition workloadMeta (run : AgenticRun) (name namespace step : string) : ObjectMeta :=
  withAnnotations (sandboxMeta run name namespace step) {[AnnotationRunName := run_Name run]}.

(** ** The spoke kubeconfig in the pod *)
Definition mountKubeconfig (c : Container) : Container :=
  MkContainer
    (ctr_Env c ++ [MkEnvVar "KUBECONFIG"
       (spokeKubeconfigMountPath +:+ "/" +:+ spokeKubeconfigFileName) None])
    (ctr_EnvFrom c)
    (ctr_VolumeMounts c ++ [MkVolumeMount spokeKubeconfigVolume spokeKubeconfigMountPath "" true ""])
    (ctr_TerminationMessagePolicy c) (ctr_Rest c).

Definition mountSpokeKubeconfig (p : PodSpec) (secretName : string) : PodSpec :=
  MkPodSpec (map mountKubeconfig (pspec_Containers p))
    (pspec_Volumes p ++ [MkVolume spokeKubeconfigVolume (SecretVolume secretName)])
    (pspec_ServiceAccountName p) (pspec_AutomountServiceAccountToken p)
    (pspec_RestartPolicy p) (pspec_ActiveDeadlineSeconds p) (pspec_Rest p).

(** [if deadline > 0 { podSpec.ActiveDeadlineSeconds = &secs }]. *)
Definition withActiveDeadline (p : PodSpec) (deadline : Duration) : PodSpec :=
  if (0 <? deadline)%Z then
    MkPodSpec (pspec_Containers p) (pspec_Volumes p) (pspec_ServiceAccountName p)
      (pspec_AutomountServiceAccountToken p) (pspec_RestartPolicy p)
      (Some (Z.quot deadline Second)) (pspec_Rest p)
  else p.

(** What [Create] has when it returns or runs its deferred functions: the name and
    error it returns, whether [createErr] is set, and the run it works on. *)
Record Created := MkCreated {
  cr_Name : string;
  cr_Err : option error;
  cr_Cleanup : bool;
  cr_Run : AgenticRun;
}.

Section SandboxManager.
Context `{K : ApiMachinery} `{CC : ClientCmd} `{RJ : RawJSON} `{RE : Rendering} `{SL : SandboxLibs}.
Context (m : SandboxManager).

Definition hubKey (name : string) : NamespacedName := MkNamespacedName (sm_Namespace m) name.

Definition requireRunnableRun (run : AgenticRun) : M (res AgenticRun) :=
  if negb (sm_Reader m) then
    Ret (Err (errorString "uncached API reader is required before sandbox creation"))
  else readRunnableRun (readerOf m) (run_Key run) (run_UID run).

(** ** Accounts *)

(** An account is created, or it is there: whether it was created. *)
Definition createAccount (c : Client) (sa : Object KServiceAccount) : M (res bool) :=
  made <- call (ObjCreate c KServiceAccount sa) ;;
  Ret match made with
      | Ok _ => Ok true
      | Err err =>
          if IsAlreadyExists err then Ok false
          else Err (wrapError (ErrCreateSandboxSA +:+ " " +:+ obj_Name sa) err)
      end.

(** The account, then its access [grant]; a new account without access is deleted. *)
Definition accountWith (c : Client) (sa : Object KServiceAccount) (grant : M (option error))
    : M (option error) :=
  got <- createAccount c sa ;;
  match got with
  | Err err => Ret (Some err)
  | Ok created =>
      e <- grant ;;
      match e with
      | Some err =>
          (if (created : bool) then
             call (ObjDelete c KServiceAccount (obj_Key sa) plainDelete) ;;; Ret tt
           else Ret tt) ;;;
          Ret (Some err)
      | None => Ret None
      end
  end.

Definition ensureSA (run : AgenticRun) (saName step : string) (spoke : option SpokeAccess)
    : M (res string) :=
  let account namespace labels :=
    MkObject (k := KServiceAccount) (newMeta saName namespace labels) tt in
  match spoke with
  | Some s =>
      let tc := spec_TargetCluster (run_Spec run) in
      e <- accountWith (sa_Client s)
             (account (sa_Namespace s)
                (spokeLabels (run_UID run) (run_Name run) tc (step +:+ "-sa")))
             (addReaderSubjectOnSpoke (sa_Client s) (run_UID run) step saName (sa_Namespace s)
                (spokeExtraLabels (run_Name run) tc)) ;;
      match e with
      | Some err => Ret (Err err)
      | None => requestSpokeToken (sa_Config s) saName (sa_Namespace s)
      end
  | None =>
      e <- accountWith HubClient
             (account (sm_Namespace m) (rbacLabels (run_UID run) (step +:+ "-sa")))
             (addReaderSubject HubClient (run_UID run) step saName (sm_Namespace m)) ;;
      Ret match e with Some err => Err err | None => Ok "" end
  end.

(** ** The kubeconfig of a sandbox *)
Definition kubeconfigSecret (run : AgenticRun) (step data : string) : Object KSecret :=
  MkObject (k := KSecret)
    (withOwners
       (newMeta (sandboxKubeconfigSecretName (run_UID run) step) (sm_Namespace m)
          (rbacLabels (run_UID run) "sandbox-kubeconfig"))
       [secretOwner run])
    ({[spokeKubeconfigFileName := data]} : gmap string string).

Definition ensureSandboxKubeconfig (run : AgenticRun) (step : string) (spoke : SpokeAccess)
    (token : string) : M (option error) :=
  match buildSandboxKubeconfig spoke token with
  | Err err => Ret (Some err)
  | Ok data =>
      let secret := kubeconfigSecret run step data in
      let name := obj_Name secret in
      made <- call (ObjCreate HubClient KSecret secret) ;;
      match made with
      | Ok _ => Ret None
      | Err err =>
          if negb (IsAlreadyExists err)
          then Ret (Some (wrapError ("create sandbox kubeconfig Secret " +:+ name) err))
          else
            got <- call (ObjGet HubClient KSecret (hubKey name)) ;;
            match got with
            | Err err =>
                Ret (Some (wrapError ("get existing sandbox kubeconfig Secret " +:+ name) err))
            | Ok existing =>
                let label := mapGet (obj_Labels existing) LabelRun in
                if negb (String.eqb label (run_UID run))
                then Ret (Some (errorString ("sandbox kubeconfig Secret " +:+ name +:+
                       " belongs to a different run (label " +:+ label +:+ " != " +:+
                       run_UID run +:+ ")")))
                else
                  upd <- call (ObjUpdate HubClient KSecret
                                 (MkObject (k := KSecret) (obj_Meta existing) (obj_Content secret))) ;;
                  Ret match upd with
                      | Err err =>
                          Some (wrapError ("update sandbox kubeconfig Secret " +:+ name) err)
                      | Ok _ => None
                      end
            end
      end
  end.

(** ** Owner references set once the workload runs *)
Definition setSAOwner (saName : string) (owner : OwnerReference) : M (option error) :=
  patchOwners HubClient KServiceAccount (hubKey saName) ("get sandbox SA " +:+ saName)
    ("set owner on sandbox SA " +:+ saName) (λ _, [owner]).

Definition setInputConfigMapOwner (cmName : string) (owner : OwnerReference) : M (option error) :=
  patchOwners HubClient KConfigMap (hubKey cmName) "get input ConfigMap"
    "set owner on input ConfigMap" (λ _, [owner]).

(** ** Cleanup of a creation that failed: errors are logged *)
Definition cleanupOnCreateFailure (run : AgenticRun) (step serviceAccount : string)
    (spoke : option SpokeAccess) : M unit :=
  let delete k name := deleteIfExists HubClient k (hubKey name) ;;; Ret tt in
  delete KConfigMap (inputConfigMapName step (run_UID run)) ;;;
  delete KRole (resultRoleName (run_UID run) step) ;;;
  delete KRoleBinding (resultRoleName (run_UID run) step) ;;;
  (match spoke with
   | None => Ret tt
   | Some _ =>
       got <- call (ObjGet HubClient KSecret
                      (hubKey (sandboxKubeconfigSecretName (run_UID run) step))) ;;
       match got with
       | Err _ => Ret tt
       | Ok existing =>
           if String.eqb (mapGet (obj_Labels existing) LabelRun) (run_UID run)
           then deleteIfExists HubClient KSecret (obj_Key existing) ;;; Ret tt
           else Ret tt
       end
   end) ;;;
  (if negb (String.eqb serviceAccount "")
   then cleanupStepRBAC spoke (sm_Namespace m) run step ;;; Ret tt
   else Ret tt).

Definition createInputConfigMap (cm : Object KConfigMap) : M (option error) :=
  made <- call (ObjCreate HubClient KConfigMap cm) ;;
  Ret match made with
      | Ok _ => None
      | Err err =>
          if IsAlreadyExists err then None
          else Some (wrapError (errCreateInputConfigMap +:+ " " +:+ Quote (obj_Name cm)) err)
      end.

(** ** Waiting for a pod to disappear

    One turn of the loop per tick of a two-second ticker; running out of turns
    ([None]) is what [waitTurns_enough] excludes. *)
Definition waitExhausted : error := panicError "waitForPodDeletion: out of turns".

Definition effectiveDeletionTimeout : Duration :=
  if (sm_DeletionTimeout m =? 0)%Z then sandboxDeletionTimeout else sm_DeletionTimeout m.

Fixpoint waitTurns (turns : nat) (key : NamespacedName) (timeout : Duration) (deadline : Time)
    : M (option (option error)) :=
  match turns with
  | O => Ret None
  | S turns' =>
      got <- call (ObjGet HubClient KPod key) ;;
      match got with
      | Err err =>
          Ret (Some (if IsNotFound err then None
                     else Some (wrapError ("get pod " +:+ Quote (nn_Name key)) err)))
      | Ok _ =>
          now <- call Now ;;
          if (deadline <? now)%Z
          then Ret (Some (Some (errorString ("timeout waiting for pod " +:+ Quote (nn_Name key) +:+
                 " to be deleted after " +:+ Duration_String timeout))))
          else
            done <- call (Sleep (2 * Second)%Z) ;;
            match done with
            | Some ctxErr => Ret (Some (Some ctxErr))
            | None => waitTurns turns' key timeout deadline
            end
      end
  end.

(** Enough turns for the deadline to pass. *)
Definition turnsFor (timeout : Duration) : nat := S (Z.to_nat (timeout / (2 * Second) + 1)%Z).

Definition waitForPodDeletion (key : NamespacedName) : M (option error) :=
  now <- call Now ;;
  turned <- waitTurns (turnsFor effectiveDeletionTimeout) key effectiveDeletionTimeout
              (Time_Add now effectiveDeletionTimeout) ;;
  Ret match turned with Some e => e | None => Some waitExhausted end.

(** ** The workload *)
Definition podObject (run : AgenticRun) (podName step : string) (podSpec : PodSpec)
    : Object KPod :=
  MkObject (k := KPod) (workloadMeta run podName (sm_Namespace m) step) (MkPodObject podSpec "").

(** The pod that is already there: its UID. *)
Definition existingPod (podName : string) : M (res (Object KPod)) :=
  got <- call (ObjGet HubClient KPod (hubKey podName)) ;;
  Ret match got with
      | Err err => Err (wrapError ("get existing pod " +:+ Quote podName) err)
      | Ok pod => Ok pod
      end.

(** The second creation, after a terminating pod of the same name is gone. *)
Definition recreatePod (run : AgenticRun) (podName step : string) (pod : Object KPod)
    : M (res (string * string)) :=
  guard <- requireRunnableRun run ;;
  match guard with
  | Err err => Ret (Err err)
  | Ok _ =>
      again <- call (ObjCreate HubClient KPod pod) ;;
      match again with
      | Ok o => Ret (Ok (podName, obj_UID o))
      | Err err =>
          if IsAlreadyExists err then
            got <- existingPod podName ;;
            Ret match got with
                | Err err => Err err
                | Ok existing => Ok (podName, obj_UID existing)
                end
          else Ret (Err (wrapError (errCreatePod +:+ " " +:+ step) err))
      end
  end.

Definition createBarePod (run : AgenticRun) (podName step : string) (podSpec : PodSpec)
    : M (res (string * string)) :=
  let pod := podObject run podName step podSpec in
  guard <- requireRunnableRun run ;;
  match guard with
  | Err err => Ret (Err err)
  | Ok _ =>
      made <- call (ObjCreate HubClient KPod pod) ;;
      match made with
      | Ok o => Ret (Ok (podName, obj_UID o))
      | Err err =>
          if negb (IsAlreadyExists err)
          then Ret (Err (wrapError (errCreatePod +:+ " " +:+ step) err))
          else
            got <- existingPod podName ;;
            match got with
            | Err err => Ret (Err err)
            | Ok existing =>
                if TimePtr_IsZero (meta_DeletionTimestamp (obj_Meta existing))
                then Ret (Ok (podName, obj_UID existing))
                else
                  e <- waitForPodDeletion (hubKey podName) ;;
                  match e with
                  | Some err =>
                      Ret (Err (wrapError ("wait for terminating pod " +:+ Quote podName) err))
                  | None => recreatePod run podName step pod
                  end
            end
      end
  end.

Definition podSpecToUnstructured (podSpec : PodSpec) : res JSON :=
  match MarshalPodSpec podSpec with
  | Err err => Err err
  | Ok raw => UnmarshalObject raw
  end.

Definition templateObject (run : AgenticRun) (name step : string) (spec : JSON)
    : Object KSandboxTemplate :=
  MkObject (k := KSandboxTemplate) (sandboxMeta run name (sm_Namespace m) step)
    (MkSandboxTemplateSpec "Unmanaged" (sandboxLabels run step)
       {[AnnotationRunName := run_Name run]} spec).
Definition poolObject (run : AgenticRun) (name step : string) : Object KSandboxWarmPool :=
  MkObject (k := KSandboxWarmPool) (sandboxMeta run name (sm_Namespace m) step)
    (MkSandboxWarmPoolSpec 0 name).
Definition claimObject (run : AgenticRun) (name step : string) : Object KSandboxClaim :=
  MkObject (k := KSandboxClaim) (workloadMeta run name (sm_Namespace m) step)
    (MkSandboxClaimSpec name "Delete" (Ok None)).

(** The template and the warm pool of a claim. *)
Definition ensureClaimTemplate (run : AgenticRun) (name step : string) (spec : JSON)
    : M (option error) :=
  e <- createIfMissing HubClient KSandboxTemplate (templateObject run name step spec) ;;
  onErr e (λ err, Ret (Some (wrapError errEnsureAgentTemplate err)))
  (e <- createIfMissing HubClient KSandboxWarmPool (poolObject run name step) ;;
   Ret (wrapError ("create SandboxWarmPool for " +:+ step) <$> e)).

(** The claim itself, behind the guard. *)
Definition createClaim (run : AgenticRun) (name step : string) : M (res (string * string)) :=
  guard <- requireRunnableRun run ;;
  match guard with
  | Err err => Ret (Err err)
  | Ok _ =>
      made <- call (ObjCreate HubClient KSandboxClaim (claimObject run name step)) ;;
      match made with
      | Ok o => Ret (Ok (name, obj_UID o))
      | Err err =>
          if IsAlreadyExists err then
            got <- call (ObjGet HubClient KSandboxClaim (hubKey name)) ;;
            Ret match got with
                | Err err => Err (wrapError ("get existing SandboxClaim " +:+ Quote name) err)
                | Ok existing => Ok (name, obj_UID existing)
                end
          else Ret (Err (wrapError (errCreateSandboxClaim +:+ " " +:+ step) err))
      end
  end.

Definition createSandboxClaim (run : AgenticRun) (name step : string) (podSpec : PodSpec)
    : M (res (string * string)) :=
  match podSpecToUnstructured podSpec with
  | Err err => Ret (Err (wrapError "convert PodSpec to unstructured" err))
  | Ok spec =>
      e <- ensureClaimTemplate run name step spec ;;
      onErr e (λ err, Ret (Err err)) (createClaim run name step)
  end.

(** ** [Create] *)
Definition spanEvent (name : string) : M unit := call (Audit (SpanEvent name)).

(** The account of the pod: its own on the hub, the default one for a spoke. *)
Definition podServiceAccount (run : AgenticRun) (step : string) (spoke : option SpokeAccess)
    : string :=
  match spoke with Some _ => "default" | None => sandboxSAName run step end.

(** The account with its access, and for a spoke the kubeconfig. *)
Definition ensureAccess (run : AgenticRun) (step : string) (spoke : option SpokeAccess)
    : M (option error) :=
  got <- ensureSA run (sandboxSAName run step) step spoke ;;
  match got with
  | Err err => Ret (Some err)
  | Ok token =>
      match spoke with
      | None => Ret None
      | Some s => ensureSandboxKubeconfig run step s token
      end
  end.

(** The rules of the approved option an execution is given. *)
Definition grantedRules (step : string) (agentCtx : option agentContext) : option RBACResult :=
  if String.eqb step "execution" then
    agentCtx ≫= (λ c, ctx_ApprovedOption c ≫= (λ o,
      if (0 <? length (rbac_NamespaceScoped (option_RBAC o)))%nat
         || (0 <? length (rbac_ClusterScoped (option_RBAC o)))%nat
      then Some (option_RBAC o) else None))
  else None.

(** Execution RBAC and the annotation that remembers it: the run as it is after. *)
Definition grantExecution (run : AgenticRun) (step : string) (spoke : option SpokeAccess)
    (agentCtx : option agentContext) : M (AgenticRun * option error) :=
  match grantedRules step agentCtx with
  | None => Ret (run, None)
  | Some rbac =>
      let '(c, ns, extra) := match spoke with
        | Some s => (sa_Client s, sa_Namespace s,
                     spokeExtraLabels (run_Name run) (spec_TargetCluster (run_Spec run)))
        | None => (HubClient, sm_Namespace m, ∅)
        end in
      done <- ensureExecutionRBAC c run (Some rbac) ns extra ;;
      let '(run', e) := done in
      onErr e (λ err, Ret (run', Some err))
      (patched <- call (PatchRun run run' false) ;;
       Ret match patched with
           | Err err => (run', Some (wrapError "persist RBAC annotation" err))
           | Ok r => (r, None)
           end)
  end.

(** The input and the role to write the result; the pod specification. *)
Definition buildWorkload (cfg : Config) (run : AgenticRun) (step : string)
    (agent : option Agent) (llm : option LLMProvider) (tools : option ToolsSpec)
    (deadline : Duration) (agentCtx : option agentContext) (spoke : option SpokeAccess)
    : M (res PodSpec) :=
  let account := podServiceAccount run step spoke in
  match buildInputConfigMap (sm_Namespace m) run step agent (outputSchemaForStep step run) agentCtx with
  | Err err => Ret (Err err)
  | Ok inputCM =>
      e <- createInputConfigMap inputCM ;;
      onErr e (λ err, Ret (Err err))
      (spanEvent "sandbox.configmap.created" ;;;
       e <- ensureResultRBAC HubClient run step account (sm_Namespace m) ;;
       onErr e (λ err, Ret (Err err))
       (spanEvent "sandbox.rbac.created" ;;;
        traceparent <- call Traceparent ;;
        Ret match Build (cfg_SandboxPodSpec cfg) agent llm tools (Some cfg) step (run_UID run)
                    account (obj_Name inputCM) traceparent (resolveTimeout agent step)
                    (resolveMaxTurns agent) with
            | Err err => Err (wrapError errBuildPodSpec err)
            | Ok podSpec =>
                let mounted := match spoke with
                  | Some _ => mountSpokeKubeconfig podSpec
                                (sandboxKubeconfigSecretName (run_UID run) step)
                  | None => podSpec
                  end in
                Ok (withActiveDeadline mounted deadline)
            end))
  end.

(** The pod or the claim: its name and the reference that makes it an owner. *)
Definition createWorkload (cfg : Config) (run : AgenticRun) (step : string) (podSpec : PodSpec)
    : M (res (string * OwnerReference)) :=
  let name := "ls-" +:+ step +:+ "-" +:+ run_UID run in
  if String.eqb (cfg_SandboxMode cfg) sandboxModeSandboxClaim then
    got <- createSandboxClaim run name step podSpec ;;
    Ret match got with
        | Err err => Err err
        | Ok (claimName, uid) => Ok (claimName, claimOwner claimName uid)
        end
  else
    got <- createBarePod run name step podSpec ;;
    Ret match got with
        | Err err => Err err
        | Ok (podName, uid) => Ok (podName, podOwner podName uid)
        end.

(** The owner references once the workload runs. *)
Definition adoptDependents (run : AgenticRun) (step serviceAccount : string)
    (spoke : option SpokeAccess) (owner : OwnerReference) : M (option error) :=
  e <- setInputConfigMapOwner (inputConfigMapName step (run_UID run)) owner ;;
  onErr e (λ err, Ret (Some err))
  (e <- setResultRBACOwner HubClient (run_UID run) step owner (sm_Namespace m) ;;
   onErr e (λ err, Ret (Some err))
   (match spoke with
    | Some _ => Ret None
    | None => setSAOwner serviceAccount owner
    end)).

(** Everything between the deferred cleanup and the return. *)
Definition setupSandbox (cfg : Config) (run : AgenticRun) (step : string)
    (agent : option Agent) (llm : option LLMProvider) (tools : option ToolsSpec)
    (deadline : Duration) (agentCtx : option agentContext) (spoke : option SpokeAccess)
    : M Created :=
  let bad (run : AgenticRun) (err : error) : M Created :=
    Ret (MkCreated "" (Some err) true run) in
  let serviceAccount := sandboxSAName run step in
  e <- ensureAccess run step spoke ;;
  onErr e (bad run)
  (spanEvent "sandbox.sa.created" ;;;
   granted <- grantExecution run step spoke agentCtx ;;
   let '(run, e) := granted in
   onErr e (bad run)
   (built <- buildWorkload cfg run step agent llm tools deadline agentCtx spoke ;;
    match built with
    | Err err => bad run err
    | Ok podSpec =>
        made <- createWorkload cfg run step podSpec ;;
        match made with
        | Err err => bad run err
        | Ok (name, owner) =>
            spanEvent "sandbox.pod.created" ;;;
            e <- adoptDependents run step serviceAccount spoke owner ;;
            Ret (MkCreated name e false run)
        end
    end)).

Definition beginAudit (run : AgenticRun) (step : string) : M unit :=
  if sm_Audit m then
    call (Audit (BeginStep run step)) ;;;
    (if String.eqb step "analysis" then call (Audit (EmitAgenticRunReceived run)) else Ret tt)
  else Ret tt.

Definition Create (run : AgenticRun) (step : string) (agent : option Agent)
    (llm : option LLMProvider) (tools : option ToolsSpec) (deadline : Duration)
    (agentCtx : option agentContext) : M (string * option error) :=
  cfg <- call ConfigGet ;;
  match cfg with
  | None => Ret ("", Some (errorString (errCreateSandbox +:+ ": configuration not available")))
  | Some cfg =>
      guard <- requireRunnableRun run ;;
      match guard with
      | Err err => Ret ("", Some err)
      | Ok current =>
          beginAudit current step ;;;
          resolved <- spokeAccessForRun current (sm_Namespace m) ;;
          let '(spoke, spokeErr) := resolved in
          out <- match spokeErr with
                 | Some err => Ret (MkCreated "" (Some err) false current)
                 | None => setupSandbox cfg current step agent llm tools deadline agentCtx spoke
                 end ;;
          (if cr_Cleanup out then
             call (ContextWithTimeout cleanupTimeout) ;;;
             cleanupOnCreateFailure (cr_Run out) step (sandboxSAName current step) spoke
           else Ret tt) ;;;
          auditIf (sm_Audit m && bool_decide (is_Some (cr_Err out)))
            (CompleteStep (cr_Run out) step None) ;;;
          Ret (cr_Name out, cr_Err out)
      end
  end.

(** ** [Release] *)

(** The deletion of an object, ignoring that it is not there. *)
Definition deleteWith (k : Kind) (key : NamespacedName) (opts : DeleteOptions)
    (what : string) : M (option error) :=
  e <- call (ObjDelete HubClient k key opts) ;;
  Ret match e with
      | Some err => if IsNotFound err then None else Some (wrapError what err)
      | None => None
      end.

Definition zeroGraceDelete : DeleteOptions := MkDeleteOptions true None false.

Definition releaseBarePod (podName : string) (zeroGrace : bool) : M (option error) :=
  deleteWith KPod (hubKey podName) (if zeroGrace then zeroGraceDelete else plainDelete)
    (errDeletePod +:+ " " +:+ Quote podName).

(** The name of the pod behind a sandbox. *)
Definition backingPodName (sandbox : Object KSandbox) : string :=
  let annotated := mapGet (meta_Annotations (obj_Meta sandbox)) sandboxPodNameAnnotation in
  if String.eqb annotated "" then obj_Name sandbox else annotated.

(** The pod of a sandbox, if the sandbox controls it. *)
Definition releaseBackingPod (claimName sandboxName : string) (sandbox : Object KSandbox)
    : M (option error) :=
  let podName := backingPodName sandbox in
  got <- call (ObjGet HubClient KPod (hubKey podName)) ;;
  match got with
  | Err err =>
      Ret (if IsNotFound err then None
           else Some (wrapError ("get backing Pod " +:+ Quote podName +:+ " for Sandbox " +:+
                                 Quote sandboxName) err))
  | Ok pod =>
      if negb (IsControlledBy (obj_Meta pod) (obj_Meta sandbox)) then Ret None
      else deleteWith KPod (obj_Key pod) zeroGraceDelete
             ("delete backing Pod " +:+ Quote podName +:+ " for SandboxClaim " +:+ Quote claimName)
  end.

Definition releaseSandboxClaimPod (claimName : string) : M (option error) :=
  got <- call (ObjGet HubClient KSandboxClaim (hubKey claimName)) ;;
  match got with
  | Err err =>
      Ret (if IsNotFound err then None
           else Some (wrapError ("get SandboxClaim " +:+ Quote claimName +:+
                                 " for backing Pod deletion") err))
  | Ok claim =>
      match claim_StatusSandboxName (obj_Content (k := KSandboxClaim) claim) with
      | Err err =>
          Ret (Some (wrapError ("get backing Sandbox name from SandboxClaim " +:+
                                Quote claimName) err))
      | Ok None => Ret None
      | Ok (Some sandboxName) =>
          if String.eqb sandboxName "" then Ret None
          else
            got <- call (ObjGet HubClient KSandbox (hubKey sandboxName)) ;;
            match got with
            | Err err =>
                Ret (if IsNotFound err then None
                     else Some (wrapError ("get backing Sandbox " +:+ Quote sandboxName +:+
                                           " for SandboxClaim " +:+ Quote claimName) err))
            | Ok sandbox =>
                if negb (IsControlledBy (obj_Meta sandbox) (obj_Meta claim)) then Ret None
                else releaseBackingPod claimName sandboxName sandbox
            end
      end
  end.

Definition releaseSandboxClaim (claimName : string) : M (option error) :=
  e <- deleteWith KSandboxClaim (hubKey claimName) plainDelete
         (errDeleteSandboxClaim +:+ " " +:+ Quote claimName) ;;
  onErr e (λ err, Ret (Some err))
  (e <- deleteWith KSandboxWarmPool (hubKey claimName) plainDelete
          ("delete SandboxWarmPool " +:+ Quote claimName) ;;
   onErr e (λ err, Ret (Some err))
   (deleteWith KSandboxTemplate (hubKey claimName) plainDelete
      ("delete SandboxTemplate " +:+ Quote claimName))).

Definition Release (run : AgenticRun) (step : string) (spoke : option SpokeAccess)
    (zeroGrace : bool) : M (option error) :=
  auditIf (sm_Audit m) (CompleteStep run step None) ;;;
  let claimName := sandboxClaimName run step in
  if String.eqb claimName "" then Ret None
  else
    cfg <- call ConfigGet ;;
    let claimMode := from_option (λ c, String.eqb (cfg_SandboxMode c) sandboxModeSandboxClaim)
                       false cfg in
    e1 <- (if negb claimMode || negb zeroGrace then releaseBarePod claimName zeroGrace
           else Ret None) ;;
    e2 <- (if claimMode && zeroGrace then releaseSandboxClaimPod claimName else Ret None) ;;
    e3 <- (if claimMode then releaseSandboxClaim claimName else Ret None) ;;
    e4 <- cleanupStepRBAC spoke (sm_Namespace m) run step ;;
    e5 <- (if negb (String.eqb (spec_TargetCluster (run_Spec run)) "")
           then deleteIfExists HubClient KSecret
                  (hubKey (sandboxKubeconfigSecretName (run_UID run) step))
           else Ret None) ;;
    Ret (keepFirst (keepFirst (keepFirst (keepFirst e1 e2) e3) e4) e5).
End SandboxManager.

(** ** Which calls the parts make *)

(** Calls about roles and access: no object is created but roles, bindings and
    kubeconfig Secrets, and the status of a run is left alone. *)
Definition accessCall (ev : event answer) : bool :=
  match ev with
  | Ev (ObjCreate _ k _) _ =>
      bool_decide (k ∈ [KRole; KRoleBinding; KClusterRole; KClusterRoleBinding; KSecret])
  | Ev (StatusPatchRun _ _) _ => false
  | _ => true
  end.

(** The creation of a pod or a claim: the agent starts to work. *)
Definition startsWork (ev : event answer) : bool :=
  match ev with
  | Ev (ObjCreate _ KPod _) _ | Ev (ObjCreate _ KSandboxClaim _) _ => true
  | _ => false
  end.

Section AccessCalls.
Context `{K : ApiMachinery} `{CC : ClientCmd}.
Abbreviation accessOnly := (emits (λ ev, accessCall ev = true)).

Lemma deleteIfExists_access c k key : accessOnly (deleteIfExists c k key).
Proof. unfold deleteIfExists. emits_walk done. Qed.

Lemma createIfMissing_access c k o :
  k ∈ [KRole; KRoleBinding; KClusterRole; KClusterRoleBinding; KSecret] →
  accessOnly (createIfMissing c k o).
Proof.
  intros Hk. unfold createIfMissing. emits_walk idtac. cbn. by rewrite bool_decide_true.
Qed.

Lemma cleanupStepRBAC_access spoke ns run step : accessOnly (cleanupStepRBAC spoke ns run step).
Proof.
  unfold cleanupStepRBAC, removeReaderSubjectOnSpoke, removeReaderSubject, cleanupExecutionRBAC,
    cleanupNamespaceRBAC, deleteReader.
  repeat (first [apply emits_untilError; intros | apply emits_onErr; intros
                | apply deleteIfExists_access | emits_walk done]).
Qed.

Lemma addReaderSubject_access c uid step sa ns : accessOnly (addReaderSubject c uid step sa ns).
Proof.
  unfold addReaderSubject, resolveReaderBindings, discoverReaderBindings,
    addReaderSubjectForBindings, addReaderBinding, cleanupCreated.
  emits_walk done.
Qed.

Lemma addReaderSubjectOnSpoke_access c uid step sa ns extra :
  accessOnly (addReaderSubjectOnSpoke c uid step sa ns extra).
Proof.
  unfold addReaderSubjectOnSpoke, cleanupCreatedCRBs.
  apply emits_forEach; [intros [i name] created _|intros; apply emits_ret].
  repeat (first [apply deleteIfExists_access | emits_walk done]).
Qed.

Lemma ensureExecutionRBAC_access c run rbac ns extra :
  accessOnly (ensureExecutionRBAC c run rbac ns extra).
Proof.
  unfold ensureExecutionRBAC, ensureNamespaceRBAC, ensureClusterRBAC.
  repeat (first [apply emits_untilError; intros | apply emits_onErr; intros
                | apply createIfMissing_access; set_solver | emits_walk done]).
Qed.

Lemma ensureResultRBAC_access c run step sa ns : accessOnly (ensureResultRBAC c run step sa ns).
Proof.
  unfold ensureResultRBAC.
  repeat (first [apply emits_onErr; intros | apply createIfMissing_access; set_solver
                | emits_walk done]).
Qed.

Lemma patchOwners_access c k key w1 w2 upd : accessOnly (patchOwners c k key w1 w2 upd).
Proof. unfold patchOwners. emits_walk done. Qed.

Lemma spokeAccessForRun_access run ns : accessOnly (spokeAccessForRun run ns).
Proof. unfold spokeAccessForRun. emits_walk done. Qed.

Lemma requestSpokeToken_access cfg sa ns : accessOnly (requestSpokeToken cfg sa ns).
Proof. unfold requestSpokeToken. emits_walk done. Qed.
End AccessCalls.

Create HintDb access discriminated.
#[export] Hint Resolve deleteIfExists_access cleanupStepRBAC_access addReaderSubject_access
  addReaderSubjectOnSpoke_access ensureExecutionRBAC_access ensureResultRBAC_access
  patchOwners_access spokeAccessForRun_access requestSpokeToken_access : access.

(** ** The guard before work starts *)

(** The last two calls before [ev] are an uncached read of a run with this UID,
    which has no accepted stop, and a read of the global configuration, which
    does not suspend. *)
Definition justGuarded `{K : ApiMachinery} (uid : string) (pre : trace) (ev : event answer)
    : Prop :=
  ∃ before reads key current, pre = before ++ reads ∧ guarded key uid reads current.

Section Guard.
Context `{K : ApiMachinery} `{CC : ClientCmd} `{RJ : RawJSON} `{RE : Rendering} `{SL : SandboxLibs}.
Context (m : SandboxManager).
Abbreviation noWork := (emits (λ ev, startsWork ev = false)).
Abbreviation guardedIn uid := (precededIn startsWork (justGuarded uid)).

Lemma justGuarded_mono uid x pre ev : justGuarded uid pre ev → justGuarded uid (x ++ pre) ev.
Proof.
  intros (before & reads & key & current & -> & Hg). exists (x ++ before), reads, key, current.
  by rewrite app_assoc.
Qed.

Lemma access_noWork {A} (p : M A) : emits (λ ev, accessCall ev = true) p → noWork p.
Proof.
  apply emits_mono. intros [e a]. destruct e; try done. by destruct k.
Qed.

Lemma noWork_guarded {A} uid (p : M A) : noWork p → guardedIn uid p.
Proof. apply precededIn_none. Qed.

Lemma guardedIn_bind {A B} uid (p : M A) (f : A → M B) :
  guardedIn uid p → (∀ a, guardedIn uid (f a)) → guardedIn uid (bind p f).
Proof. apply precededIn_bind, justGuarded_mono. Qed.

Lemma requireRunnableRun_noWork run : noWork (requireRunnableRun m run).
Proof. unfold requireRunnableRun, readRunnableRun. emits_walk done. Qed.

Lemma requireRunnableRun_ok run tr current :
  runs (requireRunnableRun m run) tr (Ok current) →
  guarded (run_Key run) (run_UID run) tr current.
Proof.
  unfold requireRunnableRun. destruct (sm_Reader m); cbn; [|by intros [_ ?]%runs_ret].
  apply readRunnableRun_ok.
Qed.

(** A creation right behind the guard, with a continuation that starts nothing. *)
Lemma guard_then {A} run (e : eff) (k : answer e → M A) bad :
  (∀ a, guardedIn (run_UID run) (k a)) →
  guardedIn (run_UID run)
    (guard <- requireRunnableRun m run ;;
     match guard with Err err => Ret (bad err) | Ok _ => (a <- call e ;; k a) end).
Proof.
  intros Hk tr b (t1 & guard & t2 & -> & Hg & H)%runs_bind.
  destruct guard as [current|err].
  - run_call H a. apply requireRunnableRun_ok in Hg as Hok.
    apply requireRunnableRun_noWork in Hg.
    change (t1 ++ Ev e a :: tr) with (t1 ++ [Ev e a] ++ tr). rewrite app_assoc.
    apply preceded_app; [apply justGuarded_mono| |by eapply Hk].
    intros pre ev post Heq Hs. destruct (decide (post = [])) as [->|Hne].
    + apply app_inj_tail in Heq as [-> <-]. by exists [], pre, (run_Key run), current.
    + exfalso. destruct post as [|x post] using rev_ind; [done|].
      rewrite app_comm_cons, app_assoc in Heq. apply app_inj_tail in Heq as [-> _].
      rewrite Forall_app, List.Forall_cons_iff in Hg. destruct Hg as (_ & Hg & _). congruence.
  - apply runs_ret in H as [-> _]. rewrite app_nil_r. apply preceded_none.
    by eapply requireRunnableRun_noWork.
Qed.

Lemma waitTurns_noWork n key timeout deadline : noWork (waitTurns n key timeout deadline).
Proof. induction n; cbn [waitTurns]; emits_walk done. Qed.

Lemma waitForPodDeletion_noWork key : noWork (waitForPodDeletion m key).
Proof.
  unfold waitForPodDeletion. repeat (first [apply waitTurns_noWork | emits_walk done]).
Qed.

Lemma createBarePod_guarded run name step spec :
  guardedIn (run_UID run) (createBarePod m run name step spec).
Proof.
  apply guard_then. intros [o|err]; [apply noWork_guarded, emits_ret|].
  destruct (negb _); [apply noWork_guarded, emits_ret|].
  apply guardedIn_bind; [apply noWork_guarded; unfold existingPod; emits_walk done|].
  intros [existing|]; [|apply noWork_guarded, emits_ret].
  destruct (TimePtr_IsZero _); [apply noWork_guarded, emits_ret|].
  apply guardedIn_bind.
  { apply noWork_guarded, waitForPodDeletion_noWork. }
  intros [err'|]; [apply noWork_guarded, emits_ret|].
  apply guard_then. intros [o|err'']; apply noWork_guarded; unfold existingPod; emits_walk done.
Qed.

Lemma createSandboxClaim_guarded run name step spec :
  guardedIn (run_UID run) (createSandboxClaim m run name step spec).
Proof.
  unfold createSandboxClaim. destruct (podSpecToUnstructured spec);
    [|apply noWork_guarded, emits_ret].
  apply guardedIn_bind.
  { apply noWork_guarded. unfold ensureClaimTemplate, createIfMissing.
    repeat (first [apply emits_onErr; intros | emits_walk done]). }
  intros [err|]; [apply noWork_guarded, emits_ret|].
  apply guard_then. intros []; apply noWork_guarded; emits_walk done.
Qed.

Lemma createWorkload_guarded cfg run step spec :
  guardedIn (run_UID run) (createWorkload m cfg run step spec).
Proof.
  unfold createWorkload. destruct (String.eqb _ _); (apply guardedIn_bind;
    [|intros; apply noWork_guarded, emits_ret]).
  - apply createSandboxClaim_guarded.
  - apply createBarePod_guarded.
Qed.
End Guard.

(** ** What a creation leaves behind *)
Section CreateFacts.
Context `{K : ApiMachinery} `{CC : ClientCmd} `{RJ : RawJSON} `{RE : Rendering} `{SL : SandboxLibs}.
Context (m : SandboxManager).

(** A patch of the run keeps its UID and its target cluster, both immutable on
    the server. *)
Definition keepsIdentity (tr : trace) : Prop :=
  ∀ base obj r, Ev (PatchRun base obj false) (Ok r) ∈ tr →
    run_UID r = run_UID obj ∧
    spec_TargetCluster (run_Spec r) = spec_TargetCluster (run_Spec obj).

Definition sameIdentity (run run' : AgenticRun) : Prop :=
  run_UID run' = run_UID run ∧
  spec_TargetCluster (run_Spec run') = spec_TargetCluster (run_Spec run).

Lemma keepsIdentity_app tr1 tr2 : keepsIdentity (tr1 ++ tr2) ↔ keepsIdentity tr1 ∧ keepsIdentity tr2.
Proof.
  unfold keepsIdentity. setoid_rewrite elem_of_app. split.
  - intros H. split; intros; eapply H; eauto.
  - intros [H1 H2] base obj r [H|H]; eauto.
Qed.

(** Where the account of a step lives. *)
Definition accountHome (run : AgenticRun) (step : string) (spoke : option SpokeAccess)
    : Client * NamespacedName :=
  match spoke with
  | Some s => (sa_Client s, MkNamespacedName (sa_Namespace s) (sandboxSAName run step))
  | None => (HubClient, hubKey m (sandboxSAName run step))
  end.

(** Configuration maps and accounts have the names the cleanup knows. *)
Definition namedDependent (run : AgenticRun) (step : string) (spoke : option SpokeAccess)
    (ev : event answer) : Prop :=
  match ev with
  | Ev (ObjCreate c KConfigMap o) _ =>
      c = HubClient ∧ obj_Key o = hubKey m (inputConfigMapName step (run_UID run))
  | Ev (ObjCreate c KServiceAccount o) _ => (c, obj_Key o) = accountHome run step spoke
  | _ => True
  end.

(** The calls before the workload. *)
Definition prework (run : AgenticRun) (step : string) (spoke : option SpokeAccess)
    (ev : event answer) : Prop :=
  startsWork ev = false ∧ namedDependent run step spoke ev.

Lemma access_prework {A} run step spoke (p : M A) :
  emits (λ ev, accessCall ev = true) p → emits (prework run step spoke) p.
Proof. apply emits_mono. intros [e a]. destruct e; try done. by destruct k. Qed.

Lemma buildInputConfigMap_key ns run step agent schema agentCtx cm :
  buildInputConfigMap ns run step agent schema agentCtx = Ok cm →
  obj_Key cm = MkNamespacedName ns (inputConfigMapName step (run_UID run)).
Proof.
  unfold buildInputConfigMap. destruct (contextJson _); [|done].
  destruct (buildResultTemplate _ _ _); [|done]. destruct (resolvePrompts _ _ _ _ _) as [[]|]; [|done].
  by intros [= <-].
Qed.

Lemma createWorkload_name cfg run step spec tr name owner :
  runs (createWorkload m cfg run step spec) tr (Ok (name, owner)) →
  name = "ls-" +:+ step +:+ "-" +:+ run_UID run.
Proof.
  unfold createWorkload. destruct (String.eqb _ _);
    intros (t1 & got & t2 & -> & Hc & [-> Hr]%runs_ret)%runs_bind;
    (destruct got as [[n uid]|]; [|done]); injection Hr as -> _.
  - unfold createSandboxClaim, createClaim, onErr in Hc. repeat runs_step; repeat case_match; simplify_eq/=; done.
  - unfold createBarePod, recreatePod, existingPod in Hc. repeat runs_step; repeat case_match; simplify_eq/=; done.
Qed.

Lemma grantExecution_run run step spoke agentCtx tr run' e :
  runs (grantExecution m run step spoke agentCtx) tr (run', e) →
  keepsIdentity tr → sameIdentity run run'.
Proof.
  unfold grantExecution. destruct (grantedRules step agentCtx) as [rbac|];
    [|by intros [_ [= -> ->]]%runs_ret].
  destruct (match spoke with Some s => _ | None => _ end) as [[c ns] extra].
  intros (t1 & [run1 e1] & t2 & -> & Hr & H)%runs_bind [_ Hk]%keepsIdentity_app.
  pose proof (ensureExecutionRBAC_run' _ _ _ _ _ _ _ _ Hr) as Hrun.
  assert (Hs : sameIdentity run run1) by (rewrite Hrun; destruct (_ <? _)%nat; by split).
  clear Hr Hrun. destruct e1 as [err|]; [by apply runs_ret in H as [_ [= -> _]]|].
  unfold onErr in H. run_call H patched. apply runs_ret in H as [-> H].
  destruct patched as [r|err]; injection H as -> _; [|done].
  destruct (Hk run run1 r) as [Hu Ht]; [left|]. destruct Hs. split; congruence.
Qed.

(** The parts of [setupSandbox] before the workload. *)
Ltac prework_walk :=
  repeat (first
    [ solve [apply access_prework; eauto with access]
    | apply emits_onErr; intros
    | emits_walk ltac:(split; [reflexivity|by repeat split]) ]).

Lemma ensureAccess_prework run step spoke :
  emits (prework run step spoke) (ensureAccess m run step spoke).
Proof.
  unfold ensureAccess, ensureSA, accountWith, createAccount, ensureSandboxKubeconfig.
  destruct spoke as [s|]; prework_walk.
Qed.

Lemma grantExecution_prework run step spoke agentCtx :
  emits (prework run step spoke) (grantExecution m run step spoke agentCtx).
Proof.
  unfold grantExecution. destruct (grantedRules step agentCtx) as [rbac|]; [|apply emits_ret].
  destruct (match spoke with Some s => _ | None => _ end) as [[c ns] extra]. prework_walk.
Qed.

Lemma buildWorkload_prework cfg run step agent llm tools deadline agentCtx spoke :
  emits (prework run step spoke)
    (buildWorkload m cfg run step agent llm tools deadline agentCtx spoke).
Proof.
  unfold buildWorkload. destruct (buildInputConfigMap _ _ _ _ _ _) as [cm|] eqn:Hcm;
    [|apply emits_ret].
  apply buildInputConfigMap_key in Hcm. unfold createInputConfigMap, spanEvent. prework_walk.
Qed.

Lemma adoptDependents_prework run step sa spoke owner :
  emits (prework run step spoke) (adoptDependents m run step sa spoke owner).
Proof. unfold adoptDependents, setInputConfigMapOwner, setResultRBACOwner, setSAOwner. prework_walk. Qed.

(** What [setupSandbox] did before it returned: everything but the workload, and
    then perhaps the workload, for a run of the same identity. *)
Lemma setupSandbox_run cfg run step agent llm tools deadline agentCtx spoke tr out :
  runs (setupSandbox m cfg run step agent llm tools deadline agentCtx spoke) tr out →
  keepsIdentity tr →
  ∃ run' before rest, tr = before ++ rest ∧ sameIdentity run run' ∧ cr_Run out = run' ∧
    Forall (prework run step spoke) before ∧
    ((rest = [] ∧ cr_Cleanup out = true ∧ cr_Name out = "" ∧ is_Some (cr_Err out)) ∨
     ∃ podSpec made work after, rest = work ++ after ∧
       runs (createWorkload m cfg run' step podSpec) work made ∧
       match made with
       | Err err => after = [] ∧ out = MkCreated "" (Some err) true run'
       | Ok (name, owner) => ∃ e,
           out = MkCreated name e false run' ∧
           runs (spanEvent "sandbox.pod.created" ;;;
                 adoptDependents m run' step (sandboxSAName run step) spoke owner) after e
       end).
Proof.
  unfold setupSandbox. intros (t1 & e1 & t2 & -> & H1%ensureAccess_prework & H)%runs_bind Hk.
  destruct e1 as [err|]; unfold onErr at 1 in H.
  { apply runs_ret in H as [-> ->]. exists run, t1, []. split; [done|]. split; [done|].
    split; [done|]. split; [done|]. left. repeat split; eauto. }
  unfold spanEvent at 1 in H. run_call H u.
  apply runs_bind in H as (t3 & [run' e2] & t4 & -> & H2 & H).
  apply keepsIdentity_app in Hk as [_ Hk]. apply (keepsIdentity_app [_]) in Hk as [_ Hk].
  apply keepsIdentity_app in Hk as [Hk3 _].
  pose proof (grantExecution_run _ _ _ _ _ _ _ H2 Hk3) as Hid.
  apply grantExecution_prework in H2.
  assert (Hb : Forall (prework run step spoke) (t1 ++ Ev (Audit (SpanEvent "sandbox.sa.created")) u :: t3)).
  { apply Forall_app. split; [done|]. constructor; [done|exact H2]. }
  destruct e2 as [err|]; unfold onErr at 1 in H.
  { apply runs_ret in H as [-> ->]. rewrite app_nil_r.
    eexists run', (t1 ++ _ :: t3), []. rewrite app_nil_r. split; [done|]. split; [done|]. split; [done|]. split; [exact Hb|].
    left. repeat split; eauto. }
  apply runs_bind in H as (t5 & built & t6 & -> & H3 & H).
  apply buildWorkload_prework in H3.
  assert (Hb' : Forall (prework run step spoke)
            ((t1 ++ Ev (Audit (SpanEvent "sandbox.sa.created")) u :: t3) ++ t5)).
  { apply Forall_app. split; [exact Hb|]. eapply Forall_impl; [exact H3|].
    destruct Hid as [Hu _]. intros ev. unfold prework, namedDependent, accountHome, sandboxSAName.
    by rewrite Hu. }
  exists run', ((t1 ++ Ev (Audit (SpanEvent "sandbox.sa.created")) u :: t3) ++ t5), t6.
  split; [by rewrite <- !app_assoc|]. split; [done|].
  destruct built as [podSpec|err].
  - apply runs_bind in H as (t7 & made & t8 & -> & H4 & H). destruct made as [[name owner]|err].
    + apply runs_bind in H as (t9 & u2 & t10 & -> & H5 & H).
      apply runs_bind in H as (t11 & e & t12 & -> & H6 & [-> ->]%runs_ret).
      split; [done|]. split; [exact Hb'|]. right. eexists podSpec, (Ok (name, owner)), t7, _.
      split; [done|]. split; [exact H4|]. exists e. split; [done|].
      rewrite app_nil_r. apply runs_bind. eauto 6.
    + apply runs_ret in H as [-> ->]. split; [done|]. split; [exact Hb'|]. right.
      exists podSpec, (Err err), t7, []. repeat split; eauto.
  - apply runs_ret in H as [-> ->]. split; [done|]. split; [exact Hb'|]. left.
    repeat split; eauto.
Qed.

(** A spoke that is not resolved is not there; one that is has a client of its own. *)
Definition resolvedSpoke (run : AgenticRun) (spoke : option SpokeAccess) : Prop :=
  match spoke with
  | None => spec_TargetCluster (run_Spec run) = ""
  | Some s => sa_Client s ≠ HubClient
  end.

Lemma spokeAccessForRun_resolved run ns tr spoke :
  runs (spokeAccessForRun run ns) tr (spoke, None) → resolvedSpoke run spoke.
Proof.
  unfold spokeAccessForRun. destruct (String.eqb_spec (spec_TargetCluster (run_Spec run)) "").
  - intros [_ [= ->]]%runs_ret. done.
  - intros H. repeat runs_step; simplify_eq; done.
Qed.

(** Any call about a cluster object. *)
Definition touchesObject (ev : event answer) : bool :=
  match ev with
  | Ev (ObjCreate _ _ _) _ | Ev (ObjDelete _ _ _ _) _ => true
  | _ => false
  end.
Abbreviation readsOnly := (Forall (λ ev, touchesObject ev = false)).

Lemma auditIf_reads enabled c : emits (λ ev, touchesObject ev = false) (auditIf enabled c).
Proof. unfold auditIf. emits_walk done. Qed.

Lemma requireRunnableRun_reads run :
  emits (λ ev, touchesObject ev = false) (requireRunnableRun m run).
Proof. unfold requireRunnableRun, readRunnableRun. emits_walk done. Qed.

Lemma beginAudit_reads run step : emits (λ ev, touchesObject ev = false) (beginAudit m run step).
Proof. unfold beginAudit. emits_walk done. Qed.

Lemma spokeAccessForRun_reads run ns :
  emits (λ ev, touchesObject ev = false) (spokeAccessForRun run ns).
Proof. unfold spokeAccessForRun. emits_walk done. Qed.

(** The shape of a run of [Create]: reads, the setup, and its cleanup if it failed. *)
Lemma Create_run run step agent llm tools deadline agentCtx tr name e :
  runs (Create m run step agent llm tools deadline agentCtx) tr (name, e) →
  (name = "" ∧ is_Some e ∧ readsOnly tr) ∨
  ∃ cfg current pre spoke setup out clean rest,
    tr = pre ++ setup ++ clean ++ rest ∧ run_UID current = run_UID run ∧
    readsOnly pre ∧ readsOnly rest ∧
    resolvedSpoke current spoke ∧
    runs (setupSandbox m cfg current step agent llm tools deadline agentCtx spoke) setup out ∧
    name = cr_Name out ∧ e = cr_Err out ∧
    if cr_Cleanup out
    then runs (call (ContextWithTimeout cleanupTimeout) ;;;
               cleanupOnCreateFailure m (cr_Run out) step (sandboxSAName current step) spoke)
           clean tt
    else clean = [].
Proof.
  unfold Create. intros H. run_call H cfg. destruct cfg as [cfg|]; cycle 1.
  { apply runs_ret in H as [-> [= -> ->]]. left. repeat constructor; eauto. }
  apply runs_bind in H as (t1 & guard & t2 & -> & Hg & H).
  pose proof (requireRunnableRun_reads _ _ _ Hg) as Ht1. destruct guard as [current|err]; cycle 1.
  { apply runs_ret in H as [-> [= -> ->]]. left. rewrite app_nil_r. repeat constructor; eauto. }
  apply requireRunnableRun_ok in Hg as (? & _ & Hu & _).
  apply runs_bind in H as (t3 & u & t4 & -> & Hb & H).
  apply beginAudit_reads in Hb.
  apply runs_bind in H as (t5 & [spoke spokeErr] & t6 & -> & Hs & H).
  pose proof (spokeAccessForRun_reads _ _ _ _ Hs) as Ht5.
  assert (Hpre : readsOnly (Ev ConfigGet (Some cfg) :: t1 ++ t3 ++ t5)).
  { constructor; [done|]. by rewrite !Forall_app. }
  apply runs_bind in H as (t7 & out & t8 & -> & Ho & H).
  apply runs_bind in H as (t9 & u2 & t10 & -> & Hc & H).
  apply runs_bind in H as (t11 & u3 & t12 & -> & Ha & [-> [= -> ->]]%runs_ret).
  apply auditIf_reads in Ha. rewrite app_nil_r. destruct spokeErr as [err|].
  - apply runs_ret in Ho as [-> ->]. apply runs_ret in Hc as [-> _]. left. cbn.
    split; [done|]. split; [eauto|]. inversion Hpre; subst. constructor; [done|].
    rewrite !Forall_app in *. tauto.
  - right. exists cfg, current, (Ev ConfigGet (Some cfg) :: t1 ++ t3 ++ t5), spoke, t7, out, t9, t11.
    split; [by cbn; rewrite <- !app_assoc|]. split; [done|]. split; [done|]. split; [done|].
    split; [by eapply spokeAccessForRun_resolved|]. split; [done|]. split; [done|].
    split; [done|]. destruct u2, (cr_Cleanup out); [done|]. by apply runs_ret in Hc as [-> _].
Qed.

Lemma reads_noWork tr : readsOnly tr → Forall (λ ev, startsWork ev = false) tr.
Proof. intros H. eapply Forall_impl; [exact H|]. intros [e a]. destruct e; try done. Qed.

Lemma prework_noWork run step spoke tr :
  Forall (prework run step spoke) tr → Forall (λ ev, startsWork ev = false) tr.
Proof. intros H. eapply Forall_impl; [exact H|]. by intros ? [? _]. Qed.

Lemma cleanupOnCreateFailure_access run step sa spoke :
  emits (λ ev, accessCall ev = true) (cleanupOnCreateFailure m run step sa spoke).
Proof.
  unfold cleanupOnCreateFailure. repeat (first [solve [eauto with access] | emits_walk done]).
Qed.

Lemma Create_preceded run step agent llm tools deadline agentCtx tr name e :
  runs (Create m run step agent llm tools deadline agentCtx) tr (name, e) →
  keepsIdentity tr → preceded startsWork (justGuarded (run_UID run)) tr.
Proof.
  intros H Hk.
  assert (Hno : ∀ t, Forall (λ ev, startsWork ev = false) t →
                preceded startsWork (justGuarded (run_UID run)) t)
    by (intros t; apply preceded_none).
  assert (Happ : ∀ t1 t2, preceded startsWork (justGuarded (run_UID run)) t1 →
                 preceded startsWork (justGuarded (run_UID run)) t2 →
                 preceded startsWork (justGuarded (run_UID run)) (t1 ++ t2))
    by (intros t1 t2; apply preceded_app, justGuarded_mono).
  apply Create_run in H as [(_ & _ & Hr)|(cfg & current & pre & spoke & setup & out & clean & rest &
    -> & Hu & Hpre & Hrest & Hsp & Hs & _ & _ & Hc)]; [by apply Hno, reads_noWork|].
  apply keepsIdentity_app in Hk as [_ Hk]. apply keepsIdentity_app in Hk as [Hk _].
  apply Happ; [by apply Hno, reads_noWork|]. apply Happ.
  - apply setupSandbox_run in Hs as (run' & b & r & -> & [Hu' _] & _ & Hb & Hcase); [|done].
    apply Happ; [by eapply Hno, prework_noWork|].
    destruct Hcase as [(-> & _)|(spec & made & work & aft & -> & Hw & Hm)]; [by apply Hno|].
    apply createWorkload_guarded in Hw. rewrite Hu', Hu in Hw. apply Happ; [done|].
    destruct made as [[n owner]|err]; [|destruct Hm as [-> _]; by apply Hno].
    destruct Hm as (e' & _ & Ha). unfold spanEvent in Ha. run_call Ha u.
    apply (adoptDependents_prework _ _ _ spoke), prework_noWork in Ha.
    apply Hno. by constructor.
  - apply Hno, Forall_app. split; [|by apply reads_noWork].
    destruct (cr_Cleanup out); [|by subst]. run_call Hc u. constructor; [done|].
    by eapply access_noWork; [apply cleanupOnCreateFailure_access|].
Qed.

(** ** Failed creations *)

(** The call creates an object; of a sandbox kind, or of any. *)
Definition creates (ev : event answer) : bool :=
  match ev with Ev (ObjCreate _ _ _) _ => true | _ => false end.
Definition sandboxKind (k : Kind) : bool :=
  bool_decide (k ∈ [KPod; KSandboxTemplate; KSandboxWarmPool; KSandboxClaim]).
Definition createsSandbox (ev : event answer) : bool :=
  match ev with Ev (ObjCreate _ k _) _ => sandboxKind k | _ => true end.

Lemma cleanupStepRBAC_creates spoke ns run step :
  emits (λ ev, creates ev = false) (cleanupStepRBAC spoke ns run step).
Proof.
  unfold cleanupStepRBAC, removeReaderSubjectOnSpoke, removeReaderSubject, cleanupExecutionRBAC,
    cleanupNamespaceRBAC, deleteReader, deleteIfExists.
  repeat (first [apply emits_untilError; intros | apply emits_onErr; intros | emits_walk done]).
Qed.

Lemma cleanupOnCreateFailure_creates run step sa spoke :
  emits (λ ev, creates ev = false) (cleanupOnCreateFailure m run step sa spoke).
Proof.
  unfold cleanupOnCreateFailure, deleteIfExists.
  repeat (first [apply cleanupStepRBAC_creates | emits_walk done]).
Qed.

Lemma createWorkload_kinds cfg run step spec :
  emits (λ ev, createsSandbox ev = true) (createWorkload m cfg run step spec).
Proof.
  assert (Hreq : emits (λ ev, createsSandbox ev = true) (requireRunnableRun m run))
    by (unfold requireRunnableRun, readRunnableRun; emits_walk done).
  assert (Hwait : ∀ n key t d, emits (λ ev, createsSandbox ev = true) (waitTurns n key t d))
    by (induction n; intros; cbn [waitTurns]; emits_walk done).
  unfold createWorkload, createSandboxClaim, ensureClaimTemplate, createClaim, createIfMissing,
    createBarePod, recreatePod, existingPod, waitForPodDeletion.
  repeat (first [apply Hreq | apply Hwait | apply emits_onErr; intros | emits_walk done]).
Qed.

(** The trace asks to delete the object of a key. *)
Definition askedToDelete (c : Client) (k : Kind) (key : NamespacedName) (tr : trace) : Prop :=
  ∃ ans, Ev (ObjDelete c k key plainDelete) ans ∈ tr.

Lemma askedToDelete_mono c k key tr tr' :
  tr ⊆ tr' → askedToDelete c k key tr → askedToDelete c k key tr'.
Proof. intros Hs [ans Hin]. exists ans. by apply Hs. Qed.

Lemma deleteIfExists_asked c k key tr e : runs (deleteIfExists c k key) tr e → askedToDelete c k key tr.
Proof. intros (ans & -> & _)%deleteIfExists_run. exists ans. left. Qed.

Lemma cleanupStepRBAC_account spoke run step tr e :
  runs (cleanupStepRBAC spoke (sm_Namespace m) run step) tr e →
  (spoke = None → spec_TargetCluster (run_Spec run) = "") →
  askedToDelete (fst (accountHome run step spoke)) KServiceAccount
    (snd (accountHome run step spoke)) tr.
Proof.
  unfold cleanupStepRBAC. intros H Hsp. destruct (_ && _) eqn:Hg.
  { bool_hyps. subst. by rewrite (Hsp eq_refl) in *. }
  destruct spoke as [s|];
    apply runs_bind in H as (t1 & e1 & t2 & -> & _ & H);
    apply runs_bind in H as (t3 & e2 & t4 & -> & _ & H);
    apply runs_bind in H as (t5 & e3 & t6 & -> & H%deleteIfExists_asked & _);
    (eapply askedToDelete_mono; [|exact H]); set_solver.
Qed.

(** The objects a failed creation deletes whatever happens on the way. *)
Lemma cleanupOnCreateFailure_deletes run step sa spoke tr u :
  runs (cleanupOnCreateFailure m run step sa spoke) tr u → sa ≠ "" →
  (spoke = None → spec_TargetCluster (run_Spec run) = "") →
  askedToDelete HubClient KConfigMap (hubKey m (inputConfigMapName step (run_UID run))) tr ∧
  askedToDelete HubClient KRole (hubKey m (resultRoleName (run_UID run) step)) tr ∧
  askedToDelete HubClient KRoleBinding (hubKey m (resultRoleName (run_UID run) step)) tr ∧
  askedToDelete (fst (accountHome run step spoke)) KServiceAccount
    (snd (accountHome run step spoke)) tr.
Proof.
  unfold cleanupOnCreateFailure. intros H Hsa Hsp.
  apply runs_bind in H as (t1 & ? & t2 & -> & (? & ? & ? & -> & H1%deleteIfExists_asked & _)%runs_bind & H).
  apply runs_bind in H as (t3 & ? & t4 & -> & (? & ? & ? & -> & H2%deleteIfExists_asked & _)%runs_bind & H).
  apply runs_bind in H as (t5 & ? & t6 & -> & (? & ? & ? & -> & H3%deleteIfExists_asked & _)%runs_bind & H).
  apply runs_bind in H as (t7 & ? & t8 & -> & _ & H).
  replace (negb (String.eqb sa "")) with true in H
    by (symmetry; apply negb_true_iff, String.eqb_neq; done).
  apply runs_bind in H as (t9 & ? & t10 & -> & H4 & _).
  apply cleanupStepRBAC_account in H4; [|done].
  split_and!; (eapply askedToDelete_mono; [|eassumption]); set_solver.
Qed.

Lemma accountHome_same run run' step spoke :
  run_UID run' = run_UID run → accountHome run' step spoke = accountHome run step spoke.
Proof. intros Hu. unfold accountHome, sandboxSAName. by rewrite Hu. Qed.

(** The calls of the setup up to a workload that did not come to be. *)
Lemma setupSandbox_failed cfg run step agent llm tools deadline agentCtx spoke tr out :
  runs (setupSandbox m cfg run step agent llm tools deadline agentCtx spoke) tr out →
  keepsIdentity tr → cr_Name out = "" →
  cr_Cleanup out = true ∧ sameIdentity run (cr_Run out) ∧
  Forall (λ ev, prework run step spoke ev ∨ createsSandbox ev = true) tr.
Proof.
  intros H Hk Hn. apply setupSandbox_run in H as (run' & b & r & -> & Hid & <- & Hb & Hcase); [|done].
  assert (Hb' : Forall (λ ev, prework run step spoke ev ∨ createsSandbox ev = true) b)
    by (eapply Forall_impl; [exact Hb|]; auto).
  destruct Hcase as [(-> & Hc & _)|(spec & made & work & aft & -> & Hw & Hm)].
  - by rewrite app_nil_r.
  - destruct made as [[n owner]|err].
    + destruct Hm as (e' & Ho & _). apply createWorkload_name in Hw.
      rewrite Ho in Hn. cbn in Hn. rewrite Hn in Hw. done.
    + destruct Hm as [-> Ho]. apply (f_equal cr_Cleanup) in Ho. rewrite app_nil_r. split; [done|]. split; [done|].
      apply Forall_app. split; [done|]. apply createWorkload_kinds in Hw.
      eapply Forall_impl; [exact Hw|]. auto.
Qed.

(** The objects a failed creation must delete. *)
Definition isDependent (run : AgenticRun) (step : string) (c : Client) (k : Kind)
    (key : NamespacedName) : Prop :=
  k = KConfigMap ∨ k = KServiceAccount ∨
  (c = HubClient ∧ k ∈ [KRole; KRoleBinding] ∧ key = hubKey m (resultRoleName (run_UID run) step)).

Lemma named_deleted run step spoke c k o ans tr :
  namedDependent run step spoke (Ev (ObjCreate c k o) ans) →
  isDependent run step c k (obj_Key o) →
  askedToDelete HubClient KConfigMap (hubKey m (inputConfigMapName step (run_UID run))) tr ∧
  askedToDelete HubClient KRole (hubKey m (resultRoleName (run_UID run) step)) tr ∧
  askedToDelete HubClient KRoleBinding (hubKey m (resultRoleName (run_UID run) step)) tr ∧
  askedToDelete (fst (accountHome run step spoke)) KServiceAccount
    (snd (accountHome run step spoke)) tr →
  askedToDelete c k (obj_Key o) tr.
Proof.
  intros Hn Hk (H1 & H2 & H3 & H4). destruct Hk as [->|[->|(-> & Hk & ->)]].
  - by destruct Hn as [-> ->].
  - cbn in Hn. destruct (accountHome run step spoke) as [c' key]. by injection Hn as -> ->.
  - rewrite !elem_of_cons, elem_of_nil in Hk. by destruct Hk as [->|[->|[]]].
Qed.

Lemma sandbox_not_dependent run step c k key :
  sandboxKind k = true → ¬ isDependent run step c k key.
Proof.
  intros Hs [->|[->|(_ & Hk & _)]]; [done..|].
  rewrite !elem_of_cons, elem_of_nil in Hk. by destruct Hk as [->|[->|[]]].
Qed.

(** C20: a failed creation leaves nothing: when [Create] returns an error and no name,
    whatever failed, every configuration map and every account it tried to create
    (on the hub or on the spoke), and the role and the binding to write the result,
    are asked to be deleted after their creation. *)
Theorem Create_failure_cleans_up run step agent llm tools deadline agentCtx tr e :
  runs (Create m run step agent llm tools deadline agentCtx) tr ("", Some e) →
  keepsIdentity tr →
  ∀ before c k o ans after, tr = before ++ Ev (ObjCreate c k o) ans :: after →
  isDependent run step c k (obj_Key o) → askedToDelete c k (obj_Key o) after.
Proof.
  intros H Hk before c k o ans after Heq Hkind.
  apply Create_run in H as [(_ & _ & Hr)|(cfg & current & pre & spoke & setup & out & clean & rest &
    Htr & Hu & Hpre & Hrest & Hsp & Hs & Hn & _ & Hc)].
  { exfalso. subst. rewrite Forall_app, List.Forall_cons_iff in Hr. by destruct Hr as (_ & Hr & _). }
  rewrite Htr in Hk. apply keepsIdentity_app in Hk as [_ [Hk _]%keepsIdentity_app].
  apply setupSandbox_failed in Hs as (Hcl & [Hu' Ht'] & Hall); [|done|done].
  rewrite Heq, app_assoc in Htr. symmetry in Htr. rewrite Hcl in Hc. run_call Hc x.
  edestruct (cut_before creates) as [Hin Hsub]; [exact Htr| |done|].
  { constructor; [done|]. apply Forall_app. split; [by eapply cleanupOnCreateFailure_creates|].
    eapply Forall_impl; [exact Hrest|]. by intros [e0 a0]; destruct e0. }
  apply cleanupOnCreateFailure_deletes in Hc as Hd; [|done|by rewrite Ht'; intros ->].
  rewrite (accountHome_same current), Hu', Hu in Hd by done.
  apply elem_of_app in Hin as [Hin|Hin]; rewrite Forall_forall in *; [by apply Hpre in Hin|].
  eapply askedToDelete_mono; [exact Hsub|].
  apply Hall in Hin as [[_ Hnm]|Hsb]; [|by eapply sandbox_not_dependent in Hkind].
  eapply askedToDelete_mono with tr0; [set_solver|].
  unfold isDependent in Hkind. rewrite <- Hu in *. by eapply named_deleted.
Qed.

(** C9: no agent starts behind a stop: whatever the API server answers, each
    creation of a pod or a claim by [Create] comes directly after an uncached read
    of the run, of the UID asked for and without an accepted stop, and a read of
    the global configuration, which does not suspend; also the second creation,
    after waiting for a terminating pod. *)
Theorem Create_guarded run step agent llm tools deadline agentCtx tr name e :
  runs (Create m run step agent llm tools deadline agentCtx) tr (name, e) →
  keepsIdentity tr →
  ∀ before ev after, tr = before ++ ev :: after → startsWork ev = true →
  justGuarded (run_UID run) before ev.
Proof. intros H Hk. by eapply Create_preceded. Qed.
End CreateFacts.

(** ** A workload that started is kept *)

(** The server accepted the creation of a pod or a claim. *)
Definition started (ev : event answer) : bool :=
  match ev with
  | Ev (ObjCreate _ KPod _) (Ok _) | Ev (ObjCreate _ KSandboxClaim _) (Ok _) => true
  | _ => false
  end.

Lemma started_starts ev : startsWork ev = false → started ev = false.
Proof. destruct ev as [e a]. destruct e; try done. destruct k; try done. Qed.

Section KeepsWork.
Context `{K : ApiMachinery} `{CC : ClientCmd} `{RJ : RawJSON} `{RE : Rendering} `{SL : SandboxLibs}.
Context (m : SandboxManager).
Abbreviation notStarted := (Forall (λ ev, started ev = false)).

(** Nothing started, or the last call did and its name is the result. *)
Definition endsWithWork (name : string) (tr : trace) (r : res (string * string)) : Prop :=
  notStarted tr ∨
  ∃ before k o o' uid, tr = before ++ [Ev (ObjCreate HubClient k o) (Ok o')] ∧
    notStarted before ∧ obj_Name o = name ∧ r = Ok (name, uid).

Lemma endsWithWork_bind {A} name (p : M A) f :
  emits (λ ev, startsWork ev = false) p →
  (∀ a tr r, runs (f a) tr r → endsWithWork name tr r) →
  ∀ tr r, runs (bind p f) tr r → endsWithWork name tr r.
Proof.
  intros Hp Hf tr r (t1 & a & t2 & -> & H1%Hp & H2%Hf)%runs_bind.
  assert (H1' : notStarted t1) by (eapply Forall_impl; [exact H1|]; apply started_starts).
  destruct H2 as [H2|(b & k & o & o' & uid & -> & Hb & Hn & ->)]; [left; by apply Forall_app|].
  right. exists (t1 ++ b), k, o, o', uid. split; [by rewrite app_assoc|].
  split; [by apply Forall_app|done].
Qed.

Lemma endsWithWork_ret name (r : res (string * string)) tr x :
  runs (Ret r) tr x → endsWithWork name tr x.
Proof. intros [-> _]%runs_ret. left. constructor. Qed.

Lemma endsWithWork_create k (o : Object k) f :
  (∀ e tr r, runs (f (Err e)) tr r → endsWithWork (obj_Name o) tr r) →
  (∀ o', ∃ uid, f (Ok o') = Ret (Ok (obj_Name o, uid))) →
  ∀ tr r, runs (a <- call (ObjCreate HubClient k o) ;; f a) tr r →
  endsWithWork (obj_Name o) tr r.
Proof.
  intros He Ho tr r H. run_call H a. destruct a as [o'|err].
  - destruct (Ho o') as [uid Hf]. rewrite Hf in H. apply runs_ret in H as [-> ->]. right.
    exists [], k, o, o', uid. repeat split. constructor.
  - apply He in H. destruct H as [H|(b & k' & o1 & o' & uid & -> & Hb & Hn & ->)].
    + left. constructor; [by destruct k|done].
    + right. exists (Ev (ObjCreate HubClient k o) (Err err) :: b), k', o1, o', uid.
      split; [done|]. split; [constructor; [by destruct k|done]|done].
Qed.

Lemma createBarePod_ends run name step spec tr r :
  runs (createBarePod m run name step spec) tr r → endsWithWork name tr r.
Proof.
  unfold createBarePod, recreatePod. revert tr r.
  apply endsWithWork_bind; [apply requireRunnableRun_noWork|].
  intros [current|err]; [|intros ??; apply endsWithWork_ret].
  apply endsWithWork_create; [|intros o'; by eexists].
  intros err. destruct (negb _); [intros ??; apply endsWithWork_ret|].
  apply endsWithWork_bind; [unfold existingPod; emits_walk done|].
  intros [existing|]; [|intros ??; apply endsWithWork_ret].
  destruct (TimePtr_IsZero _); [intros ??; apply endsWithWork_ret|].
  apply endsWithWork_bind.
  { apply waitForPodDeletion_noWork. }
  intros [err'|]; [intros ??; apply endsWithWork_ret|].
  apply endsWithWork_bind; [apply requireRunnableRun_noWork|].
  intros [c2|err']; [|intros ??; apply endsWithWork_ret].
  apply endsWithWork_create; [|intros o'; by eexists].
  intros err'. destruct (IsAlreadyExists err'); [|intros ??; apply endsWithWork_ret].
  apply endsWithWork_bind; [unfold existingPod; emits_walk done|].
  intros got ??. apply endsWithWork_ret.
Qed.

Lemma createSandboxClaim_ends run name step spec tr r :
  runs (createSandboxClaim m run name step spec) tr r → endsWithWork name tr r.
Proof.
  unfold createSandboxClaim, createClaim. destruct (podSpecToUnstructured spec);
    [|apply endsWithWork_ret].
  revert tr r. apply endsWithWork_bind.
  { unfold ensureClaimTemplate, createIfMissing.
    repeat (first [apply emits_onErr; intros | emits_walk done]). }
  intros [err|]; [intros ??; apply endsWithWork_ret|].
  apply endsWithWork_bind; [apply requireRunnableRun_noWork|].
  intros [current|err]; [|intros ??; apply endsWithWork_ret].
  apply endsWithWork_create; [|intros o'; by eexists].
  intros err. destruct (IsAlreadyExists err); [|intros ??; apply endsWithWork_ret].
  apply endsWithWork_bind; [emits_walk done|]. intros got ??. apply endsWithWork_ret.
Qed.

Lemma createWorkload_ends cfg run step spec tr r :
  runs (createWorkload m cfg run step spec) tr r →
  notStarted tr ∨
  ∃ before k o o' owner, tr = before ++ [Ev (ObjCreate HubClient k o) (Ok o')] ∧
    notStarted before ∧ r = Ok (obj_Name o, owner).
Proof.
  unfold createWorkload.
  destruct (String.eqb _ _); intros (t1 & got & t2 & -> & Hc & [-> ->]%runs_ret)%runs_bind;
    rewrite app_nil_r; [apply createSandboxClaim_ends in Hc|apply createBarePod_ends in Hc];
    (destruct Hc as [?|(b & k & o & o' & uid & -> & Hb & Hn & ->)]; [by left|]);
    right; exists b, k, o, o'; eexists; rewrite Hn; eauto.
Qed.

Lemma adoptDependents_reads run step sa spoke owner :
  emits (λ ev, touchesObject ev = false) (adoptDependents m run step sa spoke owner).
Proof.
  unfold adoptDependents, setInputConfigMapOwner, setResultRBACOwner, setSAOwner, patchOwners.
  repeat (first [apply emits_onErr; intros | emits_walk done]).
Qed.

(** The setup stops at the workload: only owner references are set after it. *)
Lemma setupSandbox_started cfg run step agent llm tools deadline agentCtx spoke tr out
    before k o o' after :
  runs (setupSandbox m cfg run step agent llm tools deadline agentCtx spoke) tr out →
  keepsIdentity tr → tr = before ++ Ev (ObjCreate HubClient k o) (Ok o') :: after →
  started (Ev (ObjCreate HubClient k o) (Ok o')) = true →
  cr_Cleanup out = false ∧ cr_Name out = obj_Name o ∧
  Forall (λ ev, touchesObject ev = false) after.
Proof.
  intros Hs Hk Heq Hst.
  assert (Hno : ∀ t, notStarted t → Ev (ObjCreate HubClient k o) (Ok o') ∉ t).
  { intros t Ht Hi. rewrite Forall_forall in Ht. apply Ht in Hi. congruence. }
  assert (Hin : Ev (ObjCreate HubClient k o) (Ok o') ∈ tr)
    by (subst; apply elem_of_app; right; left).
  apply setupSandbox_run in Hs as (run' & b & rest & -> & _ & _ & Hb & Hcase); [|done].
  assert (Hb' : notStarted b).
  { eapply Forall_impl; [exact Hb|]. intros ev [? _]. by apply started_starts. }
  destruct Hcase as [(-> & _)|(spec & made & work & aft & -> & Hw%createWorkload_ends & Hm)].
  { rewrite app_nil_r in Hin. by apply Hno in Hin. }
  assert (Haft : Forall (λ ev, touchesObject ev = false) aft).
  { destruct made as [[n owner]|err]; [|by destruct Hm as [-> _]].
    destruct Hm as (e' & _ & Ha). unfold spanEvent in Ha. run_call Ha u.
    constructor; [done|]. by eapply adoptDependents_reads. }
  assert (Haft' : notStarted aft).
  { eapply Forall_impl; [exact Haft|]. intros [[] a]; done. }
  destruct Hw as [Hw|(b' & k' & o1 & o2 & owner & -> & Hb2 & ->)].
  { rewrite !elem_of_app in Hin. destruct Hin as [Hi|[Hi|Hi]]; by apply Hno in Hi. }
  rewrite <- app_assoc, app_assoc in Heq.
  eapply (cut_unique started) in Heq as (_ & Hev & ->); [|by apply Forall_app|done|done].
  destruct Hm as (e' & -> & _). split; [done|]. split; [|done]. cbn. by simplify_eq.
Qed.

(** A sandbox that runs is not pulled from under the agent: once the server
    accepted the pod (or the claim), [Create] returns its name, also when setting
    owner references fails afterwards, and deletes nothing any more. *)
Theorem Create_keeps_workload run step agent llm tools deadline agentCtx tr name e :
  runs (Create m run step agent llm tools deadline agentCtx) tr (name, e) →
  keepsIdentity tr →
  ∀ before k o o' after, tr = before ++ Ev (ObjCreate HubClient k o) (Ok o') :: after →
  k = KPod ∨ k = KSandboxClaim →
  name = obj_Name o ∧ Forall (λ ev, touchesObject ev = false) after.
Proof.
  intros H Hk before k o o' after Heq Hkind.
  assert (Hst : started (Ev (ObjCreate HubClient k o) (Ok o')) = true)
    by (by destruct Hkind as [->| ->]).
  assert (Hno : ∀ t, Forall (λ ev, startsWork ev = false) t → notStarted t)
    by (intros t Ht; eapply Forall_impl; [exact Ht|]; apply started_starts).
  apply Create_run in H as [(_ & _ & Hr)|(cfg & current & pre & spoke & setup & out & clean & rest &
    Htr & Hu & Hpre & Hrest & Hsp & Hs & -> & _ & Hc)].
  { exfalso. subst. rewrite Forall_app, List.Forall_cons_iff in Hr. by destruct Hr as (_ & Hr & _). }
  rewrite Htr in Hk. apply keepsIdentity_app in Hk as [_ [Hk _]%keepsIdentity_app].
  assert (Hclean : Forall (λ ev, creates ev = false) clean).
  { destruct (cr_Cleanup out); [|by subst clean]. run_call Hc x.
    constructor; [done|]. by eapply cleanupOnCreateFailure_creates. }
  rewrite Heq in Htr. symmetry in Htr.
  apply (cut_middle creates) in Htr as (b & a & Hset & ->); [|..|done].
  - eapply setupSandbox_started in Hs as (Hcl & -> & Ha); [|done..]. split; [done|].
    rewrite Hcl in Hc. subst clean. by apply Forall_app.
  - eapply Forall_impl; [exact Hpre|]. by intros [[] x].
  - apply Forall_app. split; [done|]. eapply Forall_impl; [exact Hrest|]. by intros [[] x].
Qed.
End KeepsWork.

(** ** The status of the run is left to the caller *)
Section NoPatch.
Context `{K : ApiMachinery} `{CC : ClientCmd} `{RJ : RawJSON} `{RE : Rendering} `{SL : SandboxLibs}.
Context (m : SandboxManager).
Abbreviation noPatch := (emits (λ ev, isStatusPatch ev = false)).

Lemma access_noPatch {A} (p : M A) : emits (λ ev, accessCall ev = true) p → noPatch p.
Proof. apply emits_mono. intros [e a]. by destruct e. Qed.

Lemma requireRunnableRun_noPatch run : noPatch (requireRunnableRun m run).
Proof. unfold requireRunnableRun, readRunnableRun. emits_walk done. Qed.

Lemma waitTurns_noPatch n key timeout deadline : noPatch (waitTurns n key timeout deadline).
Proof. induction n; cbn [waitTurns]; emits_walk done. Qed.

Lemma createWorkload_noPatch cfg run step spec : noPatch (createWorkload m cfg run step spec).
Proof.
  unfold createWorkload, createSandboxClaim, ensureClaimTemplate, createClaim, createIfMissing,
    createBarePod, recreatePod, existingPod, waitForPodDeletion.
  repeat (first [apply requireRunnableRun_noPatch | apply waitTurns_noPatch
                | apply emits_onErr; intros | emits_walk done]).
Qed.

Lemma setupSandbox_noPatch cfg run step agent llm tools deadline agentCtx spoke :
  noPatch (setupSandbox m cfg run step agent llm tools deadline agentCtx spoke).
Proof.
  unfold setupSandbox, ensureAccess, ensureSA, accountWith, createAccount, ensureSandboxKubeconfig,
    grantExecution, buildWorkload, createInputConfigMap, adoptDependents, setInputConfigMapOwner,
    setResultRBACOwner, setSAOwner, spanEvent.
  repeat (first [ solve [apply access_noPatch; eauto with access]
                | apply createWorkload_noPatch | apply emits_onErr; intros | emits_walk done ]).
Qed.

Lemma Create_noPatch run step agent llm tools deadline agentCtx :
  noPatch (Create m run step agent llm tools deadline agentCtx).
Proof.
  unfold Create, beginAudit, auditIf.
  repeat (first [ apply requireRunnableRun_noPatch | apply setupSandbox_noPatch
                | solve [apply access_noPatch, spokeAccessForRun_access]
                | solve [apply access_noPatch, cleanupOnCreateFailure_access] | emits_walk done ]).
Qed.

(** A release changes nothing about runs and starts nothing. *)
Lemma Release_access run step spoke zeroGrace :
  emits (λ ev, accessCall ev = true) (Release m run step spoke zeroGrace).
Proof.
  unfold Release, auditIf, releaseBarePod, releaseSandboxClaimPod, releaseBackingPod,
    releaseSandboxClaim, deleteWith.
  repeat (first [ solve [eauto with access] | apply emits_onErr; intros | emits_walk done ]).
Qed.
End NoPatch.

(** ** Waiting ends *)

(** The readings of the clock keep up with the ticks: after the ticks so far it
    is at least [lower]. *)
Fixpoint ticking (lower : Time) (tr : trace) : Prop :=
  match tr with
  | [] => True
  | Ev Now t :: tr' => (lower ≤ t)%Z ∧ ticking lower tr'
  | Ev (Sleep d) None :: tr' => ticking (lower + d)%Z tr'
  | _ :: tr' => ticking lower tr'
  end.

Section Waiting.
Context `{K : ApiMachinery}.

Lemma waitTurns_ends n key timeout deadline lower tr r :
  runs (waitTurns n key timeout deadline) tr r → ticking lower tr →
  (0 < Z.of_nat n)%Z → (deadline < lower + 2 * Second * (Z.of_nat n - 1))%Z → r ≠ None.
Proof.
  revert lower tr. induction n as [|n IH]; intros lower tr H Ht Hn Hd; [lia|]. cbn [waitTurns] in H.
  run_call H got. destruct got as [pod|err]; [|by apply runs_ret in H as [_ ->]].
  run_call H now. destruct (Z.ltb_spec deadline now); [by apply runs_ret in H as [_ ->]|].
  run_call H slept. destruct slept as [e|]; [by apply runs_ret in H as [_ ->]|].
  cbn in Ht. destruct Ht as [Hl Ht]. unfold Second in *. eapply IH; [exact H|exact Ht|lia|lia].
Qed.

(** Waiting for a terminating pod ends on its own: as long as the ticker does
    not run ahead of the clock, [waitForPodDeletion] ends within one turn per two
    seconds of its timeout and one more, because the pod is gone, a call fails,
    the context ends, or the deadline has passed; it never runs out of turns. *)
Theorem waitTurns_enough m key tr now r :
  runs (waitTurns (turnsFor (effectiveDeletionTimeout m)) key (effectiveDeletionTimeout m)
          (Time_Add now (effectiveDeletionTimeout m))) tr r →
  ticking now tr → r ≠ None.
Proof.
  intros H Ht. eapply waitTurns_ends; [exact H|exact Ht| |].
  - unfold turnsFor. lia.
  - unfold turnsFor, Time_Add, Second. generalize (effectiveDeletionTimeout m). intros d.
    pose proof (Z.div_mod d (2 * 1000000000) ltac:(lia)).
    pose proof (Z.mod_pos_bound d (2 * 1000000000) ltac:(lia)). lia.
Qed.
End Waiting.

(** ** Release *)
Section ReleaseFacts.
Context `{K : ApiMachinery} `{CC : ClientCmd} `{SL : SandboxLibs}.
Context (m : SandboxManager).

(** The call deletes a pod. *)
Definition deletesPod (ev : event answer) : bool :=
  match ev with Ev (ObjDelete _ KPod _ _) _ => true | _ => false end.

Lemma cleanupStepRBAC_keeps_pods spoke ns run step :
  emits (λ ev, deletesPod ev = false) (cleanupStepRBAC spoke ns run step).
Proof.
  unfold cleanupStepRBAC, removeReaderSubjectOnSpoke, removeReaderSubject, cleanupExecutionRBAC,
    cleanupNamespaceRBAC, deleteReader, deleteIfExists.
  repeat (first [apply emits_untilError; intros | apply emits_onErr; intros | emits_walk done]).
Qed.

(** The pod behind a claim, through the sandbox bound to it. *)
Definition ownedPod (claimName : string) (pod : Object KPod) (tr : trace) : Prop :=
  ∃ claim sandboxName sandbox,
    Ev (ObjGet HubClient KSandboxClaim (hubKey m claimName)) (Ok claim) ∈ tr ∧
    claim_StatusSandboxName (obj_Content (k := KSandboxClaim) claim) = Ok (Some sandboxName) ∧
    Ev (ObjGet HubClient KSandbox (hubKey m sandboxName)) (Ok sandbox) ∈ tr ∧
    Ev (ObjGet HubClient KPod (hubKey m (backingPodName sandbox))) (Ok pod) ∈ tr ∧
    IsControlledBy (obj_Meta sandbox) (obj_Meta claim) = true ∧
    IsControlledBy (obj_Meta pod) (obj_Meta sandbox) = true.

Lemma ownedPod_mono claimName pod tr tr' :
  tr ⊆ tr' → ownedPod claimName pod tr → ownedPod claimName pod tr'.
Proof.
  intros Hs (claim & name & sandbox & H1 & H2 & H3 & H4 & H5). exists claim, name, sandbox.
  repeat split; try tauto; by apply Hs.
Qed.

Lemma releaseSandboxClaimPod_owned claimName tr e c key opts ans :
  runs (releaseSandboxClaimPod m claimName) tr e →
  Ev (ObjDelete c KPod key opts) ans ∈ tr →
  opts = zeroGraceDelete ∧ ∃ pod, key = obj_Key pod ∧ ownedPod claimName pod tr.
Proof.
  unfold releaseSandboxClaimPod. intros H Hin. run_call H got.
  destruct got as [claim|err]; [|runs_step; by apply list_elem_of_singleton in Hin].
  destruct (claim_StatusSandboxName _) as [[sandboxName|]|err] eqn:Hn;
    [|runs_step; by apply list_elem_of_singleton in Hin..].
  destruct (String.eqb sandboxName ""); [runs_step; by apply list_elem_of_singleton in Hin|].
  run_call H got. destruct got as [sandbox|err];
    [|runs_step; by rewrite !elem_of_cons, elem_of_nil in Hin; destruct Hin as [?|[?|[]]]].
  destruct (IsControlledBy (obj_Meta sandbox) (obj_Meta claim)) eqn:Hc; cbn [negb] in H;
    [|runs_step; by rewrite !elem_of_cons, elem_of_nil in Hin; destruct Hin as [?|[?|[]]]].
  unfold releaseBackingPod in H. run_call H got. destruct got as [pod|err];
    [|runs_step; by rewrite !elem_of_cons, elem_of_nil in Hin; destruct Hin as [?|[?|[?|[]]]]].
  destruct (IsControlledBy (obj_Meta pod) (obj_Meta sandbox)) eqn:Hp; cbn [negb] in H;
    [|runs_step; by rewrite !elem_of_cons, elem_of_nil in Hin; destruct Hin as [?|[?|[?|[]]]]].
  unfold deleteWith in H. run_call H got. runs_step.
  rewrite !elem_of_cons, elem_of_nil in Hin. destruct Hin as [?|[?|[?|[He|[]]]]]; try done.
  injection He as -> -> ->. split; [done|]. exists pod. split; [done|].
  exists claim, sandboxName, sandbox. repeat split; auto.
  - left.
  - right. left.
  - do 2 right. left.
Qed.

(** What comes after the pods in a release of a claim. *)
Lemma releaseRest_keeps_pods run step spoke firstErr :
  emits (λ ev, deletesPod ev = false)
    (e3 <- releaseSandboxClaim m (sandboxClaimName run step) ;;
     e4 <- cleanupStepRBAC spoke (sm_Namespace m) run step ;;
     e5 <- (if negb (String.eqb (spec_TargetCluster (run_Spec run)) "")
            then deleteIfExists HubClient KSecret
                   (hubKey m (sandboxKubeconfigSecretName (run_UID run) step))
            else Ret None) ;;
     Ret (keepFirst (keepFirst (keepFirst firstErr e3) e4) e5)).
Proof.
  unfold releaseSandboxClaim, deleteWith, deleteIfExists.
  repeat (first [apply cleanupStepRBAC_keeps_pods | apply emits_onErr; intros | emits_walk done]).
Qed.

(** An urgent release kills no stranger's pod: when the operator creates claims
    and releases without a grace period, every pod [Release] deletes is one it
    just read whose controller is a Sandbox whose controller is the run's claim; a
    pod that only has the name of the claim is left alone. *)
Theorem Release_zero_grace_owned run step spoke tr e :
  runs (Release m run step spoke true) tr e →
  (∀ cfg, Ev ConfigGet cfg ∈ tr → ∃ c, cfg = Some c ∧ cfg_SandboxMode c = sandboxModeSandboxClaim) →
  ∀ c key opts ans, Ev (ObjDelete c KPod key opts) ans ∈ tr →
  opts = zeroGraceDelete ∧ ∃ pod, key = obj_Key pod ∧ ownedPod (sandboxClaimName run step) pod tr.
Proof.
  unfold Release. intros (t1 & u & t2 & -> & Ha & H)%runs_bind Hcfg c key opts ans Hin.
  assert (Hq : Ev (ObjDelete c KPod key opts) ans ∉ t1).
  { unfold auditIf in Ha. intros Hi. destruct (sm_Audit m); [|by apply runs_ret in Ha as [-> _];
      apply elem_of_nil in Hi].
    run_last Ha. by apply list_elem_of_singleton in Hi. }
  apply elem_of_app in Hin as [Hin|Hin]; [done|].
  destruct (String.eqb _ ""); [apply runs_ret in H as [-> _]; by apply elem_of_nil in Hin|].
  run_call H cfg. destruct (Hcfg cfg) as (cf & -> & Hm); [set_solver|].
  cbn in H. rewrite Hm, String.eqb_refl in H. cbn in H.
  apply runs_bind in H as (t3 & e2 & t4 & -> & H2 & H).
  rewrite elem_of_cons, elem_of_app in Hin. destruct Hin as [?|[Hin|Hin]]; [done|..].
  - eapply releaseSandboxClaimPod_owned in Hin as (-> & pod & -> & Ho); [|exact H2].
    split; [done|]. exists pod. split; [done|]. eapply ownedPod_mono; [|exact Ho].
    intros x Hx. rewrite elem_of_app, elem_of_cons, elem_of_app. auto.
  - exfalso. apply releaseRest_keeps_pods in H. rewrite Forall_forall in H. by apply H in Hin.
Qed.

Lemma deleteWith_run k key opts what tr e :
  runs (deleteWith k key opts what) tr e →
  ∃ ans, tr = [Ev (ObjDelete HubClient k key opts) ans] ∧ (e = None → gone ans).
Proof.
  unfold deleteWith. intros H. run_call H ans. runs_step. exists ans. split; [done|].
  destruct ans as [err|]; simpl; [|done]. by destruct (IsNotFound err).
Qed.

(** A deletion that was asked for, and that went well if there was no error. *)
Definition attempted (k : Kind) (key : NamespacedName) (opts : DeleteOptions) (e : option error)
    (tr : trace) : Prop :=
  ∃ ans, Ev (ObjDelete HubClient k key opts) ans ∈ tr ∧ (e = None → gone ans).

Lemma attempted_mono k key opts e e' tr tr' :
  tr ⊆ tr' → (e' = None → e = None) → attempted k key opts e tr → attempted k key opts e' tr'.
Proof. intros Hs He (ans & Hin & Hg). exists ans. split; [by apply Hs|auto]. Qed.

Lemma keepFirst_None e1 e2 : keepFirst e1 e2 = None ↔ e1 = None ∧ e2 = None.
Proof. destruct e1; cbn; naive_solver. Qed.

Lemma releaseSandboxClaim_run name tr e :
  runs (releaseSandboxClaim m name) tr e →
  attempted KSandboxClaim (hubKey m name) plainDelete e tr ∧
  (e = None → ∀ k, k ∈ [KSandboxWarmPool; KSandboxTemplate] →
     attempted k (hubKey m name) plainDelete e tr).
Proof.
  unfold releaseSandboxClaim.
  intros (t1 & e1 & t2 & -> & (a1 & -> & H1)%deleteWith_run & H)%runs_bind.
  destruct e1 as [err|]; unfold onErr at 1 in H.
  { apply runs_ret in H as [-> ->]. split; [exists a1; split; [left|done]|done]. }
  split; [exists a1; split; [left|intros _; by apply H1]|]. intros -> k Hk.
  apply runs_bind in H as (t3 & e2 & t4 & -> & (a2 & -> & H2)%deleteWith_run & H).
  destruct e2 as [err|]; unfold onErr in H; [by apply runs_ret in H as [_ ?]|].
  apply deleteWith_run in H as (a3 & -> & H3).
  rewrite !elem_of_cons, elem_of_nil in Hk.
  destruct Hk as [->|[->|[]]]; [exists a2|exists a3]; (split; [|auto]);
    rewrite ?elem_of_app, ?list_elem_of_singleton; auto.
Qed.

(** A release is thorough: one failure does not stop the rest.  Whatever fails,
    [Release] of a step with a recorded sandbox asks to delete the claim (or the
    pod), the account on the cluster it lives on unless that spoke is out of
    reach, and for a spoke the kubeconfig Secret; and when it reports no error,
    what it asked for is gone, the pool and the template of a claim too. *)
Theorem Release_thorough run step spoke zeroGrace tr e :
  runs (Release m run step spoke zeroGrace) tr e →
  sandboxClaimName run step ≠ "" →
  let key := hubKey m (sandboxClaimName run step) in
  let target := spec_TargetCluster (run_Spec run) in
  ∃ cfg, Ev ConfigGet cfg ∈ tr ∧
  (if from_option (λ c, String.eqb (cfg_SandboxMode c) sandboxModeSandboxClaim) false cfg
   then attempted KSandboxClaim key plainDelete e tr ∧
        (e = None → ∀ k, k ∈ [KSandboxWarmPool; KSandboxTemplate] →
           attempted k key plainDelete e tr)
   else attempted KPod key (if zeroGrace then zeroGraceDelete else plainDelete) e tr) ∧
  ((spoke = None → target = "") →
     askedToDelete (fst (accountHome m run step spoke)) KServiceAccount
       (snd (accountHome m run step spoke)) tr) ∧
  (target ≠ "" →
     attempted KSecret (hubKey m (sandboxKubeconfigSecretName (run_UID run) step)) plainDelete e tr).
Proof.
  intros H Hname key target. unfold Release in H.
  apply runs_bind in H as (t1 & u & t2 & -> & _ & H).
  apply String.eqb_neq in Hname. rewrite Hname in H. run_call H cfg. exists cfg.
  apply runs_bind in H as (t3 & e1 & t4 & -> & H1 & H).
  apply runs_bind in H as (t5 & e2 & t6 & -> & H2 & H).
  apply runs_bind in H as (t7 & e3 & t8 & -> & H3 & H).
  apply runs_bind in H as (t9 & e4 & t10 & -> & H4 & H).
  apply runs_bind in H as (t11 & e5 & t12 & -> & H5 & [-> ->]%runs_ret).
  set (claimMode := from_option _ false cfg) in *.
  assert (Hall : keepFirst (keepFirst (keepFirst (keepFirst e1 e2) e3) e4) e5 = None →
    e1 = None ∧ e2 = None ∧ e3 = None ∧ e4 = None ∧ e5 = None)
    by (rewrite !keepFirst_None; tauto).
  split; [set_solver|]. split; [|split].
  - destruct claimMode.
    + apply releaseSandboxClaim_run in H3 as [Hc Hr]. split.
      * eapply attempted_mono; [| |exact Hc]; [set_solver|intros ?%Hall; tauto].
      * intros He%Hall k Hk. eapply attempted_mono; [| |apply Hr; [tauto|exact Hk]];
          [set_solver|tauto].
    + cbn in H1. apply deleteWith_run in H1 as (ans & -> & Hg).
      exists ans. split; [set_solver|intros ?%Hall; tauto].
  - intros Hsp. eapply askedToDelete_mono; [|by eapply cleanupStepRBAC_account]. set_solver.
  - intros Ht. unfold target in Ht. apply String.eqb_neq in Ht. rewrite Ht in H5. cbn in H5.
    apply deleteIfExists_run in H5 as (ans & -> & Hg).
    exists ans. split; [set_solver|intros ?%Hall; tauto].
Qed.
End ReleaseFacts.

(** ** The kubeconfig of a sandbox *)

(** A kubeconfig Secret never changes hands: [ensureSandboxKubeconfig] only
    rewrites a Secret labelled as this run's, keeps its metadata, and puts in the
    kubeconfig with the new token; and without an error a Secret with that
    kubeconfig was created or updated. *)
Theorem ensureSandboxKubeconfig_own `{K : ApiMachinery} `{CC : ClientCmd} m run step spoke token tr e :
  runs (ensureSandboxKubeconfig m run step spoke token) tr e →
  (∀ c o ans, Ev (ObjUpdate c KSecret o) ans ∈ tr →
     mapGet (obj_Labels o) LabelRun = run_UID run ∧
     ∃ existing data, Ev (ObjGet HubClient KSecret
         (hubKey m (sandboxKubeconfigSecretName (run_UID run) step))) (Ok existing) ∈ tr ∧
       buildSandboxKubeconfig spoke token = Ok data ∧ obj_Meta o = obj_Meta existing ∧
       (obj_Content o : gmap string string) = {[spokeKubeconfigFileName := data]}) ∧
  (e = None → ∃ data, buildSandboxKubeconfig spoke token = Ok data ∧
     ((∃ a, Ev (ObjCreate HubClient KSecret (kubeconfigSecret m run step data)) (Ok a) ∈ tr) ∨
      ∃ o a, Ev (ObjUpdate HubClient KSecret o) (Ok a) ∈ tr ∧
        (obj_Content o : gmap string string) = {[spokeKubeconfigFileName := data]})).
Proof.
  unfold ensureSandboxKubeconfig. destruct (buildSandboxKubeconfig spoke token) as [data|err];
    [|intros [-> ->]%runs_ret; split; [by intros ??? ?%elem_of_nil|done]].
  intros H. run_call H made. destruct made as [o|err].
  { runs_step. split; [by intros ??? ?%list_elem_of_singleton|].
    intros _. exists data. split; [done|]. left. exists o. left. }
  destruct (IsAlreadyExists err); cbn [negb] in H;
    [|runs_step; split; [by intros ??? ?%list_elem_of_singleton|done]].
  run_call H got. destruct got as [existing|err'];
    [|runs_step; split; [by intros ??? [?|[?|?%elem_of_nil]%elem_of_cons]%elem_of_cons|done]].
  destruct (String.eqb_spec (mapGet (obj_Labels existing) LabelRun) (run_UID run)) as [Hl|];
    cbn [negb] in H;
    [|runs_step; split; [by intros ??? [?|[?|?%elem_of_nil]%elem_of_cons]%elem_of_cons|done]].
  run_call H upd. runs_step. split.
  - intros c o ans Hin. rewrite !elem_of_cons, elem_of_nil in Hin.
    destruct Hin as [?|[?|[Hin|[]]]]; [done..|]. simplify_eq. split; [exact Hl|].
    exists existing, data. split; [right; left|]. done.
  - intros He. exists data. split; [done|]. right. destruct upd as [a|]; [|done].
    do 2 eexists. split; [do 2 right; left|done].
Qed.
