(* ===== verification/Handlers.v ===== *)
(** The workflow handlers of the run controller
    ([controller/agenticrun/handlers.go]): one per step of the workflow, the
    revision, the denial and the system failure.  Each checks the approval of
    its stage and the condition of its step before it marks the step as in
    progress and hands it to the agent caller. *)
From stdpp Require Import base list option strings gmap.
From Stdlib Require Import ZArith Lia.
From S2P Require Import Prelude GoText ApiMachinery Types Objects Phase Effects Approval Resolve.
From S2P Require Import Results Helpers.

Local Open Scope string_scope.
Local Open Scope list_scope.
Local Open Scope prog_scope.

Definition ReasonRunning : string := "Running".
Definition ReasonWaitingForSandbox : string := "WaitingForSandbox".

(** [delete(run.Labels, key)]. *)
Definition withoutLabel (run : AgenticRun) (key : string) : AgenticRun :=
  withMeta run (withLabels (run_Meta run) (delete key (run_Labels run))).

(** ** Stages *)
Inductive Stage := StageAnalysis | StageExecution | StageVerification | StageEscalation.

#[export] Instance Stage_eq_dec : EqDecision Stage.
Proof. solve_decision. Defined.

Definition stageName (s : Stage) : string :=
  match s with
  | StageAnalysis => SandboxStepAnalysis | StageExecution => SandboxStepExecution
  | StageVerification => SandboxStepVerification | StageEscalation => SandboxStepEscalation
  end.

Definition stageCondition (s : Stage) : string :=
  match s with
  | StageAnalysis => AgenticRunConditionAnalyzed
  | StageExecution => AgenticRunConditionExecuted
  | StageVerification => AgenticRunConditionVerified
  | StageEscalation => AgenticRunConditionEscalated
  end.

Section Handlers.
Context `{K : ApiMachinery} (r : AgenticRunReconciler).

Definition denyAgenticRun (run : AgenticRun) (message : string) : M outcome :=
  run1 <- setCondition run AgenticRunConditionDenied ConditionTrue reasonUserDenied message ;;
  p <- statusPatch run1 run ;;
  Ret match p with
      | Err err => fail (wrapError "update to Denied" err)
      | Ok _ => ok emptyResult
      end.

(** The end of a launch: [err] is the error of the agent caller. *)
Definition launched (run : AgenticRun) (conditionType : string) (err : option error)
    : M outcome :=
  match err with
  | None => Ret (ok emptyResult)
  | Some e => if isStopAcceptedError e then Ret (ok requeueNow)
              else failStep r run conditionType e
  end.

Definition handleAnalysis (run : AgenticRun) (resolved : resolvedWorkflow)
    (approval : option AgenticRunApproval) (policy : option ApprovalPolicy) : M outcome :=
  if isStageDenied approval SandboxStepAnalysis then
    auditIf (r_Audit r) (EmitApprovalSpan run approval "") ;;;
    denyAgenticRun run "Analysis denied by user"
  else if negb (isStageApproved approval policy SandboxStepAnalysis) then Ret (ok emptyResult)
  else
    let analyzed := find run AgenticRunConditionAnalyzed in
    if condIs analyzed ConditionUnknown then Ret (ok emptyResult)
    else if condIs analyzed ConditionTrue then Ret (ok emptyResult)
    else
      run1 <- setCondition run AgenticRunConditionAnalyzed ConditionUnknown reasonInProgress
                "Analysis agent is running" ;;
      p <- statusPatch run1 run ;;
      match p with
      | Err err => Ret (fail (wrapError "update to Analyzing" err))
      | Ok run2 =>
          e <- call (Analyze run2 (rw_Analysis resolved)) ;;
          launched run2 AgenticRunConditionAnalyzed e
      end.

Definition handleRevision (run : AgenticRun) (resolved : resolvedWorkflow) : M outcome :=
  let generation := run_Generation run in
  if condIs (find run AgenticRunConditionAnalyzed) ConditionUnknown then Ret (ok emptyResult)
  else
    cleared <-
      (if negb (String.eqb (mapGet (run_Labels run) terminalTTLLabel) "")
       then call (PatchRun run (withoutLabel run terminalTTLLabel) false)
       else Ret (Ok run)) ;;
    match cleared with
    | Err err => Ret (fail (wrapError "clear terminal TTL label" err))
    | Ok base =>
        let cs := RemoveStatusCondition
                    (RemoveStatusCondition
                       (RemoveStatusCondition (run_Conditions base) AgenticRunConditionExecuted)
                       AgenticRunConditionVerified)
                    AgenticRunConditionEscalated in
        let run1 := withConditions base cs in
        let run2 := withSteps run1 (resetExecutionAndVerification (run_Steps run1)) in
        let run3 := withTerminal run2 None None in
        run4 <- setCondition run3 AgenticRunConditionAnalyzed ConditionUnknown reasonRevising
                  ("Re-analyzing for generation " +:+ Itoa generation) ;;
        p <- statusPatch run4 base ;;
        match p with
        | Err err => Ret (fail (wrapError "update to Analyzing (revision)" err))
        | Ok run5 =>
            e <- call (Analyze run5 (rw_Analysis resolved)) ;;
            launched run5 AgenticRunConditionAnalyzed e
        end
    end.

(** [handleExecution] when the workflow has no execution step. *)
Definition skipExecution (run : AgenticRun) (resolved : resolvedWorkflow) : M outcome :=
  run1 <- setCondition run AgenticRunConditionExecuted ConditionTrue reasonSkipped
            "Execution step not configured" ;;
  match rw_Verification resolved with
  | None =>
      run2 <- setVerificationSkipped run1 ;;
      p <- statusPatch run2 run ;;
      Ret match p with
          | Err err => fail (wrapError "update to Completed (advisory)" err)
          | Ok _ => ok emptyResult
          end
  | Some _ =>
      p <- statusPatch run1 run ;;
      Ret match p with
          | Err err => fail (wrapError "update after execution skip" err)
          | Ok _ => ok emptyResult
          end
  end.

(** [handleExecution] once the execution is approved and not under way. *)
Definition startExecution (run : AgenticRun) (step : resolvedStep)
    (approval : option AgenticRunApproval) (policy : option ApprovalPolicy) : M outcome :=
  trimmed <- trimNonSelectedOptions r run approval ;;
  match trimmed with
  | None => Ret (fail (panicError "index out of range"))
  | Some (Err trimErr) => failStep r run AgenticRunConditionExecuted trimErr
  | Some (Ok selected) =>
      auditIf (r_Audit r && negb (isAutoApprovedByPolicy policy SandboxStepExecution))
        (EmitApprovalSpan run approval (from_option option_Title "" selected)) ;;;
      run1 <- setCondition
                (withConditions run
                   (RemoveStatusCondition (run_Conditions run) AgenticRunConditionVerified))
                AgenticRunConditionExecuted ConditionUnknown reasonInProgress
                "Execution agent is running" ;;
      p <- statusPatch run1 run ;;
      match p with
      | Err err => Ret (fail (wrapError "update to Executing" err))
      | Ok run2 =>
          e <- call (Execute run2 step selected) ;;
          launched run2 AgenticRunConditionExecuted e
      end
  end.

Definition handleExecution (run : AgenticRun) (resolved : resolvedWorkflow)
    (approval : option AgenticRunApproval) (policy : option ApprovalPolicy) : M outcome :=
  match rw_Execution resolved with
  | None => skipExecution run resolved
  | Some step =>
      if isStageDenied approval SandboxStepExecution then
        auditIf (r_Audit r) (EmitApprovalSpan run approval "") ;;;
        denyAgenticRun run "Execution denied by user"
      else if negb (isStageApproved approval policy SandboxStepExecution) then
        Ret (ok emptyResult)
      else
        let executed := find run AgenticRunConditionExecuted in
        if condIs executed ConditionUnknown then Ret (ok emptyResult)
        else if condIs executed ConditionTrue then Ret (ok emptyResult)
        else startExecution run step approval policy
  end.

(** The output of the latest execution, when its result can be read. *)
Definition latestExecution (run : AgenticRun) : M (option ExecutionOutput) :=
  match latestRef (step_Results (steps_Execution (run_Steps run))) with
  | None => Ret None
  | Some latest =>
      got <- call (GetResult "ExecutionResult"
                     (MkNamespacedName (r_Namespace r) (ref_Name latest))) ;;
      Ret match got with
          | Ok cr =>
              Some (MkExecutionOutput
                      (String.eqb (ref_Outcome latest) ActionOutcomeSucceeded) ""
                      (match result_Status cr with
                       | ExecutionResult s => er_ActionsTaken s
                       | _ => []
                       end))
          | Err _ => None
          end
  end.

Definition handleVerification (run : AgenticRun) (resolved : resolvedWorkflow)
    (approval : option AgenticRunApproval) (policy : option ApprovalPolicy) : M outcome :=
  match rw_Verification resolved with
  | None =>
      run1 <- setVerificationSkipped run ;;
      p <- statusPatch run1 run ;;
      Ret match p with Err err => fail err | Ok _ => ok emptyResult end
  | Some step =>
      if isStageDenied approval SandboxStepVerification then
        auditIf (r_Audit r) (EmitApprovalSpan run approval "") ;;;
        denyAgenticRun run "Verification denied by user"
      else if negb (isStageApproved approval policy SandboxStepVerification) then
        Ret (ok emptyResult)
      else if condIs (find run AgenticRunConditionVerified) ConditionUnknown then
        Ret (ok emptyResult)
      else
        run1 <- setCondition run AgenticRunConditionVerified ConditionUnknown reasonInProgress
                  "Verification agent is running" ;;
        p <- statusPatch run1 run ;;
        match p with
        | Err err => Ret (fail (wrapError "update to Verifying" err))
        | Ok run2 =>
            sel <- selectedOption r run2 ;;
            match sel with
            | Err selErr =>
                failStep r run2 AgenticRunConditionVerified
                  (wrapError "resolve selected option" selErr)
            | Ok selected =>
                execOutput <- latestExecution run2 ;;
                e <- call (Verify run2 step selected execOutput) ;;
                launched run2 AgenticRunConditionVerified e
            end
        end
  end.

(** The body of the clean-up loop of [handleFailed]. *)
Definition cleanupFailedStep (run : AgenticRun) (spoke : option SpokeAccess) (step : string)
    (done : unit) : M unit :=
  match spoke with
  | None =>
      if negb (String.eqb step "execution") then Ret done
      else if String.eqb (mapGet (run_Annotations run) rbacNamespacesAnnotation) ""
      then Ret done
      else call (CleanupStepRBAC spoke run step) ;;; Ret done
  | Some _ => call (CleanupStepRBAC spoke run step) ;;; Ret done
  end.

Definition handleFailed (run : AgenticRun) : M outcome :=
  if preserveFailedSandbox run then Ret (ok emptyResult)
  else
    let! (spoke, _) := call (SpokeAccessForRun run) in
    foldM ["analysis"; "execution"; "verification"; "escalation"] tt
      (cleanupFailedStep run spoke) ;;;
    Ret (ok emptyResult).

Definition escalationInProgress (escalated : option Condition) : bool :=
  condHas escalated ConditionUnknown reasonInProgress
  || condHas escalated ConditionUnknown ReasonRunning
  || condHas escalated ConditionUnknown ReasonWaitingForSandbox.

(** [handleEscalation] once its step is known. *)
Definition startEscalation (run : AgenticRun) (step : resolvedStep) : M outcome :=
  run1 <- setCondition run AgenticRunConditionEscalated ConditionUnknown reasonInProgress
            "Escalation agent is running" ;;
  p <- statusPatch run1 run ;;
  match p with
  | Err err => Ret (fail (wrapError "update to Escalating" err))
  | Ok run2 =>
      e <- call (Escalate run2 step) ;;
      launched run2 AgenticRunConditionEscalated e
  end.

Definition handleEscalation (run : AgenticRun) (resolved : resolvedWorkflow)
    (approval : option AgenticRunApproval) (policy : option ApprovalPolicy) : M outcome :=
  if isStageDenied approval SandboxStepEscalation then
    auditIf (r_Audit r) (EmitApprovalSpan run approval "") ;;;
    denyAgenticRun run "Escalation denied by user"
  else if negb (isStageApproved approval policy SandboxStepEscalation) then
    Ret (ok emptyResult)
  else
    let escalated := find run AgenticRunConditionEscalated in
    if escalationInProgress escalated then Ret (ok emptyResult)
    else if condIs escalated ConditionTrue then Ret (ok emptyResult)
    else
      let step := rw_Analysis resolved in
      let override := getStageOverrideAgent approval SandboxStepEscalation in
      if negb (String.eqb override "") then
        a <- call (GetAgent override) ;;
        match a with
        | Err err =>
            failStep r run AgenticRunConditionEscalated
              (wrapError ("get override Agent " +:+ Quote override) err)
        | Ok agent =>
            l <- call (GetLLMProvider (agentLLMName agent)) ;;
            match l with
            | Err err =>
                failStep r run AgenticRunConditionEscalated
                  (wrapError ("get LLMProvider " +:+ Quote (agentLLMName agent)) err)
            | Ok llm => startEscalation run (MkResolvedStep agent llm (rs_Tools step))
            end
        end
      else startEscalation run step.

Definition stageHandler (s : Stage) :=
  match s with
  | StageAnalysis => handleAnalysis
  | StageExecution => handleExecution
  | StageVerification => handleVerification
  | StageEscalation => handleEscalation
  end.

(** The workflow has the step of the stage. *)
Definition stageConfigured (s : Stage) (resolved : resolvedWorkflow) : bool :=
  match s with
  | StageExecution => bool_decide (is_Some (rw_Execution resolved))
  | StageVerification => bool_decide (is_Some (rw_Verification resolved))
  | _ => true
  end.

(** A launch: its stage and the run handed to the agent caller. *)
Definition launchOf (ev : event answer) : option (Stage * AgenticRun) :=
  match ev with
  | Ev (Analyze run _) _ => Some (StageAnalysis, run)
  | Ev (Execute run _ _) _ => Some (StageExecution, run)
  | Ev (Verify run _ _ _) _ => Some (StageVerification, run)
  | Ev (Escalate run _) _ => Some (StageEscalation, run)
  | _ => None
  end.

Lemma launchOf_launches ev : launchOf ev = None ↔ launches ev = false.
Proof. by destruct ev as [[] ?]. Qed.

Lemma launched_no_launch run ct e : emits (λ ev, launches ev = false) (launched run ct e).
Proof.
  unfold launched. emits_walk done. apply failStep_no_launch.
Qed.

(** The trace launches nothing, or launches the stage once, on the run the
    API server returned when the step was marked as in progress. *)
Definition launchesAfterMark (stage : Stage) (base : AgenticRun) (cs : list Condition)
    (tr : trace) : Prop :=
  none launches tr ∨
  ∃ tr1 run1 run2 tr2 ev tr3,
    tr = tr1 ++ Ev (StatusPatchRun base run1) (Ok run2) :: tr2 ++ ev :: tr3 ∧
    none launches tr1 ∧ none launches tr2 ∧ none launches tr3 ∧
    statusPatches tr1 = [] ∧
    launchOf ev = Some (stage, run2) ∧
    (∃ now reason msg, run_Conditions run1 =
       SetStatusCondition now cs (NewCondition (stageCondition stage) ConditionUnknown
         reason msg (run_Generation base))).

Definition launchesOnce (stage : Stage) (run2 : AgenticRun) (tr : trace) : Prop :=
  none launches tr ∨ ∃ tr2 ev tr3, tr = tr2 ++ ev :: tr3 ∧ none launches tr2 ∧
    none launches tr3 ∧ launchOf ev = Some (stage, run2).

Lemma launchesOnce_cons stage run2 ev (tr3 : trace) :
  launchOf ev = Some (stage, run2) → none launches tr3 → launchesOnce stage run2 (ev :: tr3).
Proof. intros. right. by exists [], ev, tr3. Qed.

Lemma launchesOnce_app stage run2 tr2 tr3 :
  none launches tr2 → launchesOnce stage run2 tr3 → launchesOnce stage run2 (tr2 ++ tr3).
Proof.
  intros Hn [H|(t2 & ev & t3 & -> & H2 & H3 & He)].
  - left. by apply none_app.
  - right. exists (tr2 ++ t2), ev, t3. rewrite <- app_assoc. split; [done|].
    split; [by apply none_app|done].
Qed.

(** The launches of a trace. *)
Definition launchesOf (tr : trace) : list (Stage * AgenticRun) := omap launchOf tr.

Lemma launchesOf_none tr : none launches tr → launchesOf tr = [].
Proof.
  intros H. apply omap_none. eapply Forall_impl; [exact H|].
  intros ev. by rewrite launchOf_launches.
Qed.

Lemma launchesOf_app tr1 tr2 : launchesOf (tr1 ++ tr2) = launchesOf tr1 ++ launchesOf tr2.
Proof. apply omap_app. Qed.

(** The trace launches nothing, or launches one stage, once, on grounds [why] of what
    happened before. *)
Definition launchesFor (why : trace → Stage → AgenticRun → Prop) (tr : trace) : Prop :=
  none launches tr ∨
  ∃ pre ev post stage launched,
    tr = pre ++ ev :: post ∧ none launches pre ∧ none launches post ∧
    launchOf ev = Some (stage, launched) ∧ why pre stage launched.

(** Calls that launch nothing come before: the grounds are those of the whole. *)
Lemma launchesFor_app why1 why2 tr1 tr2 :
  none launches tr1 → launchesFor why2 tr2 →
  (∀ pre stage run, why2 pre stage run → why1 (tr1 ++ pre) stage run) →
  launchesFor why1 (tr1 ++ tr2).
Proof.
  intros Hn [H|(pre & ev & post & stage & run & -> & Hpre & Hpost & Hev & Hw)] Hwhy.
  - left. by apply none_app.
  - right. exists (tr1 ++ pre), ev, post, stage, run. rewrite <- app_assoc.
    split; [done|]. split; [by apply none_app|]. auto.
Qed.

Lemma launchesFor_mono (why1 why2 : trace → Stage → AgenticRun → Prop) tr :
  launchesFor why1 tr → (∀ pre stage run, why1 pre stage run → why2 pre stage run) →
  launchesFor why2 tr.
Proof. intros H Hw. by apply (launchesFor_app _ _ [] tr ltac:(constructor) H). Qed.

(** The run that is launched is the answer to the status patch that marked its step as
    in progress on [base]. *)
Definition markedFrom (base : AgenticRun) (pre : trace) (stage : Stage) (launched : AgenticRun)
    : Prop :=
  ∃ marked, Ev (StatusPatchRun base marked) (Ok launched) ∈ pre ∧
    statusOf (run_Conditions marked) (stageCondition stage) = Some ConditionUnknown.

Lemma launchesAfterMark_for {KL : ApiMachineryLaws K} stage base cs tr :
  launchesAfterMark stage base cs tr →
  launchesFor (λ pre stage' launched, stage' = stage ∧ markedFrom base pre stage' launched) tr.
Proof.
  intros [Hn|(tr1 & run1 & run2 & tr2 & ev & tr3 & -> & H1 & H2 & H3 & _ & Hev & now & reason &
    msg & Hc)]; [by left|].
  right. exists (tr1 ++ Ev (StatusPatchRun base run1) (Ok run2) :: tr2), ev, tr3, stage, run2.
  rewrite <- app_assoc. split; [done|]. split.
  { apply none_app; split; [done|]. by apply none_cons. }
  do 2 (split; [done|]). split; [done|]. exists run1. split; [set_solver|].
  rewrite Hc. apply (statusOf_set_same now cs (NewCondition _ _ _ _ _)).
Qed.

(** The shape the handlers share: mark the step, patch the status, go on. *)
Lemma mark_and_launch stage base run0 reason msg (f : error → error)
    (k : AgenticRun → M outcome) tr0 tr o :
  Forall quiet tr0 →
  run_Generation run0 = run_Generation base →
  (∀ run2 tr o, runs (k run2) tr o → launchesOnce stage run2 tr) →
  runs (run1 <- setCondition run0 (stageCondition stage) ConditionUnknown reason msg ;;
        p <- statusPatch run1 base ;;
        match p with Err err => Ret (fail (f err)) | Ok run2 => k run2 end) tr o →
  launchesAfterMark stage base (run_Conditions run0) (tr0 ++ tr).
Proof.
  intros Hq0 Hgen Hk (trs & run1 & tr1 & -> & Hs & H)%runs_bind.
  pose proof (setCondition_quiet _ _ _ _ _ _ _ Hs) as Hqs.
  apply setCondition_run in Hs as [now ->].
  unfold statusPatch in H. run_call H p.
  assert (Hq : Forall quiet (tr0 ++ trs)) by (by apply Forall_app).
  pose proof (quiet_no_launches _ Hq) as Hn. rewrite app_assoc.
  destruct p as [run2|err].
  - apply Hk in H as [Hno|(tr2 & ev & tr3 & -> & H2 & H3 & Hev)].
    + left. apply none_app; split; [done|]. by apply none_cons.
    + right. do 6 eexists. split; [done|]. rewrite (quiet_no_patches _ Hq).
      repeat split; try done. do 3 eexists. rewrite <- Hgen. done.
  - runs_step. left. apply none_app; split; [done|]. by apply none_cons.
Qed.

(** The conditions a stage is marked on. *)
Definition markedConditions (stage : Stage) (run : AgenticRun) : list Condition :=
  match stage with
  | StageExecution => RemoveStatusCondition (run_Conditions run) AgenticRunConditionVerified
  | _ => run_Conditions run
  end.

Lemma denyAgenticRun_no_launch run msg :
  emits (λ ev, launches ev = false) (denyAgenticRun run msg).
Proof. unfold denyAgenticRun, setCondition, statusPatch. emits_walk done. Qed.

(** Setting a condition and patching the status, and nothing else. *)
Lemma patch_once run0 base typ st reason msg (f : res AgenticRun → outcome) tr o :
  runs (run1 <- setCondition run0 typ st reason msg ;;
        p <- statusPatch run1 base ;; Ret (f p)) tr o →
  none launches tr ∧ ∃ now, statusPatches tr =
    [(base, withConditions run0 (SetStatusCondition now (run_Conditions run0)
              (NewCondition typ st reason msg (run_Generation run0))))].
Proof.
  intros (t1 & run1 & t2 & -> & Hs & H)%runs_bind.
  pose proof (setCondition_quiet _ _ _ _ _ _ _ Hs) as Hq.
  apply setCondition_run in Hs as [now ->]. unfold statusPatch in H. run_call H p. runs_step.
  split; [apply none_app; split; [by apply quiet_no_launches|repeat constructor]|].
  exists now. by rewrite statusPatches_app, (quiet_no_patches _ Hq).
Qed.

Lemma auditIf_quiet b c : emits quiet (auditIf b c).
Proof. unfold auditIf. emits_walk done. Qed.

Lemma deny_no_launch b c run msg :
  emits (λ ev, launches ev = false) (auditIf b c ;;; denyAgenticRun run msg).
Proof.
  apply emits_bind; [|intros; apply denyAgenticRun_no_launch].
  unfold auditIf. emits_walk done.
Qed.

(** What follows the mark launches once, then at most fails the step. *)
Lemma launch_then stage run2 (e : eff) (k : answer e → M outcome) tr o :
  (∀ a, launchOf (Ev e a) = Some (stage, run2)) →
  (∀ a, emits (λ ev, launches ev = false) (k a)) →
  runs (bind (call e) k) tr o → launchesOnce stage run2 tr.
Proof.
  intros He Hk H. run_call H a. apply launchesOnce_cons; [done|]. by eapply Hk.
Qed.

Ltac launch_tail :=
  intros; cbv beta in *; match goal with H : runs (bind (call _) _) _ _ |- _ =>
    eapply launch_then; [| |exact H] end; [done|]; intros; apply launched_no_launch.

Lemma handleAnalysis_launch run resolved approval policy tr o :
  runs (handleAnalysis run resolved approval policy) tr o →
  launchesAfterMark StageAnalysis run (markedConditions StageAnalysis run) tr.
Proof.
  unfold handleAnalysis. intros H.
  destruct (isStageDenied _ _); [by left; eapply deny_no_launch|].
  repeat (case_match; [runs_step; by left|]).
  eapply (mark_and_launch StageAnalysis run run _ _ _ _ []); [done|done| |exact H]. launch_tail.
Qed.

Lemma skipExecution_no_launch run resolved :
  emits (λ ev, launches ev = false) (skipExecution run resolved).
Proof.
  unfold skipExecution, setVerificationSkipped, setCondition, statusPatch. emits_walk done.
Qed.

Lemma startExecution_launch run step approval policy tr o :
  runs (startExecution run step approval policy) tr o →
  launchesAfterMark StageExecution run (markedConditions StageExecution run) tr.
Proof.
  unfold startExecution. intros (tr1 & trimmed & tr2 & -> & Ht & H)%runs_bind.
  pose proof (trimNonSelectedOptions_quiet _ _ _ _ _ Ht) as Hq.
  destruct trimmed as [[selected|e]|].
  - apply runs_bind in H as (tr3 & [] & tr4 & -> & Ha & H).
    apply auditIf_quiet in Ha. rewrite app_assoc.
    eapply (mark_and_launch StageExecution run
      (withConditions run (RemoveStatusCondition (run_Conditions run) _)));
      [by apply Forall_app|done| |exact H]. launch_tail.
  - left. apply none_app; split; [by apply quiet_no_launches|by eapply failStep_no_launch].
  - runs_step. left. rewrite app_nil_r. by apply quiet_no_launches.
Qed.

Lemma handleExecution_launch run resolved approval policy tr o :
  runs (handleExecution run resolved approval policy) tr o →
  launchesAfterMark StageExecution run (markedConditions StageExecution run) tr.
Proof.
  unfold handleExecution. intros H.
  destruct (rw_Execution resolved); [|by left; eapply skipExecution_no_launch].
  destruct (isStageDenied _ _); [by left; eapply deny_no_launch|].
  repeat (case_match; [runs_step; by left|]). by eapply startExecution_launch.
Qed.

Lemma latestExecution_quiet run : emits quiet (latestExecution run).
Proof. unfold latestExecution. emits_walk done. Qed.

Lemma handleVerification_launch run resolved approval policy tr o :
  runs (handleVerification run resolved approval policy) tr o →
  launchesAfterMark StageVerification run (markedConditions StageVerification run) tr.
Proof.
  unfold handleVerification. intros H.
  destruct (rw_Verification resolved); cycle 1.
  { left. eapply (emits_bind (λ ev, launches ev = false)); [| |exact H];
      intros; unfold setVerificationSkipped, setCondition, statusPatch; emits_walk done. }
  destruct (isStageDenied _ _); [by left; eapply deny_no_launch|].
  repeat (case_match; [runs_step; by left|]).
  eapply (mark_and_launch StageVerification run run _ _ _ _ []); [done|done| |exact H].
  intros run2 tr1 o1 (tr2 & sel & tr3 & -> & Hs & Hk)%runs_bind.
  apply selectedOption_quiet, quiet_no_launches in Hs.
  apply launchesOnce_app; [done|]. destruct sel as [selected|e].
  - apply runs_bind in Hk as (tr4 & ex & tr5 & -> & He & Hk).
    apply latestExecution_quiet, quiet_no_launches in He.
    apply launchesOnce_app; [done|]. launch_tail.
  - left. by eapply failStep_no_launch.
Qed.

Lemma startEscalation_launch run step tr0 tr o :
  Forall quiet tr0 →
  runs (startEscalation run step) tr o → launchesAfterMark StageEscalation run (run_Conditions run) (tr0 ++ tr).
Proof.
  intros Hq H. eapply (mark_and_launch StageEscalation run run); [done|done| |exact H].
  launch_tail.
Qed.

Lemma handleEscalation_launch run resolved approval policy tr o :
  runs (handleEscalation run resolved approval policy) tr o →
  launchesAfterMark StageEscalation run (run_Conditions run) tr.
Proof.
  unfold handleEscalation. intros H.
  destruct (isStageDenied _ _); [by left; eapply deny_no_launch|].
  do 3 (case_match; [runs_step; by left|]).
  case_match; [|by eapply (startEscalation_launch _ _ [])].
  run_call H a. destruct a as [agent|e]; cycle 1.
  { left. apply none_cons; split; [done|]. by eapply failStep_no_launch. }
  run_call H l. destruct l as [llm|e].
  - eapply (startEscalation_launch _ _ [_; _]); [|exact H]. by repeat constructor.
  - left. do 2 (apply none_cons; split; [done|]). by eapply failStep_no_launch.
Qed.

Lemma stageHandler_launch stage run resolved approval policy tr o :
  runs (stageHandler stage run resolved approval policy) tr o →
  launchesAfterMark stage run (markedConditions stage run) tr.
Proof.
  destruct stage; simpl; eauto using handleAnalysis_launch, handleExecution_launch,
    handleVerification_launch, handleEscalation_launch.
Qed.

Lemma stageHandler_unapproved stage run resolved approval policy tr o :
  isStageDenied approval (stageName stage) = true ∨
  isStageApproved approval policy (stageName stage) = false →
  runs (stageHandler stage run resolved approval policy) tr o → none launches tr.
Proof.
  intros Hd. destruct stage; cbn [stageHandler stageName] in *; intros H;
    [unfold handleAnalysis in H|unfold handleExecution in H|unfold handleVerification in H
    |unfold handleEscalation in H].
  all: repeat match goal with
    | H : runs (match ?x with Some _ => _ | None => _ end) _ _ |- _ => destruct x
    end.
  all: try (destruct (isStageDenied _ _); [by eapply deny_no_launch|];
            destruct Hd as [?|Hd]; [done|]; rewrite Hd in H; simpl in H; by runs_step).
  - by eapply skipExecution_no_launch.
  - eapply (emits_bind (λ ev, launches ev = false)); [| |exact H];
      intros; unfold setVerificationSkipped, setCondition, statusPatch; emits_walk done.
Qed.

(** A revision patches the run it was given, or, when that run carries the TTL label of a
    finished run, the answer to the patch that removes the label. *)
Definition revisedFrom (run base : AgenticRun) (pre : trace) : Prop :=
  base = run ∨
  (mapGet (run_Labels run) terminalTTLLabel ≠ "" ∧
   Ev (PatchRun run (withoutLabel run terminalTTLLabel) false) (Ok base) ∈ pre).

Lemma handleRevision_for {KL : ApiMachineryLaws K} run resolved tr o :
  runs (handleRevision run resolved) tr o →
  launchesFor (λ pre stage launched, stage = StageAnalysis ∧
    ∃ base, revisedFrom run base pre ∧ markedFrom base pre stage launched) tr.
Proof.
  unfold handleRevision. intros H. run_if H; [runs_step; by left|]. clear Hb.
  apply runs_bind in H as (t1 & cleared & t2 & -> & Hl & H).
  assert (Hq : none launches t1).
  { clear H. run_if Hl; [run_last Hl|runs_step]; by repeat constructor. }
  destruct cleared as [base|e]; cycle 1.
  { runs_step. left. by rewrite app_nil_r. }
  assert (Hbase : revisedFrom run base t1).
  { clear H. run_if Hl; [run_last Hl|runs_step; simplify_eq; by left].
    right. split; [|set_solver]. apply negb_true_iff, String.eqb_neq in Hb. done. }
  set (run3 := withTerminal _ _ _) in H.
  eapply (mark_and_launch StageAnalysis base run3 _ _ _ _ []) in H; [|done|done|launch_tail].
  eapply launchesFor_app; [done|eapply launchesAfterMark_for; exact H|].
  intros pre stage launched [-> (marked & Hin & Hm)]. split; [done|]. exists base. split.
  - destruct Hbase as [?|[? Hin']]; [by left|]. right. split; [done|]. apply elem_of_app. by left.
  - exists marked. split; [|done]. apply elem_of_app. by right.
Qed.

(** The phases a stage is handled in, and the one it runs in. *)
Definition stagePhases (stage : Stage) : list AgenticRunPhase :=
  match stage with
  | StageAnalysis => [PhasePending; PhaseAnalyzing]
  | StageExecution => [PhaseProposed; PhaseExecuting]
  | StageVerification => [PhaseVerifying]
  | StageEscalation => [PhaseEscalating]
  end.

Definition stagePhase (stage : Stage) : AgenticRunPhase :=
  match stage with
  | StageAnalysis => PhaseAnalyzing | StageExecution => PhaseExecuting
  | StageVerification => PhaseVerifying | StageEscalation => PhaseEscalating
  end.

Section Phases.
Context {KL : ApiMachineryLaws K}.

(** An analysis recorded for the current generation answers the revision. *)
Lemma needsRevision_set run now cs status reason msg :
  needsRevision (withConditions run (SetStatusCondition now cs
    (NewCondition AgenticRunConditionAnalyzed status reason msg (run_Generation run))))
  = false.
Proof.
  unfold needsRevision, find. rewrite run_Conditions_with, FindStatusCondition_first.
  destruct (SetStatusCondition_fields now cs (NewCondition AgenticRunConditionAnalyzed
    status reason msg (run_Generation run))) as [t Ht].
  simpl in Ht. rewrite Ht. destruct (String.eqb (spec_RevisionFeedback _) ""); [done|].
  apply Z.ltb_irrefl.
Qed.

Lemma DerivePhase_mark stage run now reason msg gen :
  DerivePhase (run_Conditions run) ∈ stagePhases stage →
  DerivePhase (SetStatusCondition now (markedConditions stage run)
    (NewCondition (stageCondition stage) ConditionUnknown reason msg gen)) = stagePhase stage.
Proof.
  rewrite (DerivePhase_view (SetStatusCondition _ _ _)). intros Hin.
  assert (Hp : ∃ p, p ∈ stagePhases stage ∧ DerivePhase (run_Conditions run) = p) by eauto.
  destruct Hp as (p & Hp & Hd). rewrite DerivePhase_view in Hd. clear Hin.
  destruct stage; cbn [stageCondition markedConditions]; status_simpl; simpl in Hp;
    repeat (apply elem_of_cons in Hp as [->|Hp]); try (by apply elem_of_nil in Hp);
    phase_cases (run_Conditions run).
Qed.

(** ** An approved stage does not stall *)

(** The step of the stage is under way or done, so the handler leaves it alone. *)
Definition stageBegun (stage : Stage) (run : AgenticRun) : bool :=
  let c := find run (stageCondition stage) in
  match stage with
  | StageAnalysis | StageExecution => condIs c ConditionUnknown || condIs c ConditionTrue
  | StageVerification => condIs c ConditionUnknown
  | StageEscalation => escalationInProgress c || condIs c ConditionTrue
  end.

(** The run launches the stage, or comes back (with an error, which the controller
    retries, or with a request), or tries to record that the step failed. *)
Definition acts (stage : Stage) (tr : trace) (o : outcome) : Prop :=
  (∃ run2, launchesOf tr = [(stage, run2)]) ∨
  is_Some (snd o) ∨ Requeue (fst o) = true ∨
  ∃ base obj ans, Ev (StatusPatchRun base obj) ans ∈ tr ∧
    statusOf (run_Conditions obj) (stageCondition stage) = Some ConditionFalse.

Lemma acts_app stage tr1 tr2 o : none launches tr1 → acts stage tr2 o → acts stage (tr1 ++ tr2) o.
Proof.
  intros Hn [[run2 Hl]|[He|[Hr|(base & obj & ans & Hin & Hs)]]].
  - left. exists run2. by rewrite launchesOf_app, (launchesOf_none _ Hn).
  - by right; left.
  - by right; right; left.
  - right; right; right. exists base, obj, ans. split; [|done]. apply elem_of_app. by right.
Qed.

Lemma acts_cons stage ev tr o : launches ev = false → acts stage tr o → acts stage (ev :: tr) o.
Proof. intros Hl. apply (acts_app stage [ev]). by repeat constructor. Qed.

Lemma failStep_acts stage run err tr o :
  runs (failStep r run (stageCondition stage) err) tr o → acts stage tr o.
Proof.
  unfold failStep. intros H. runs_step; [runs_step; right; left; by eexists|].
  apply runs_bind in H as (trg & guard & tr1 & -> & Hg & H).
  pose proof (readRunnableRun_quiet _ _ _ _ _ Hg) as Hq%quiet_no_launches.
  apply acts_app; [done|]. destruct guard as [base|e]; cycle 1.
  { run_if H; runs_step; [by right; right; left|right; left; by eexists]. }
  run_call H now. apply acts_cons; [done|].
  apply runs_bind in H as (tr3 & run1 & tr4 & -> & Hr & H).
  apply runs_bind in H as (tr5 & run2 & tr6 & -> & Hs & H).
  apply recordFailure_quiet, quiet_no_launches in Hr. apply acts_app; [done|].
  pose proof (setCondition_quiet _ _ _ _ _ _ _ Hs) as Hq5%quiet_no_launches.
  apply acts_app; [done|]. apply setCondition_run in Hs as [now' ->].
  unfold statusPatch in H. run_call H ans. runs_step.
  right; right; right. do 3 eexists. split; [by left|].
  rewrite run_Conditions_with. apply (statusOf_set_same _ _ (NewCondition _ _ _ _ _)).
Qed.

Lemma launched_acts stage run2 (e : eff) (k : answer e → M outcome) tr o :
  (∀ a, launchOf (Ev e a) = Some (stage, run2)) →
  (∀ a, emits (λ ev, launches ev = false) (k a)) →
  runs (bind (call e) k) tr o → acts stage tr o.
Proof.
  intros He Hk H. run_call H a. left. exists run2.
  apply Hk, launchesOf_none in H. unfold launchesOf in *. rewrite omap_cons, He. by rewrite H.
Qed.

(** Marking the step and going on. *)
Lemma mark_acts stage base run0 typ st reason msg (f : error → error)
    (k : AgenticRun → M outcome) tr o :
  (∀ run2 tr o, runs (k run2) tr o → acts stage tr o) →
  runs (run1 <- setCondition run0 typ st reason msg ;;
        p <- statusPatch run1 base ;;
        match p with Err err => Ret (fail (f err)) | Ok run2 => k run2 end) tr o →
  acts stage tr o.
Proof.
  intros Hk (trs & run1 & tr1 & -> & Hs & H)%runs_bind.
  apply setCondition_quiet, quiet_no_launches in Hs. apply acts_app; [done|].
  unfold statusPatch in H. run_call H p. apply acts_cons; [done|].
  destruct p as [run2|err]; [by eapply Hk|]. runs_step. right; left. by eexists.
Qed.

Ltac acts_tail :=
  intros; cbv beta in *; match goal with H : runs (bind (call _) _) _ _ |- _ =>
    eapply launched_acts; [| |exact H] end; [done|]; intros; apply launched_no_launch.

Lemma startExecution_acts run step approval policy tr o :
  runs (startExecution run step approval policy) tr o → acts StageExecution tr o.
Proof.
  unfold startExecution. intros (tr1 & trimmed & tr2 & -> & Ht & H)%runs_bind.
  apply trimNonSelectedOptions_quiet, quiet_no_launches in Ht. apply acts_app; [done|].
  destruct trimmed as [[selected|e]|].
  - apply runs_bind in H as (tr3 & [] & tr4 & -> & Ha & H).
    apply auditIf_quiet, quiet_no_launches in Ha. apply acts_app; [done|].
    eapply mark_acts; [|exact H]. acts_tail.
  - by eapply (failStep_acts StageExecution).
  - runs_step. right; left. by eexists.
Qed.

Lemma startEscalation_acts run step tr o :
  runs (startEscalation run step) tr o → acts StageEscalation tr o.
Proof. intros H. eapply mark_acts; [|exact H]. acts_tail. Qed.

Lemma handleVerification_acts run step tr o :
  runs (run1 <- setCondition run AgenticRunConditionVerified ConditionUnknown reasonInProgress
          "Verification agent is running" ;;
        p <- statusPatch run1 run ;;
        match p with
        | Err err => Ret (fail (wrapError "update to Verifying" err))
        | Ok run2 =>
            sel <- selectedOption r run2 ;;
            match sel with
            | Err selErr =>
                failStep r run2 AgenticRunConditionVerified
                  (wrapError "resolve selected option" selErr)
            | Ok selected =>
                execOutput <- latestExecution run2 ;;
                e <- call (Verify run2 step selected execOutput) ;;
                launched run2 AgenticRunConditionVerified e
            end
        end) tr o → acts StageVerification tr o.
Proof.
  apply (mark_acts StageVerification).
  intros run2 tr1 o1 (tr2 & sel & tr3 & -> & Hs & Hk)%runs_bind.
  apply selectedOption_quiet, quiet_no_launches in Hs. apply acts_app; [done|].
  destruct sel as [selected|e]; [|by eapply (failStep_acts StageVerification)].
  apply runs_bind in Hk as (tr4 & ex & tr5 & -> & He & Hk).
  apply latestExecution_quiet, quiet_no_launches in He. apply acts_app; [done|]. acts_tail.
Qed.

(** An approved stage does not stall: whatever the API server answers, a handler
    whose stage the workflow has, which is approved and not denied and has not begun,
    launches the stage, or comes back with an error (which the controller retries) or
    a request, or sends a status patch that marks the step as failed. *)
Theorem stageHandler_never_stalls stage run resolved approval policy tr o :
  runs (stageHandler stage run resolved approval policy) tr o →
  stageConfigured stage resolved = true → stageBegun stage run = false →
  isStageDenied approval (stageName stage) = false →
  isStageApproved approval policy (stageName stage) = true →
  acts stage tr o.
Proof.
  destruct stage; cbn [stageHandler stageConfigured stageBegun stageCondition stageName];
    intros H Hc Hb Hd Ha; try (apply orb_false_iff in Hb as [Hb1 Hb2]).
  - unfold handleAnalysis in H. cbv zeta in H. rewrite Hd, Ha, Hb1, Hb2 in H. cbn [negb] in H. eapply mark_acts; [|exact H]. acts_tail.
  - unfold handleExecution in H. destruct (rw_Execution resolved) as [step|]; [|done].
    cbv zeta in H. rewrite Hd, Ha, Hb1, Hb2 in H. cbn [negb] in H. by eapply startExecution_acts.
  - unfold handleVerification in H. destruct (rw_Verification resolved) as [step|]; [|done].
    rewrite Hd, Ha, Hb in H. cbn [negb] in H. by eapply handleVerification_acts.
  - unfold handleEscalation in H. cbv zeta in H. rewrite Hd, Ha, Hb1, Hb2 in H. cbn [negb] in H.
    run_if H; [|by eapply startEscalation_acts].
    run_call H a. apply acts_cons; [done|].
    destruct a as [agent|e]; [|by eapply (failStep_acts StageEscalation)].
    run_call H l. apply acts_cons; [done|].
    destruct l as [llm|e]; [by eapply startEscalation_acts|by eapply (failStep_acts StageEscalation)].
Qed.

(** C12: work is launched only for an approved stage, and only after the API
    server accepted the mark: a handler that calls the agent caller does it
    once, for its own stage, when the approval does not deny the stage and
    the approval or the policy approves it, on the run the server returned
    for the status patch that sets the condition of the step to [Unknown];
    a run handled in a phase of the stage is then in the phase of the work. *)
Theorem stageHandler_launches stage run resolved approval policy tr o ev :
  runs (stageHandler stage run resolved approval policy) tr o →
  ev ∈ tr → launches ev = true →
  isStageDenied approval (stageName stage) = false ∧
  isStageApproved approval policy (stageName stage) = true ∧
  ∃ tr1 run1 run2 tr2 tr3,
    tr = tr1 ++ Ev (StatusPatchRun run run1) (Ok run2) :: tr2 ++ ev :: tr3 ∧
    none launches (tr1 ++ tr2 ++ tr3) ∧
    launchOf ev = Some (stage, run2) ∧
    statusOf (run_Conditions run1) (stageCondition stage) = Some ConditionUnknown ∧
    (DerivePhase (run_Conditions run) ∈ stagePhases stage →
     DerivePhase (run_Conditions run1) = stagePhase stage).
Proof.
  intros H Hev Hl.
  assert (Hyes : ¬ none launches tr).
  { unfold none. intros Hn. rewrite Forall_forall in Hn. rewrite (Hn _ Hev) in Hl. done. }
  assert (Ha := λ Hd, Hyes (stageHandler_unapproved stage run resolved approval policy tr o Hd H)).
  split; [apply not_true_iff_false; auto|].
  split; [apply not_false_iff_true; auto|].
  apply stageHandler_launch in H as
    [?|(tr1 & run1 & run2 & tr2 & ev' & tr3 & -> & H1 & H2 & H3 & _ & Hof & now & reason & msg & Hc)];
    [done|].
  assert (ev = ev') as ->.
  { unfold none in *. rewrite !Forall_forall in *.
    apply elem_of_app in Hev as [Hev|Hev]; [by rewrite H1 in Hl|].
    apply elem_of_cons in Hev as [->|Hev]; [done|].
    apply elem_of_app in Hev as [Hev|Hev]; [by rewrite H2 in Hl|].
    apply elem_of_cons in Hev as [->|Hev]; [done|by rewrite H3 in Hl]. }
  exists tr1, run1, run2, tr2, tr3. split; [done|].
  split; [by rewrite !none_app|]. split; [done|]. rewrite Hc.
  split; [|by apply DerivePhase_mark].
  by rewrite (statusOf_set_same now _ (NewCondition (stageCondition stage) _ _ _ _)).
Qed.

(** A denial wins over every approval: on a configured stage that the
    approval denies, the handler launches nothing and its one write marks
    the run [Denied], whatever the policy and the other decisions say. *)
Theorem stageHandler_denied stage run resolved approval policy tr o :
  stageConfigured stage resolved = true →
  isStageDenied approval (stageName stage) = true →
  runs (stageHandler stage run resolved approval policy) tr o →
  none launches tr ∧
  ∃ obj, statusPatches tr = [(run, obj)] ∧ run_Steps obj = run_Steps run ∧
    statusOf (run_Conditions obj) AgenticRunConditionDenied = Some ConditionTrue ∧
    (isTerminal (DerivePhase (run_Conditions run)) = false →
     DerivePhase (run_Conditions obj) = PhaseDenied).
Proof.
  intros Hc Hd H. split; [by eapply stageHandler_unapproved; eauto|].
  assert (Hdeny : ∃ b c msg, runs (auditIf b c ;;; denyAgenticRun run msg) tr o).
  { destruct stage; cbn [stageHandler stageName stageConfigured] in *;
      [unfold handleAnalysis in H|unfold handleExecution in H
      |unfold handleVerification in H|unfold handleEscalation in H].
    2: destruct (rw_Execution resolved); [|done].
    3: destruct (rw_Verification resolved); [|done].
    all: rewrite Hd in H; eauto. }
  destruct Hdeny as (b & c & msg & (tr1 & [] & tr2 & -> & Ha & Hr)%runs_bind).
  apply auditIf_quiet, quiet_no_patches in Ha.
  rewrite statusPatches_app, Ha.
  apply patch_once in Hr as [_ [now ->]]. eexists. split; [done|].
  split; [done|]. simpl. split.
  - apply (statusOf_set_same now _ (NewCondition AgenticRunConditionDenied _ _ _ _)).
  - rewrite (DerivePhase_view (run_Conditions run)). intros Hnt.
    phase_solve (run_Conditions run).
Qed.

(** Steps the workflow does not have are skipped without work: a
    [Proposed] run without execution becomes [Verifying], or [Completed] when
    it has no verification either, and a [Verifying] run without verification
    becomes [Completed]; nothing is launched and one status patch is sent. *)
Theorem skipped_steps stage run resolved approval policy tr o :
  stageConfigured stage resolved = false →
  DerivePhase (run_Conditions run) =
    (if decide (stage = StageExecution) then PhaseProposed else PhaseVerifying) →
  runs (stageHandler stage run resolved approval policy) tr o →
  none launches tr ∧
  ∃ obj, statusPatches tr = [(run, obj)] ∧
    DerivePhase (run_Conditions obj) =
      match rw_Verification resolved with
      | None => PhaseCompleted
      | Some _ => PhaseVerifying
      end.
Proof.
  intros Hc Hp H. rewrite DerivePhase_view in Hp.
  destruct stage; cbn [stageHandler stageConfigured] in *; try done;
    [unfold handleExecution, skipExecution in H|unfold handleVerification in H].
  - destruct (rw_Execution resolved); [done|]. rewrite decide_True in Hp by done.
    destruct (rw_Verification resolved).
    + apply patch_once in H as [Hn [now ->]]. split; [done|]. eexists. split; [done|].
      phase_solve (run_Conditions run).
    + apply runs_bind in H as (t1 & run1 & t2 & -> & Hs & H).
      pose proof (setCondition_quiet _ _ _ _ _ _ _ Hs) as Hq.
      apply setCondition_run in Hs as [now ->].
      apply patch_once in H as [Hn [now2 Hp2]].
      split; [apply none_app; split; [by apply quiet_no_launches|done]|].
      rewrite statusPatches_app, (quiet_no_patches _ Hq), Hp2. eexists. split; [done|].
      phase_solve (run_Conditions run).
  - destruct (rw_Verification resolved); [done|]. rewrite decide_False in Hp by done.
    apply patch_once in H as [Hn [now ->]]. split; [done|]. eexists. split; [done|].
    phase_solve (run_Conditions run).
Qed.

(** A revision starts the workflow over: the status it patches has no
    condition of a later step, an analysis in progress recorded for the
    current generation, no sandbox of the execution and the verification, no
    terminal deadline, and every recorded result; a run that is neither
    emergency-stopped nor denied is [Analyzing], and asks for no further
    revision. *)
Theorem handleRevision_resets run resolved tr o base obj rest :
  runs (handleRevision run resolved) tr o →
  statusPatches tr = (base, obj) :: rest →
  let cs := run_Conditions obj in
  let s := run_Steps obj in
  statusOf cs AgenticRunConditionExecuted = None ∧
  statusOf cs AgenticRunConditionVerified = None ∧
  statusOf cs AgenticRunConditionEscalated = None ∧
  statusOf cs AgenticRunConditionAnalyzed = Some ConditionUnknown ∧
  needsRevision obj = false ∧
  step_Sandbox (steps_Execution s) = emptySandboxInfo ∧
  step_Sandbox (steps_Verification s) = emptySandboxInfo ∧
  status_TerminalTime (run_Status obj) = None ∧ status_DeleteAfter (run_Status obj) = None ∧
  resultsKept base obj ∧
  (statusOf (run_Conditions base) AgenticRunConditionEmergencyStopped ≠ Some ConditionTrue →
   statusOf (run_Conditions base) AgenticRunConditionDenied ≠ Some ConditionTrue →
   DerivePhase cs = PhaseAnalyzing).
Proof.
  unfold handleRevision. intros H Hp.
  destruct (condIs _ _); [by runs_step|].
  apply runs_bind in H as (t1 & cleared & t2 & -> & Hl & H).
  assert (Hq : statusPatches t1 = []).
  { destruct (negb _); [run_last Hl|runs_step]; done. }
  rewrite statusPatches_app, Hq in Hp. simpl in Hp.
  destruct cleared as [base'|e]; [|by runs_step].
  set (run3 := withTerminal _ _ _) in H.
  apply runs_bind in H as (t3 & run4 & t4 & -> & Hs & H).
  pose proof (setCondition_quiet _ _ _ _ _ _ _ Hs) as Hq3.
  apply setCondition_run in Hs as [now ->]. unfold statusPatch in H. run_call H p.
  rewrite statusPatches_app, (quiet_no_patches _ Hq3) in Hp. simpl in Hp.
  injection Hp as -> <- _. cbv zeta. rewrite run_Conditions_with.
  change (run_Conditions run3) with
    (RemoveStatusCondition (RemoveStatusCondition (RemoveStatusCondition
       (run_Conditions base) AgenticRunConditionExecuted) AgenticRunConditionVerified)
       AgenticRunConditionEscalated).
  do 4 (split; [by status_simpl|]). split.
  { by apply needsRevision_set. }
  repeat (split; [done|]). intros He Hd. phase_solve (run_Conditions base).
Qed.
End Phases.
End Handlers.
