(* ===== verification/Suspension.v ===== *)
(** Stopping a run ([handleSuspensionAt] and its helpers in
    [controller/agenticrun/handlers.go], the activation check of
    [suspension_cleanup.go]): the stop is accepted durably first, the sandboxes
    are cleaned up, and the outcome of the stop is recorded once. *)
From stdpp Require Import base list option strings gmap.
From Stdlib Require Import ZArith Lia.
From S2P Require Import Prelude GoText ApiMachinery Types Phase Effects Approval Resolve.
From S2P Require Import Results Helpers Handlers.

Local Open Scope string_scope.
Local Open Scope list_scope.
Local Open Scope prog_scope.

Definition stepSandboxes (run : AgenticRun) : list (string * SandboxInfo) :=
  let s := run_Steps run in
  [ ("analysis", step_Sandbox (steps_Analysis s)); ("execution", step_Sandbox (steps_Execution s));
    ("verification", step_Sandbox (steps_Verification s));
    ("escalation", step_Sandbox (steps_Escalation s)) ].

Definition clearRunSandboxInfo (run : AgenticRun) : AgenticRun :=
  let clear st := withSandbox st emptySandboxInfo in
  let s := run_Steps run in
  withSteps run (MkStepsStatus (clear (steps_Analysis s)) (clear (steps_Execution s))
                   (clear (steps_Verification s)) (clear (steps_Escalation s))).

Definition hasRunSandboxInfo (run : AgenticRun) : bool :=
  existsb (λ '(_, i), negb (String.eqb (sandbox_ClaimName i) "")
                      || negb (String.eqb (sandbox_Namespace i) "")) (stepSandboxes run).

(** The first condition, other than the stop marker, that is [Unknown]. *)
Definition activeCondition (cs : list Condition) : option Condition :=
  List.find (λ c, bool_decide (cond_Status c = ConditionUnknown)
                  && negb (String.eqb (cond_Type c) AgenticRunConditionStopping)) cs.

Definition RemoteExecutionEvidence (run : AgenticRun) : list string :=
  if String.eqb (spec_TargetCluster (run_Spec run)) "" then []
  else
    flat_map (λ '(name, i),
        if negb (String.eqb (sandbox_ClaimName i) "")
        then [name +:+ " sandbox " +:+ sandbox_Namespace i +:+ "/" +:+ sandbox_ClaimName i]
        else []) (stepSandboxes run)
    ++ (if negb (String.eqb (mapGet (run_Annotations run) rbacNamespacesAnnotation) "")
        then ["remote execution RBAC annotation"] else [])
    ++ match activeCondition (run_Conditions run) with
       | Some c => ["active workflow condition " +:+ cond_Type c]
       | None => []
       end.

Section Suspension.
Context `{K : ApiMachinery} (r : AgenticRunReconciler).

Definition SuspensionActivationMatches (config : option AgenticOLSConfig)
    (activation : SuspensionActivation) : bool :=
  match config with
  | None => false
  | Some c =>
      if (negb (String.eqb (act_UID activation) "")
          && negb (String.eqb (meta_UID (config_Meta c)) (act_UID activation)))
         || negb (config_Suspended c)
         || negb (meta_Generation (config_Meta c) =? act_Generation activation)%Z
      then false
      else match FindStatusCondition (config_Conditions c)
                   AgenticOLSConfigConditionSuspended with
           | Some s => bool_decide (cond_Status s = ConditionTrue)
                       && (cond_ObservedGeneration s =? act_Generation activation)%Z
                       && (cond_LastTransitionTime s =? act_Start activation)%Z
           | None => false
           end
  end.

(** [None] when [activation] is current. *)
Definition RequireCurrentActivation (reader : bool) (activation : SuspensionActivation)
    : M (option error) :=
  e <- call ContextErr ;;
  match e with
  | Some err => Ret (Some err)
  | None =>
      if negb reader then
        Ret (Some (errorString
          "uncached API reader is required to verify suspension activation"))
      else
        got <- call (ApiGetConfig "cluster") ;;
        Ret match got with
            | Err err => Some (if IsNotFound err then ErrSuspensionSuperseded else err)
            | Ok current =>
                if negb (SuspensionActivationMatches (Some current) activation)
                then Some ErrSuspensionSuperseded else None
            end
  end.

(** What the three writers return: an error, no run ([nil, nil]) or a run. *)
Abbreviation written := (res (option AgenticRun)).

(** [return nil, client.IgnoreNotFound(err)]. *)
Definition goneOr (err : error) : written :=
  match IgnoreNotFound err with Some e => Err e | None => Ok None end.

(** The tail of an attempt: patch [obj], go round again on a conflict. *)
Definition patchAttempt (obj base : AgenticRun) (what : string) : M (option written) :=
  p <- call (StatusPatchRun base obj) ;;
  Ret match p with
      | Ok current => Some (Ok (Some current))
      | Err err => if IsConflict err then None else Some (Err (wrapError what err))
      end.

Definition withStopping (run : AgenticRun) (now start : Time) : AgenticRun :=
  withConditions run
    (setLastTransitionTime
       (SetStatusCondition now (run_Conditions run)
          (NewCondition AgenticRunConditionStopping ConditionTrue reasonSystemSuspended
             "Stop accepted by global system suspension" (run_Generation run)))
       AgenticRunConditionStopping start).

Definition persistAttempt (key : NamespacedName) (uid : string) (start : Time)
    : M (option written) :=
  got <- call (ApiGetRun key) ;;
  match got with
  | Err err => Ret (Some (goneOr err))
  | Ok current =>
      if negb (String.eqb (run_UID current) uid) then Ret (Some (Ok None))
      else if isTerminal (DerivePhase (run_Conditions current)) || HasAcceptedStop current
      then Ret (Some (Ok (Some current)))
      else
        now <- call Now ;;
        patchAttempt (withStopping current now start) current "persist run stop acceptance"
  end.

Definition persistRunStop (key : NamespacedName) (uid : string) (start : Time) : M written :=
  retry 5 (persistAttempt key uid start)
    (Ret (Err (errorString
       "persist run stop acceptance: status conflict retry limit reached"))).

(** The conditions a final outcome sets on a run in phase [phase]. *)
Definition stopOutcome (run : AgenticRun) (phase : AgenticRunPhase)
    (terminalStopIntent confirmed : bool) : M AgenticRun :=
  if confirmed then
    run1 <- setCondition run AgenticRunConditionStopping ConditionFalse reasonTeardownComplete
              "Sandbox workload and access cleanup confirmed" ;;
    run2 <- (if negb terminalStopIntent then
               setCondition run1 AgenticRunConditionEmergencyStopped ConditionTrue
                 reasonSystemSuspended
                 "Terminated by system kill switch (AgenticOLSConfig.spec.suspended=true)"
             else Ret run1) ;;
    Ret (clearRunSandboxInfo run2)
  else
    run1 <- setCondition run AgenticRunConditionStopping ConditionFalse reasonTeardownFailed
              "Sandbox cleanup remains unconfirmed after the suspension window" ;;
    let condType := suspensionFailureCondition phase in
    if negb terminalStopIntent && negb (String.eqb condType "") then
      setCondition run1 condType ConditionFalse reasonEmergencyStopFailed
        "Sandbox cleanup could not be confirmed; see suspension diagnostics"
    else Ret run1.

Definition outcomeAttempt (key : NamespacedName) (uid : string) (confirmed : bool)
    : M (option written) :=
  got <- call (ApiGetRun key) ;;
  match got with
  | Err err => Ret (Some (goneOr err))
  | Ok current =>
      if negb (String.eqb (run_UID current) uid) then Ret (Some (Ok None))
      else if HasFinalStopOutcome current then Ret (Some (Ok (Some current)))
      else
        let phase := DerivePhase (run_Conditions current) in
        let stopping := find current AgenticRunConditionStopping in
        let terminalStopIntent :=
          isTerminal phase && condHas stopping ConditionTrue reasonSystemSuspended in
        if isTerminal phase && negb terminalStopIntent then Ret (Some (Ok (Some current)))
        else if negb (HasAcceptedStop current) then Ret (Some (Ok (Some current)))
        else
          obj <- stopOutcome current phase terminalStopIntent confirmed ;;
          patchAttempt obj current "persist run suspension outcome"
  end.

Definition writeSuspensionOutcome (key : NamespacedName) (uid : string) (confirmed : bool)
    : M written :=
  retry 5 (outcomeAttempt key uid confirmed)
    (Ret (Err (errorString
       "persist run suspension outcome: status conflict retry limit reached"))).

Definition clearAttempt (key : NamespacedName) (uid : string) : M (option written) :=
  got <- call (ApiGetRun key) ;;
  match got with
  | Err err => Ret (Some (goneOr err))
  | Ok current =>
      if negb (String.eqb (run_UID current) uid) then Ret (Some (Ok None))
      else if negb (hasRunSandboxInfo current) then Ret (Some (Ok (Some current)))
      else patchAttempt (clearRunSandboxInfo current) current
             "clear confirmed sandbox references"
  end.

(** The method [clearRunSandboxInfo] of the reconciler. *)
Definition clearSandboxReferences (key : NamespacedName) (uid : string) : M written :=
  retry 5 (clearAttempt key uid)
    (Ret (Err (errorString
       "clear confirmed sandbox references: status conflict retry limit reached"))).

Definition suspensionCleanupPass (run : AgenticRun) (timeout : Duration)
    : M (SuspensionCleanup * option error * list string) :=
  call (ContextWithTimeout timeout) ;;;
  let! (report, cleanupErr) := call (CleanupSuspension (run_UID run) None) in
  let remoteEvidence := RemoteExecutionEvidence run in
  (if negb (length remoteEvidence =? 0)%nat && r_Agent r
   then call (ReleaseSandboxes run true) ;;; Ret tt
   else Ret tt) ;;;
  Ret (report, cleanupErr, remoteEvidence).

(** [cleanupErr == nil && report.Confirmed() && len(remoteEvidence) == 0]. *)
Definition passConfirmed (pass : SuspensionCleanup * option error * list string) : bool :=
  let '(report, cleanupErr, remoteEvidence) := pass in
  bool_decide (cleanupErr = None) && Confirmed report && (length remoteEvidence =? 0)%nat.

(** [stopStart.Add(SuspensionStopWindow).Sub(r.now())]. *)
Definition readRemaining (stopStart : Time) : M Duration :=
  now <- call Now ;; Ret (Time_Sub (Time_Add stopStart SuspensionStopWindow) now).

Definition historicalTerminal (run : AgenticRun) : bool :=
  isTerminal (DerivePhase (run_Conditions run)) && negb (HasAcceptedStop run).

(** When the stop started: the time of a recorded stop, or of the activation. *)
Definition stopStartOf (run : AgenticRun) (activationStart : Time) : Time :=
  match find run AgenticRunConditionStopping with
  | Some s =>
      if bool_decide (cond_Status s = ConditionTrue)
         && String.eqb (cond_Reason s) reasonSystemSuspended
         && negb (Time_IsZero (cond_LastTransitionTime s))
      then cond_LastTransitionTime s else activationStart
  | None => activationStart
  end.

(** [if updated != nil { *run = *updated }]. *)
Definition orRun (updated : option AgenticRun) (run : AgenticRun) : AgenticRun :=
  default run updated.

(** Handlers that go on with a mutated run return it. *)
Definition suspended : Type := outcome * AgenticRun.

(** The stop window is over: the failed outcome is written first, then the
    cleanup goes on in the background. *)
Definition stopExpired (key : NamespacedName) (run : AgenticRun) : M suspended :=
  w <- writeSuspensionOutcome key (run_UID run) false ;;
  match w with
  | Err err => Ret (fail err, run)
  | Ok None => Ret (ok emptyResult, run)
  | Ok (Some current) =>
      pass <- suspensionCleanupPass current cleanupTimeout ;;
      if passConfirmed pass then
        c <- clearSandboxReferences key (run_UID current) ;;
        Ret match c with
            | Err err => (fail err, current)
            | Ok cleaned => (ok (requeueAfter suspensionRequeueAfter), orRun cleaned current)
            end
      else Ret (ok (requeueAfter suspensionRequeueAfter), current)
  end.

(** The cleanup is confirmed: record it. *)
Definition stopConfirmed (key : NamespacedName) (run : AgenticRun) : M suspended :=
  w <- (if negb (historicalTerminal run) && negb (HasFinalStopOutcome run)
        then writeSuspensionOutcome key (run_UID run) true
        else clearSandboxReferences key (run_UID run)) ;;
  Ret match w with
      | Err err => (fail err, run)
      | Ok updated => (ok emptyResult, orRun updated run)
      end.

(** The cleanup is not confirmed: fail the stop at its deadline, or requeue. *)
Definition stopUnconfirmed (key : NamespacedName) (run : AgenticRun) (stopStart : Time)
    : M suspended :=
  deadlineReached <-
    (if Time_IsZero stopStart then Ret false
     else now <- call Now ;;
          Ret (negb (Time_Before now (Time_Add stopStart SuspensionStopWindow)))) ;;
  if deadlineReached && negb (historicalTerminal run) && negb (HasFinalStopOutcome run) then
    w <- writeSuspensionOutcome key (run_UID run) false ;;
    Ret match w with
        | Err err => (fail err, run)
        | Ok updated => (ok (requeueAfter suspensionRequeueAfter), orRun updated run)
        end
  else if Time_IsZero stopStart then Ret (ok (requeueAfter suspensionRequeueAfter), run)
  else
    remaining <- readRemaining stopStart ;;
    Ret (ok (requeueAfter
               (if (0 <? remaining)%Z && (remaining <? suspensionRequeueAfter)%Z
                then remaining else suspensionRequeueAfter)), run).

(** From the durable acceptance of the stop (or a historical end) on. *)
Definition stopAccepted (key : NamespacedName) (current : AgenticRun)
    (stopStart : Time) (remaining0 : Duration) : M suspended :=
  let finalOutcome := HasFinalStopOutcome current in
  remaining <-
    (if negb (Time_IsZero stopStart) && negb finalOutcome then readRemaining stopStart
     else Ret remaining0) ;;
  if negb (historicalTerminal current) && negb finalOutcome
     && negb (Time_IsZero stopStart) && (remaining <=? 0)%Z
  then stopExpired key current
  else
    let passTimeout :=
      if (0 <? remaining)%Z && negb finalOutcome then remaining else cleanupTimeout in
    pass <- suspensionCleanupPass current passTimeout ;;
    got <- call (ApiGetRun key) ;;
    match got with
    | Err err => Ret ((emptyResult, IgnoreNotFound err), current)
    | Ok current' =>
        if negb (String.eqb (run_UID current') (run_UID current)) then Ret (ok emptyResult, current)
        else if passConfirmed pass then stopConfirmed key current'
        else stopUnconfirmed key current' stopStart
    end.

Definition handleSuspensionAt (run : AgenticRun) (activationStart : Time) : M suspended :=
  if negb (r_APIReader r) then
    Ret (fail (errorString "uncached API reader is required for suspension cleanup"), run)
  else if negb (r_Sandbox r) then
    Ret (fail (errorString "sandbox manager is required for suspension cleanup"), run)
  else
    let key := run_Key run in
    got <- call (ApiGetRun key) ;;
    match got with
    | Err err => Ret ((emptyResult, IgnoreNotFound err), run)
    | Ok current =>
        if negb (String.eqb (run_UID current) (run_UID run)) then Ret (ok emptyResult, run)
        else if String.eqb (run_UID current) "" then
          Ret (fail (errorString "run UID is required for suspension cleanup"), run)
        else
          let stopStart := stopStartOf current activationStart in
          remaining <- (if Time_IsZero stopStart then Ret 0%Z else readRemaining stopStart) ;;
          if negb (historicalTerminal current) && negb (HasAcceptedStop current) then
            if Time_IsZero stopStart || (remaining <=? 0)%Z then
              Ret (ok (requeueAfter suspensionRequeueAfter), current)
            else
              call (ContextWithTimeout remaining) ;;;
              w <- persistRunStop key (run_UID current) stopStart ;;
              match w with
              | Err err => Ret (fail err, current)
              | Ok None => Ret (ok emptyResult, current)
              | Ok (Some updated) => stopAccepted key updated stopStart remaining
              end
          else stopAccepted key current stopStart remaining
    end.

(** ** The steps of a stop *)
Section Steps.
Context {KL : ApiMachineryLaws K}.

Lemma condHas_spec run typ status reason :
  condHas (find run typ) status reason = true ↔
  ∃ c, firstCondition (run_Conditions run) typ = Some c ∧ cond_Status c = status ∧
       cond_Reason c = reason.
Proof.
  unfold find. rewrite FindStatusCondition_first. unfold condHas.
  destruct (firstCondition _ _); [|naive_solver]. rewrite andb_true_iff,
    bool_decide_eq_true, String.eqb_eq. naive_solver.
Qed.

Lemma condIs_spec run typ status :
  condIs (find run typ) status = true ↔ statusOf (run_Conditions run) typ = Some status.
Proof.
  unfold find, condIs, statusOf. rewrite FindStatusCondition_first.
  destruct (firstCondition _ _); simpl; [|done]. rewrite bool_decide_eq_true. naive_solver.
Qed.

(** A stop has been accepted and not yet concluded. *)
Definition stopPending (run : AgenticRun) : bool :=
  condHas (find run AgenticRunConditionStopping) ConditionTrue reasonSystemSuspended.

Lemma HasAcceptedStop_orb run :
  HasAcceptedStop run = stopPending run || HasFinalStopOutcome run.
Proof. unfold HasAcceptedStop, stopPending. by destruct (condHas _ _ _). Qed.

(** The three writes of a stop. *)
Definition acceptStep (base obj : AgenticRun) : Prop :=
  isTerminal (DerivePhase (run_Conditions base)) = false ∧
  HasAcceptedStop base = false ∧ stopPending obj = true ∧
  DerivePhase (run_Conditions obj) = DerivePhase (run_Conditions base) ∧
  run_Steps obj = run_Steps base ∧
  forward (run_Conditions base) (run_Conditions obj).

Definition outcomeStep (confirmed : bool) (base obj : AgenticRun) : Prop :=
  stopPending base = true ∧ HasFinalStopOutcome base = false ∧
  condHas (find obj AgenticRunConditionStopping) ConditionFalse
    (if confirmed then reasonTeardownComplete else reasonTeardownFailed) = true ∧
  DerivePhase (run_Conditions obj) =
    (if isTerminal (DerivePhase (run_Conditions base))
     then DerivePhase (run_Conditions base)
     else if confirmed then PhaseEmergencyStopped else PhaseFailed) ∧
  run_Steps obj = run_Steps (if confirmed then clearRunSandboxInfo base else base) ∧
  forward (run_Conditions base) (run_Conditions obj).

Definition clearStep (base obj : AgenticRun) : Prop :=
  run_Conditions obj = run_Conditions base ∧
  run_Steps obj = run_Steps (clearRunSandboxInfo base).

Lemma withStopping_step base now start :
  isTerminal (DerivePhase (run_Conditions base)) = false →
  HasAcceptedStop base = false → acceptStep base (withStopping base now start).
Proof.
  intros Hnt Ha. split; [done|]. split; [done|]. split; [|split; [|split; [done|]]].
  - apply condHas_spec. unfold withStopping. rewrite run_Conditions_with.
    rewrite setLastTransitionTime_same.
    destruct (SetStatusCondition_fields now (run_Conditions base)
      (NewCondition AgenticRunConditionStopping ConditionTrue reasonSystemSuspended
         "Stop accepted by global system suspension" (run_Generation base))) as [t Ht].
    simpl in Ht. rewrite Ht. by eexists.
  - rewrite (DerivePhase_view (run_Conditions base)). unfold withStopping.
    rewrite run_Conditions_with, DerivePhase_view. by status_simpl.
  - unfold withStopping. rewrite run_Conditions_with.
    eapply forward_trans; [apply forward_stopping|apply forward_setTime].
Qed.

Lemma suspensionFailure_type phase :
  suspensionFailureCondition phase ≠ AgenticRunConditionStopping.
Proof. by destruct phase. Qed.

Lemma suspensionFailure_empty phase :
  isTerminal phase = false → suspensionFailureCondition phase ≠ "".
Proof. by destruct phase. Qed.

Lemma suspensionFailure_step phase :
  suspensionFailureCondition phase ≠ "" →
  suspensionFailureCondition phase ∈
    [AgenticRunConditionAnalyzed; AgenticRunConditionExecuted;
     AgenticRunConditionVerified; AgenticRunConditionEscalated].
Proof. destruct phase; try done; intros _; decide_closed. Qed.

(** A marker with a teardown reason is a final outcome. *)
Lemma outcomeStep_final confirmed base obj :
  outcomeStep confirmed base obj → HasFinalStopOutcome obj = true.
Proof.
  intros (_ & _ & Hc & _). unfold HasFinalStopOutcome.
  destruct confirmed; rewrite Hc; [done|by rewrite orb_true_r].
Qed.

Lemma stopping_marker obj c status reason :
  firstCondition (run_Conditions obj) AgenticRunConditionStopping = Some c →
  cond_Status c = status → cond_Reason c = reason →
  condHas (find obj AgenticRunConditionStopping) status reason = true.
Proof. intros. apply condHas_spec. eauto. Qed.

Lemma set_stopping_first now cs status reason msg gen :
  ∃ t, firstCondition (SetStatusCondition now cs
         (NewCondition AgenticRunConditionStopping status reason msg gen))
         AgenticRunConditionStopping
       = Some (withLastTransitionTime
           (NewCondition AgenticRunConditionStopping status reason msg gen) t).
Proof.
  apply (SetStatusCondition_fields now cs
           (NewCondition AgenticRunConditionStopping status reason msg gen)).
Qed.

Lemma DerivePhase_stopping now cs status reason msg gen :
  DerivePhase (SetStatusCondition now cs
    (NewCondition AgenticRunConditionStopping status reason msg gen)) = DerivePhase cs.
Proof. apply DerivePhase_set_transparent. decide_closed. Qed.

Lemma stopOutcome_step base confirmed tr obj :
  HasAcceptedStop base = true → HasFinalStopOutcome base = false →
  runs (stopOutcome base (DerivePhase (run_Conditions base))
          (isTerminal (DerivePhase (run_Conditions base))) confirmed) tr obj →
  Forall quiet tr ∧ outcomeStep confirmed base obj.
Proof.
  intros Ha Hf. rewrite HasAcceptedStop_orb, Hf, orb_false_r in Ha.
  assert (Hbase : statusOf (run_Conditions base) AgenticRunConditionEmergencyStopped
                  ≠ Some ConditionTrue).
  { intros He%condIs_spec. unfold HasFinalStopOutcome in Hf. rewrite He in Hf.
    by destruct (_ || _) in Hf. }
  destruct (isTerminal (DerivePhase (run_Conditions base))) eqn:Ht;
    unfold stopOutcome; destruct confirmed; cbn [negb andb].
  - intros (t1 & run1 & t2 & -> & Hs & H)%runs_bind.
    pose proof (setCondition_quiet _ _ _ _ _ _ _ Hs) as Hq.
    apply setCondition_run in Hs as [now ->]. repeat runs_step.
    rewrite app_nil_r. split; [done|].
    destruct (set_stopping_first now (run_Conditions base) ConditionFalse
      reasonTeardownComplete "Sandbox workload and access cleanup confirmed"
      (run_Generation base)) as [t Hfst].
    split; [done|]. split; [done|]. split; [by eapply stopping_marker; [exact Hfst|..]|].
    rewrite Ht. split; [apply DerivePhase_stopping|]. split; [done|apply forward_stopping].
  - intros (t1 & run1 & t2 & -> & Hs & H)%runs_bind.
    pose proof (setCondition_quiet _ _ _ _ _ _ _ Hs) as Hq.
    apply setCondition_run in Hs as [now ->]. repeat runs_step.
    rewrite app_nil_r. split; [done|].
    edestruct (set_stopping_first now (run_Conditions base)) as [t Hfst].
    split; [done|]. split; [done|]. split; [by eapply stopping_marker; [exact Hfst|..]|].
    rewrite Ht. split; [apply DerivePhase_stopping|]. split; [done|apply forward_stopping].
  - intros (t1 & run1 & t2 & -> & Hs & H)%runs_bind.
    pose proof (setCondition_quiet _ _ _ _ _ _ _ Hs) as Hq.
    apply setCondition_run in Hs as [now ->].
    apply runs_bind in H as (t3 & run2 & t4 & -> & Hs & H).
    pose proof (setCondition_quiet _ _ _ _ _ _ _ Hs) as Hq2.
    apply setCondition_run in Hs as [now2 ->]. runs_step. rewrite app_nil_r.
    split; [by apply Forall_app|]. split; [done|]. split; [done|]. split; [|split; [|split; [done|]]].
    + edestruct (set_stopping_first now (run_Conditions base)) as [t Hfst].
      eapply stopping_marker;
        [etrans; [apply SetStatusCondition_other; done|exact Hfst]|done|done].
    + rewrite Ht. change (run_Conditions (clearRunSandboxInfo ?x)) with (run_Conditions x).
      phase_solve (run_Conditions base).
    + eapply forward_trans; [apply forward_stopping|apply forward_flag; decide_closed].
  - intros (t1 & run1 & t2 & -> & Hs & H)%runs_bind.
    pose proof (setCondition_quiet _ _ _ _ _ _ _ Hs) as Hq.
    apply setCondition_run in Hs as [now ->].
    destruct (String.eqb_spec (suspensionFailureCondition
      (DerivePhase (run_Conditions base))) "") as [He|Hne];
      [by apply suspensionFailure_empty in He|].
    pose proof (setCondition_quiet _ _ _ _ _ _ _ H) as Hq2.
    apply setCondition_run in H as [now2 ->].
    split; [by apply Forall_app|]. split; [done|]. split; [done|]. split; [|split; [|split; [done|]]].
    + edestruct (set_stopping_first now (run_Conditions base)) as [t Hfst].
      eapply stopping_marker;
        [etrans; [apply SetStatusCondition_other, not_eq_sym, suspensionFailure_type
                 |exact Hfst]|done|done].
    + rewrite Ht, !run_Conditions_with.
      rewrite <- (DerivePhase_stopping now (run_Conditions base) ConditionFalse
        reasonTeardownFailed
        "Sandbox cleanup remains unconfirmed after the suspension window"
        (run_Generation base)).
      apply DerivePhase_fail. by rewrite DerivePhase_stopping.
    + eapply forward_trans; [apply forward_stopping|].
      apply forward_fail, suspensionFailure_step. done.
Qed.

(** An event that launches nothing and whose status patches are in [P]; other
    writes of a run are excluded. *)
Definition patchesOnly (P : AgenticRun → AgenticRun → Prop) (ev : event answer) : Prop :=
  launches ev = false ∧
  match ev with
  | Ev (StatusPatchRun base obj) _ => P base obj
  | Ev (PatchRun _ _ _) _ | Ev (DeleteRun _) _ => False
  | _ => True
  end.

Lemma quiet_patchesOnly P ev : quiet ev → patchesOnly P ev.
Proof. unfold quiet, patchesOnly. by destruct ev as [[] ?]; simpl; intros [? ?]. Qed.

Lemma patchAttempt_emits (P : AgenticRun → AgenticRun → Prop) obj base what :
  P base obj → emits (patchesOnly P) (patchAttempt obj base what).
Proof. intros HP. unfold patchAttempt. emits_walk ltac:(by split). Qed.

Lemma persistRunStop_emits key uid start :
  emits (patchesOnly acceptStep) (persistRunStop key uid start).
Proof.
  apply emits_retry; [|apply emits_ret]. unfold persistAttempt.
  emits_walk ltac:(by split). apply patchAttempt_emits. bool_hyps.
  by apply withStopping_step.
Qed.

Lemma writeSuspensionOutcome_emits key uid confirmed :
  emits (patchesOnly (outcomeStep confirmed)) (writeSuspensionOutcome key uid confirmed).
Proof.
  apply emits_retry; [|apply emits_ret]. unfold outcomeAttempt.
  apply emits_bind; [emits_walk ltac:(by split)|]. intros [current|err]; [|apply emits_ret].
  destruct (negb (String.eqb _ _)); [apply emits_ret|].
  destruct (HasFinalStopOutcome current) eqn:Hf; [apply emits_ret|].
  destruct (isTerminal _ && negb _) eqn:Hti; [apply emits_ret|].
  destruct (negb (HasAcceptedStop current)) eqn:Ha; [apply emits_ret|].
  apply negb_false_iff in Ha.
  assert (Hint : isTerminal (DerivePhase (run_Conditions current)) &&
    condHas (find current AgenticRunConditionStopping) ConditionTrue reasonSystemSuspended
    = isTerminal (DerivePhase (run_Conditions current))).
  { pose proof Ha as Hp. rewrite HasAcceptedStop_orb, Hf, orb_false_r in Hp.
    unfold stopPending in Hp. by rewrite Hp, andb_true_r. }
  rewrite Hint. intros tr o (tr1 & obj & tr2 & -> & Hs & H)%runs_bind.
  apply stopOutcome_step in Hs as [Hq Hst]; [|done..].
  apply Forall_app; split; [|by eapply patchAttempt_emits].
  eapply Forall_impl; [exact Hq|apply quiet_patchesOnly].
Qed.

Lemma clearSandboxReferences_emits key uid :
  emits (patchesOnly clearStep) (clearSandboxReferences key uid).
Proof.
  apply emits_retry; [|apply emits_ret]. unfold clearAttempt.
  emits_walk ltac:(by split). by apply patchAttempt_emits.
Qed.

Lemma suspensionCleanupPass_quiet run d : emits quiet (suspensionCleanupPass run d).
Proof. unfold suspensionCleanupPass. emits_walk done. Qed.

(** ** The order of a stop *)

(** A cleanup pass that left nothing pending, failed or unverified. *)
Definition confirmedPass (ev : event answer) : bool :=
  match ev with
  | Ev (CleanupSuspension _ _) (report, None) => Confirmed report
  | _ => false
  end.

(** Evidence that the stop is durable: the run was read terminal or accepted,
    or the API server took the acceptance. *)
Definition acceptedEvent (ev : event answer) : bool :=
  match ev with
  | Ev (ApiGetRun _) (Ok run) =>
      isTerminal (DerivePhase (run_Conditions run)) || HasAcceptedStop run
  | Ev (StatusPatchRun _ obj) (Ok _) => stopPending obj
  | _ => false
  end.

(** The calls that take sandboxes down. *)
Definition tearsDown (ev : event answer) : bool :=
  match ev with
  | Ev (CleanupSuspension _ _) _ | Ev (ReleaseSandboxes _ _) _ | Ev (ReleaseSandbox _ _) _ =>
      true
  | _ => false
  end.

Definition early : event answer → Prop :=
  patchesOnly (λ b o, acceptStep b o ∨ outcomeStep false b o).
Definition late : event answer → Prop :=
  patchesOnly (λ b o, outcomeStep true b o ∨ clearStep b o).

Lemma patchesOnly_mono (P Q : AgenticRun → AgenticRun → Prop) ev :
  (∀ b o, P b o → Q b o) → patchesOnly P ev → patchesOnly Q ev.
Proof. unfold patchesOnly. intros HPQ [? H]. split; [done|]. destruct ev as [[] ?]; auto. Qed.

Lemma ordered_early seen tr : Forall early tr → ordered early late confirmedPass seen tr.
Proof. apply ordered_Forall. Qed.

Lemma ordered_late tr : Forall late tr → ordered early late confirmedPass true tr.
Proof. intros H. apply ordered_seen. eapply Forall_impl; [exact H|by right]. Qed.

Lemma quiet_early tr : Forall quiet tr → Forall early tr.
Proof. intros H. eapply Forall_impl; [exact H|apply quiet_patchesOnly]. Qed.

Lemma writeFailed_early key uid tr w :
  runs (writeSuspensionOutcome key uid false) tr w → Forall early tr.
Proof.
  intros H%writeSuspensionOutcome_emits. eapply Forall_impl; [exact H|].
  intros ev. apply patchesOnly_mono. auto.
Qed.

Lemma writeConfirmed_late key uid tr w :
  runs (writeSuspensionOutcome key uid true) tr w → Forall late tr.
Proof.
  intros H%writeSuspensionOutcome_emits. eapply Forall_impl; [exact H|].
  intros ev. apply patchesOnly_mono. auto.
Qed.

Lemma clear_late key uid tr w : runs (clearSandboxReferences key uid) tr w → Forall late tr.
Proof.
  intros H%clearSandboxReferences_emits. eapply Forall_impl; [exact H|].
  intros ev. apply patchesOnly_mono. auto.
Qed.

Lemma pass_confirmed run d tr pass :
  runs (suspensionCleanupPass run d) tr pass → passConfirmed pass = true →
  existsb confirmedPass tr = true.
Proof.
  unfold suspensionCleanupPass. intros H Hc. run_call H u. run_call H a.
  destruct a as [report err]. apply runs_bind in H as (t1 & [] & t2 & -> & _ & H).
  runs_step. unfold passConfirmed in Hc. bool_hyps. subst. simpl.
  match goal with Hr : Confirmed report = true |- _ => by rewrite Hr end.
Qed.

Lemma stopExpired_ordered key run tr v :
  runs (stopExpired key run) tr v → ordered early late confirmedPass false tr.
Proof.
  unfold stopExpired. intros (t1 & w & t2 & -> & Hw & H)%runs_bind.
  apply writeFailed_early in Hw. apply ordered_app; split; [by apply ordered_early|].
  apply ordered_mono. destruct w as [[current|]|e]; [|by runs_step..].
  apply runs_bind in H as (t3 & pass & t4 & -> & Hp & H).
  pose proof (suspensionCleanupPass_quiet _ _ _ _ Hp) as Hq%quiet_early.
  apply ordered_app; split; [by apply ordered_early|].
  destruct (passConfirmed pass) eqn:Hc; [|by runs_step].
  rewrite (pass_confirmed _ _ _ _ Hp Hc). simpl.
  apply runs_bind in H as (t5 & c & t6 & -> & Hcl & H). runs_step.
  rewrite app_nil_r. apply ordered_late. by eapply clear_late.
Qed.

Lemma stopUnconfirmed_early key run start tr v :
  runs (stopUnconfirmed key run start) tr v → Forall early tr.
Proof.
  unfold stopUnconfirmed. intros (t1 & dl & t2 & -> & Hd & H)%runs_bind.
  apply Forall_app; split.
  - apply quiet_early. destruct (Time_IsZero start); [by runs_step|].
    run_call Hd now. runs_step. by repeat constructor.
  - run_if H.
    + apply runs_bind in H as (t3 & w & t4 & -> & Hw & H). runs_step. rewrite app_nil_r.
      by eapply writeFailed_early.
    + run_if H; [by runs_step|]. unfold readRemaining in H.
      apply quiet_early. repeat runs_step. by repeat constructor.
Qed.

Lemma stopAccepted_ordered key current start d tr v :
  runs (stopAccepted key current start d) tr v → ordered early late confirmedPass false tr.
Proof.
  unfold stopAccepted. intros (t1 & rem & t2 & -> & Hr & H)%runs_bind.
  assert (Hq : Forall quiet t1).
  { clear H. run_if Hr; [unfold readRemaining in Hr|]; repeat runs_step; by repeat constructor. }
  apply ordered_app; split; [by apply ordered_early, quiet_early|].
  apply ordered_mono. run_if H; [by eapply stopExpired_ordered|].
  apply runs_bind in H as (t3 & pass & t4 & -> & Hp & H).
  pose proof (suspensionCleanupPass_quiet _ _ _ _ Hp) as Hq3%quiet_early.
  apply ordered_app; split; [by apply ordered_early|].
  run_call H got. split; [by left|]. rewrite orb_false_r.
  destruct got as [cur|e]; [|by runs_step].
  run_if H; [by runs_step|].
  destruct (passConfirmed pass) eqn:Hc.
  - rewrite (pass_confirmed _ _ _ _ Hp Hc). simpl. unfold stopConfirmed in H.
    apply runs_bind in H as (t5 & w & t6 & -> & Hw & H). runs_step.
    rewrite app_nil_r. apply ordered_late.
    run_if Hw; [by eapply writeConfirmed_late|by eapply clear_late].
  - by eapply ordered_early, stopUnconfirmed_early.
Qed.

Lemma persistRunStop_no_teardown key uid start :
  emits (λ ev, tearsDown ev = false) (persistRunStop key uid start).
Proof.
  apply emits_retry; [|apply emits_ret]. unfold persistAttempt, patchAttempt. emits_walk done.
Qed.

Lemma persistRunStop_early key uid start tr w :
  runs (persistRunStop key uid start) tr w → Forall early tr.
Proof.
  intros H%persistRunStop_emits. eapply Forall_impl; [exact H|].
  intros ev. apply patchesOnly_mono. auto.
Qed.

(** A run [persistRunStop] returns is terminal or its stop is durable. *)
Lemma persistRunStop_accepted key uid start tr current :
  runs (persistRunStop key uid start) tr (Ok (Some current)) →
  existsb acceptedEvent tr = true.
Proof.
  intros H. eapply (retry_inv (λ tr o, o = Some (Ok (Some current)) →
    existsb acceptedEvent tr = true)) in H.
  - destruct H as (trs & tr' & -> & _ & _ & [Ha|[_ He]]); [|by runs_step].
    rewrite existsb_app, (Ha eq_refl). apply orb_true_r.
  - clear H tr. intros tr o H ->. unfold persistAttempt in H. run_call H got.
    destruct got as [cur|e]; cycle 1.
    { runs_step. unfold goneOr in *. by destruct (IgnoreNotFound e). }
    run_if H; [by runs_step|]. run_if H.
    + runs_step. simplify_eq. simpl. by rewrite Hb0.
    + run_call H now. unfold patchAttempt in H. run_call H p. bool_hyps.
      destruct p as [p|e]; [|runs_step; by destruct (IsConflict e)].
      simpl. replace (stopPending _) with true; [by rewrite orb_true_r|].
      symmetry. by apply withStopping_step.
Qed.

(** Either the stop gets no further than its acceptance, or it is durable and
    the second part of the handler runs. *)
Lemma handleSuspensionAt_shape run activationStart tr v :
  runs (handleSuspensionAt run activationStart) tr v →
  (Forall early tr ∧ none tearsDown tr) ∨
  ∃ tr1 tr2 current start d, tr = tr1 ++ tr2 ∧ Forall early tr1 ∧ none tearsDown tr1 ∧
    existsb acceptedEvent tr1 = true ∧ runs (stopAccepted (run_Key run) current start d) tr2 v.
Proof.
  unfold handleSuspensionAt. intros H.
  run_if H; [left; by runs_step|]. run_if H; [left; by runs_step|].
  run_call H got. assert (Hearly0 : ∀ ev, quiet ev → early ev)
    by (intros ev; apply quiet_patchesOnly).
  destruct got as [current|e]; [|runs_step; left; by repeat constructor].
  run_if H; [runs_step; left; by repeat constructor|].
  run_if H; [runs_step; left; by repeat constructor|].
  apply runs_bind in H as (t1 & rem & t2 & -> & Hr & H).
  assert (Hq : Forall quiet t1 ∧ none tearsDown t1).
  { clear H. run_if Hr; [|unfold readRemaining in Hr]; repeat runs_step; by repeat constructor. }
  destruct Hq as [Hq Hn].
  set (get := Ev (ApiGetRun (run_Key run)) (Ok current)).
  assert (Hpre : Forall early (get :: t1) ∧ none tearsDown (get :: t1)).
  { split; [constructor; [by split|by apply quiet_early]|by apply none_cons]. }
  destruct Hpre as [Hpe Hpn]. run_if H.
  - run_if H; [runs_step; left; by rewrite app_nil_r|].
    run_call H u. apply runs_bind in H as (t3 & w & t4 & -> & Hw & H).
    pose proof (persistRunStop_early _ _ _ _ _ Hw) as He.
    pose proof (persistRunStop_no_teardown _ _ _ _ _ Hw) as Hnt.
    assert (Hall : Forall early (get :: t1 ++ Ev (ContextWithTimeout rem) u :: t3) ∧
      none tearsDown (get :: t1 ++ Ev (ContextWithTimeout rem) u :: t3)).
    { rewrite app_comm_cons. split; [apply Forall_app; split; [done|]; by constructor|].
      apply none_app; split; [done|]. by apply none_cons. }
    destruct Hall as [Hall1 Hall2].
    destruct w as [[updated|]|e].
    + right. exists (get :: t1 ++ Ev (ContextWithTimeout rem) u :: t3), t4, updated.
      do 2 eexists. split; [by rewrite <- app_comm_cons, <- app_assoc|].
      split; [done|]. split; [done|]. split; [|exact H].
      simpl. rewrite existsb_app. simpl.
      by rewrite (persistRunStop_accepted _ _ _ _ _ Hw), !orb_true_r.
    + left. runs_step. by rewrite app_nil_r.
    + left. runs_step. by rewrite app_nil_r.
  - right. exists (get :: t1), t2, current. do 2 eexists.
    split; [done|]. split; [done|]. split; [done|]. split; [|exact H].
    unfold historicalTerminal in *. simpl.
    destruct (isTerminal (DerivePhase (run_Conditions current))),
      (HasAcceptedStop current); done.
Qed.

Lemma handleSuspensionAt_ordered run activationStart tr v :
  runs (handleSuspensionAt run activationStart) tr v →
  ordered early late confirmedPass false tr.
Proof.
  intros [[He _]|(tr1 & tr2 & cur & start & d & -> & He & _ & _ & H)]%handleSuspensionAt_shape.
  - by apply ordered_early.
  - apply ordered_app; split; [by apply ordered_early|].
    by eapply ordered_mono, stopAccepted_ordered.
Qed.

Lemma handleSuspensionAt_steps_of run activationStart tr v :
  runs (handleSuspensionAt run activationStart) tr v →
  none launches tr ∧
  ∀ ev, ev ∈ tr → writesRun ev = true →
    ∃ base obj ans, ev = Ev (StatusPatchRun base obj) ans ∧
      (acceptStep base obj ∨ (∃ confirmed, outcomeStep confirmed base obj) ∨
       clearStep base obj).
Proof.
  intros H%handleSuspensionAt_ordered.
  pose proof (ordered_all _ _ _ _ _ H) as Hall.
  rewrite Forall_forall in Hall. split.
  - apply Forall_forall. by intros ev [[? _]|[? _]]%Hall.
  - intros ev Hin Hw. apply Hall in Hin.
    destruct ev as [[] ans]; try done; destruct Hin as [[_ Hs]|[_ Hs]]; try done;
      do 3 eexists; (split; [done|]); naive_solver.
Qed.

(** C18: stopping a run writes nothing but the three steps of a stop: accept it
    on a run at work, conclude an accepted stop (emergency-stopped when the
    cleanup is confirmed, failed when it is not, a terminal phase kept), and
    clear sandbox references; none of them takes a step of the workflow back; it
    launches no work, changes no metadata and deletes nothing, whatever the API
    server answers. *)
Theorem handleSuspensionAt_steps run activationStart tr v :
  runs (handleSuspensionAt run activationStart) tr v →
  none launches tr ∧
  ∀ ev, ev ∈ tr → writesRun ev = true →
    ∃ base obj ans, ev = Ev (StatusPatchRun base obj) ans ∧
      (acceptStep base obj ∨ (∃ confirmed, outcomeStep confirmed base obj) ∨
       clearStep base obj).
Proof. apply handleSuspensionAt_steps_of. Qed.

Lemma confirmed_pass_before run activationStart v tr1 base obj ans tr2 :
  runs (handleSuspensionAt run activationStart)
    (tr1 ++ Ev (StatusPatchRun base obj) ans :: tr2) v →
  condHas (find obj AgenticRunConditionStopping) ConditionFalse reasonTeardownComplete = true
    ∨ run_Steps obj ≠ run_Steps base →
  ∃ uid activation report,
    Ev (CleanupSuspension uid activation) (report, None) ∈ tr1 ∧ Confirmed report = true.
Proof.
  intros H%handleSuspensionAt_ordered Hobs.
  apply ordered_before in H as [_ (ev0 & Hin & Ht)].
  - destruct ev0 as [[] a0]; try done. destruct a0 as [report [e|]]; [done|eauto].
  - intros [_ [(_ & _ & Hp & _ & Hs & _)|(_ & _ & Hf & _ & Hs & _)]]; destruct Hobs as [Ho|Ho];
      try (by apply Ho).
    + apply condHas_spec in Hp as (c & Hc & Hst & _).
      apply condHas_spec in Ho as (c' & Hc' & Hst' & _). simplify_eq. congruence.
    + apply condHas_spec in Hf as (c & Hc & _ & Hr).
      apply condHas_spec in Ho as (c' & Hc' & _ & Hr'). simplify_eq. by rewrite Hr in Hr'.
Qed.

(** A stop is reported complete only after it is: a status patch that
    marks the teardown complete, or that touches the sandbox references of
    the run, comes after a cleanup pass of the same reconciliation that
    returned no error and left nothing pending, failed or unverified. *)
Theorem confirmed_after_cleanup run activationStart v tr1 base obj ans tr2 :
  runs (handleSuspensionAt run activationStart)
    (tr1 ++ Ev (StatusPatchRun base obj) ans :: tr2) v →
  condHas (find obj AgenticRunConditionStopping) ConditionFalse reasonTeardownComplete = true
    ∨ run_Steps obj ≠ run_Steps base →
  ∃ uid activation report,
    Ev (CleanupSuspension uid activation) (report, None) ∈ tr1 ∧ Confirmed report = true.
Proof. apply confirmed_pass_before. Qed.

(** No sandbox is taken down before the stop is durable: every cleanup or
    release call comes after the run was read terminal or with an accepted
    stop, or after the API server took the patch that accepts it. *)
Theorem teardown_after_acceptance run activationStart v tr1 ev tr2 :
  runs (handleSuspensionAt run activationStart) (tr1 ++ ev :: tr2) v →
  tearsDown ev = true →
  ∃ ev0, ev0 ∈ tr1 ∧ acceptedEvent ev0 = true.
Proof.
  intros H Hev. apply handleSuspensionAt_shape in H as
    [[_ Hn]|(t1 & t2 & cur & start & d & Heq & _ & Hn & Hacc & _)].
  - apply none_app in Hn as [_ [Hn _]%none_cons]. congruence.
  - apply app_eq_inv in Heq as [(k & -> & ->)|(k & -> & Hk)].
    + apply existsb_exists in Hacc as (ev0 & Hin%list_elem_of_In & Hacc).
      exists ev0. split; [|done]. by apply elem_of_app; left.
    + destruct k as [|ev' k]; simplify_eq/=.
      * rewrite app_nil_r in *. apply existsb_exists in Hacc as (ev0 & Hin%list_elem_of_In & Hacc).
        eauto.
      * apply none_app in Hn as [_ [Hn _]%none_cons]. congruence.
Qed.
End Steps.

(** ** A stop is not forgotten *)

(** An answer that says the run of UID [uid] is no longer there. *)
Definition lost (uid : string) (ev : event answer) : bool :=
  match ev with
  | Ev (ApiGetRun _) (Err e) => bool_decide (IgnoreNotFound e = None)
  | Ev (ApiGetRun _) (Ok c) => negb (String.eqb (run_UID c) uid)
  | Ev (StatusPatchRun _ _) (Ok c) => negb (String.eqb (run_UID c) uid)
  | _ => false
  end.

Definition tracked (uid : string) (tr : trace) (w : written) : Prop :=
  match w with
  | Ok None => existsb (lost uid) tr = true
  | Ok (Some c) => run_UID c = uid ∨ existsb (lost uid) tr = true
  | Err _ => True
  end.

Lemma tracked_app uid tr1 tr2 w : tracked uid tr2 w → tracked uid (tr1 ++ tr2) w.
Proof.
  unfold tracked. rewrite existsb_app. destruct w as [[c|]|]; [|by intros ->; rewrite orb_true_r|done].
  intros [?| ->]; [by left|right; by rewrite orb_true_r].
Qed.

Lemma patchAttempt_tracked uid obj base what tr w :
  runs (patchAttempt obj base what) tr (Some w) → tracked uid tr w.
Proof.
  unfold patchAttempt. intros H. run_call H p. runs_step. destruct p as [c|e]; simplify_eq/=.
  - destruct (String.eqb_spec (run_UID c) uid); [by left|by right].
  - by destruct (IsConflict e); simplify_eq.
Qed.

Lemma goneOr_tracked uid key e : tracked uid [Ev (ApiGetRun key) (Err e)] (goneOr e).
Proof. unfold goneOr, tracked. simpl. by destruct (IgnoreNotFound e). Qed.

(** The three writers start with the same read. *)
Definition readFirst (uid : string) (key : NamespacedName)
    (k : AgenticRun → M (option written)) : M (option written) :=
  got <- call (ApiGetRun key) ;;
  match got with
  | Err err => Ret (Some (goneOr err))
  | Ok current => if negb (String.eqb (run_UID current) uid) then Ret (Some (Ok None))
                  else k current
  end.

Lemma readFirst_tracked uid key k n exhausted tr w :
  (∀ cur tr w, run_UID cur = uid → runs (k cur) tr (Some w) → tracked uid tr w) →
  runs (retry n (readFirst uid key k) (Ret (Err exhausted))) tr w → tracked uid tr w.
Proof.
  intros Hk H.
  eapply (retry_inv (λ tr o, ∀ w, o = Some w → tracked uid tr w)) in H.
  - destruct H as (trs & tr' & -> & _ & _ & [Ha|[_ He]]); [by apply tracked_app, Ha|by runs_step].
  - clear H tr w. intros tr o H w ->. unfold readFirst in H. run_call H got.
    destruct got as [cur|e]; [|runs_step; simplify_eq; apply goneOr_tracked].
    run_if H; [runs_step; simplify_eq; simpl; by rewrite Hb|].
    apply negb_false_iff, String.eqb_eq in Hb.
    apply (tracked_app _ [_]). by eapply Hk.
Qed.

Lemma persistRunStop_tracked key uid start tr w :
  runs (persistRunStop key uid start) tr w → tracked uid tr w.
Proof.
  apply (readFirst_tracked uid key (λ current,
    if isTerminal (DerivePhase (run_Conditions current)) || HasAcceptedStop current
    then Ret (Some (Ok (Some current)))
    else now <- call Now ;;
         patchAttempt (withStopping current now start) current "persist run stop acceptance")).
  intros cur t v Hu H. run_if H; [runs_step; simplify_eq; by left|].
  run_call H now. apply (tracked_app _ [_]). by eapply patchAttempt_tracked.
Qed.

Lemma clearSandboxReferences_tracked key uid tr w :
  runs (clearSandboxReferences key uid) tr w → tracked uid tr w.
Proof.
  apply (readFirst_tracked uid key (λ current,
    if negb (hasRunSandboxInfo current) then Ret (Some (Ok (Some current)))
    else patchAttempt (clearRunSandboxInfo current) current
           "clear confirmed sandbox references")).
  intros cur t v Hu H. run_if H; [runs_step; simplify_eq; by left|].
  by eapply patchAttempt_tracked.
Qed.

Lemma writeSuspensionOutcome_tracked key uid confirmed tr w :
  runs (writeSuspensionOutcome key uid confirmed) tr w → tracked uid tr w.
Proof.
  eapply (readFirst_tracked uid key (λ current, _)). cbv beta.
  intros cur t v Hu H.
  do 3 (run_if H; [runs_step; simplify_eq; by left|]).
  apply runs_bind in H as (t1 & obj & t2 & -> & _ & H).
  apply tracked_app. by eapply patchAttempt_tracked.
Qed.

(** An answer without error comes back within the window, unless the run is
    gone or its cleanup is confirmed. *)
Definition comesBack (uid : string) (tr : trace) (v : suspended) : Prop :=
  match v with
  | (res, None, _) =>
      Requeue res = false ∧ (0 ≤ RequeueAfter res ≤ suspensionRequeueAfter)%Z ∧
      ((0 < RequeueAfter res)%Z ∨ existsb (lost uid) tr = true ∨
       existsb confirmedPass tr = true)
  | (_, Some _, _) => True
  end.

Lemma comesBack_app uid tr1 tr2 v : comesBack uid tr2 v → comesBack uid (tr1 ++ tr2) v.
Proof.
  unfold comesBack. destruct v as [[res [e|]] run']; [done|].
  rewrite !existsb_app. intros (? & ? & [?|[-> | ->]]); rewrite ?orb_true_r; auto.
Qed.

Lemma comesBack_app_l uid tr1 tr2 v : comesBack uid tr1 v → comesBack uid (tr1 ++ tr2) v.
Proof.
  unfold comesBack. destruct v as [[res [e|]] run']; [done|].
  rewrite !existsb_app. intros (? & ? & [?|[-> | ->]]); auto.
Qed.

Lemma comesBack_requeue uid tr run' :
  comesBack uid tr (ok (requeueAfter suspensionRequeueAfter), run').
Proof. split; [done|]. split; [done|by left]. Qed.

Lemma comesBack_done uid tr run' :
  existsb (lost uid) tr = true ∨ existsb confirmedPass tr = true →
  comesBack uid tr (ok emptyResult, run').
Proof. intros H. split; [done|]. split; [done|by right]. Qed.

Lemma comesBack_get uid key e run' :
  comesBack uid [Ev (ApiGetRun key) (Err e)] ((emptyResult, IgnoreNotFound e), run').
Proof.
  simpl. destruct (IgnoreNotFound e) eqn:He; [done|].
  split; [done|]. split; [done|]. right; left. by rewrite bool_decide_eq_true_2.
Qed.

Lemma stopExpired_comesBack key run tr v :
  runs (stopExpired key run) tr v → comesBack (run_UID run) tr v.
Proof.
  unfold stopExpired. intros (t1 & w & t2 & -> & Hw & H)%runs_bind.
  apply writeSuspensionOutcome_tracked in Hw.
  destruct w as [[current|]|e]; [apply comesBack_app|apply comesBack_app_l|by runs_step].
  - apply runs_bind in H as (t3 & pass & t4 & -> & _ & H). apply comesBack_app.
    run_if H; [|runs_step; apply comesBack_requeue].
    apply runs_bind in H as (t5 & c & t6 & -> & _ & H). runs_step.
    destruct c as [cleaned|e]; [apply comesBack_requeue|done].
  - runs_step. apply comesBack_done. by left.
Qed.

Lemma stopUnconfirmed_comesBack uid key run start tr v :
  runs (stopUnconfirmed key run start) tr v → comesBack uid tr v.
Proof.
  unfold stopUnconfirmed. intros (t1 & dl & t2 & -> & _ & H)%runs_bind. apply comesBack_app.
  run_if H.
  - apply runs_bind in H as (t3 & w & t4 & -> & _ & H). runs_step.
    destruct w; [apply comesBack_requeue|done].
  - run_if H; [runs_step; apply comesBack_requeue|]. unfold readRemaining in H.
    repeat runs_step. destruct ((0 <? _)%Z && _) eqn:Hr; [|apply comesBack_requeue].
    bool_hyps. split; [done|]. simpl. split; [lia|by left].
Qed.

Lemma stopAccepted_comesBack key current start d tr v :
  runs (stopAccepted key current start d) tr v → comesBack (run_UID current) tr v.
Proof.
  unfold stopAccepted. intros (t1 & rem & t2 & -> & _ & H)%runs_bind. apply comesBack_app.
  run_if H; [by eapply stopExpired_comesBack|].
  apply runs_bind in H as (t3 & pass & t4 & -> & Hp & H).
  run_call H got. destruct got as [cur|e].
  - run_if H.
    + runs_step. apply comesBack_app, comesBack_done. left. simpl. by rewrite Hb0.
    + run_if H.
      * apply comesBack_app_l. unfold stopConfirmed in H.
        apply runs_bind in H as (t5 & w & t6 & _ & _ & H). runs_step.
        destruct w; [|done]. apply comesBack_done. right. by eapply pass_confirmed.
      * apply comesBack_app, (comesBack_app _ [_]). by eapply stopUnconfirmed_comesBack.
  - runs_step. apply comesBack_app, comesBack_get.
Qed.

Lemma handleSuspensionAt_back run activationStart tr v :
  runs (handleSuspensionAt run activationStart) tr v → comesBack (run_UID run) tr v.
Proof.
  intros H. unfold handleSuspensionAt in H. run_if H; [by runs_step|]. run_if H; [by runs_step|].
  run_call H got. destruct got as [current|e]; cycle 1.
  { apply runs_ret in H as [-> ->]. apply comesBack_get. }
  run_if H; [runs_step; simplify_eq; apply comesBack_done; left; simpl; by rewrite Hb1|].
  run_if H; [by runs_step|].
  apply negb_false_iff, String.eqb_eq in Hb1.
  apply runs_bind in H as (t1 & rem & t2 & -> & _ & H). apply (comesBack_app _ [_]), comesBack_app.
  run_if H; [|rewrite <- Hb1; by eapply stopAccepted_comesBack].
  run_if H; [runs_step; simplify_eq; apply comesBack_requeue|].
  run_call H u. apply runs_bind in H as (t3 & w & t4 & -> & Hw & H).
  apply persistRunStop_tracked in Hw. rewrite Hb1 in Hw. apply (comesBack_app _ [_]).
  destruct w as [[updated|]|e].
  - apply stopAccepted_comesBack in H. simpl in Hw. destruct Hw as [Hw|Hw].
    + rewrite <- Hw. by apply comesBack_app.
    + destruct v as [[res [e|]] run']; [done|].
      destruct H as (? & ? & _). split; [done|]. split; [done|].
      right; left. by rewrite existsb_app, Hw.
  - runs_step. simplify_eq. apply comesBack_app_l, comesBack_done. by left.
  - by runs_step.
Qed.

(** C35: a stop is not forgotten: a reconciliation of a stop that returns no
    error asks to come back within five seconds, unless the run is gone (not
    found, or replaced by one of another UID) or a cleanup pass of it was
    confirmed. *)
Theorem handleSuspensionAt_comesBack run activationStart tr res run' :
  runs (handleSuspensionAt run activationStart) tr ((res, None), run') →
  Requeue res = false ∧ (0 ≤ RequeueAfter res ≤ suspensionRequeueAfter)%Z ∧
  ((0 < RequeueAfter res)%Z ∨ (∃ ev, ev ∈ tr ∧ lost (run_UID run) ev = true) ∨
   (∃ ev, ev ∈ tr ∧ confirmedPass ev = true)).
Proof.
  intros Hc%handleSuspensionAt_back.
  destruct Hc as (? & ? & Hc). split; [done|]. split; [done|].
  destruct Hc as [?|[Hl|Hl]]; [by left|right; left|right; right];
    apply existsb_exists in Hl as (ev & ?%list_elem_of_In & ?); eauto.
Qed.
End Suspension.
