(* ===== verification/Reconcile.v ===== *)
(** The reconciler of runs ([controller/agenticrun/reconciler.go]): deletion
    and finalizers, the suspension guard, the terminal phases and their
    deadline, workflow resolution and the routing of phases to handlers. *)
From stdpp Require Import base list option strings gmap.
From Stdlib Require Import ZArith Lia.
From S2P Require Import Prelude GoText ApiMachinery Types Phase Effects Approval Resolve.
From S2P Require Import Results Helpers Handlers Suspension.

Local Open Scope string_scope.
Local Open Scope list_scope.
Local Open Scope prog_scope.

(** [now.Time.UTC().AddDate(0, 0, days)]: days of UTC have 24 hours. *)
Definition AddDays (t : Time) (days : Z) : Time := Time_Add t (days * (24 * Hour))%Z.

Definition withAnnotation (run : AgenticRun) (key value : string) : AgenticRun :=
  withMeta run (withAnnotations (run_Meta run) (<[key := value]> (run_Annotations run))).

Definition withLabel (run : AgenticRun) (key value : string) : AgenticRun :=
  withMeta run (withLabels (run_Meta run) (<[key := value]> (run_Labels run))).

(** The days a terminal run is kept: its own TTL, up to the ceiling. *)
Definition terminalDays (run : AgenticRun) (ceilingDays : Z) : Z :=
  match spec_TerminalTTL (run_Spec run) with
  | Some ttl => if (ttl <? ceilingDays)%Z then ttl else ceilingDays
  | None => ceilingDays
  end.

(** The attempts recorded so far; a malformed or negative record counts as none. *)
Definition templogAttempts (run : AgenticRun) : Z :=
  match run_Annotations run !! templogCleanupAttemptsAnnotation with
  | Some v => match Atoi v with
              | Some parsed => if (parsed <? 0)%Z then 0 else parsed
              | None => 0
              end
  | None => 0
  end.

(** [run.Labels[terminalTTLLabel] == "true" && run.Status.DeleteAfter != nil]. *)
Definition ttlRecorded (run : AgenticRun) : bool :=
  String.eqb (mapGet (run_Labels run) terminalTTLLabel) "true"
  && bool_decide (is_Some (status_DeleteAfter (run_Status run))).

(** [fanOutToActiveRuns] of [SetupWithManager]: the runs enqueued when the
    policy or the configuration changes. *)
Definition fanOutToActiveRuns : M (list NamespacedName) :=
  runs <- call ListRuns ;;
  Ret match runs with
      | Err _ => []
      | Ok items =>
          map run_Key
            (List.filter (λ p, negb (isTerminal (DerivePhase (run_Conditions p)))
                               || bool_decide (status_TerminalTime (run_Status p) = None)) items)
      end.

(** The watches of [SetupWithManager] that look at the object of the event. *)
Definition watchesPod (namespace : string) (pod : Pod) : bool :=
  String.eqb (meta_Namespace (pod_Meta pod)) namespace.
Definition fanOutOfConfigMap (watched operatorNamespace namespace name : string)
    : M (list NamespacedName) :=
  if negb (String.eqb namespace operatorNamespace) || negb (String.eqb name watched)
  then Ret [] else fanOutToActiveRuns.

(** The number of runs worked on at once: that of the policy read at start-up. *)
Definition DefaultMaxConcurrentRuns : Z := 5.
Definition maxConcurrent (policy : res ApprovalPolicy) : Z :=
  match policy with
  | Ok ap => if (0 <? policy_MaxConcurrentRuns (policy_Spec ap))%Z
             then policy_MaxConcurrentRuns (policy_Spec ap) else DefaultMaxConcurrentRuns
  | Err _ => DefaultMaxConcurrentRuns
  end.

Section Reconcile.
Context `{K : ApiMachinery} (r : AgenticRunReconciler).

Definition withRunFinalizers (run : AgenticRun) (f : list string) : AgenticRun :=
  withMeta run (withFinalizers (run_Meta run) f).

(** [(suspended, start, current, err)]. *)
Definition readSuspensionActivation : M (res (bool * Time * bool)) :=
  if negb (r_APIReader r) then
    Ret (Err (errorString "uncached API reader is required by the run controller"))
  else
    got <- call (ApiGetConfig "cluster") ;;
    Ret match got with
        | Err err =>
            match IgnoreNotFound err with
            | None => Ok (false, 0%Z, false)
            | Some _ => Err (wrapError "read AgenticOLSConfig through uncached API reader" err)
            end
        | Ok config =>
            if negb (config_Suspended config) then Ok (false, 0%Z, false)
            else
              match FindStatusCondition (config_Conditions config)
                      AgenticOLSConfigConditionSuspended with
              | Some c =>
                  if bool_decide (cond_Status c = ConditionTrue)
                     && (cond_ObservedGeneration c =? meta_Generation (config_Meta config))%Z
                     && negb (Time_IsZero (cond_LastTransitionTime c))
                  then Ok (true, cond_LastTransitionTime c, true)
                  else Ok (true, 0%Z, false)
              | None => Ok (true, 0%Z, false)
              end
        end.

(** A patch that removes a finalizer; the run being gone is no error. *)
Definition removeFinalizer (run : AgenticRun) (finalizer : string) (optimisticLock : bool)
    : M (res AgenticRun) :=
  let run1 := withRunFinalizers run (RemoveFinalizer (run_Finalizers run) finalizer) in
  p <- call (PatchRun run run1 optimisticLock) ;;
  Ret match p with
      | Ok run2 => Ok run2
      | Err err => match IgnoreNotFound err with
                   | None => Ok run1
                   | Some _ => Err (wrapError "remove finalizer" err)
                   end
      end.

Definition handleTemplogCleanup (run : AgenticRun) : M outcome :=
  let attempts := templogAttempts run in
  logs <- (if r_TempLog r && (attempts <? templogMaxCleanupAttempts)%Z
           then call (DeleteLogs (run_UID run)) else Ret None) ;;
  match logs with
  | Some _ =>
      p <- call (PatchRun run
             (withAnnotation run templogCleanupAttemptsAnnotation (Itoa (attempts + 1))) false) ;;
      Ret match p with
          | Err patchErr =>
              match IgnoreNotFound patchErr with
              | Some _ => fail (wrapError "patch templog cleanup attempts" patchErr)
              | None => ok (requeueAfter templogCleanupRequeueAfter)
              end
          | Ok _ => ok (requeueAfter templogCleanupRequeueAfter)
          end
  | None =>
      p <- removeFinalizer run templogCleanupFinalizer false ;;
      Ret match p with Err err => fail err | Ok _ => ok emptyResult end
  end.

(** The end of [handleTerminalRecord]: label the run for the expiry sweep. *)
Definition labelTerminal (run : AgenticRun) : M outcome :=
  if negb (String.eqb (mapGet (run_Labels run) terminalTTLLabel) "true") then
    p <- call (PatchRun run (withLabel run terminalTTLLabel "true") true) ;;
    Ret match p with
        | Err err => fail (wrapError "label terminal run" err)
        | Ok _ => ok emptyResult
        end
  else Ret (ok emptyResult).

Definition handleTerminalRecord (run : AgenticRun) (phase : AgenticRunPhase)
    (ceilingDays : Z) : M outcome :=
  if negb (r_APIReader r) then
    Ret (fail (errorString "uncached API reader is required by terminal run handling"))
  else
    got <- call (ApiGetRun (run_Key run)) ;;
    match got with
    | Err err => Ret (emptyResult, IgnoreNotFound err)
    | Ok current =>
        if negb (String.eqb (run_UID current) (run_UID run)) then Ret (ok emptyResult)
        else
          auditIf (r_Audit r)
            (EmitTerminalSpan current (phaseString phase) (terminalReason current)) ;;;
          auditIf (r_Audit r) (AuditCleanup current) ;;;
          match status_TerminalTime (run_Status current) with
          | Some _ => labelTerminal current
          | None =>
              now <- call Now ;;
              let deadline := AddDays now (terminalDays current ceilingDays) in
              p <- statusPatch (withTerminal current (Some now) (Some deadline)) current ;;
              match p with
              | Err err => Ret (fail (wrapError "stamp terminal TTL" err))
              | Ok run1 =>
                  got' <- call (ApiGetRun (run_Key run1)) ;;
                  match got' with
                  | Err err => Ret (emptyResult, IgnoreNotFound err)
                  | Ok run2 =>
                      if negb (String.eqb (run_UID run2) (run_UID current))
                      then Ret (ok emptyResult)
                      else labelTerminal run2
                  end
              end
          end
    end.

Definition handleTerminalCleanup (run : AgenticRun) (phase : AgenticRunPhase)
    (ceilingDays : Z) : M outcome :=
  (if hasSandboxClaims run then call (ReleaseSandboxes run false) ;;; Ret tt else Ret tt) ;;;
  handleTerminalRecord run phase ceilingDays.

Definition handleSuspendedTerminalCleanup (run : AgenticRun) (phase : AgenticRunPhase)
    (ceilingDays : Z) : M outcome :=
  if ttlRecorded run then Ret (ok emptyResult)
  else handleTerminalRecord run phase ceilingDays.

(** [if r.Config != nil { cfg = r.Config.Get() }]. *)
Definition currentConfig : M (option Config) :=
  if r_Config r then call ConfigGet else Ret None.

(** The suspension state of a run: accepted on the run, or the global one.
    [inl] is the result to return at once. *)
Definition readSuspension (run : AgenticRun) : M (outcome + (bool * bool * Time * bool)) :=
  let accepted := HasAcceptedStop run in
  if accepted then Ret (inr (true, false, 0%Z, false))
  else
    a <- readSuspensionActivation ;;
    Ret match a with
        | Err err => inl (fail err)
        | Ok (suspended, start, current) => inr (false, suspended, start, current)
        end.

(** [result.Requeue || result.RequeueAfter > 0]. *)
Definition comesAgain (res : Result) : bool := Requeue res || (0 <? RequeueAfter res)%Z.

(** The finalizers of a deleted run, the audit logs last. *)
Definition finishDeletion (run : AgenticRun) : M outcome :=
  if ContainsFinalizer (run_Finalizers run) templogCleanupFinalizer
  then handleTemplogCleanup run
  else Ret (ok emptyResult).

Definition reconcileDeleting (run : AgenticRun) : M outcome :=
  auditIf (r_Audit r) (AuditCleanup run) ;;;
  state <- readSuspension run ;;
  match state with
  | inl o => Ret o
  | inr (accepted, suspended, start, currentActivation) =>
      if accepted || suspended then
        if suspended && negb currentActivation && negb accepted then
          Ret (ok (requeueAfter suspensionRequeueAfter))
        else
          let! ((result, err), run1) := handleSuspensionAt r run start in
          match err with
          | Some e => Ret (result, Some e)
          | None =>
              if comesAgain result then Ret (ok result)
              else
                run2 <- (if ContainsFinalizer (run_Finalizers run1) rbacCleanupFinalizer
                         then removeFinalizer run1 rbacCleanupFinalizer true
                         else Ret (Ok run1)) ;;
                match run2 with
                | Err e => Ret (fail e)
                | Ok run3 => finishDeletion run3
                end
          end
      else
        if ContainsFinalizer (run_Finalizers run) rbacCleanupFinalizer then
          e <- call (ReleaseSandboxes run false) ;;
          match e with
          | Some err => Ret (fail (wrapError "release sandboxes during deletion" err))
          | None =>
              run1 <- removeFinalizer run rbacCleanupFinalizer false ;;
              match run1 with
              | Err e => Ret (fail e)
              | Ok run2 => finishDeletion run2
              end
          end
        else finishDeletion run
  end.

(** First sight of a run: add the finalizers and read it again.  [inl] is the
    result to return at once. *)
Definition ensureFinalizers (key : NamespacedName) (run : AgenticRun)
    : M (outcome + AgenticRun) :=
  let f := run_Finalizers run in
  if negb (ContainsFinalizer f rbacCleanupFinalizer)
     || negb (ContainsFinalizer f templogCleanupFinalizer) then
    p <- call (PatchRun run
           (withRunFinalizers run
              (AddFinalizer (AddFinalizer f rbacCleanupFinalizer) templogCleanupFinalizer))
           false) ;;
    match p with
    | Err err => Ret (inl (fail (wrapError "add finalizer" err)))
    | Ok _ =>
        got <- call (ApiGetRun key) ;;
        Ret match got with
            | Err err => inl (emptyResult, IgnoreNotFound err)
            | Ok run1 => inr run1
            end
    end
  else Ret (inr run).

(** A run under an accepted or global stop. *)
Definition reconcileSuspended (run : AgenticRun) (start : Time) : M outcome :=
  let! ((result, err), run1) := handleSuspensionAt r run start in
  match err with
  | Some e => Ret (result, Some e)
  | None =>
      let phase := DerivePhase (run_Conditions run1) in
      if isTerminal phase then
        cfg <- currentConfig ;;
        match cfg with
        | None =>
            Ret (ok (if (RequeueAfter result =? 0)%Z && negb (Requeue result)
                     then requeueAfter suspensionRequeueAfter else result))
        | Some c =>
            let! (terminalResult, terr) :=
              handleSuspendedTerminalCleanup run1 phase (cfg_TerminalTTLDays c) in
            match terr with
            | Some e => Ret (terminalResult, Some e)
            | None =>
                Ret (ok (if (RequeueAfter result =? 0)%Z && negb (Requeue result)
                         then terminalResult else result))
            end
        end
      else Ret (ok result)
  end.

(** Workflow resolution failed: record it on the run as it is now. *)
Definition resolutionFailed (run : AgenticRun) (err : error) : M outcome :=
  guard <- readRunnableRun r (run_Key run) (run_UID run) ;;
  match guard with
  | Err guardErr =>
      if isSentinelStop guardErr then Ret (ok requeueNow) else Ret (fail guardErr)
  | Ok current =>
      run1 <- setCondition current AgenticRunConditionAnalyzed ConditionFalse
                reasonWorkflowFailed (Error err) ;;
      statusPatch run1 current ;;;
      Ret (ok emptyResult)
  end.

Definition revisable (run : AgenticRun) : bool :=
  isNoActionRequired run || AgenticRunStep_IsZero (spec_Execution (run_Spec run)).

(** The [switch phase] of the routing. *)
Definition routePhase (run : AgenticRun) (phase : AgenticRunPhase)
    (resolved : resolvedWorkflow) (approval : option AgenticRunApproval)
    (policy : option ApprovalPolicy) : M outcome :=
  match phase with
  | PhasePending | PhaseAnalyzing =>
      if needsRevision run then handleRevision r run resolved
      else handleAnalysis r run resolved approval policy
  | PhaseProposed | PhaseExecuting =>
      if needsRevision run then handleRevision r run resolved
      else handleExecution r run resolved approval policy
  | PhaseVerifying => handleVerification r run resolved approval policy
  | PhaseEscalating =>
      if needsRevision run then handleRevision r run resolved
      else handleEscalation r run resolved approval policy
  | PhaseCompleted | PhaseFailed =>
      if revisable run && needsRevision run then handleRevision r run resolved
      else Ret (ok emptyResult)
  | _ => Ret (ok emptyResult)
  end.

(** From the approval on: the run has work to do. *)
Definition reconcileWorkflow (run : AgenticRun) (phase : AgenticRunPhase) : M outcome :=
  p <- getApprovalPolicy ;;
  let policy := match p with Ok policy => policy | Err _ => None end in
  a <- ensureAgenticRunApproval run policy (r_Namespace r) ;;
  match a with
  | Err _ => Ret (ok requeueNow)
  | Ok approval =>
      w <- resolveAgenticRun run (Some approval) (r_Namespace r) ;;
      match w with
      | Err err => resolutionFailed run err
      | Ok resolved => routePhase run phase resolved (Some approval) policy
      end
  end.

(** The terminal phases; [None] when the run goes on to the workflow. *)
Definition reconcileTerminal (run : AgenticRun) (phase : AgenticRunPhase) (ttlDays : Z)
    : M (option outcome) :=
  let skipTerminalCleanup :=
    ttlRecorded run || (bool_decide (phase = PhaseFailed) && preserveFailedSandbox run) in
  match phase with
  | PhaseCompleted =>
      if negb (revisable run && needsRevision run) then
        if skipTerminalCleanup then Ret (Some (ok emptyResult))
        else o <- handleTerminalCleanup run phase ttlDays ;; Ret (Some o)
      else Ret None
  | PhaseDenied | PhaseEscalated | PhaseEmergencyStopped =>
      if skipTerminalCleanup then Ret (Some (ok emptyResult))
      else o <- handleTerminalCleanup run phase ttlDays ;; Ret (Some o)
  | PhaseFailed =>
      if negb (AgenticRunStep_IsZero (spec_Execution (run_Spec run)) && needsRevision run) then
        if skipTerminalCleanup then Ret (Some (ok emptyResult))
        else
          let! (result, err) := handleFailed run in
          match err with
          | Some e => Ret (Some (result, Some e))
          | None => o <- handleTerminalCleanup run phase ttlDays ;; Ret (Some o)
          end
      else Ret None
  | _ => Ret None
  end.

(** A run that is neither deleted nor stopped. *)
Definition reconcileActive (run : AgenticRun) : M outcome :=
  cfg <- currentConfig ;;
  match cfg with
  | None => Ret (fail (errorString "operator configuration not yet available"))
  | Some c =>
      let phase := DerivePhase (run_Conditions run) in
      t <- reconcileTerminal run phase (cfg_TerminalTTLDays c) ;;
      match t with
      | Some o => Ret o
      | None => reconcileWorkflow run phase
      end
  end.

Definition Reconcile (req : NamespacedName) : M outcome :=
  if negb (r_APIReader r) then
    Ret (fail (errorString "uncached API reader is required by the run controller"))
  else
    got <- call (ApiGetRun req) ;;
    match got with
    | Err err =>
        auditIf (bool_decide (IgnoreNotFound err = None) && r_Audit r)
          (AuditCleanupDeleted req) ;;;
        Ret (emptyResult, IgnoreNotFound err)
    | Ok run =>
        if negb (TimePtr_IsZero (meta_DeletionTimestamp (run_Meta run)))
        then reconcileDeleting run
        else
          f <- ensureFinalizers req run ;;
          match f with
          | inl o => Ret o
          | inr run1 =>
              state <- readSuspension run1 ;;
              match state with
              | inl o => Ret o
              | inr (accepted, suspended, start, currentActivation) =>
                  if accepted || suspended then
                    if suspended && negb currentActivation && negb accepted then
                      Ret (ok (requeueAfter suspensionRequeueAfter))
                    else reconcileSuspended run1 start
                  else reconcileActive run1
              end
          end
    end.

(** ** What launches work *)
Abbreviation nolaunch := (λ ev : event answer, launches ev = false).

Lemma removeFinalizer_nolaunch run f b : emits nolaunch (removeFinalizer run f b).
Proof. unfold removeFinalizer. emits_walk done. Qed.

Lemma handleTemplogCleanup_nolaunch run : emits nolaunch (handleTemplogCleanup run).
Proof. unfold handleTemplogCleanup, removeFinalizer. emits_walk done. Qed.

Lemma labelTerminal_nolaunch run : emits nolaunch (labelTerminal run).
Proof. unfold labelTerminal. emits_walk done. Qed.

Lemma handleTerminalRecord_nolaunch run phase days :
  emits nolaunch (handleTerminalRecord run phase days).
Proof.
  unfold handleTerminalRecord, statusPatch, auditIf.
  emits_walk done; apply labelTerminal_nolaunch.
Qed.

Lemma handleTerminalCleanup_nolaunch run phase days :
  emits nolaunch (handleTerminalCleanup run phase days).
Proof.
  unfold handleTerminalCleanup. emits_walk done. apply handleTerminalRecord_nolaunch.
Qed.

Lemma readSuspensionActivation_nolaunch : emits nolaunch readSuspensionActivation.
Proof. unfold readSuspensionActivation. emits_walk done. Qed.

Lemma readSuspension_nolaunch run : emits nolaunch (readSuspension run).
Proof.
  unfold readSuspension. emits_walk done. apply readSuspensionActivation_nolaunch.
Qed.

Lemma handleFailed_nolaunch run : emits nolaunch (handleFailed run).
Proof. unfold handleFailed, cleanupFailedStep. emits_walk done. Qed.

Lemma reconcileTerminal_nolaunch run phase days :
  emits nolaunch (reconcileTerminal run phase days).
Proof.
  unfold reconcileTerminal.
  emits_walk done; first [apply handleTerminalCleanup_nolaunch|apply handleFailed_nolaunch].
Qed.

Lemma ensureFinalizers_nolaunch key run : emits nolaunch (ensureFinalizers key run).
Proof. unfold ensureFinalizers. emits_walk done. Qed.

Lemma ensureAgenticRunApproval_nolaunch run policy ns :
  emits nolaunch (ensureAgenticRunApproval run policy ns).
Proof. unfold ensureAgenticRunApproval, getAgenticRunApproval. emits_walk done. Qed.

Lemma getApprovalPolicy_nolaunch : emits nolaunch getApprovalPolicy.
Proof. unfold getApprovalPolicy. emits_walk done. Qed.

Lemma resolveAgenticRun_nolaunch run approval ns :
  emits nolaunch (resolveAgenticRun run approval ns).
Proof.
  unfold resolveAgenticRun, validateAgenticRun, validateStep, validateAgentDependencies.
  emits_walk done.
Qed.

Lemma resolutionFailed_nolaunch run err : emits nolaunch (resolutionFailed run err).
Proof.
  unfold resolutionFailed, readRunnableRun, setCondition, statusPatch. emits_walk done.
Qed.

(** Why the routing launches a stage. *)
Definition launchReason (run : AgenticRun) (approval : option AgenticRunApproval)
    (policy : option ApprovalPolicy) (stage : Stage) : Prop :=
  let phase := DerivePhase (run_Conditions run) in
  ((phase ∈ stagePhases stage ∧
   isStageDenied approval (stageName stage) = false ∧
   isStageApproved approval policy (stageName stage) = true) ∨
  (stage = StageAnalysis ∧ needsRevision run = true ∧
   (phase ∉ [PhaseVerifying; PhaseDenied; PhaseEscalated; PhaseEmergencyStopped]) ∧
   (isTerminal phase = true → revisable run = true))).

(** The routing launches for this reason, on the answer to the patch that marks the step
    of the run it was given (for a revision, of that run without its TTL label). *)
Definition routedFor (run : AgenticRun) (approval : option AgenticRunApproval)
    (policy : option ApprovalPolicy) (pre : trace) (stage : Stage) (launched : AgenticRun) : Prop :=
  launchReason run approval policy stage ∧
  ∃ base, (base = run ∨ stage = StageAnalysis ∧ needsRevision run = true ∧ revisedFrom run base pre) ∧
    markedFrom base pre stage launched.

(** The policy in force: the one that was read; none when it could not be. *)
Definition policyInForce (policy : option ApprovalPolicy) (pre : trace) : Prop :=
  ∃ got, Ev (GetPolicy "cluster") got ∈ pre ∧
    policy = match got with Ok p => Some p | Err _ => None end.

(** The approval of the run in the namespace of the operator, read or created there. *)
Definition approvalGot (run : AgenticRun) (policy : option ApprovalPolicy)
    (approval : AgenticRunApproval) (ev : event answer) : Prop :=
  match ev with
  | Ev (GetApproval key) (Ok a) =>
      key = MkNamespacedName (r_Namespace r) (run_Name run) ∧ a = approval
  | Ev (CreateApproval obj) (Ok a) => obj = newApproval run policy (r_Namespace r) ∧ a = approval
  | _ => False
  end.

(** The workflow of the run launches by the policy and the approval read before. *)
Definition approvedFor (run : AgenticRun) (pre : trace) (stage : Stage) (launched : AgenticRun)
    : Prop :=
  ∃ policy approval ev, policyInForce policy pre ∧ ev ∈ pre ∧ approvalGot run policy approval ev ∧
    routedFor run (Some approval) policy pre stage launched.

(** The global configuration was read, and does not suspend. *)
Definition notSuspended (pre : trace) : Prop :=
  ∃ config, Ev (ApiGetConfig "cluster") config ∈ pre ∧
    match config with
    | Ok c => config_Suspended c = false
    | Err e => IgnoreNotFound e = None
    end.

(** What was read before a reconciliation launches: first the run, which is not deleted;
    the run worked on is that one, or was read again when its finalizers had to be added,
    and has no accepted stop; the configuration, the policy and the approval. *)
Definition launchGrounds (req : NamespacedName) (pre : trace) (stage : Stage)
    (launched : AgenticRun) : Prop :=
  ∃ first rest run,
    pre = Ev (ApiGetRun req) (Ok first) :: rest ∧
    TimePtr_IsZero (meta_DeletionTimestamp (run_Meta first)) = true ∧
    (run = first ∨ Ev (ApiGetRun req) (Ok run) ∈ rest) ∧
    HasAcceptedStop run = false ∧ notSuspended rest ∧ approvedFor run rest stage launched.

Section Reasons.
Context {KL : ApiMachineryLaws K}.

Lemma revisedFrom_app run base tr pre : revisedFrom run base pre → revisedFrom run base (tr ++ pre).
Proof. intros [?|[? ?]]; [by left|]. right. split; [done|]. apply elem_of_app. by right. Qed.

Lemma markedFrom_app base tr pre stage launched :
  markedFrom base pre stage launched → markedFrom base (tr ++ pre) stage launched.
Proof. intros (marked & ? & ?). exists marked. split; [|done]. apply elem_of_app. by right. Qed.

Lemma routedFor_app run approval policy tr pre stage launched :
  routedFor run approval policy pre stage launched →
  routedFor run approval policy (tr ++ pre) stage launched.
Proof.
  intros [Hr (base & Hb & Hm)]. split; [done|]. exists base. split; [|by apply markedFrom_app].
  destruct Hb as [?|(? & ? & ?)]; [by left|]. right. by eauto using revisedFrom_app.
Qed.

Lemma policyInForce_mono policy pre pre' :
  policyInForce policy pre → pre ⊆ pre' → policyInForce policy pre'.
Proof. intros (got & Hin & ?) Hs. exists got. by eauto. Qed.

Lemma notSuspended_mono pre pre' : notSuspended pre → pre ⊆ pre' → notSuspended pre'.
Proof. intros (config & Hin & ?) Hs. exists config. by eauto. Qed.

Lemma approvedFor_app run tr pre stage launched :
  approvedFor run pre stage launched → approvedFor run (tr ++ pre) stage launched.
Proof.
  intros (policy & approval & ev & Hp & Hin & Ha & Hr). exists policy, approval, ev.
  split_and!; [eapply policyInForce_mono; [done|set_solver]|set_solver|done|by apply routedFor_app].
Qed.

Lemma stageHandler_reason stage run resolved approval policy tr o :
  DerivePhase (run_Conditions run) ∈ stagePhases stage →
  runs (stageHandler r stage run resolved approval policy) tr o →
  launchesFor (routedFor run approval policy) tr.
Proof.
  intros Hp H. destruct (isStageDenied approval (stageName stage)) eqn:Hd.
  { left. eapply stageHandler_unapproved; eauto. }
  destruct (isStageApproved approval policy (stageName stage)) eqn:Ha; cycle 1.
  { left. eapply stageHandler_unapproved; eauto. }
  apply stageHandler_launch, (launchesAfterMark_for (KL := KL)) in H.
  eapply launchesFor_mono; [exact H|]. intros pre stage' launched [-> Hm].
  split; [by left|]. exists run. split; [by left|done].
Qed.

Lemma revision_reason run resolved approval policy tr o :
  needsRevision run = true →
  DerivePhase (run_Conditions run)
    ∉ [PhaseVerifying; PhaseDenied; PhaseEscalated; PhaseEmergencyStopped] →
  (isTerminal (DerivePhase (run_Conditions run)) = true → revisable run = true) →
  runs (handleRevision r run resolved) tr o →
  launchesFor (routedFor run approval policy) tr.
Proof.
  intros Hn Hp Ht H. apply (handleRevision_for r (KL := KL)) in H. eapply launchesFor_mono; [exact H|].
  intros pre stage launched (-> & base & Hb & Hm). split; [by right|].
  exists base. split; [by right|done].
Qed.

Lemma routePhase_reason run resolved approval policy tr o :
  runs (routePhase run (DerivePhase (run_Conditions run)) resolved approval policy) tr o →
  launchesFor (routedFor run approval policy) tr.
Proof.
  intros H.
  pose proof (λ stage, stageHandler_reason stage run resolved approval policy tr o) as Hstage.
  pose proof (revision_reason run resolved approval policy tr o) as Hrev.
  unfold routePhase in H. destruct (DerivePhase (run_Conditions run)) eqn:Hp;
    try (apply runs_ret in H as [-> ->]; by left).
  1-4,8: run_if H; [apply Hrev; [done|decide_closed|done|exact H]|].
  1,2: by apply (Hstage StageAnalysis); [decide_closed|].
  1,2: by apply (Hstage StageExecution); [decide_closed|].
  all: try (by apply (Hstage StageVerification); [decide_closed|]).
  all: try (by apply (Hstage StageEscalation); [decide_closed|]).
  all: run_if H; [|apply runs_ret in H as [-> ->]; by left].
  all: apply andb_true_iff in Hb as [? ?]; by apply Hrev; [|decide_closed|..].
Qed.

Lemma getApprovalPolicy_read tr p :
  runs getApprovalPolicy tr p →
  policyInForce (match p with Ok policy => policy | Err _ => None end) tr.
Proof.
  unfold getApprovalPolicy. intros H. run_call H got. exists got. split; [left|].
  destruct got as [policy|e]; [by runs_step; simplify_eq|].
  run_if H; runs_step; by simplify_eq.
Qed.

Lemma ensureAgenticRunApproval_of run policy tr a :
  runs (ensureAgenticRunApproval run policy (r_Namespace r)) tr (Ok a) →
  ∃ ev, ev ∈ tr ∧ approvalGot run policy a ev.
Proof.
  unfold ensureAgenticRunApproval, getAgenticRunApproval. intros H.
  run_call H got. destruct got as [a0|e].
  { runs_step. simplify_eq. eexists. split; [left|done]. }
  run_if H; [by runs_step|]. run_call H created. destruct created as [a0|e'].
  { runs_step. simplify_eq. eexists. split; [right; left|done]. }
  run_if H; [|by runs_step]. run_last H.
  eexists. split; [do 2 right; left|done].
Qed.

Lemma reconcileWorkflow_reason run tr o :
  runs (reconcileWorkflow run (DerivePhase (run_Conditions run))) tr o →
  launchesFor (approvedFor run) tr.
Proof.
  unfold reconcileWorkflow. intros (t1 & p & t2 & -> & Hp & H)%runs_bind.
  pose proof (getApprovalPolicy_nolaunch _ _ Hp) as Hn1. apply getApprovalPolicy_read in Hp.
  set (policy := match p with Ok policy => policy | Err _ => None end) in *. clearbody policy.
  apply runs_bind in H as (t3 & a & t4 & -> & Ha & H).
  pose proof (ensureAgenticRunApproval_nolaunch _ _ _ _ _ Ha) as Hn3.
  rewrite app_assoc. destruct a as [approval|e]; cycle 1.
  { runs_step. left. by rewrite !none_app. }
  apply ensureAgenticRunApproval_of in Ha as (ev & Hin & Hev).
  apply runs_bind in H as (t5 & w & t6 & -> & Hw & H).
  pose proof (resolveAgenticRun_nolaunch _ _ _ _ _ Hw) as Hn5. rewrite app_assoc.
  destruct w as [resolved|e]; cycle 1.
  { left. rewrite !none_app. split_and!; try done. by eapply resolutionFailed_nolaunch. }
  eapply launchesFor_app; [by rewrite !none_app|eapply routePhase_reason; exact H|].
  intros pre stage launched Hr. exists policy, approval, ev. split_and!; [|set_solver|done|].
  - eapply policyInForce_mono; [done|]. set_solver.
  - by apply routedFor_app.
Qed.

Lemma reconcileActive_reason run tr o :
  runs (reconcileActive run) tr o → launchesFor (approvedFor run) tr.
Proof.
  unfold reconcileActive. intros (t1 & cfg & t2 & -> & Hc & H)%runs_bind.
  assert (Hn : none launches t1).
  { unfold currentConfig in Hc. clear H. run_if Hc; [run_last Hc|runs_step]; by repeat constructor. }
  destruct cfg as [c|]; cycle 1.
  { runs_step. left. by rewrite app_nil_r. }
  apply runs_bind in H as (t3 & t & t4 & -> & Ht & H).
  pose proof (reconcileTerminal_nolaunch _ _ _ _ _ Ht) as Hn3. rewrite app_assoc.
  destruct t; [runs_step; left; by rewrite app_nil_r, none_app|].
  eapply launchesFor_app; [by rewrite none_app|by eapply reconcileWorkflow_reason|].
  intros. by apply approvedFor_app.
Qed.
End Reasons.

(** The approval the workflow of a trace went by. *)
Definition approvalEvent (approval : AgenticRunApproval) (ev : event answer) : Prop :=
  match ev with
  | Ev (GetApproval _) (Ok a) | Ev (CreateApproval _) (Ok a) => a = approval
  | _ => False
  end.

Lemma ensureAgenticRunApproval_event run policy tr a :
  runs (ensureAgenticRunApproval run policy (r_Namespace r)) tr (Ok a) →
  ∃ ev, ev ∈ tr ∧ approvalEvent a ev.
Proof.
  intros (ev & Hin & Ha)%ensureAgenticRunApproval_of. exists ev. split; [done|].
  destruct ev as [[] ans]; try done; destruct ans; try done; by destruct Ha.
Qed.

(** The run the finalizer step goes on with was read, not deleted. *)
Lemma ensureFinalizers_read key run tr run1 :
  runs (ensureFinalizers key run) tr (inr run1) →
  run1 = run ∨ Ev (ApiGetRun key) (Ok run1) ∈ tr.
Proof.
  unfold ensureFinalizers. intros H. run_if H; [|runs_step; simplify_eq; by left].
  run_call H p. destruct p; [|by runs_step]. run_call H got. runs_step.
  destruct got; simplify_eq. right. right; left.
Qed.

(** Neither the run nor the global configuration stops the workflow. *)
Lemma readSuspension_clear run tr suspended start current :
  runs (readSuspension run) tr (inr (false, suspended, start, current)) →
  HasAcceptedStop run = false ∧
  ∃ config, Ev (ApiGetConfig "cluster") config ∈ tr ∧
    (suspended = false → match config with
                         | Ok c => config_Suspended c = false
                         | Err e => IgnoreNotFound e = None
                         end).
Proof.
  unfold readSuspension. intros H. run_if H; [by runs_step|]. split; [done|].
  apply runs_bind in H as (t1 & a & t2 & -> & Ha & H). runs_step.
  unfold readSuspensionActivation in Ha. run_if Ha; [runs_step; by simplify_eq|].
  run_call Ha got. runs_step. exists got. split; [left|].
  destruct got as [c|e].
  - destruct (config_Suspended c) eqn:Hs; [|done]. simpl in *.
    destruct (FindStatusCondition _ _); [destruct (_ && _)|]; by simplify_eq.
  - destruct (IgnoreNotFound e); by simplify_eq.
Qed.

Lemma readSuspension_error run tr o :
  runs (readSuspension run) tr (inl o) → is_Some (snd o).
Proof.
  unfold readSuspension. intros H. run_if H; [by runs_step|].
  apply runs_bind in H as (t1 & a & t2 & -> & Ha & H). runs_step.
  destruct a as [[[suspended start] current]|e]; simplify_eq. by eexists.
Qed.

Lemma readSuspension_working run tr accepted suspended start current :
  runs (readSuspension run) tr (inr (accepted, suspended, start, current)) →
  HasAcceptedStop run = false →
  (∀ c, Ev (ApiGetConfig "cluster") (Ok c) ∈ tr → config_Suspended c = false) →
  accepted = false ∧ suspended = false.
Proof.
  unfold readSuspension. intros H Ha Hc. rewrite Ha in H.
  apply runs_bind in H as (t1 & a & t2 & -> & Hr & H). runs_step.
  destruct a as [[[sus st] cur]|e]; simplify_eq. split; [done|].
  unfold readSuspensionActivation in Hr. run_if Hr; [by runs_step|].
  run_call Hr got. destruct got as [c|e]; [|destruct (IgnoreNotFound e); runs_step; by simplify_eq].
  rewrite (Hc c ltac:(left)) in Hr. by apply runs_ret in Hr as [_ [= -> _ _]].
Qed.

Section Main.
Context {KL : ApiMachineryLaws K}.

Lemma handleSuspensionAt_nolaunch run start : emits nolaunch (handleSuspensionAt r run start).
Proof.
  intros tr v H. apply (handleSuspensionAt_ordered r (KL:=KL)), ordered_all in H.
  eapply Forall_impl; [exact H|]. intros ev [[? _]|[? _]]; done.
Qed.

Lemma reconcileSuspended_nolaunch run start : emits nolaunch (reconcileSuspended run start).
Proof.
  unfold reconcileSuspended, currentConfig, handleSuspendedTerminalCleanup.
  emits_walk done; first [apply handleSuspensionAt_nolaunch|apply handleTerminalRecord_nolaunch].
Qed.

Lemma reconcileDeleting_nolaunch run : emits nolaunch (reconcileDeleting run).
Proof.
  unfold reconcileDeleting, finishDeletion, auditIf.
  emits_walk done; first [apply readSuspension_nolaunch|apply handleSuspensionAt_nolaunch
    |apply removeFinalizer_nolaunch|apply handleTemplogCleanup_nolaunch].
Qed.

Lemma Reconcile_launch req tr o :
  runs (Reconcile req) tr o → launchesFor (launchGrounds req) tr.
Proof.
  unfold Reconcile. intros H. run_if H; [runs_step; by left|].
  run_call H got. destruct got as [run|e]; cycle 1.
  { left. constructor; [done|].
    eapply (emits_bind nolaunch); [| |exact H]; [unfold auditIf; emits_walk done|].
    intros; apply emits_ret. }
  run_if H; [left; constructor; [done|by eapply reconcileDeleting_nolaunch]|].
  apply negb_false_iff in Hb0.
  apply runs_bind in H as (t1 & f & t2 & -> & Hf & H).
  pose proof (ensureFinalizers_nolaunch _ _ _ _ Hf) as Hn1.
  destruct f as [o'|run1].
  { runs_step. left. constructor; [done|]. by rewrite app_nil_r. }
  apply ensureFinalizers_read in Hf.
  apply runs_bind in H as (t3 & state & t4 & -> & Hs & H).
  pose proof (readSuspension_nolaunch _ _ _ Hs) as Hn3.
  assert (Hn : none launches (Ev (ApiGetRun req) (Ok run) :: t1 ++ t3)).
  { constructor; [done|]. by apply none_app. }
  rewrite (app_assoc t1), (app_comm_cons (t1 ++ t3)).
  destruct state as [o'|[[[accepted suspended] start] current]].
  { runs_step. left. by rewrite app_nil_r. }
  destruct (accepted || suspended) eqn:Has.
  { left. apply none_app. split; [done|]. run_if H; [by runs_step|].
    by eapply reconcileSuspended_nolaunch. }
  apply orb_false_iff in Has as [-> ->].
  apply readSuspension_clear in Hs as [Hacc (config & Hcin & Hc)].
  apply reconcileActive_reason in H. eapply launchesFor_app; [exact Hn|exact H|].
  intros pre stage launched Hap. exists run, ((t1 ++ t3) ++ pre), run1. split_and!; try done.
  - destruct Hf as [->|Hf]; [by left|]. right. set_solver.
  - exists config. split; [set_solver|by apply Hc].
  - by apply approvedFor_app.
Qed.

(** *** What a reconciliation does for an approved stage *)

(** The step of the stage is one the run asks for. *)
Definition stageWanted (stage : Stage) (run : AgenticRun) : bool :=
  match stage with
  | StageExecution => negb (AgenticRunStep_IsZero (spec_Execution (run_Spec run)))
  | StageVerification => negb (AgenticRunStep_IsZero (spec_Verification (run_Spec run)))
  | _ => true
  end.

(** The stage is acted on, or the workflow does not resolve and the run is marked so. *)
Definition workflowActs (stage : Stage) (tr : trace) (o : outcome) : Prop :=
  acts stage tr o ∨
  ∃ base obj ans, Ev (StatusPatchRun base obj) ans ∈ tr ∧
    condHas (find obj AgenticRunConditionAnalyzed) ConditionFalse reasonWorkflowFailed = true.

Lemma workflowActs_app stage tr1 tr2 o :
  none launches tr1 → workflowActs stage tr2 o → workflowActs stage (tr1 ++ tr2) o.
Proof.
  intros Hn [Ha|(base & obj & ans & Hin & Hc)]; [left; by apply acts_app|].
  right. exists base, obj, ans. split; [|done]. apply elem_of_app. by right.
Qed.

Lemma comesBack_acts stage tr o : is_Some (snd o) → workflowActs stage tr o.
Proof. intros He. left. by right; left. Qed.

Lemma requeued_acts stage tr : workflowActs stage tr (ok requeueNow).
Proof. left. by right; right; left. Qed.

Lemma resolutionFailed_acts stage run err tr o :
  runs (resolutionFailed run err) tr o → workflowActs stage tr o.
Proof.
  unfold resolutionFailed. intros (tr1 & guard & tr2 & -> & Hg & H)%runs_bind.
  apply readRunnableRun_quiet, quiet_no_launches in Hg. apply workflowActs_app; [done|].
  destruct guard as [current|e]; cycle 1.
  { run_if H; runs_step; [apply requeued_acts|apply comesBack_acts; by eexists]. }
  apply runs_bind in H as (tr3 & run1 & tr4 & -> & Hs & H).
  pose proof (setCondition_quiet _ _ _ _ _ _ _ Hs) as Hq%quiet_no_launches.
  apply setCondition_run in Hs as [now ->]. apply workflowActs_app; [done|].
  unfold statusPatch in H. run_call H ans. runs_step.
  right. do 3 eexists. split; [by left|].
  by rewrite (condHas_set now _ (run_Conditions current) (NewCondition AgenticRunConditionAnalyzed
    ConditionFalse reasonWorkflowFailed (Error err) (run_Generation current))).
Qed.

Lemma routePhase_acts stage run resolved approval policy tr o :
  runs (routePhase run (DerivePhase (run_Conditions run)) resolved approval policy) tr o →
  DerivePhase (run_Conditions run) ∈ stagePhases stage → needsRevision run = false →
  stageConfigured stage resolved = true → stageBegun stage run = false →
  isStageDenied approval (stageName stage) = false →
  isStageApproved approval policy (stageName stage) = true → acts stage tr o.
Proof.
  unfold routePhase. intros H Hp Hn. rewrite Hn in H.
  assert (Hh : runs (stageHandler r stage run resolved approval policy) tr o).
  { destruct stage; cbn [stagePhases stageHandler] in *;
      repeat (apply elem_of_cons in Hp as [Hp|Hp]; [by rewrite Hp in H|]);
      by apply elem_of_nil in Hp. }
  intros. by eapply (stageHandler_never_stalls r).
Qed.

Lemma stageWanted_configured stage run approval ns tr resolved :
  runs (resolveAgenticRun run approval ns) tr (Ok resolved) →
  stageWanted stage run = true → stageConfigured stage resolved = true.
Proof.
  intros [He Hv]%resolveAgenticRun_total. destruct stage; cbn [stageWanted stageConfigured]; try done.
  - intros Hz. destruct (rw_Execution resolved); [done|]. by rewrite (proj1 He eq_refl) in Hz.
  - intros Hz. destruct (rw_Verification resolved); [done|]. by rewrite (proj1 Hv eq_refl) in Hz.
Qed.

(** The run is at a stage that it asks for and that has not begun, and every approval
    that is read or created approves it. *)
Record atStage (stage : Stage) (run : AgenticRun) (tr : trace) : Prop := {
  at_Phase : DerivePhase (run_Conditions run) ∈ stagePhases stage;
  at_NoRevision : needsRevision run = false;
  at_Wanted : stageWanted stage run = true;
  at_NotBegun : stageBegun stage run = false;
  at_Approved : ∀ approval ev policy, ev ∈ tr → approvalEvent approval ev →
    isStageDenied (Some approval) (stageName stage) = false ∧
    isStageApproved (Some approval) policy (stageName stage) = true;
}.

Lemma atStage_suffix stage run tr1 tr2 : atStage stage run (tr1 ++ tr2) → atStage stage run tr2.
Proof.
  intros [H1 H2 H3 H4 H5]. split; try done. intros approval ev policy Hin.
  apply H5, elem_of_app. by right.
Qed.

Lemma reconcileWorkflow_acts stage run tr o :
  runs (reconcileWorkflow run (DerivePhase (run_Conditions run))) tr o →
  atStage stage run tr → workflowActs stage tr o.
Proof.
  unfold reconcileWorkflow. intros (t1 & p & t2 & -> & Hp & H)%runs_bind Hat%atStage_suffix.
  apply getApprovalPolicy_nolaunch in Hp. apply workflowActs_app; [done|].
  apply runs_bind in H as (t3 & a & t4 & -> & Ha & H).
  pose proof (ensureAgenticRunApproval_nolaunch _ _ _ _ _ Ha) as Hn.
  apply workflowActs_app; [done|]. destruct a as [approval|e]; [|runs_step; apply requeued_acts].
  apply ensureAgenticRunApproval_event in Ha as (ev & Hin & Hev).
  assert (Hok : ∀ policy, isStageDenied (Some approval) (stageName stage) = false ∧
    isStageApproved (Some approval) policy (stageName stage) = true).
  { intros policy. apply (at_Approved _ _ _ Hat approval ev); [|done]. apply elem_of_app. by left. }
  apply atStage_suffix in Hat.
  apply runs_bind in H as (t5 & w & t6 & -> & Hw & H).
  apply workflowActs_app; [by eapply resolveAgenticRun_nolaunch|].
  destruct w as [resolved|e]; [|by eapply resolutionFailed_acts].
  left. destruct Hat as [H1 H2 H3 H4 _]. eapply routePhase_acts; try eassumption.
  - by eapply stageWanted_configured.
  - apply (Hok None).
  - apply Hok.
Qed.

Lemma reconcileTerminal_working run days tr t :
  isTerminal (DerivePhase (run_Conditions run)) = false →
  runs (reconcileTerminal run (DerivePhase (run_Conditions run)) days) tr t → tr = [] ∧ t = None.
Proof. unfold reconcileTerminal. destruct (DerivePhase _); try done; by intros _ [-> ->]%runs_ret. Qed.

Lemma reconcileActive_acts stage run tr o :
  runs (reconcileActive run) tr o → atStage stage run tr → workflowActs stage tr o.
Proof.
  unfold reconcileActive. intros (t1 & cfg & t2 & -> & Hc & H)%runs_bind Hat%atStage_suffix.
  assert (Hn : none launches t1).
  { unfold currentConfig in Hc. clear H Hat.
    run_if Hc; [run_last Hc|runs_step]; by repeat constructor. }
  apply workflowActs_app; [done|].
  destruct cfg as [c|]; [|runs_step; apply comesBack_acts; by eexists].
  apply runs_bind in H as (t3 & t & t4 & -> & Ht & H).
  apply reconcileTerminal_working in Ht as [-> ->].
  - by eapply reconcileWorkflow_acts.
  - destruct Hat as [Hp _ _ _ _]. destruct stage; cbn [stagePhases] in Hp;
      repeat (apply elem_of_cons in Hp as [->|Hp]; [done|]); by apply elem_of_nil in Hp.
Qed.

(** The answer of a reading of a run. *)
Definition runRead (ev : event answer) : option (res AgenticRun) :=
  match ev with Ev e a => match e return answer e → option (res AgenticRun) with
                          | ApiGetRun _ => λ got, Some got
                          | _ => λ _, None
                          end a end.

(** C13: an approved stage does not stall: a reconciliation that reads a run at work,
    neither deleted nor stopped nor suspended, with its finalizers in place and no
    revision pending, whose stage it asks for has not begun and is approved in every
    approval read or created, launches that stage, or comes back (with an error, which
    the controller retries, or a request), or sends a status patch that marks the
    step, or the resolution of the workflow, as failed, whatever else the API server
    answers. *)
Theorem Reconcile_never_stalls stage req run tr o :
  runs (Reconcile req) (Ev (ApiGetRun req) (Ok run) :: tr) o →
  TimePtr_IsZero (meta_DeletionTimestamp (run_Meta run)) = true →
  ContainsFinalizer (run_Finalizers run) rbacCleanupFinalizer = true →
  ContainsFinalizer (run_Finalizers run) templogCleanupFinalizer = true →
  HasAcceptedStop run = false →
  (∀ c, Ev (ApiGetConfig "cluster") (Ok c) ∈ tr → config_Suspended c = false) →
  atStage stage run tr →
  workflowActs stage tr o.
Proof.
  unfold Reconcile. intros H Hd Hf1 Hf2 Ha Hc Hat. run_if H; [by runs_step|].
  apply runs_bind_call in H as (got & tr' & Heq & H).
  pose proof (f_equal (λ l, head l ≫= runRead) Heq) as Hg. cbn in Hg. injection Hg as Hg.
  subst got. injection Heq as Heq. subst tr'. cbn [bind] in H. rewrite Hd in H. cbn [negb] in H.
  unfold ensureFinalizers in H. rewrite Hf1, Hf2 in H. cbn [negb orb] in H.
  apply runs_bind in H as (t1 & f & t2 & -> & [-> ->]%runs_ret & H). cbn [app] in *.
  apply runs_bind in H as (t3 & state & t4 & -> & Hs & H).
  pose proof (readSuspension_nolaunch _ _ _ Hs) as Hn. apply workflowActs_app; [done|].
  destruct state as [o'|[[[accepted suspended] start] current]].
  { runs_step. apply comesBack_acts. by eapply readSuspension_error. }
  apply readSuspension_working in Hs as [-> ->]; [|done|].
  - cbn [orb] in H. eapply reconcileActive_acts; [done|by apply atStage_suffix in Hat].
  - intros c Hin. apply Hc, elem_of_app. by left.
Qed.

(** C2: what a reconciliation needs to launch work.  It launches at most one step, and
    before the launch it has read, first, the run of the request, which is not deleted;
    the run it works on is that one, or was read again when the finalizers had to be
    added (whether the run read again is deleted is not looked at), and has no accepted
    stop; the global configuration, which does not suspend; the policy (none is in force
    when it cannot be read); and the approval of that run, read or created in the
    namespace of the operator.  By this policy and this approval the stage is the one of
    the run's phase, approved and not denied; or it is the analysis of a pending revision,
    which a terminal run only gets when it completed or failed without execution.  The
    run handed to the agent caller is the answer to a status patch of the run worked on
    (in a revision, of that run without its TTL label) that marks the step in progress. *)
Theorem Reconcile_launches req tr o :
  runs (Reconcile req) tr o →
  none launches tr ∨
  ∃ pre ev post stage launched,
    tr = pre ++ ev :: post ∧ none launches pre ∧ none launches post ∧
    launchOf ev = Some (stage, launched) ∧
    ∃ first rest run policy approval aev base,
      pre = Ev (ApiGetRun req) (Ok first) :: rest ∧
      TimePtr_IsZero (meta_DeletionTimestamp (run_Meta first)) = true ∧
      (run = first ∨ Ev (ApiGetRun req) (Ok run) ∈ rest) ∧
      HasAcceptedStop run = false ∧ notSuspended rest ∧
      policyInForce policy rest ∧ aev ∈ rest ∧ approvalGot run policy approval aev ∧
      launchReason run (Some approval) policy stage ∧
      (base = run ∨ stage = StageAnalysis ∧ needsRevision run = true ∧ revisedFrom run base rest) ∧
      markedFrom base rest stage launched.
Proof.
  intros [?|(pre & ev & post & stage & launched & -> & H1 & H2 & Hl & Hg)]%Reconcile_launch;
    [by left|].
  right. exists pre, ev, post, stage, launched. do 4 (split; [done|]).
  destruct Hg as (first & rest & run & Hpre & Hd & Hr & Ha & Hs & policy & approval & aev & Hp &
    Hin & Hap & Hwhy & base & Hb & Hm).
  by exists first, rest, run, policy, approval, aev, base.
Qed.

End Main.

(** ** The terminal deadline *)

(** The record of a terminal run: both timestamps, together, once. *)
Definition terminalStamp (uid : string) (ceilingDays : Z) (base obj : AgenticRun) : Prop :=
  run_UID base = uid ∧ status_TerminalTime (run_Status base) = None ∧
  ∃ now days, obj = withTerminal base (Some now) (Some (now + days * (24 * Hour))%Z) ∧
    days = terminalDays base ceilingDays ∧ (days ≤ ceilingDays)%Z.

(** The label of a terminal run, under optimistic lock. *)
Definition terminalLabel (base obj : AgenticRun) (lock : bool) : Prop :=
  lock = true ∧ mapGet (run_Labels base) terminalTTLLabel ≠ "true" ∧
  obj = withLabel base terminalTTLLabel "true".

Definition terminalWrite (uid : string) (ceilingDays : Z) (ev : event answer) : Prop :=
  match ev with
  | Ev (StatusPatchRun base obj) _ => terminalStamp uid ceilingDays base obj
  | Ev (PatchRun base obj lock) _ => terminalLabel base obj lock
  | Ev (DeleteRun _) _ => False
  | _ => True
  end.

Lemma terminalDays_ceiling run c : (terminalDays run c ≤ c)%Z.
Proof. unfold terminalDays. repeat case_match; bool_hyps; lia. Qed.

Lemma labelTerminal_write uid days run : emits (terminalWrite uid days) (labelTerminal run).
Proof.
  unfold labelTerminal. destruct (negb _) eqn:Hl; [|apply emits_ret].
  emits_walk idtac. bool_hyps. done.
Qed.

(** The deletion deadline of a terminal run is fixed once: terminal
    handling writes the two timestamps together and only on a run of the same
    UID that has no terminal time, the deadline being the clock plus the days
    the run asks for, at most the ceiling; its only other write is the label
    for the sweep, under optimistic lock, on a run that does not have it. *)
Theorem handleTerminalCleanup_deadline run phase ceilingDays tr o ev :
  runs (handleTerminalCleanup run phase ceilingDays) tr o → ev ∈ tr → writesRun ev = true →
  (∃ base obj ans, ev = Ev (StatusPatchRun base obj) ans ∧
     terminalStamp (run_UID run) ceilingDays base obj) ∨
  (∃ base obj lock ans, ev = Ev (PatchRun base obj lock) ans ∧ terminalLabel base obj lock).
Proof.
  intros H Hin Hw.
  assert (Hall : emits (terminalWrite (run_UID run) ceilingDays)
    (handleTerminalCleanup run phase ceilingDays)).
  { unfold handleTerminalCleanup, handleTerminalRecord, statusPatch, auditIf.
    emits_walk ltac:(try exact I); try apply labelTerminal_write.
    bool_hyps. split; [done|]. split; [done|]. do 2 eexists. split; [reflexivity|].
    split; [done|]. apply terminalDays_ceiling. }
  specialize (Hall _ _ H). rewrite Forall_forall in Hall. apply Hall in Hin.
  destruct ev as [[] ans]; try done; [right|left]; eauto 10.
Qed.

(** ** The clean-up of the audit logs *)

Lemma templogAttempts_next run :
  (0 ≤ templogAttempts run < templogMaxCleanupAttempts)%Z →
  templogAttempts (withAnnotation run templogCleanupAttemptsAnnotation
                     (Itoa (templogAttempts run + 1))) = (templogAttempts run + 1)%Z.
Proof.
  generalize (templogAttempts run) as n. intros n Hn.
  assert (n = 0 ∨ n = 1 ∨ n = 2)%Z as Hcases by (unfold templogMaxCleanupAttempts in Hn; lia).
  unfold templogAttempts, withAnnotation, run_Annotations. simpl. rewrite lookup_insert_eq.
  by destruct Hcases as [->|[->| ->]].
Qed.

Lemma templogAttempts_nonneg run : (0 ≤ templogAttempts run)%Z.
Proof. unfold templogAttempts. repeat case_match; bool_hyps; lia. Qed.

Definition templogWrite (run : AgenticRun) (ev : event answer) : Prop :=
  match ev with
  | Ev (DeleteLogs uid) _ =>
      uid = run_UID run ∧ (templogAttempts run < templogMaxCleanupAttempts)%Z
  | Ev (PatchRun base obj _) _ =>
      base = run ∧
      ((obj = withRunFinalizers run (RemoveFinalizer (run_Finalizers run)
                                       templogCleanupFinalizer)) ∨
       (templogAttempts obj = templogAttempts run + 1 ∧
        templogAttempts obj ≤ templogMaxCleanupAttempts)%Z)
  | _ => True
  end.

(** The clean-up of the audit logs cannot block a deletion for ever: each
    failure is counted on the run, up to three, the logs are deleted only while
    fewer are recorded (a malformed record counting as none), and a call that
    neither errs nor requeues has patched the finalizer away. *)
Theorem handleTemplogCleanup_bounded run tr o :
  runs (handleTemplogCleanup run) tr o →
  Forall (templogWrite run) tr ∧
  ((templogMaxCleanupAttempts ≤ templogAttempts run)%Z →
     none (λ ev, match ev with Ev (DeleteLogs _) _ => true | _ => false end) tr ∧
     RequeueAfter (fst o) = 0%Z) ∧
  (snd o = None → RequeueAfter (fst o) = 0%Z →
     ∃ lock ans, Ev (PatchRun run (withRunFinalizers run
       (RemoveFinalizer (run_Finalizers run) templogCleanupFinalizer)) lock) ans ∈ tr).
Proof.
  unfold handleTemplogCleanup. intros (t1 & logs & t2 & -> & Hl & H)%runs_bind.
  assert (H1 : Forall (templogWrite run) t1 ∧
    ((templogMaxCleanupAttempts ≤ templogAttempts run)%Z → t1 = [] ∧ logs = None) ∧
    (logs ≠ None → (templogAttempts run < templogMaxCleanupAttempts)%Z)).
  { clear H. run_if Hl; [|runs_step; done]. bool_hyps. run_last Hl.
    split; [by repeat constructor|]. split; [lia|done]. }
  destruct H1 as (Hw & Hmax & Hsome). destruct logs as [e|].
  - specialize (Hsome ltac:(done)). pose proof (templogAttempts_nonneg run).
    run_call H p. runs_step. split; [|split; [lia|]].
    + apply Forall_app; split; [done|]. constructor; [|constructor]. split; [done|]. right.
      rewrite templogAttempts_next by done. lia.
    + destruct p as [p|e']; [done|]. by destruct (IgnoreNotFound e').
  - unfold removeFinalizer in H. apply runs_bind in H as (t3 & p & t4 & -> & Hp & H).
    run_call Hp a. runs_step. runs_step. split; [|split].
    + rewrite !Forall_app. split; [done|]. repeat constructor.
    + intros [-> _]%Hmax. split; [by repeat constructor|].
      destruct a as [a|e]; [done|]. by destruct (IgnoreNotFound e).
    + intros _ _. eexists _, _. apply elem_of_app. right. left.
Qed.

(** ** Deletion *)
Section Deletion.
Context {KL : ApiMachineryLaws K}.

(** The access of the run is taken down, or the run is gone. *)
Definition released (uid : string) (ev : event answer) : bool :=
  match ev with
  | Ev (ReleaseSandboxes _ _) None => true
  | _ => confirmedPass ev || lost uid ev
  end.

(** The call leaves the cleanup finalizer of a run alone. *)
Definition keepsFinalizer (ev : event answer) : Prop :=
  match ev with
  | Ev (PatchRun base obj _) _ =>
      rbacCleanupFinalizer ∈ run_Finalizers base → rbacCleanupFinalizer ∈ run_Finalizers obj
  | Ev (DeleteRun _) _ => False
  | _ => True
  end.

Definition releasesFirst (uid : string) : trace → Prop :=
  ordered keepsFinalizer (λ _, True) (released uid) false.

Lemma removeTemplog_keeps run :
  rbacCleanupFinalizer ∈ run_Finalizers run →
  rbacCleanupFinalizer ∈ run_Finalizers (withRunFinalizers run
    (RemoveFinalizer (run_Finalizers run) templogCleanupFinalizer)).
Proof. intros H. apply RemoveFinalizer_elem. split; [done|exact H]. Qed.

Lemma finishDeletion_keeps run : emits keepsFinalizer (finishDeletion run).
Proof.
  unfold finishDeletion, handleTemplogCleanup, removeFinalizer.
  emits_walk ltac:(try exact I; simpl; intros; first [assumption | by apply removeTemplog_keeps]).
Qed.

Lemma handleSuspensionAt_keeps run start : emits keepsFinalizer (handleSuspensionAt r run start).
Proof.
  intros tr v H. apply (handleSuspensionAt_ordered r (KL:=KL)), ordered_all in H.
  eapply Forall_impl; [exact H|]. intros [[] ans] [[_ Hp]|[_ Hp]]; simpl in *; done.
Qed.

Lemma comesBack_released uid tr res run' :
  comesBack uid tr ((res, None), run') → comesAgain res = false →
  existsb (released uid) tr = true.
Proof.
  intros (_ & [Hle _] & H) Hc. unfold comesAgain in Hc. bool_hyps.
  assert (Hx : ∃ ev, ev ∈ tr ∧ released uid ev = true).
  { destruct H as [?|[Hl|Hl]]; [lia|..];
      apply existsb_exists in Hl as (ev & ?%list_elem_of_In & Hl); exists ev; (split; [done|]);
      unfold released; rewrite Hl; destruct ev as [[] a]; rewrite ?orb_true_r; try done;
      by destruct a. }
  destruct Hx as (ev & ? & ?). apply existsb_exists. exists ev. by rewrite <- list_elem_of_In.
Qed.

Lemma reconcileDeleting_ordered run tr o :
  runs (reconcileDeleting run) tr o → releasesFirst (run_UID run) tr.
Proof.
  unfold reconcileDeleting. intros (t1 & u & t2 & -> & Ha & H)%runs_bind.
  assert (Ha' : Forall keepsFinalizer t1)
    by (eapply (λ h, h : emits keepsFinalizer (auditIf _ _)); [|exact Ha];
        unfold auditIf; emits_walk ltac:(exact I)).
  apply ordered_app; split; [by apply ordered_Forall|]. apply ordered_mono.
  apply runs_bind in H as (t3 & state & t4 & -> & Hs & H).
  assert (Hs' : emits keepsFinalizer (readSuspension run))
    by (unfold readSuspension, readSuspensionActivation; emits_walk ltac:(exact I)).
  apply Hs' in Hs. apply ordered_app; split; [by apply ordered_Forall|]. apply ordered_mono.
  destruct state as [o'|[[[accepted suspended] start] current]]; [by runs_step|].
  run_if H.
  - run_if H; [by runs_step|]. apply runs_bind in H as (t5 & [[res err] run1] & t6 & -> & Hh & H).
    pose proof (handleSuspensionAt_keeps _ _ _ _ Hh) as Hk.
    apply handleSuspensionAt_back in Hh. destruct err as [e|].
    { runs_step. rewrite app_nil_r. by apply ordered_Forall. }
    run_if H; [runs_step; rewrite app_nil_r; by apply ordered_Forall|].
    pose proof (comesBack_released _ _ _ _ Hh Hb1) as Hrel.
    apply ordered_app; split; [by apply ordered_Forall|]. rewrite Hrel.
    apply ordered_seen, Forall_true. auto.
  - run_if H; [|by eapply ordered_Forall, finishDeletion_keeps].
    run_call H e. destruct e as [err|]; [runs_step; split; [by left|done]|].
    split; [by left|]. apply ordered_seen, Forall_true. auto.
Qed.

(** C34: a deleted run keeps its cleanup finalizer until its access is taken
    down: the patch that removes it comes after the sandboxes were released
    without error, or after a suspension cleanup of the run was confirmed, or
    after the API server said the run is gone. *)
Theorem deletion_releases_first run tr1 base obj lock ans tr2 o :
  runs (reconcileDeleting run) (tr1 ++ Ev (PatchRun base obj lock) ans :: tr2) o →
  rbacCleanupFinalizer ∈ run_Finalizers base →
  rbacCleanupFinalizer ∉ run_Finalizers obj →
  ∃ ev, ev ∈ tr1 ∧ released (run_UID run) ev = true.
Proof.
  intros H%reconcileDeleting_ordered Hb Ho.
  apply ordered_before in H as [_ ?]; [done|]. intros Hk. by apply Ho, Hk.
Qed.
End Deletion.
End Reconcile.
