(* ===== verification/PodHandler.v ===== *)
(** Sandbox pod events ([controller/agenticrun/pod_handler.go]): from a pod to
    the run and step it works for, the progress of the step condition, and the
    completion of a step with its result and token usage. *)
From stdpp Require Import base list option strings gmap.
From Stdlib Require Import ZArith Lia.
From S2P Require Import Prelude GoText ApiMachinery Types Phase Effects Approval Resolve.
From S2P Require Import Results Helpers Handlers.

Local Open Scope string_scope.
Local Open Scope list_scope.
Local Open Scope prog_scope.

Definition msgSandboxNoResult : string := "sandbox exited without creating result".
Definition ReasonSucceeded : string := "Succeeded".
Definition ReasonSandboxTimeout : string := "SandboxTimeout".
Definition ReasonSandboxStartupTimeout : string := "SandboxStartupTimeout".
Definition ReasonSandboxFailed : string := "SandboxFailed".
Definition ReasonAgentTimeout : string := "AgentTimeout".
Definition ReasonToolResultSafetyInspectionFailed : string := "ToolResultSafetyInspectionFailed".
Definition msgToolResultSafetyInspectionFailed : string :=
  "A possible security issue was detected in the tool output. The agentic run was stopped for safety.".

(** ** Steps, conditions and results *)

Definition stepConditionType (step : string) : string :=
  if String.eqb step "analysis" then AgenticRunConditionAnalyzed
  else if String.eqb step "execution" then AgenticRunConditionExecuted
  else if String.eqb step "verification" then AgenticRunConditionVerified
  else if String.eqb step "escalation" then AgenticRunConditionEscalated
  else "".

Definition appendResultRef (run : AgenticRun) (step name outcome : string) : AgenticRun :=
  let s := run_Steps run in
  let add st := appendResult st name outcome in
  if String.eqb step "analysis" then
    withSteps run (withAnalysisStep s (add (steps_Analysis s)))
  else if String.eqb step "execution" then
    withSteps run (withExecutionStep s (add (steps_Execution s)))
  else if String.eqb step "verification" then
    withSteps run (withVerificationStep s (add (steps_Verification s)))
  else if String.eqb step "escalation" then
    withSteps run (withEscalationStep s (add (steps_Escalation s)))
  else run.

Definition extractTokenUsage (o : ResultCR) : TokenUsage :=
  match result_Status o with
  | AnalysisResult s => ar_TokenUsage s
  | ExecutionResult s => er_TokenUsage s
  | VerificationResult s => vr_TokenUsage s
  | EscalationResult s => esr_TokenUsage s
  end.

(** [*acc += n]: [None] is the dereference of a nil accumulator. *)
Definition addTokens (acc : option Z) (n : option Z) : option (option Z) :=
  match n with
  | None => Some acc
  | Some n => match acc with
              | Some a => Some (Some (wrap64 (a + n)))
              | None => None
              end
  end.

(** [None] is a nil pointer dereference. *)
Definition aggregateTokenUsage (run : AgenticRun) (o : ResultCR) : option AgenticRun :=
  let tu := extractTokenUsage o in
  if TokenUsage_IsZero tu then Some run
  else
    let u := status_TokenUsage (run_Status run) in
    let u := if TokenUsage_IsZero u then MkTokenUsage (Some 0%Z) (Some 0%Z) else u in
    match addTokens (InputTokens u) (InputTokens tu) with
    | None => None
    | Some i => match addTokens (OutputTokens u) (OutputTokens tu) with
                | None => None
                | Some o => Some (withTokenUsage run (MkTokenUsage i o))
                end
    end.

(** ** Pods *)

(** The first container's termination, if it terminated. *)
Definition podTerminatedInfo (pod : Pod) : option ContainerStateTerminated :=
  match pod_ContainerStatuses pod with
  | [] => None
  | c :: _ => cs_Terminated c
  end.

(** The termination message, empty when there is none. *)
Definition terminationMessage (pod : Pod) : string :=
  from_option term_Message "" (podTerminatedInfo pod).

Definition podFailMessage (pod : Pod) : string :=
  if String.eqb (pod_Phase pod) PodSucceeded then msgSandboxNoResult
  else
    let msg := terminationMessage pod in
    if negb (String.eqb msg "") then
      if String.eqb msg ReasonToolResultSafetyInspectionFailed
      then msgToolResultSafetyInspectionFailed else msg
    else match podTerminatedInfo pod with
         | Some t => "sandbox pod failed (exit " +:+ Itoa (term_ExitCode t) +:+ ")"
         | None => "sandbox pod failed"
         end.

(** What a pod says of its work: the step, the name hint and UID of the run. *)
Record Identity := MkIdentity { id_Step : string; id_RunName : string; id_RunUID : string }.

Definition orElse (s t : string) : string := if String.eqb s "" then t else s.

Definition resolveBarePodMetadata (pod : Pod) : Identity :=
  let m := pod_Meta pod in
  fold_left (λ i owner,
      if negb (String.eqb (owner_Kind owner) "AgenticRun") then i
      else MkIdentity (id_Step i) (orElse (id_RunName i) (owner_Name owner))
             (orElse (id_RunUID i) (owner_UID owner)))
    (meta_OwnerReferences m)
    (MkIdentity (mapGet (meta_Labels m) LabelStep) (mapGet (meta_Annotations m) AnnotationRunName)
       (mapGet (meta_Labels m) LabelRun)).

(** The identity the labels and annotations of an object complete. *)
Definition completeIdentity (i : Identity) (m : ObjectMeta) : Identity :=
  MkIdentity (orElse (id_Step i) (mapGet (meta_Labels m) LabelStep))
    (orElse (id_RunName i) (mapGet (meta_Annotations m) AnnotationRunName))
    (orElse (id_RunUID i) (mapGet (meta_Labels m) LabelRun)).

(** [step != "" && runUID != ""]. *)
Definition identified (i : Identity) : bool :=
  negb (String.eqb (id_Step i) "") && negb (String.eqb (id_RunUID i) "").

Definition ownersOf (m : ObjectMeta) (kind : string) : list OwnerReference :=
  List.filter (λ o, String.eqb (owner_Kind o) kind) (meta_OwnerReferences m).

(** The identity written on the pod itself. *)
Definition podIdentity (pod : Pod) : Identity :=
  let m := pod_Meta pod in
  fold_left (λ i owner,
      if String.eqb (owner_Kind owner) "AgenticRun" && String.eqb (id_RunUID i) ""
      then MkIdentity (id_Step i) (orElse (id_RunName i) (owner_Name owner)) (owner_UID owner)
      else i)
    (meta_OwnerReferences m)
    (MkIdentity (mapGet (meta_Labels m) LabelStep) (mapGet (meta_Annotations m) AnnotationRunName)
       (mapGet (meta_Labels m) LabelRun)).

(** Along the ownership chain Pod, Sandbox, SandboxClaim: the first claim ends
    the search; [inl] goes on with the next owner. *)
Definition identityFromSandbox (namespace : string) (podRef : OwnerReference) (i : Identity)
    : M (Identity + res Identity) :=
  sb <- call (GetSandboxMeta KindSandbox (MkNamespacedName namespace (owner_Name podRef))) ;;
  match sb with
  | Err err => Ret (inr (Err err))
  | Ok m =>
      let i1 := completeIdentity i m in
      if identified i1 then Ret (inr (Ok i1))
      else
        match ownersOf m "SandboxClaim" with
        | [] => Ret (inl i1)
        | sbRef :: _ =>
            claim <- call (GetSandboxMeta KindSandboxClaim
                             (MkNamespacedName namespace (owner_Name sbRef))) ;;
            Ret match claim with
                | Err err => inr (Err err)
                | Ok c => inr (Ok (completeIdentity i1 c))
                end
        end
  end.

Definition resolveSandboxPodMetadata (pod : Pod) : M (res Identity) :=
  let i := podIdentity pod in
  if identified i then Ret (Ok i)
  else
    forEach (ownersOf (pod_Meta pod) "Sandbox") i
      (identityFromSandbox (meta_Namespace (pod_Meta pod)))
      (λ i', Ret (Ok i')).

Section PodHandler.
Context `{K : ApiMachinery} (r : AgenticRunReconciler).

Definition isSandboxClaimMode : M bool :=
  cfg <- call ConfigGet ;;
  Ret match cfg with
      | Some c => String.eqb (cfg_SandboxMode c) sandboxModeSandboxClaim
      | None => false
      end.

Definition isStepInProgress (run : AgenticRun) (condType : string) : bool :=
  condIs (find run condType) ConditionUnknown.

Definition runForSandboxIdentity (runName runUID : string) : M (res (option AgenticRun)) :=
  if negb (r_APIReader r) then
    Ret (Err (errorString
      "uncached API reader is required to resolve sandbox Pod ownership"))
  else if String.eqb runUID "" then Ret (Ok None)
  else
    hint <-
      (if negb (String.eqb runName "") then
         got <- call (ApiGetRun (MkNamespacedName (r_Namespace r) runName)) ;;
         Ret match got with
             | Ok run => if String.eqb (run_UID run) runUID then Some (Ok (Some run)) else None
             | Err err => match IgnoreNotFound err with
                          | Some _ => Some (Err err)
                          | None => None
                          end
             end
       else Ret None) ;;
    match hint with
    | Some answer => Ret answer
    | None =>
        runs <- call ApiListRuns ;;
        Ret match runs with
            | Err err => Err err
            | Ok items =>
                Ok (List.find (λ run, String.eqb (run_UID run) runUID
                                      && (String.eqb runName "" || String.eqb (run_Name run) runName))
                      items)
            end
    end.

(** The result of the step, of its kind. *)
Definition fetchResultCRByStep (key : NamespacedName) (step : string) : M (option ResultCR) :=
  let fetch kind := got <- call (GetResult kind key) ;;
                    Ret match got with Ok cr => Some cr | Err _ => None end in
  if String.eqb step "analysis" then fetch "AnalysisResult"
  else if String.eqb step "execution" then fetch "ExecutionResult"
  else if String.eqb step "verification" then fetch "VerificationResult"
  else if String.eqb step "escalation" then fetch "EscalationResult"
  else Ret None.

Definition failureReasonOf (s : ResultStatus) : string :=
  match s with
  | AnalysisResult a => ar_FailureReason a
  | ExecutionResult e => er_FailureReason e
  | VerificationResult v => vr_FailureReason v
  | EscalationResult e => esr_FailureReason e
  end.

(** The mandatory fields of a successful result; empty when they are there. *)
Definition validateResultStatus (s : ResultStatus) : string :=
  match s with
  | AnalysisResult a =>
      if negb (String.eqb (ar_ActionRequired a) ActionRequiredFalse)
         && (length (ar_Options a) =? 0)%nat
      then "result CR missing options" else ""
  | ExecutionResult e =>
      if (length (er_ActionsTaken e) =? 0)%nat then "result CR missing actionsTaken" else ""
  | VerificationResult v =>
      if (length (vr_Checks v) =? 0)%nat then "result CR missing checks" else ""
  | EscalationResult e =>
      if String.eqb (esr_Summary e) "" then "result CR missing summary" else ""
  end.

(** The verdict on a result that was read. *)
Definition judgeResult (obj : ResultCR) : option ResultCR * string :=
  match FindStatusCondition (GetConditions (result_Status obj)) ResultConditionCompleted with
  | None => (None, "result CR missing Completed condition")
  | Some c =>
      if negb (bool_decide (cond_Status c = ConditionTrue))
      then (None, "result CR missing Completed condition")
      else if String.eqb (cond_Reason c) ResultReasonAgentTimeout
      then (Some obj, ResultReasonAgentTimeout)
      else if negb (String.eqb (failureReasonOf (result_Status obj)) "")
      then (Some obj, failureReasonOf (result_Status obj))
      else if String.eqb (cond_Reason c) ResultReasonFailed
      then (Some obj, "agent reported failure")
      else
        let reason := validateResultStatus (result_Status obj) in
        if negb (String.eqb reason "") then (None, reason) else (Some obj, "")
  end.

Definition validateResultCR (run : AgenticRun) (step : string) : M (option ResultCR * string) :=
  let name := resultCRName (run_Name run) step (nextResultIndex run step) in
  obj <- fetchResultCRByStep (MkNamespacedName (r_Namespace r) name) step ;;
  Ret match obj with
      | None => (None, msgSandboxNoResult)
      | Some o => judgeResult o
      end.

(** Run [k] on the run as the guard reads it. *)
Definition guardedRun {A} (run : AgenticRun) (bad : error → A) (k : AgenticRun → M A) : M A :=
  g <- readRunnableRun r (run_Key run) (run_UID run) ;;
  match g with
  | Err err => Ret (bad err)
  | Ok current => k current
  end.

(** [return err] of a status patch. *)
Definition patchError (obj base : AgenticRun) : M (option error) :=
  p <- statusPatch obj base ;;
  Ret match p with Err err => Some err | Ok _ => None end.

Definition patchStepCondition (run : AgenticRun) (condType : string)
    (status : ConditionStatus) (reason message : string) : M (option error) :=
  if String.eqb condType "" then Ret None
  else if negb (r_APIReader r) then
    Ret (Some (errorString "uncached API reader is required before patching a run step"))
  else
    guardedRun run Some (λ current,
      let unchanged :=
        match find current condType with
        | Some c =>
            if negb (bool_decide (cond_Status c = ConditionUnknown)) then true
            else bool_decide (cond_Status c = status) && String.eqb (cond_Reason c) reason
        | None => false
        end in
      if unchanged then Ret None
      else
        obj <- setCondition current condType status reason message ;;
        patchError obj current).

Definition panicNil : error := panicError "invalid memory address or nil pointer dereference".

Definition patchStepResult (run : AgenticRun) (step condType : string) (resultCR : ResultCR)
    (status : ConditionStatus) (reason message : string) : M (option error) :=
  if String.eqb condType "" then Ret None
  else if negb (r_APIReader r) then
    Ret (Some (errorString "uncached API reader is required before linking a run result"))
  else
    guardedRun run Some (λ current,
      let outcome := if bool_decide (status = ConditionTrue) then ActionOutcomeSucceeded
                     else ActionOutcomeFailed in
      let run1 := appendResultRef current step (meta_Name (result_Meta resultCR)) outcome in
      match aggregateTokenUsage run1 resultCR with
      | None => Ret (Some panicNil)
      | Some run2 =>
          obj <- setCondition run2 condType status reason message ;;
          patchError obj current
      end).

Definition patchVerificationFailedEscalating (run : AgenticRun) (resultCR : ResultCR)
    (reason : string) : M (option error) :=
  if negb (r_APIReader r) then
    Ret (Some (errorString
      "uncached API reader is required before linking a verification result"))
  else
    guardedRun run Some (λ current,
      let run1 := appendResultRef current "verification" (meta_Name (result_Meta resultCR))
                    ActionOutcomeFailed in
      match aggregateTokenUsage run1 resultCR with
      | None => Ret (Some panicNil)
      | Some run2 =>
          run3 <- setCondition run2 AgenticRunConditionVerified ConditionFalse
                    ReasonVerificationFailed ("Verification failed: " +:+ reason) ;;
          obj <- setCondition run3 AgenticRunConditionEscalated ConditionUnknown
                   ReasonVerificationFailed "Verification failed, escalating" ;;
          patchError obj current
      end).

(** The patch of a step whose pod succeeded: by the verdict on its result. *)
Definition completeSucceeded (run : AgenticRun) (step condType : string)
    (verdict : option ResultCR * string) : M (option error) :=
  match verdict with
  | (Some cr, reason) =>
      if String.eqb reason "" then
        let noAction :=
          String.eqb step "analysis" &&
          match result_Status cr with
          | AnalysisResult a => String.eqb (ar_ActionRequired a) ActionRequiredFalse
          | _ => false
          end in
        patchStepResult run step condType cr ConditionTrue
          (if noAction then reasonNoActionRequired else ReasonSucceeded)
          (if noAction then "Analysis complete — no action required" else "Sandbox completed")
      else if String.eqb reason ResultReasonAgentTimeout && String.eqb step "verification" then
        patchVerificationFailedEscalating run cr reason
      else if String.eqb reason ResultReasonAgentTimeout then
        patchStepResult run step condType cr ConditionFalse ReasonAgentTimeout
          "Agent exceeded its configured execution budget"
      else if String.eqb step "verification" then
        patchVerificationFailedEscalating run cr reason
      else patchStepResult run step condType cr ConditionFalse ReasonSandboxFailed reason
  | (None, reason) =>
      patchStepCondition run condType ConditionFalse ReasonSandboxFailed reason
  end.

(** The patch that completes the step, and the result it refers to. *)
Definition completePatch (run : AgenticRun) (pod : Pod)
    (step condType timeoutMsg timeoutReason : string) : M (option error * option ResultCR) :=
  if negb (String.eqb timeoutMsg "") then
    let reason := if String.eqb timeoutReason "" then ReasonSandboxTimeout else timeoutReason in
    e <- patchStepCondition run condType ConditionFalse reason timeoutMsg ;;
    Ret (e, None)
  else if String.eqb (pod_Phase pod) PodSucceeded then
    verdict <- validateResultCR run step ;;
    e <- completeSucceeded run step condType verdict ;;
    Ret (e, fst verdict)
  else
    let failReason :=
      if String.eqb (terminationMessage pod) ReasonToolResultSafetyInspectionFailed
      then ReasonToolResultSafetyInspectionFailed else ReasonSandboxFailed in
    e <- patchStepCondition run condType ConditionFalse failReason (podFailMessage pod) ;;
    Ret (e, None).

(** What follows the patch: audit, and the release of the sandbox unless a
    failed run is preserved. *)
Definition afterCompletion (run : AgenticRun) (step condType : string)
    (resultCR : option ResultCR) : M (option error) :=
  guardedRun run Some (λ current,
    auditIf (r_Audit r) (CompleteStep current step resultCR) ;;;
    if preserveFailedSandbox current && condIs (find current condType) ConditionFalse
    then Ret None
    else
      guardedRun current Some (λ current',
        call (ReleaseSandbox current' step) ;;; Ret None)).

(** [completeStep] between the lock and the unlock. *)
Definition completeLocked (run : AgenticRun) (pod : Pod)
    (step condType timeoutMsg timeoutReason : string) : M (option error) :=
  if negb (r_APIReader r) then
    Ret (Some (errorString "uncached API reader is required before completing a run step"))
  else
    guardedRun run Some (λ current,
      let decided :=
        match find current condType with
        | Some c => negb (bool_decide (cond_Status c = ConditionUnknown))
        | None => false
        end in
      if decided then Ret None
      else
        let! (patchErr, resultCR) :=
          completePatch current pod step condType timeoutMsg timeoutReason in
        match patchErr with
        | Some err => Ret (Some err)
        | None => afterCompletion current step condType resultCR
        end).

Definition completeStep (run : AgenticRun) (pod : Pod)
    (step condType timeoutMsg timeoutReason : string) : M (option error) :=
  call Lock ;;;
  e <- completeLocked run pod step condType timeoutMsg timeoutReason ;;
  call Unlock ;;;
  Ret e.

(** [isStopAcceptedError(err)] on a possibly nil error. *)
Definition stopAcceptedIn (e : option error) : bool :=
  match e with Some err => isStopAcceptedError err | None => false end.

Definition podActive (pod : Pod) : bool :=
  String.eqb (pod_Phase pod) PodRunning || String.eqb (pod_Phase pod) PodPending
  || String.eqb (pod_Phase pod) PodUnknown.

(** The event of a pod whose run and step are known. *)
Definition podProgress (run : AgenticRun) (pod : Pod) (step : string) : M (option error) :=
  let condType := stepConditionType step in
  if podActive pod then
    let reason := if String.eqb (pod_Phase pod) PodRunning then ReasonRunning
                  else ReasonWaitingForSandbox in
    patchStepCondition run condType ConditionUnknown reason ("Sandbox pod " +:+ reason)
  else completeStep run pod step condType "" "".

(** The requests the event enqueues. *)
Definition handlePodEvent (pod : Pod) : M (list NamespacedName) :=
  claimMode <- isSandboxClaimMode ;;
  i <- (if claimMode then resolveSandboxPodMetadata pod
        else Ret (Ok (resolveBarePodMetadata pod))) ;;
  match i with
  | Err _ => Ret []
  | Ok id =>
      if negb (identified id) then Ret []
      else
        found <- runForSandboxIdentity (id_RunName id) (id_RunUID id) ;;
        match found with
        | Err _ | Ok None => Ret []
        | Ok (Some run) =>
            let request := run_Key run in
            g <- readRunnableRun r (run_Key run) (run_UID run) ;;
            match g with
            | Err guardErr => Ret (if isSentinelStop guardErr then [request] else [])
            | Ok current =>
                if isTerminal (DerivePhase (run_Conditions current)) then Ret []
                else
                  e <- podProgress current pod (id_Step id) ;;
                  Ret (if stopAcceptedIn e then [request] else [])
            end
        end
  end.

(** ** Token usage *)

(** The accumulator of a run has both counters or neither. *)
Definition tokensPaired (u : TokenUsage) : Prop :=
  is_Some (InputTokens u) ↔ is_Some (OutputTokens u).

(** A counter after a contribution. *)
Definition tokenSum (acc n : option Z) : Z :=
  match n with
  | Some n => wrap64 (default 0%Z acc + n)
  | None => default 0%Z acc
  end.

(** Adding the usage of a result never dereferences a nil counter of a run
    whose counters come in pairs, and keeps them in pairs: the run is left
    alone when the result reports nothing, and otherwise both counters are
    set to the [int64] sums; the conditions, steps and metadata stay. *)
Theorem aggregateTokenUsage_total run o :
  tokensPaired (status_TokenUsage (run_Status run)) →
  ∃ run', aggregateTokenUsage run o = Some run' ∧
    let u := status_TokenUsage (run_Status run) in
    let tu := extractTokenUsage o in
    (if TokenUsage_IsZero tu then run' = run
     else run' = withTokenUsage run
            (MkTokenUsage (Some (tokenSum (InputTokens u) (InputTokens tu)))
                          (Some (tokenSum (OutputTokens u) (OutputTokens tu))))) ∧
    tokensPaired (status_TokenUsage (run_Status run')).
Proof.
  unfold aggregateTokenUsage, tokensPaired, tokenSum. intros Hp.
  destruct (TokenUsage_IsZero (extractTokenUsage o)) eqn:Hz; [by exists run|].
  destruct (status_TokenUsage (run_Status run)) as [[i|] [j|]] eqn:Hu; simpl in *;
    try (by exfalso; destruct Hp as [Hp1 Hp2]; naive_solver);
    destruct (extractTokenUsage o) as [[i'|] [j'|]]; simpl in *; try done;
    eexists; (split; [reflexivity|]); simpl; split; try done; split; eauto.
Qed.

(** ** Verdicts *)

(** A step succeeds only on a completed result: the verdict accepts exactly
    the result whose [Completed] condition is [True], whose reason is neither
    the agent's timeout nor its failure, that names no failure reason, and that
    has the mandatory content of its kind; and a verdict without a result
    always gives a reason. *)
Theorem judgeResult_accepts obj :
  (judgeResult obj = (Some obj, "") ↔
   ∃ c, FindStatusCondition (GetConditions (result_Status obj)) ResultConditionCompleted
        = Some c ∧
     cond_Status c = ConditionTrue ∧
     cond_Reason c ≠ ResultReasonAgentTimeout ∧ cond_Reason c ≠ ResultReasonFailed ∧
     failureReasonOf (result_Status obj) = "" ∧
     match result_Status obj with
     | AnalysisResult a => ar_ActionRequired a = ActionRequiredFalse ∨ ar_Options a ≠ []
     | ExecutionResult e => er_ActionsTaken e ≠ []
     | VerificationResult v => vr_Checks v ≠ []
     | EscalationResult e => esr_Summary e ≠ ""
     end) ∧
  (fst (judgeResult obj) = None → snd (judgeResult obj) ≠ "").
Proof.
  assert (Hv : validateResultStatus (result_Status obj) = "" ↔
    match result_Status obj with
    | AnalysisResult a => ar_ActionRequired a = ActionRequiredFalse ∨ ar_Options a ≠ []
    | ExecutionResult e => er_ActionsTaken e ≠ []
    | VerificationResult v => vr_Checks v ≠ []
    | EscalationResult e => esr_Summary e ≠ ""
    end).
  { unfold validateResultStatus. destruct (result_Status obj) as [a|e|v|e].
    - destruct (String.eqb_spec (ar_ActionRequired a) ActionRequiredFalse);
        destruct (ar_Options a); simpl; naive_solver.
    - destruct (er_ActionsTaken e); simpl; naive_solver.
    - destruct (vr_Checks v); simpl; naive_solver.
    - destruct (String.eqb_spec (esr_Summary e) ""); naive_solver. }
  unfold judgeResult.
  destruct (FindStatusCondition _ _) as [c|]; [|naive_solver].
  destruct (negb (bool_decide (cond_Status c = ConditionTrue))) eqn:Hs; bool_hyps; [naive_solver|].
  destruct (String.eqb_spec (cond_Reason c) ResultReasonAgentTimeout); [naive_solver|].
  destruct (String.eqb_spec (failureReasonOf (result_Status obj)) "") as [Hf|Hf]; simpl;
    [|naive_solver].
  destruct (String.eqb_spec (cond_Reason c) ResultReasonFailed); [naive_solver|].
  destruct (String.eqb_spec (validateResultStatus (result_Status obj)) "") as [Hr|Hr]; simpl;
    [|naive_solver].
  split; [|naive_solver]. split; [|done]. intros _. exists c. tauto.
Qed.

(** ** Patches of a step *)

(** A condition a pod may still decide: absent, or in progress. *)
Definition undecided (run : AgenticRun) (condType : string) : Prop :=
  find run condType = None ∨
  ∃ c, find run condType = Some c ∧ cond_Status c = ConditionUnknown.

(** A trace that sends at most one status patch, last, built from the run the
    guard just read; without an error the server accepted it. *)
Definition guardedPatch (uid : string) (P : AgenticRun → AgenticRun → Prop) (tr : trace)
    (e : option error) : Prop :=
  Forall quiet tr ∨
  ∃ key trg tr1 base obj ans,
    tr = trg ++ tr1 ++ [Ev (StatusPatchRun base obj) ans] ∧
    guarded key uid trg base ∧ Forall quiet tr1 ∧ P base obj ∧
    (e = None → ∃ run, ans = Ok run).

Lemma guarded_quiet key uid tr run : guarded key uid tr run → Forall quiet tr.
Proof. intros (config & -> & _). repeat constructor. Qed.

(** What the handlers of this file do to a run they patch. *)
Definition patchedWith (base obj : AgenticRun) (cs : list Condition) : Prop :=
  run_Conditions obj = cs ∧ run_Meta obj = run_Meta base ∧ run_Spec obj = run_Spec base ∧
  resultsKept base obj.

Definition setBy (now : Time) (base : AgenticRun) (cs : list Condition) (typ : string)
    (st : ConditionStatus) (reason msg : string) : list Condition :=
  SetStatusCondition now cs (NewCondition typ st reason msg (run_Generation base)).

Lemma guardedRun_run {A} run (bad : error → A) k tr a :
  runs (guardedRun run bad k) tr a →
  (Forall quiet tr ∧ ∃ err, a = bad err) ∨
  ∃ trg tr' current, tr = trg ++ tr' ∧ guarded (run_Key run) (run_UID run) trg current ∧
    runs (k current) tr' a.
Proof.
  unfold guardedRun. intros (trg & g & tr' & -> & Hg & H)%runs_bind.
  destruct g as [current|err].
  - right. exists trg, tr', current. split; [done|]. split; [by apply (readRunnableRun_ok r)|done].
  - left. apply (readRunnableRun_quiet r) in Hg. runs_step. rewrite app_nil_r. eauto.
Qed.

Lemma resultsKept_refl run : resultsKept run run.
Proof. unfold resultsKept. repeat split; done. Qed.

Lemma appendResultRef_kept run step name outcome :
  resultsKept run (appendResultRef run step name outcome) ∧
  run_Conditions (appendResultRef run step name outcome) = run_Conditions run ∧
  run_Meta (appendResultRef run step name outcome) = run_Meta run ∧
  run_Spec (appendResultRef run step name outcome) = run_Spec run.
Proof.
  unfold appendResultRef, resultsKept.
  repeat case_match; simpl; repeat split; solve [done | by apply prefix_app_r].
Qed.

Lemma aggregateTokenUsage_kept run o run' :
  aggregateTokenUsage run o = Some run' →
  run_Conditions run' = run_Conditions run ∧ run_Meta run' = run_Meta run ∧
  run_Spec run' = run_Spec run ∧ run_Steps run' = run_Steps run.
Proof.
  unfold aggregateTokenUsage. intros H. repeat case_match; by simplify_eq/=.
Qed.

Lemma resultLinked_kept base step name outcome cr run' :
  aggregateTokenUsage (appendResultRef base step name outcome) cr = Some run' →
  patchedWith base run' (run_Conditions base).
Proof.
  intros (Hc & Hm & Hs & Hst)%aggregateTokenUsage_kept.
  destruct (appendResultRef_kept base step name outcome) as (Hk & Hc' & Hm' & Hs').
  unfold patchedWith, resultsKept in *. rewrite Hst. repeat split; try congruence; tauto.
Qed.

Lemma setCondition_patched base run typ st reason msg tr run' cs :
  patchedWith base run cs → runs (setCondition run typ st reason msg) tr run' →
  Forall quiet tr ∧
  ∃ now, patchedWith base run' (setBy now base cs typ st reason msg).
Proof.
  intros (Hc & Hm & Hs & Hk) H. split; [by eapply setCondition_quiet|].
  apply setCondition_run in H as [now ->]. exists now.
  unfold patchedWith, setBy, run_Generation. simpl. rewrite <- Hc, <- Hm. done.
Qed.

Lemma patchError_run obj base tr e :
  runs (patchError obj base) tr e →
  ∃ ans, tr = [Ev (StatusPatchRun base obj) ans] ∧ (e = None → ∃ run, ans = Ok run).
Proof.
  unfold patchError, statusPatch. intros H. run_call H ans. runs_step.
  exists ans. split; [done|]. destruct ans; eauto; done.
Qed.


Lemma guardedPatch_mono uid (P Q : AgenticRun → AgenticRun → Prop) tr e :
  (∀ base obj, P base obj → Q base obj) → guardedPatch uid P tr e → guardedPatch uid Q tr e.
Proof.
  intros HPQ [?|(key & trg & tr1 & base & obj & ans & -> & Hg & Hq & HP & Ha)]; [by left|].
  right. exists key, trg, tr1, base, obj, ans. eauto 6.
Qed.

Lemma quiet_no_accepted tr : Forall quiet tr → acceptedPatches tr = [].
Proof.
  intros Ht. apply omap_none. eapply Forall_impl; [exact Ht|].
  intros [c a] [Hw _]. by destruct c.
Qed.

(** What a guarded patch is in the trace. *)
Lemma guardedPatch_patches uid P tr e :
  guardedPatch uid P tr e →
  none launches tr ∧ (e = None → statusPatches tr = acceptedPatches tr) ∧
  ∀ base obj, (base, obj) ∈ statusPatches tr →
    statusPatches tr = [(base, obj)] ∧ P base obj ∧
    ∃ key trg tr1, guarded key uid trg base ∧ tr = trg ++ tr1.
Proof.
  intros [Hq|(key & trg & tr1 & base & obj & ans & -> & Hg & Hq & HP & Ha)].
  - split; [by apply quiet_no_launches|]. rewrite (quiet_no_patches _ Hq), (quiet_no_accepted _ Hq).
    split; [done|]. by intros ? ? ?%elem_of_nil.
  - pose proof (guarded_quiet _ _ _ _ Hg) as Hqg.
    split; [rewrite !none_app; repeat split; [by apply quiet_no_launches..|by repeat constructor]|].
    rewrite !statusPatches_app, (quiet_no_patches _ Hq), (quiet_no_patches _ Hqg). simpl.
    split.
    + intros [run ->]%Ha.
      by rewrite !acceptedPatches_app, (quiet_no_accepted _ Hqg), (quiet_no_accepted _ Hq).
    + intros base' obj' [= -> ->]%list_elem_of_singleton. split; [done|].
      split; [done|]. eexists key, trg, _. by split.
Qed.

(** The patch of [patchStepCondition]: of an undecided condition. *)
Definition conditionPatch (condType : string) (st : ConditionStatus) (reason msg : string)
    (base obj : AgenticRun) : Prop :=
  undecided base condType ∧
  ∃ now, patchedWith base obj (setBy now base (run_Conditions base) condType st reason msg).

Lemma patchStepCondition_run run condType st reason msg tr e :
  runs (patchStepCondition run condType st reason msg) tr e →
  guardedPatch (run_UID run) (conditionPatch condType st reason msg) tr e.
Proof.
  unfold patchStepCondition. intros H. run_if H; [runs_step; by left|].
  run_if H; [runs_step; by left|].
  apply guardedRun_run in H as [[? _]|(trg & tr' & base & -> & Hg & H)]; [by left|].
  run_if H.
  { runs_step. left. rewrite app_nil_r. by eapply guarded_quiet. }
  apply runs_bind in H as (tr1 & obj & tr2 & -> & Hs & H).
  apply patchError_run in H as (ans & -> & Hacc).
  destruct (setCondition_patched base base condType st reason msg tr1 obj (run_Conditions base))
    as [Hq [now Hp]]; [repeat split; apply resultsKept_refl|done|].
  right. exists (run_Key run), trg, tr1, base, obj, ans. do 3 (split; [done|]).
  split; [|done]. split; [|by exists now]. unfold undecided.
  destruct (find base condType) as [c|]; [|by left]. right. exists c. split; [done|].
  destruct (bool_decide (cond_Status c = ConditionUnknown)) eqn:Hu; bool_hyps; done.
Qed.

(** The patch of [patchStepResult]: the result and the condition together. *)
Definition linked (base obj : AgenticRun) (step name outcome : string) : Prop :=
  run_Steps obj = run_Steps (appendResultRef base step name outcome).

Definition resultPatch (step condType : string) (cr : ResultCR) (st : ConditionStatus)
    (reason msg : string) (base obj : AgenticRun) : Prop :=
  linked base obj step (meta_Name (result_Meta cr))
    (if bool_decide (st = ConditionTrue) then ActionOutcomeSucceeded else ActionOutcomeFailed) ∧
  ∃ now, patchedWith base obj (setBy now base (run_Conditions base) condType st reason msg).

Lemma setCondition_steps run typ st reason msg tr run' :
  runs (setCondition run typ st reason msg) tr run' → run_Steps run' = run_Steps run.
Proof. by intros [now ->]%setCondition_run. Qed.

Lemma patchStepResult_run run step condType cr st reason msg tr e :
  runs (patchStepResult run step condType cr st reason msg) tr e →
  guardedPatch (run_UID run) (resultPatch step condType cr st reason msg) tr e.
Proof.
  unfold patchStepResult. intros H. run_if H; [runs_step; by left|].
  run_if H; [runs_step; by left|].
  apply guardedRun_run in H as [[? _]|(trg & tr' & base & -> & Hg & H)]; [by left|].
  cbv zeta in H.
  destruct (aggregateTokenUsage _ cr) as [run2|] eqn:Ha; cycle 1.
  { runs_step. left. rewrite app_nil_r. by eapply guarded_quiet. }
  apply runs_bind in H as (tr1 & obj & tr2 & -> & Hs & H).
  apply patchError_run in H as (ans & -> & Hacc).
  pose proof (resultLinked_kept _ _ _ _ _ _ Ha) as Hk.
  destruct (setCondition_patched _ _ _ _ _ _ _ _ _ Hk Hs) as [Hq [now Hp]].
  right. exists (run_Key run), trg, tr1, base, obj, ans. do 3 (split; [done|]).
  split; [|done]. split; [|by exists now]. unfold linked. apply setCondition_steps in Hs.
  apply aggregateTokenUsage_kept in Ha as (_ & _ & _ & Hst). congruence.
Qed.

(** The patch of [patchVerificationFailedEscalating]. *)
Definition escalationPatch (cr : ResultCR) (reason : string) (base obj : AgenticRun) : Prop :=
  linked base obj "verification" (meta_Name (result_Meta cr)) ActionOutcomeFailed ∧
  ∃ now1 now2, patchedWith base obj
    (setBy now2 base
       (setBy now1 base (run_Conditions base) AgenticRunConditionVerified ConditionFalse
          ReasonVerificationFailed ("Verification failed: " +:+ reason))
       AgenticRunConditionEscalated ConditionUnknown ReasonVerificationFailed
       "Verification failed, escalating").

Lemma patchVerificationFailedEscalating_run run cr reason tr e :
  runs (patchVerificationFailedEscalating run cr reason) tr e →
  guardedPatch (run_UID run) (escalationPatch cr reason) tr e.
Proof.
  unfold patchVerificationFailedEscalating. intros H. run_if H; [runs_step; by left|].
  apply guardedRun_run in H as [[? _]|(trg & tr' & base & -> & Hg & H)]; [by left|].
  cbv zeta in H.
  destruct (aggregateTokenUsage _ cr) as [run2|] eqn:Ha; cycle 1.
  { runs_step. left. rewrite app_nil_r. by eapply guarded_quiet. }
  apply runs_bind in H as (tr1 & run3 & tr2 & -> & Hs1 & H).
  apply runs_bind in H as (tr3 & obj & tr4 & -> & Hs2 & H).
  apply patchError_run in H as (ans & -> & Hacc).
  pose proof (resultLinked_kept _ _ _ _ _ _ Ha) as Hk.
  destruct (setCondition_patched _ _ _ _ _ _ _ _ _ Hk Hs1) as [Hq1 [now1 Hp1]].
  destruct (setCondition_patched _ _ _ _ _ _ _ _ _ Hp1 Hs2) as [Hq2 [now2 Hp2]].
  right. exists (run_Key run), trg, (tr1 ++ tr3), base, obj, ans.
  rewrite <- app_assoc. do 2 (split; [done|]). split; [by apply Forall_app|].
  split; [|done]. split; [|by exists now1, now2]. unfold linked. apply setCondition_steps in Hs1, Hs2.
  apply aggregateTokenUsage_kept in Ha as (_ & _ & _ & Hst). congruence.
Qed.

(** The patch that a verdict on the result of a succeeded pod asks for. *)
Definition verdictPatch (step condType : string) (verdict : option ResultCR * string)
    (base obj : AgenticRun) : Prop :=
  match verdict with
  | (None, reason) =>
      conditionPatch condType ConditionFalse ReasonSandboxFailed reason base obj
  | (Some cr, reason) =>
      if String.eqb reason "" then
        ∃ why msg, resultPatch step condType cr ConditionTrue why msg base obj
      else if String.eqb step "verification" then escalationPatch cr reason base obj
      else ∃ why msg, resultPatch step condType cr ConditionFalse why msg base obj
  end.

Lemma completeSucceeded_run run step condType verdict tr e :
  runs (completeSucceeded run step condType verdict) tr e →
  guardedPatch (run_UID run) (verdictPatch step condType verdict) tr e.
Proof.
  unfold completeSucceeded, verdictPatch. destruct verdict as [[cr|] reason]; intros H;
    [|by apply patchStepCondition_run in H].
  destruct (String.eqb reason "");
    [apply patchStepResult_run in H; eapply guardedPatch_mono; [|exact H]; eauto|].
  destruct (String.eqb step "verification"); rewrite ?andb_true_r, ?andb_false_r in H.
  - run_if H; by apply patchVerificationFailedEscalating_run in H.
  - run_if H; apply patchStepResult_run in H; eapply guardedPatch_mono; [|exact H| |exact H]; eauto.
Qed.

(** ** Trace shapes of the completion *)

(** At most one status patch, built from a run the guard read in the trace. *)
Definition onePatch (uid : string) (P : AgenticRun → AgenticRun → Prop) (tr : trace) : Prop :=
  none launches tr ∧
  ∀ base obj, (base, obj) ∈ statusPatches tr →
    statusPatches tr = [(base, obj)] ∧ P base obj ∧
    ∃ key trl trg trr, guarded key uid trg base ∧ tr = trl ++ trg ++ trr.

Lemma onePatch_guarded uid P tr e : guardedPatch uid P tr e → onePatch uid P tr.
Proof.
  intros (Hl & _ & Hp)%guardedPatch_patches. split; [done|].
  intros base obj (? & ? & key & trg & tr1 & ? & ->)%Hp. do 2 (split; [done|]).
  by exists key, [], trg, tr1.
Qed.

Lemma onePatch_quiet uid P tr : Forall quiet tr → onePatch uid P tr.
Proof.
  intros Hq. split; [by apply quiet_no_launches|]. rewrite (quiet_no_patches _ Hq).
  by intros ? ? ?%elem_of_nil.
Qed.

Lemma onePatch_within uid P tr1 tr tr2 :
  Forall quiet tr1 → Forall quiet tr2 → onePatch uid P tr → onePatch uid P (tr1 ++ tr ++ tr2).
Proof.
  intros H1 H2 [Hl Hp].
  split; [rewrite !none_app; auto using quiet_no_launches|]. intros base obj.
  rewrite !statusPatches_app, (quiet_no_patches _ H1), (quiet_no_patches _ H2), app_nil_r.
  intros (? & ? & key & trl & trg & trr & ? & ->)%Hp. do 2 (split; [done|]).
  exists key, (tr1 ++ trl), trg, (trr ++ tr2). split; [done|]. by rewrite <- !app_assoc.
Qed.

Lemma onePatch_mono uid (P Q : AgenticRun → AgenticRun → Prop) tr :
  (∀ base obj, P base obj → Q base obj) → onePatch uid P tr → onePatch uid Q tr.
Proof.
  intros HPQ [Hl Hp]. split; [done|]. intros base obj (? & ? & ?)%Hp. auto.
Qed.

(** The patch that completes a step. *)
Definition completionPatch (step condType : string) (base obj : AgenticRun) : Prop :=
  (∃ verdict, verdictPatch step condType verdict base obj) ∨
  ∃ why msg, conditionPatch condType ConditionFalse why msg base obj.

Lemma fetchResultCRByStep_quiet key step : emits quiet (fetchResultCRByStep key step).
Proof. unfold fetchResultCRByStep. emits_walk done. Qed.

Lemma completePatch_run run pod step condType tmsg treason tr e cr :
  runs (completePatch run pod step condType tmsg treason) tr (e, cr) →
  ∃ trq trp, tr = trq ++ trp ∧ Forall quiet trq ∧
    guardedPatch (run_UID run) (completionPatch step condType) trp e.
Proof.
  assert (Hcond : ∀ why msg trp e0,
    runs (patchStepCondition run condType ConditionFalse why msg) trp e0 →
    guardedPatch (run_UID run) (completionPatch step condType) trp e0).
  { intros why msg trp e0 H%patchStepCondition_run.
    eapply guardedPatch_mono; [|exact H]. right. eauto. }
  unfold completePatch. intros H. run_if H; [|run_if H].
  - apply runs_bind in H as (tr1 & e1 & tr2 & -> & Hp & [-> [= -> ->]]%runs_ret).
    exists [], tr1. rewrite app_nil_r. eauto.
  - apply runs_bind in H as (tr1 & verdict & tr2 & -> & Hv & H).
    apply runs_bind in H as (tr3 & e1 & tr4 & -> & Hp & [-> [= -> ->]]%runs_ret).
    exists tr1, tr3. rewrite app_nil_r. split; [done|]. split.
    + unfold validateResultCR in Hv.
      apply runs_bind in Hv as (tr5 & o & tr6 & -> & Hf & [-> _]%runs_ret).
      rewrite app_nil_r. by eapply fetchResultCRByStep_quiet.
    + apply completeSucceeded_run in Hp. eapply guardedPatch_mono; [|exact Hp]. left. eauto.
  - apply runs_bind in H as (tr1 & e1 & tr2 & -> & Hp & [-> [= -> ->]]%runs_ret).
    exists [], tr1. rewrite app_nil_r. eauto.
Qed.

Lemma guardedRun_quiet {A} run (bad : error → A) k :
  (∀ current, emits quiet (k current)) → emits quiet (guardedRun run bad k).
Proof.
  intros Hk. unfold guardedRun. apply emits_bind; [apply readRunnableRun_quiet|].
  intros [current|err]; [apply Hk|apply emits_ret].
Qed.

Lemma afterCompletion_quiet run step condType cr :
  emits quiet (afterCompletion run step condType cr).
Proof.
  unfold afterCompletion, auditIf. apply guardedRun_quiet. intros current.
  emits_walk done. apply guardedRun_quiet. intros current'. emits_walk done.
Qed.

Definition releasesSandbox (ev : event answer) : bool :=
  match ev with Ev (ReleaseSandbox _ _) _ => true | _ => false end.

Lemma guardedRun_emits {A} (P : event answer → Prop) run (bad : error → A) k :
  (∀ key x, P (Ev (ApiGetRun key) x)) → (∀ n x, P (Ev (ApiGetConfig n) x)) →
  (∀ current, emits P (k current)) → emits P (guardedRun run bad k).
Proof.
  intros H1 H2 Hk. unfold guardedRun, readRunnableRun. emits_walk eauto.
Qed.

Lemma completePatch_no_release run pod step condType tmsg treason :
  emits (λ ev, releasesSandbox ev = false)
    (completePatch run pod step condType tmsg treason).
Proof.
  unfold completePatch, completeSucceeded, patchStepCondition,
    patchStepResult, patchVerificationFailedEscalating, validateResultCR,
    fetchResultCRByStep, setCondition, patchError, statusPatch.
  emits_walk done;
    repeat (apply guardedRun_emits; [done|done|intros; cbv zeta]; emits_walk done).
Qed.

(** [completeStep] between the locks: a quiet part, the patch, and, when there
    was no error, the quiet part after it. *)
Lemma completeLocked_run run pod step condType tmsg treason tr e :
  runs (completeLocked run pod step condType tmsg treason) tr e →
  ∃ trq trp tra ep, tr = trq ++ trp ++ tra ∧ Forall quiet trq ∧
    none releasesSandbox (trq ++ trp) ∧
    guardedPatch (run_UID run) (completionPatch step condType) trp ep ∧
    (tra = [] ∨ ep = None ∧ ∃ current cr, run_UID current = run_UID run ∧
      runs (afterCompletion current step condType cr) tra e).
Proof.
  assert (Hguard : ∀ key uid, emits (λ ev, releasesSandbox ev = false) (readRunnableRun r key uid)).
  { intros. unfold readRunnableRun. emits_walk done. }
  unfold completeLocked. intros H. run_if H.
  { runs_step. exists [], [], [], None. repeat split; [constructor..|by left; constructor|by left]. }
  unfold guardedRun in H. apply runs_bind in H as (trg & g & tr' & -> & Hg & H).
  pose proof (readRunnableRun_quiet r _ _ _ _ Hg) as Hqg.
  pose proof (Hguard _ _ _ _ Hg) as Hrg.
  destruct g as [current|err]; cycle 1.
  { runs_step. exists trg, [], [], None. rewrite !app_nil_r.
    repeat split; [done|done|by left; constructor|by left]. }
  apply readRunnableRun_ok in Hg as (_ & _ & Huid & _).
  cbv zeta in H. run_if H.
  { runs_step. exists trg, [], [], None. rewrite !app_nil_r.
    repeat split; [done|done|by left; constructor|by left]. }
  apply runs_bind in H as (tr1 & [ep cr] & tra & -> & Hp & H).
  pose proof (completePatch_no_release _ _ _ _ _ _ _ _ Hp) as Hrp.
  apply completePatch_run in Hp as (trq & trp & -> & Hq & Hp). rewrite Huid in Hp.
  exists (trg ++ trq), trp, tra, ep. split; [by rewrite <- !app_assoc|].
  split; [by apply Forall_app|].
  split; [by rewrite <- app_assoc; apply Forall_app|]. split; [done|]. destruct ep as [err|].
  - runs_step. by left.
  - right. eauto.
Qed.

(** ** Locking and release *)
Definition lockCall (ev : event answer) : bool :=
  match ev with Ev Lock _ | Ev Unlock _ => true | _ => false end.

Lemma completeLocked_no_lock run pod step condType tmsg treason :
  emits (λ ev, lockCall ev = false) (completeLocked run pod step condType tmsg treason).
Proof.
  unfold completeLocked, completePatch, completeSucceeded, patchStepCondition,
    patchStepResult, patchVerificationFailedEscalating, afterCompletion, validateResultCR,
    fetchResultCRByStep, setCondition, patchError, statusPatch, auditIf.
  emits_walk done;
    repeat (apply guardedRun_emits; [done|done|intros; cbv zeta]; emits_walk done).
Qed.

(** A release in [afterCompletion] follows a run the guard read that is not
    to be preserved. *)
Lemma afterCompletion_release run step condType cr tr e ev :
  runs (afterCompletion run step condType cr) tr e → ev ∈ tr → releasesSandbox ev = true →
  ∃ key current, Ev (ApiGetRun key) (Ok current) ∈ tr ∧ run_UID current = run_UID run ∧
    HasAcceptedStop current = false ∧
    (preserveFailedSandbox current && condIs (find current condType) ConditionFalse) = false.
Proof.
  assert (Hno : ∀ key uid, emits (λ ev, releasesSandbox ev = false) (readRunnableRun r key uid)).
  { intros. unfold readRunnableRun. emits_walk done. }
  unfold afterCompletion, auditIf. intros H Hin Hr.
  unfold guardedRun in H at 1. apply runs_bind in H as (trg & g & tr' & -> & Hg & H).
  apply elem_of_app in Hin as [Hin|Hin].
  { apply Hno in Hg. rewrite Forall_forall in Hg. by rewrite (Hg _ Hin) in Hr. }
  destruct g as [current|err]; [|runs_step; by apply elem_of_nil in Hin].
  apply readRunnableRun_ok in Hg as (config & -> & Hu & Hs & _).
  exists (run_Key run), current. split; [left|]. do 2 (split; [done|]).
  apply runs_bind in H as (tra & [] & tr2 & -> & Ha & H). run_if H; [|done].
  runs_step. rewrite app_nil_r in Hin. destruct (r_Audit r).
  - run_last Ha. apply list_elem_of_singleton in Hin as ->. done.
  - runs_step. by apply elem_of_nil in Hin.
Qed.

(** The completion of a step is serialised and ends with its sandbox: a run
    of [completeStep] takes the mutex first and gives it back last, never
    touching it in between, so that it cannot deadlock on it; it launches
    nothing; and a sandbox is released only when every status patch it sent
    was accepted, for a run just read, of the same UID, that is not stopped and
    is not a failed run to be preserved. *)
Theorem completeStep_serialised run pod step condType tmsg treason tr e :
  runs (completeStep run pod step condType tmsg treason) tr e →
  none launches tr ∧
  (∃ tr', tr = Ev Lock tt :: tr' ++ [Ev Unlock tt] ∧ none lockCall tr') ∧
  ∀ ev, ev ∈ tr → releasesSandbox ev = true →
    statusPatches tr = acceptedPatches tr ∧
    ∃ key current, Ev (ApiGetRun key) (Ok current) ∈ tr ∧ run_UID current = run_UID run ∧
      HasAcceptedStop current = false ∧
      (preserveFailedSandbox current && condIs (find current condType) ConditionFalse) = false.
Proof.
  unfold completeStep. intros H. run_call H u. destruct u.
  apply runs_bind in H as (trl & e1 & tru & -> & Hl & H). run_call H u. destruct u. runs_step.
  pose proof (completeLocked_no_lock _ _ _ _ _ _ _ _ Hl) as Hlock.
  apply completeLocked_run in Hl as (trq & trp & tra & ep & -> & Hq & Hrel & Hp & Ha).
  assert (Hqa : Forall quiet tra).
  { destruct Ha as [->|(_ & cur & cr & _ & Ha)]; [constructor|].
    by eapply afterCompletion_quiet. }
  apply guardedPatch_patches in Hp as (Hnl & Hacc & _).
  split; [|split; [by eexists|]].
  { rewrite none_cons, !none_app. repeat split; auto using quiet_no_launches.
    by repeat constructor. }
  intros ev Hev Hr.
  assert (Hin : ev ∈ tra).
  { apply elem_of_cons in Hev as [->|Hev]; [done|].
    apply elem_of_app in Hev as [Hev|Hev];
      [|by apply list_elem_of_singleton in Hev as ->].
    rewrite app_assoc in Hev. apply elem_of_app in Hev as [Hev|Hev]; [|done].
    unfold none in Hrel. rewrite Forall_forall in Hrel. by rewrite Hrel in Hr. }
  destruct Ha as [->|(-> & cur & cr & Hu & Ha)]; [by apply elem_of_nil in Hin|].
  destruct (afterCompletion_release _ _ _ _ _ _ _ Ha Hin Hr) as (key & c & Hin' & ? & ? & ?).
  split.
  - change (statusPatches ((trq ++ trp ++ tra) ++ [Ev Unlock tt])
            = acceptedPatches ((trq ++ trp ++ tra) ++ [Ev Unlock tt])).
    rewrite !acceptedPatches_app, (quiet_no_accepted _ Hq), (quiet_no_accepted _ Hqa),
      <- Hacc by done.
    by rewrite !statusPatches_app, (quiet_no_patches _ Hq), (quiet_no_patches _ Hqa).
  - exists key, c. split; [|split; [congruence|done]].
    right. rewrite !elem_of_app. tauto.
Qed.

(** ** What the patches mean *)
Section Meaning.
Context {KL : ApiMachineryLaws K}.

Lemma guarded_not_emergency key uid tr run :
  guarded key uid tr run →
  statusOf (run_Conditions run) AgenticRunConditionEmergencyStopped ≠ Some ConditionTrue.
Proof.
  intros (_ & _ & _ & Hs & _) He. revert Hs.
  unfold HasAcceptedStop, HasFinalStopOutcome, find, statusOf, condIs in *.
  rewrite !FindStatusCondition_first.
  destruct (firstCondition _ AgenticRunConditionEmergencyStopped); [|done]. simpl in He.
  simplify_eq. rewrite He. by repeat case_match.
Qed.

(** The condition a patch sets. *)
Lemma statusOf_setBy now base cs typ st reason msg :
  statusOf (setBy now base cs typ st reason msg) typ = Some st.
Proof. apply (statusOf_set_same now cs (NewCondition typ st reason msg _)). Qed.

Lemma firstCondition_setBy_other now base cs typ st reason msg typ' :
  typ' ≠ typ → firstCondition (setBy now base cs typ st reason msg) typ' = firstCondition cs typ'.
Proof. intros. unfold setBy. by rewrite SetStatusCondition_other. Qed.

Lemma escalation_phase now1 now2 base reason1 msg1 reason2 msg2 :
  let cs := setBy now2 base
    (setBy now1 base (run_Conditions base) AgenticRunConditionVerified ConditionFalse
       reason1 msg1)
    AgenticRunConditionEscalated ConditionUnknown reason2 msg2 in
  statusOf (run_Conditions base) AgenticRunConditionEmergencyStopped ≠ Some ConditionTrue →
  statusOf (run_Conditions base) AgenticRunConditionDenied ≠ Some ConditionTrue →
  DerivePhase cs = PhaseEscalating.
Proof.
  intros cs He Hd. subst cs. unfold setBy. rewrite DerivePhase_view. status_simpl. simpl.
  destruct (statusOf _ AgenticRunConditionEmergencyStopped) as [[]|];
    destruct (statusOf _ AgenticRunConditionDenied) as [[]|]; done.
Qed.

(** The escalation of a failed verification: what its patch makes of the run. *)
Lemma escalationPatch_means cr reason base obj :
  escalationPatch cr reason base obj →
  resultsKept base obj ∧
  condHas (find obj AgenticRunConditionVerified) ConditionFalse ReasonVerificationFailed = true ∧
  condHas (find obj AgenticRunConditionEscalated) ConditionUnknown ReasonVerificationFailed = true ∧
  statusOf (run_Conditions obj) AgenticRunConditionExecuted
    = statusOf (run_Conditions base) AgenticRunConditionExecuted ∧
  (statusOf (run_Conditions base) AgenticRunConditionEmergencyStopped ≠ Some ConditionTrue →
   statusOf (run_Conditions base) AgenticRunConditionDenied ≠ Some ConditionTrue →
   DerivePhase (run_Conditions obj) = PhaseEscalating).
Proof.
  intros (_ & now1 & now2 & Hc & _ & _ & Hk). split; [done|]. split; [|split; [|split]].
  - unfold find. rewrite FindStatusCondition_first, Hc, firstCondition_setBy_other by done.
    destruct (SetStatusCondition_fields now1 (run_Conditions base)
      (NewCondition AgenticRunConditionVerified ConditionFalse ReasonVerificationFailed
         ("Verification failed: " +:+ reason) (run_Generation base))) as [t Ht].
    unfold setBy. cbn in Ht. by rewrite Ht.
  - unfold setBy in Hc. by rewrite (condHas_set _ _ _ _ _ _ _ eq_refl Hc).
  - rewrite Hc. unfold setBy. by status_simpl.
  - intros He Hd. rewrite Hc. by apply escalation_phase.
Qed.

Lemma completeSucceeded_timeout run step condType cr tr e :
  step ≠ "verification" →
  runs (completeSucceeded run step condType (Some cr, ResultReasonAgentTimeout)) tr e →
  guardedPatch (run_UID run) (resultPatch step condType cr ConditionFalse ReasonAgentTimeout
    "Agent exceeded its configured execution budget") tr e.
Proof.
  intros Hs%String.eqb_neq H. unfold completeSucceeded in H. cbn [String.eqb] in H.
  rewrite Hs in H. by apply patchStepResult_run in H.
Qed.

(** A verification whose agent ran out of time escalates the run, like one that failed;
    [sandbox-execution.md], rules 40b and 41, fails it. *)
Lemma verification_timeout_escalates run cr tr e base obj :
  runs (completeSucceeded run "verification" AgenticRunConditionVerified
    (Some cr, ResultReasonAgentTimeout)) tr e →
  (base, obj) ∈ statusPatches tr →
  statusOf (run_Conditions base) AgenticRunConditionDenied ≠ Some ConditionTrue →
  condHas (find obj AgenticRunConditionVerified) ConditionFalse ReasonVerificationFailed = true ∧
  DerivePhase (run_Conditions obj) = PhaseEscalating.
Proof.
  intros H Hin Hd. apply completeSucceeded_run, guardedPatch_patches in H as (_ & _ & H).
  destruct (H _ _ Hin) as (_ & HP & key & trg & tr1 & Hg & _).
  apply escalationPatch_means in HP as (_ & Hv & _ & _ & Hesc). split; [done|].
  apply Hesc; [by eapply guarded_not_emergency|done].
Qed.

(** Without a complete result the step of a succeeded pod fails at once, whatever the time
    since the pod ended; [sandbox-execution.md], rules 42c, 43(3) and 43d, waits. *)
Lemma completeSucceeded_missing run step reason tr e base obj :
  runs (completeSucceeded run step (stepConditionType step) (None, reason)) tr e →
  (base, obj) ∈ statusPatches tr →
  undecided base (stepConditionType step) ∧ resultsKept base obj ∧
  condHas (find obj (stepConditionType step)) ConditionFalse ReasonSandboxFailed = true.
Proof.
  intros H Hin. apply completeSucceeded_run, guardedPatch_patches in H as (_ & _ & H).
  destruct (H _ _ Hin) as (_ & (Hu & now & Hc & _ & _ & Hk) & _). do 2 (split; [done|]).
  unfold setBy in Hc. by rewrite (condHas_set _ _ _ _ _ _ _ eq_refl Hc).
Qed.


(** The conditions an event of a pod of [step] may change. *)
Definition touched (step : string) : list string :=
  stepConditionType step
  :: (if String.eqb step "verification" then [AgenticRunConditionEscalated] else []).

Definition stepPatch (step : string) (base obj : AgenticRun) : Prop :=
  run_Meta obj = run_Meta base ∧ run_Spec obj = run_Spec base ∧ resultsKept base obj ∧
  ∀ typ, typ ∉ touched step →
    firstCondition (run_Conditions obj) typ = firstCondition (run_Conditions base) typ.

Lemma stepPatch_set step base obj now st reason msg :
  patchedWith base obj
    (setBy now base (run_Conditions base) (stepConditionType step) st reason msg) →
  stepPatch step base obj.
Proof.
  intros (Hc & Hm & Hs & Hk). unfold stepPatch. do 3 (split; [done|]). intros typ Ht.
  rewrite Hc. apply firstCondition_setBy_other. intros ->. apply Ht. left.
Qed.

Lemma stepPatch_completion step base obj :
  completionPatch step (stepConditionType step) base obj → stepPatch step base obj.
Proof.
  intros [[[[cr|] reason] H]|(why & msg & _ & now & H)]; 
    [|destruct H as (_ & now & H)|]; [|by eapply stepPatch_set..].
  unfold verdictPatch in H.
  destruct (String.eqb reason "") eqn:Hr; [|destruct (String.eqb step "verification") eqn:Hv].
  - destruct H as (why & msg & _ & now & H). by eapply stepPatch_set.
  - destruct H as (_ & now1 & now2 & Hc & Hm & Hs & Hk). unfold stepPatch.
    do 3 (split; [done|]). intros typ Ht. unfold touched in Ht. rewrite Hv in Ht.
    bool_hyps. subst step. rewrite Hc.
    rewrite !firstCondition_setBy_other; [done|set_solver..].
  - destruct H as (why & msg & _ & now & H). by eapply stepPatch_set.
Qed.

Lemma completeStep_onePatch run pod step condType tmsg treason tr e :
  runs (completeStep run pod step condType tmsg treason) tr e →
  onePatch (run_UID run) (completionPatch step condType) tr.
Proof.
  unfold completeStep. intros H. run_call H u.
  apply runs_bind in H as (trl & e1 & tru & -> & Hl & H). run_call H u'. runs_step.
  apply completeLocked_run in Hl as (trq & trp & tra & ep & -> & Hq & _ & Hp & Ha).
  assert (Hqa : Forall quiet tra).
  { destruct Ha as [->|(_ & cur & cr & _ & Ha)]; [constructor|].
    by eapply afterCompletion_quiet. }
  apply onePatch_guarded in Hp.
  eapply (onePatch_within _ _ (Ev Lock u :: trq) _ (tra ++ [Ev Unlock u'])) in Hp.
  - by rewrite <- !app_assoc in *.
  - by constructor.
  - apply Forall_app. split; [done|by repeat constructor].
Qed.

Lemma podProgress_run run pod step tr e :
  runs (podProgress run pod step) tr e → onePatch (run_UID run) (stepPatch step) tr.
Proof.
  unfold podProgress. cbv zeta. intros H. run_if H.
  - apply patchStepCondition_run, onePatch_guarded in H.
    eapply onePatch_mono; [|exact H]. intros base obj (_ & now & Hp). by eapply stepPatch_set.
  - apply completeStep_onePatch in H.
    eapply onePatch_mono; [|exact H]. apply stepPatch_completion.
Qed.

End Meaning.

(** ** The identity of a pod *)

(** The labels of the pod, where it has them, are its identity. *)
Definition keepsLabels (pod : Pod) (i : Identity) : Prop :=
  let labels := meta_Labels (pod_Meta pod) in
  (mapGet labels LabelStep ≠ "" → id_Step i = mapGet labels LabelStep) ∧
  (mapGet labels LabelRun ≠ "" → id_RunUID i = mapGet labels LabelRun).

Lemma orElse_set s t : s ≠ "" → orElse s t = s.
Proof. unfold orElse. by intros ->%String.eqb_neq. Qed.

Lemma keepsLabels_complete pod i m : keepsLabels pod i → keepsLabels pod (completeIdentity i m).
Proof.
  unfold keepsLabels, completeIdentity. simpl. intros [Hs Hr].
  split; intros Hne; [rewrite (Hs Hne)|rewrite (Hr Hne)]; by rewrite orElse_set.
Qed.

Lemma keepsLabels_fold pod (f : Identity → OwnerReference → Identity) owners i :
  (∀ i o, keepsLabels pod i → keepsLabels pod (f i o)) →
  keepsLabels pod i → keepsLabels pod (fold_left f owners i).
Proof. intros Hf. revert i. induction owners as [|o os IH]; simpl; eauto. Qed.

Lemma resolveBarePodMetadata_labels pod : keepsLabels pod (resolveBarePodMetadata pod).
Proof.
  apply keepsLabels_fold; [|by split].
  intros i o [Hs Hr]. destruct (negb _); [by split|]. split; simpl; [done|].
  intros Hne. rewrite (Hr Hne). by rewrite orElse_set.
Qed.

Lemma podIdentity_labels pod : keepsLabels pod (podIdentity pod).
Proof.
  apply keepsLabels_fold; [|by split].
  intros i o [Hs Hr]. destruct (_ && String.eqb (id_RunUID i) "") eqn:Hb; [|by split].
  bool_hyps. split; simpl; [done|]. intros Hne. rewrite (Hr Hne) in *. done.
Qed.

Lemma resolveSandboxPodMetadata_labels pod tr i :
  runs (resolveSandboxPodMetadata pod) tr (Ok i) → keepsLabels pod i.
Proof.
  unfold resolveSandboxPodMetadata. cbv zeta. intros H. run_if H.
  { runs_step. simplify_eq. apply podIdentity_labels. }
  set (Q := λ got : res Identity, ∀ i, got = Ok i → keepsLabels pod i).
  cut (Q (Ok i)); [by intros HQ; apply HQ|].
  eapply (forEach_inv (keepsLabels pod) Q); [| |apply podIdentity_labels|exact H].
  - intros owner i0 tr0 o _ Hi0 Hbody. unfold identityFromSandbox in Hbody. subst Q.
    run_call Hbody sb. destruct sb as [m|err]; [|by runs_step].
    cbv zeta in Hbody. run_if Hbody.
    { runs_step. intros ? [= <-]. by apply keepsLabels_complete. }
    destruct (ownersOf m "SandboxClaim"); [runs_step; by apply keepsLabels_complete|].
    run_call Hbody claim. runs_step. destruct claim; [|done].
    intros ? [= <-]. by do 2 apply keepsLabels_complete.
  - intros i0 tr0 b Hi0 [_ ->]%runs_ret i1 [= <-]. done.
Qed.

Lemma resolveSandboxPodMetadata_quiet pod : emits quiet (resolveSandboxPodMetadata pod).
Proof.
  unfold resolveSandboxPodMetadata, identityFromSandbox. cbv zeta. emits_walk done.
Qed.

Lemma runForSandboxIdentity_quiet name uid : emits quiet (runForSandboxIdentity name uid).
Proof. unfold runForSandboxIdentity. emits_walk done. Qed.

Lemma runForSandboxIdentity_uid name uid tr run :
  runs (runForSandboxIdentity name uid) tr (Ok (Some run)) → run_UID run = uid ∧ uid ≠ "".
Proof.
  unfold runForSandboxIdentity. intros H. run_if H; [runs_step; done|].
  run_if H; [runs_step; done|]. bool_hyps. split; [|done].
  apply runs_bind in H as (tr1 & hint & tr2 & -> & Hh & H).
  destruct hint as [answer|].
  - runs_step. run_if Hh; [|by runs_step].
    run_call Hh got. runs_step. destruct got as [run'|err];
      [|by destruct (IgnoreNotFound err)].
    destruct (String.eqb_spec (run_UID run') uid); by simplify_eq.
  - run_call H rs. runs_step. destruct rs as [items|]; [|done].
    match goal with Hf : Ok (Some run) = Ok _ |- _ => injection Hf as Hf; symmetry in Hf;
      apply find_some in Hf as [_ Hf] end.
    by bool_hyps.
Qed.

(** How an event finds its run: an identified pod, the run of that UID as the
    guard reads it, not terminal, and then [podProgress]; otherwise the event
    is quiet. *)
Lemma handlePodEvent_run pod tr reqs :
  runs (handlePodEvent pod) tr reqs →
  (Forall quiet tr ∧ (length reqs ≤ 1)%nat) ∨
  ∃ i run key current trq trg trp e, keepsLabels pod i ∧ identified i = true ∧
    run_UID run = id_RunUID i ∧ tr = trq ++ trg ++ trp ∧ Forall quiet trq ∧
    guarded key (id_RunUID i) trg current ∧
    isTerminal (DerivePhase (run_Conditions current)) = false ∧
    runs (podProgress current pod (id_Step i)) trp e ∧
    reqs = if stopAcceptedIn e then [run_Key run] else [].
Proof.
  unfold handlePodEvent, isSandboxClaimMode. intros H.
  apply runs_bind in H as (tr1 & mode & tr2 & -> & Hm & H).
  assert (Hq1 : Forall quiet tr1) by (repeat runs_step; by repeat constructor).
  clear Hm. apply runs_bind in H as (tr3 & i & tr4 & -> & Hi & H).
  assert (Hq3 : Forall quiet tr3).
  { destruct mode; [by eapply resolveSandboxPodMetadata_quiet|by runs_step]. }
  assert (Hk : ∀ id, i = Ok id → keepsLabels pod id).
  { intros id ->. destruct mode; [by eapply resolveSandboxPodMetadata_labels|].
    apply runs_ret in Hi as [_ [= ->]]. apply resolveBarePodMetadata_labels. }
  clear Hi. assert (Hq : Forall quiet (tr1 ++ tr3)) by (by apply Forall_app).
  destruct i as [id|err]; cycle 1.
  { runs_step. rewrite app_nil_r. left. split; [done|simpl; lia]. }
  run_if H. { runs_step. rewrite app_nil_r. left. split; [done|simpl; lia]. }
  bool_hyps.
  apply runs_bind in H as (tr5 & found & tr6 & -> & Hf & H).
  pose proof (runForSandboxIdentity_quiet _ _ _ _ Hf) as Hq5.
  destruct found as [[run|]|err];
    [|runs_step; left; rewrite !app_assoc, app_nil_r, Forall_app; by repeat split; simpl; auto..].
  apply runForSandboxIdentity_uid in Hf as [Huid _]. cbv zeta in H.
  apply runs_bind in H as (tr7 & g & tr8 & -> & Hg & H).
  pose proof (readRunnableRun_quiet r _ _ _ _ Hg) as Hq7.
  assert (Hall : Forall quiet (tr1 ++ tr3 ++ tr5 ++ tr7)).
  { rewrite !Forall_app in *. tauto. }
  destruct g as [current|gerr]; cycle 1.
  { runs_step. rewrite app_nil_r. left. split; [done|].
    destruct (isSentinelStop gerr); simpl; lia. }
  apply readRunnableRun_ok in Hg. rewrite Huid in Hg. run_if H.
  { runs_step. rewrite app_nil_r. left. split; [done|simpl; lia]. }
  apply runs_bind in H as (trp & e & tr9 & -> & Hp & H). runs_step.
  right. exists id, run, (run_Key run), current, (tr1 ++ tr3 ++ tr5), tr7, trp, e.
  rewrite app_nil_r, <- !app_assoc. rewrite !Forall_app in *.
  repeat split; try done; try tauto. by apply Hk.
  all: by apply Hk.
Qed.

(** C21: a pod event reaches only its own run and step.  Whatever the API server
    answers, it launches nothing, and it sends no status patch or one: on a run
    that the guard read in the same event, that has the UID the pod is labelled
    with, that is not stopped, and that was not terminal when the event found
    it.  The patch keeps the metadata, the spec, every recorded result and
    every condition except that of the step the pod is labelled with, and the
    escalation of a failed verification. *)
Theorem handlePodEvent_patch `{!ApiMachineryLaws K} pod tr reqs :
  runs (handlePodEvent pod) tr reqs →
  none launches tr ∧
  ∀ base obj, (base, obj) ∈ statusPatches tr →
    statusPatches tr = [(base, obj)] ∧
    ∃ i, keepsLabels pod i ∧ identified i = true ∧ run_UID base = id_RunUID i ∧
      stepPatch (id_Step i) base obj ∧
      (∃ key trl trg trr, guarded key (id_RunUID i) trg base ∧ tr = trl ++ trg ++ trr) ∧
      ∃ key current, Ev (ApiGetRun key) (Ok current) ∈ tr ∧ run_UID current = id_RunUID i ∧
        isTerminal (DerivePhase (run_Conditions current)) = false.
Proof.
  intros [[Hq _]|(i & run & key & current & trq & trg & trp & e & Hk & Hid & Hu & -> & Hq & Hg &
    Hnt & Hp & _)]%handlePodEvent_run.
  { split; [by apply quiet_no_launches|]. rewrite (quiet_no_patches _ Hq).
    by intros base obj ?%elem_of_nil. }
  pose proof (guarded_quiet _ _ _ _ Hg) as Hqg.
  assert (Hcur : run_UID current = id_RunUID i) by (by destruct Hg as (_ & _ & ? & _)).
  apply (podProgress_run (KL:=_)) in Hp. rewrite Hcur in Hp.
  eapply (onePatch_within _ _ (trq ++ trg) trp []) in Hp; [|by apply Forall_app|constructor].
  rewrite app_nil_r, <- app_assoc in Hp. destruct Hp as [Hl Hp]. split; [done|]. intros base obj Hin.
  destruct (Hp _ _ Hin) as (Hone & HP & key' & trl & trg' & trr & Hg' & Heq).
  split; [done|]. exists i. do 2 (split; [done|]).
  split; [by destruct Hg' as (_ & _ & ? & _)|]. split; [done|].
  split; [by exists key', trl, trg', trr|].
  exists key, current. split; [|done]. destruct Hg as (config & -> & _).
  rewrite !elem_of_app. right. left. left.
Qed.

End PodHandler.
