(* ===== verification/TimeoutHandler.v ===== *)
(** The periodic checks of the run controller
    ([controller/agenticrun/timeout_handler.go]): deletion of expired runs, and
    the deadlines of the sandbox pods and claims. *)
From stdpp Require Import base list option strings gmap.
From Stdlib Require Import ZArith Lia.
From S2P Require Import Prelude GoText ApiMachinery Types Phase Effects Approval Resolve.
From S2P Require Import Results Helpers Handlers Suspension Reconcile PodHandler.

Local Open Scope string_scope.
Local Open Scope list_scope.
Local Open Scope prog_scope.

Definition sandboxTimeoutCheckInterval : Duration := (1 * Minute)%Z.
Definition podStartTimeout : Duration := (5 * Minute)%Z.
Definition sandboxStartupTimeout : Duration := (5 * Minute)%Z.
Definition sandboxRunningGrace : Duration := (1 * Minute)%Z.
Definition sandboxNameHashLabel : string := "agents.x-k8s.io/sandbox-name-hash".

(** A sandbox to check; [entry_Pod] is [None] for a claim without a pod. *)
Record podEntry := MkPodEntry {
  entry_Pod : option Pod;
  entry_Step : string;
  entry_RunName : string;
  entry_RunUID : string;
  entry_Created : Time;
}.

Definition startTimedOut (phase : string) (created now : Time) (timeout : Duration) : bool :=
  if String.eqb phase PodRunning || String.eqb phase PodSucceeded || String.eqb phase PodFailed
  then false else (timeout <? Time_Sub now created)%Z.

Definition overallTimedOut (startedAt now : Time) (timeout : Duration) : bool :=
  (timeout <? Time_Sub now startedAt)%Z.

Definition firstRunning (sts : list ContainerStatus) : option Time :=
  match List.find (λ s, match cs_RunningStartedAt s with Some _ => true | None => false end) sts with
  | Some s => cs_RunningStartedAt s
  | None => None
  end.

Definition mainContainerStartedAt (pod : option Pod) : Time :=
  match pod with
  | None => 0%Z
  | Some p =>
      let sts := pod_ContainerStatuses p in
      match firstRunning (List.filter (λ s, String.eqb (cs_Name s) "agent") sts) with
      | Some t => t
      | None => default 0%Z (firstRunning sts)
      end
  end.

(** The creation time of the claim behind a pod; zero when there is none. *)
Definition sandboxClaimCreationTime (pod : Pod) : M (res Time) :=
  let ns := meta_Namespace (pod_Meta pod) in
  forEach (ownersOf (pod_Meta pod) "Sandbox") tt
    (λ ref _,
      sb <- call (GetSandboxMeta KindSandbox (MkNamespacedName ns (owner_Name ref))) ;;
      match sb with
      | Err err => Ret (inr (Err err))
      | Ok m =>
          match ownersOf m "SandboxClaim" with
          | [] => Ret (inl tt)
          | sbRef :: _ =>
              claim <- call (GetSandboxMeta KindSandboxClaim
                               (MkNamespacedName ns (owner_Name sbRef))) ;;
              Ret (inr match claim with
                       | Err err => Err err
                       | Ok c => Ok (meta_CreationTimestamp c)
                       end)
          end
      end)
    (λ _, Ret (Ok 0%Z)).

(** The zero value of [AgenticRunApproval]. *)
Definition zeroMeta : ObjectMeta := MkObjectMeta "" "" "" "" 0%Z 0%Z None ∅ ∅ [] [].
Definition zeroApproval : AgenticRunApproval :=
  MkAgenticRunApproval zeroMeta (MkAgenticRunApprovalSpec zeroApprover []) [].

(** The key of [seen]: [string(runUID)+"\x00"+step]. *)
Definition seenKey (runUID step : string) : string := runUID +:+ nulByte +:+ step.

Section TimeoutHandler.
Context `{K : ApiMachinery} (r : AgenticRunReconciler).

(** ** Deletion of expired runs *)

(** The test of the loop body of [sweepExpiredRuns]. *)
Definition expired (now : Time) (run : AgenticRun) : bool :=
  match status_DeleteAfter (run_Status run) with
  | None => false
  | Some deadline =>
      if Time_Before now deadline then false
      else
        let phase := DerivePhase (run_Conditions run) in
        isTerminal phase
        && negb (bool_decide (phase = PhaseFailed) && preserveFailedSandbox run)
  end.

Definition sweepExpiredRuns : M (option error) :=
  listed <- call (ListRunsWithLabel terminalTTLLabel "true") ;;
  match listed with
  | Err err => Ret (Some (wrapError "list terminal AgenticRuns" err))
  | Ok items =>
      now <- call Now ;;
      foldM items tt (λ run _,
        if expired now run then call (DeleteRun run) ;;; Ret tt else Ret tt) ;;;
      Ret None
  end.

(** ** Listing the sandboxes *)

Definition bareEntry (pod : Pod) : option podEntry :=
  let i := resolveBarePodMetadata pod in
  if identified i
  then Some (MkPodEntry (Some pod) (id_Step i) (id_RunName i) (id_RunUID i)
               (meta_CreationTimestamp (pod_Meta pod)))
  else None.

Definition listBarePods : M (list podEntry) :=
  pods <- call (ListPods (r_Namespace r) [LabelRun; LabelStep]) ;;
  Ret match pods with
      | Err _ => []
      | Ok items => omap bareEntry items
      end.

(** The entry of a claim, unless a pod was seen for it. *)
Definition claimEntry (seen : list string) (claim : ObjectMeta) : option podEntry :=
  let step := mapGet (meta_Labels claim) LabelStep in
  let runUID := mapGet (meta_Labels claim) LabelRun in
  if String.eqb step "" || String.eqb runUID ""
     || bool_decide (seenKey runUID step ∈ seen)
  then None
  else Some (MkPodEntry None step (mapGet (meta_Annotations claim) AnnotationRunName) runUID
               (meta_CreationTimestamp claim)).

(** The loop over the pods: the entries, and the keys seen. *)
Definition sandboxEntry (pod : Pod) (s : list podEntry * list string)
    : M (list podEntry * list string + list podEntry) :=
  let (entries, seen) := s in
  i <- resolveSandboxPodMetadata pod ;;
  match i with
  | Err _ => Ret (inr entries)
  | Ok id =>
      if negb (identified id) then Ret (inl (entries, seen))
      else
        claimCreated <- sandboxClaimCreationTime pod ;;
        let created :=
          match claimCreated with
          | Ok t => if Time_IsZero t then meta_CreationTimestamp (pod_Meta pod) else t
          | Err _ => meta_CreationTimestamp (pod_Meta pod)
          end in
        Ret (inl (entries ++ [MkPodEntry (Some pod) (id_Step id) (id_RunName id) (id_RunUID id)
                                created],
                  seen ++ [seenKey (id_RunUID id) (id_Step id)]))
  end.

Definition listSandboxPods : M (list podEntry) :=
  pods <- call (ListPods (r_Namespace r) [sandboxNameHashLabel]) ;;
  match pods with
  | Err _ => Ret []
  | Ok items =>
      forEach items ([], []) sandboxEntry
        (λ s, let (entries, seen) := (s : list podEntry * list string) in
           claims <- call (ListClaims (r_Namespace r)) ;;
           Ret match claims with
               | Err _ => entries
               | Ok cs => entries ++ omap (claimEntry seen) cs
               end)
  end.

(** ** Deadlines *)

(** The approval of the run; the zero value when there is none. *)
Definition approvalOf (run : AgenticRun) : M (res AgenticRunApproval) :=
  got <- call (GetApproval (MkNamespacedName (run_Namespace run) (run_Name run))) ;;
  Ret match got with
      | Ok a => Ok a
      | Err err => if IsNotFound err then Ok zeroApproval
                   else Err (wrapError "get AgenticRunApproval" err)
      end.

Definition resolveStepAgent (run : AgenticRun) (step : string) : M (res Agent) :=
  found <- approvalOf run ;;
  match found with
  | Err err => Ret (Err err)
  | Ok approval =>
      let effective stage st := effectiveStepAgentName (Some approval) stage st in
      let spec := run_Spec run in
      let agentName :=
        if String.eqb step "analysis" then effective SandboxStepAnalysis (spec_Analysis spec)
        else if String.eqb step "execution" then
          effective SandboxStepExecution (spec_Execution spec)
        else if String.eqb step "verification" then
          effective SandboxStepVerification (spec_Verification spec)
        else if String.eqb step "escalation" then
          let override := getStageOverrideAgent (Some approval) SandboxStepEscalation in
          if negb (String.eqb override "") then override
          else effective SandboxStepAnalysis (spec_Analysis spec)
        else "" in
      call (GetAgent agentName)
  end.

Definition reconcileAcceptedStop (key : NamespacedName) (err : error) : M unit :=
  if negb (isStopAcceptedError err) then Ret tt
  else Reconcile r key ;;; Ret tt.

Definition reconcileStopIn (key : NamespacedName) (e : option error) : M unit :=
  match e with Some err => reconcileAcceptedStop key err | None => Ret tt end.

(** [time.Duration(resolveTimeout(agent, step)) * time.Second]. *)
Definition agentTimeoutOf (agent : Agent) (step : string) : Duration :=
  wrap64 (resolveTimeout (Some agent) step * Second).

(** Whether the pod is past a deadline, with the message and the reason. *)
Definition timeoutDecision (run : AgenticRun) (pod : Pod) (step : string)
    (entryCreated now : Time) : M (option (string * string)) :=
  let created := if Time_IsZero entryCreated then meta_CreationTimestamp (pod_Meta pod)
                 else entryCreated in
  if startTimedOut (pod_Phase pod) created now podStartTimeout then
    Ret (Some ("sandbox pod did not start within " +:+ Duration_String podStartTimeout,
               ReasonSandboxStartupTimeout))
  else
    a <- resolveStepAgent run step ;;
    Ret match a with
        | Err _ => None
        | Ok agent =>
            let agentTimeout := agentTimeoutOf agent step in
            let startedAt := mainContainerStartedAt (Some pod) in
            let creationDeadline :=
              wrap64 (wrap64 (sandboxStartupTimeout + agentTimeout) + sandboxRunningGrace) in
            let budget := wrap64 (agentTimeout + sandboxRunningGrace) in
            if overallTimedOut created now creationDeadline
               || negb (Time_IsZero startedAt) && overallTimedOut startedAt now budget
            then Some ("sandbox exceeded timeout " +:+ Duration_String budget,
                       ReasonSandboxTimeout)
            else None
        end.

(** The startup deadline of a claim without a pod. *)
Definition claimDeadline (run : AgenticRun) (key : NamespacedName) (e : podEntry)
    (condType : string) (now : Time) : M unit :=
  if (podStartTimeout <? Time_Sub now (entry_Created e))%Z then
    err <- patchStepCondition r run condType ConditionFalse ReasonSandboxStartupTimeout
             ("sandbox did not start within " +:+ Duration_String podStartTimeout) ;;
    match err with
    | Some e0 => reconcileAcceptedStop key e0
    | None =>
        g <- readRunnableRun r key (run_UID run) ;;
        match g with
        | Ok current => call (ReleaseSandbox current (entry_Step e)) ;;; Ret tt
        | Err guardErr => reconcileAcceptedStop key guardErr
        end
    end
  else Ret tt.

(** The pod of a step in progress. *)
Definition podDeadline (run : AgenticRun) (key : NamespacedName) (pod : Pod)
    (step condType : string) (created now : Time) : M unit :=
  if String.eqb (pod_Phase pod) PodSucceeded || String.eqb (pod_Phase pod) PodFailed then
    err <- completeStep r run pod step condType "" "" ;;
    reconcileStopIn key err
  else
    decision <- timeoutDecision run pod step created now ;;
    match decision with
    | None => Ret tt
    | Some (message, reason) =>
        err <- completeStep r run pod step condType message reason ;;
        reconcileStopIn key err
    end.

(** The body of the loop of [handlePodTimeEvent]. *)
Definition handleEntry (now : Time) (e : podEntry) : M unit :=
  let condType := stepConditionType (entry_Step e) in
  found <- runForSandboxIdentity r (entry_RunName e) (entry_RunUID e) ;;
  match found with
  | Err _ | Ok None => Ret tt
  | Ok (Some run0) =>
      let key := run_Key run0 in
      g <- readRunnableRun r key (run_UID run0) ;;
      match g with
      | Err guardErr => reconcileAcceptedStop key guardErr
      | Ok run =>
          if negb (isStepInProgress run condType) then Ret tt
          else match entry_Pod e with
               | None => claimDeadline run key e condType now
               | Some pod =>
                   podDeadline run key pod (entry_Step e) condType (entry_Created e) now
               end
      end
  end.

Definition handlePodTimeEvent : M unit :=
  claimMode <- isSandboxClaimMode ;;
  entries <- (if claimMode then listSandboxPods else listBarePods) ;;
  now <- call Now ;;
  foldM entries tt (λ e _, handleEntry now e).

(** [runTimeoutLoop] for at most [ticks] ticks from tick [i]: [None] when the
    context is still open after them. *)
Fixpoint timeoutTicks (ticks : nat) (i : Z) : M (option unit) :=
  match ticks with
  | O => Ret None
  | S ticks' =>
      done <- call (Sleep sandboxTimeoutCheckInterval) ;;
      match done with
      | Some _ => Ret (Some tt)
      | None =>
          handlePodTimeEvent ;;;
          (if (i mod 60 =? 0)%Z then sweepExpiredRuns ;;; Ret tt else Ret tt) ;;;
          timeoutTicks ticks' (i + 1)
      end
  end.

Definition runTimeoutLoop (ticks : nat) : M (option unit) :=
  sweepExpiredRuns ;;; timeoutTicks ticks 1.

(** ** Expired runs *)
Definition deletedOf (ev : event answer) : option AgenticRun :=
  match ev with Ev (DeleteRun obj) _ => Some obj | _ => None end.

Lemma expired_spec now run :
  expired now run = true ↔
  ∃ deadline, status_DeleteAfter (run_Status run) = Some deadline ∧ (deadline ≤ now)%Z ∧
    isTerminal (DerivePhase (run_Conditions run)) = true ∧
    (DerivePhase (run_Conditions run) = PhaseFailed → preserveFailedSandbox run = false).
Proof.
  unfold expired, Time_Before. destruct (status_DeleteAfter (run_Status run)) as [d|];
    [|naive_solver].
  destruct (Z.ltb_spec now d).
  { split; [done|]. intros (d' & [= <-] & ? & _). lia. }
  rewrite andb_true_iff, negb_true_iff, andb_false_iff, bool_decide_eq_false.
  split; [|intros (d' & [= <-] & _ & ? & Hf)].
  - intros [Ht Hp]. exists d. do 2 (split; [done|]). split; [done|]. tauto.
  - split; [done|]. destruct (decide (DerivePhase (run_Conditions run) = PhaseFailed)); auto.
Qed.

Lemma sweep_loop now items tr u :
  runs (foldM items tt (λ run _,
          if expired now run then call (DeleteRun run) ;;; Ret tt else Ret tt)) tr u →
  omap deletedOf tr = List.filter (expired now) items.
Proof.
  revert tr. induction items as [|run items IH]; intros tr H;
    cbn [foldM List.filter] in *.
  - by apply runs_ret in H as [-> _].
  - apply runs_bind in H as (tr1 & [] & tr2 & -> & H1 & H2). apply IH in H2.
    rewrite omap_app, H2. destruct (expired now run).
    + run_call H1 x. by runs_step.
    + by runs_step.
Qed.

(** The sweep deletes exactly the expired runs: of the runs listed under the
    TTL label, those that are terminal and whose deadline has passed at the
    time the sweep read, except failed runs that are to be preserved; each
    once, in the order of the list, whatever the other deletions answer. *)
Theorem sweepExpiredRuns_exact tr o :
  runs sweepExpiredRuns tr o →
  match o with
  | Some _ => omap deletedOf tr = []
  | None => ∃ items now rest,
      tr = Ev (ListRunsWithLabel terminalTTLLabel "true") (Ok items) :: Ev Now now :: rest ∧
      omap deletedOf tr = List.filter (expired now) items ∧
      ∀ run, run ∈ omap deletedOf tr ↔
        run ∈ items ∧ ∃ deadline, status_DeleteAfter (run_Status run) = Some deadline ∧
          (deadline ≤ now)%Z ∧ isTerminal (DerivePhase (run_Conditions run)) = true ∧
          (DerivePhase (run_Conditions run) = PhaseFailed → preserveFailedSandbox run = false)
  end.
Proof.
  unfold sweepExpiredRuns. intros H. run_call H listed.
  destruct listed as [items|err]; [|by runs_step].
  run_call H now. apply runs_bind in H as (tr1 & u & tr2 & -> & Hl & H). runs_step.
  apply sweep_loop in Hl. rewrite app_nil_r. exists items, now, tr1. split; [done|].
  rewrite !omap_cons. simpl. split; [done|]. intros run.
  by rewrite Hl, list_elem_of_In, filter_In, <- list_elem_of_In, expired_spec.
Qed.

(** ** Deadlines *)

(** The budget of a step: the agent's timeout in nanoseconds. *)
Definition stepBudget (agent : Agent) (step : string) : Z :=
  (resolveTimeout (Some agent) step * Second)%Z.

Lemma budget_exact agent step :
  (resolveTimeout (Some agent) step ≤ 2147483647)%Z →
  agentTimeoutOf agent step = stepBudget agent step ∧
  wrap64 (stepBudget agent step + sandboxRunningGrace) = (stepBudget agent step + Minute)%Z ∧
  wrap64 (wrap64 (sandboxStartupTimeout + stepBudget agent step) + sandboxRunningGrace)
    = (stepBudget agent step + 6 * Minute)%Z ∧
  (0 < stepBudget agent step < 4611686018427387904)%Z.
Proof.
  pose proof (resolveTimeout_pos (Some agent) step) as Hp. intros Hb.
  assert (Hs : ∀ z, (0 ≤ z < 4611686018427387904)%Z → wrap64 z = z).
  { intros z Hz. apply wrap64_small. unfold minInt64, maxInt64. lia. }
  unfold agentTimeoutOf, stepBudget, sandboxStartupTimeout, sandboxRunningGrace, Second, Minute.
  rewrite (Hs (5 * _ + _)%Z) by lia. rewrite !Hs by lia. lia.
Qed.

Definition agentRead (ev : event answer) : option Agent :=
  match ev with Ev (GetAgent _) (Ok agent) => Some agent | _ => None end.

(** The agent a resolution reads is the one it returns. *)
Lemma resolveStepAgent_reads run step tr a :
  runs (resolveStepAgent run step) tr a →
  (∀ name agent, Ev (GetAgent name) (Ok agent) ∈ tr → a = Ok agent) ∧
  ∀ agent, a = Ok agent → ∃ name, Ev (GetAgent name) (Ok agent) ∈ tr.
Proof.
  unfold resolveStepAgent, approvalOf. intros H.
  apply runs_bind in H as (t1 & found & t2 & -> & Hf & H). run_call Hf got. runs_step.
  destruct got as [approval|err]; [|destruct (IsNotFound err)]; cbv zeta in H.
  1, 2: run_last H; split;
    [intros name agent Hin; apply elem_of_cons in Hin as [Hin|Hin]; [done|];
     apply list_elem_of_singleton, (f_equal agentRead) in Hin; simpl in Hin;
     destruct a; by simplify_eq
    |intros agent ->; eexists; right; left].
  runs_step. split; [|done]. intros name agent Hin. by apply list_elem_of_singleton in Hin.
Qed.

(** The approval is looked up next to the run, whatever namespace the
    approvals are created in. *)
Lemma resolveStepAgent_approval_key run step tr a :
  runs (resolveStepAgent run step) tr a →
  ∃ ans rest,
    tr = Ev (GetApproval (MkNamespacedName (run_Namespace run) (run_Name run))) ans :: rest.
Proof.
  unfold resolveStepAgent, approvalOf. intros H.
  apply runs_bind in H as (t1 & found & t2 & -> & Hf & _). run_call Hf got. eauto.
Qed.

(** C36: a sandbox is timed out only past a deadline, and always past one: a pod
    that has not run is given five minutes from its creation; one that has,
    the agent's budget and a minute from the start of its container, or six
    minutes and the budget from its creation.  Without the agent the decision
    is put off.  The arithmetic is that of [int64] durations; on the [int32]
    timeouts of the API it does not overflow. *)
Theorem timeoutDecision_deadlines run pod step entryCreated now tr d :
  runs (timeoutDecision run pod step entryCreated now) tr d →
  (∀ name agent, Ev (GetAgent name) (Ok agent) ∈ tr →
     (resolveTimeout (Some agent) step ≤ 2147483647)%Z) →
  let created := if Time_IsZero entryCreated then meta_CreationTimestamp (pod_Meta pod)
                 else entryCreated in
  let started := mainContainerStartedAt (Some pod) in
  let neverRan := pod_Phase pod ∉ [PodRunning; PodSucceeded; PodFailed] in
  let startup := neverRan ∧ (created + 5 * Minute < now)%Z in
  let late agent := (created + stepBudget agent step + 6 * Minute < now)%Z ∨
    (started ≠ 0%Z ∧ (started + stepBudget agent step + Minute < now)%Z) in
  match d with
  | Some (_, reason) =>
      (reason = ReasonSandboxStartupTimeout ∧ startup) ∨
      (reason = ReasonSandboxTimeout ∧ ¬ startup ∧
       ∃ name agent, Ev (GetAgent name) (Ok agent) ∈ tr ∧ late agent)
  | None => ¬ startup ∧ ∀ name agent, Ev (GetAgent name) (Ok agent) ∈ tr → ¬ late agent
  end.
Proof.
  unfold timeoutDecision. cbv zeta. intros H Hb.
  set (created := if Time_IsZero entryCreated then _ else _) in *.
  assert (Hst : startTimedOut (pod_Phase pod) created now podStartTimeout = true ↔
    pod_Phase pod ∉ [PodRunning; PodSucceeded; PodFailed] ∧ (created + 5 * Minute < now)%Z).
  { unfold startTimedOut, podStartTimeout.
    rewrite (Time_Sub_gt now created (5 * Minute)) by (unfold Minute, maxInt64; lia).
    rewrite !not_elem_of_cons. destruct (_ || _) eqn:Hp.
    - split; [done|]. rewrite !orb_true_iff, !String.eqb_eq in Hp. clear -Hp. tauto.
    - bool_hyps. rewrite Z.ltb_lt.
      split; [intros; repeat split; [done..|apply not_elem_of_nil|lia]|intros [_ ?]; lia]. }
  assert (Hns : ¬ (pod_Phase pod ∉ [PodRunning; PodSucceeded; PodFailed] ∧
                   (created + 5 * Minute < now)%Z) ∨
    startTimedOut (pod_Phase pod) created now podStartTimeout = true).
  { destruct (startTimedOut _ _ _ _); [by right|left]. intros Hx%Hst. done. }
  run_if H.
  { runs_step. left. split; [done|]. by apply Hst. }
  destruct Hns as [Hns|Hns]; [|congruence].
  apply runs_bind in H as (tr1 & a & tr2 & -> & Ha & H). runs_step. rewrite app_nil_r in *.
  pose proof (resolveStepAgent_reads _ _ _ _ Ha) as [Hag1 Hag2].
  destruct a as [agent|err]; cycle 1.
  { split; [done|]. intros name agent Hin. by apply Hag1 in Hin. }
  assert (Hin : ∃ name, Ev (GetAgent name) (Ok agent) ∈ tr1) by (by apply Hag2).
  destruct (budget_exact agent step) as (-> & -> & -> & Hpos); [destruct Hin; eauto|].
  unfold overallTimedOut.
  rewrite !Time_Sub_gt by (unfold Minute, maxInt64; lia).
  destruct (_ || _) eqn:Hlate.
  - right. split; [done|]. split; [done|]. destruct Hin as [name Hin].
    exists name, agent. split; [done|].
    apply orb_true_iff in Hlate as [Hl|Hl]; bool_hyps; [left; lia|right]. 
    unfold Time_IsZero in *. bool_hyps. split; [done|lia].
  - split; [done|]. intros name agent' Hin'. apply Hag1 in Hin'. injection Hin' as <-.
    apply orb_false_iff in Hlate as [Hl Hs]. bool_hyps. intros [?|[Hz ?]]; [lia|].
    unfold Time_IsZero in Hs. apply andb_false_iff in Hs as [Hs|Hs]; bool_hyps; [done|lia].
Qed.
(** ** Listing *)
Definition entryKey (e : podEntry) : string := seenKey (entry_RunUID e) (entry_Step e).

(** Every key seen has an entry with a pod. *)
Definition seenCovered (s : list podEntry * list string) : Prop :=
  ∀ key, key ∈ snd s → ∃ e pod, e ∈ fst s ∧ entry_Pod e = Some pod ∧ entryKey e = key.

Lemma sandboxEntry_covered pod s tr s' :
  runs (sandboxEntry pod s) tr (inl s') → seenCovered s → seenCovered s'.
Proof.
  destruct s as [entries seen]. unfold sandboxEntry. intros H Hs.
  apply runs_bind in H as (tr1 & i & tr2 & -> & _ & H). destruct i as [id|err]; [|by runs_step].
  run_if H; [runs_step; by simplify_eq|].
  apply runs_bind in H as (tr3 & c & tr4 & -> & _ & H). cbv zeta in H. runs_step. simplify_eq.
  intros key. simpl. rewrite elem_of_app. intros [Hk|Hk].
  - destruct (Hs _ Hk) as (e & p & Hin & ? & ?). exists e, p. split; [|done].
    apply elem_of_app. by left.
  - apply list_elem_of_singleton in Hk as ->. eexists _, pod.
    split; [apply elem_of_app; right; left|by split].
Qed.

Definition claimsListed (ev : event answer) : option (list ObjectMeta) :=
  match ev with Ev (ListClaims _) (Ok cs) => Some cs | _ => None end.

Lemma sandboxEntry_no_claims pod s : emits (λ ev, claimsListed ev = None) (sandboxEntry pod s).
Proof.
  destruct s as [entries seen].
  unfold sandboxEntry, resolveSandboxPodMetadata, identityFromSandbox,
    sandboxClaimCreationTime. cbv zeta. emits_walk done.
Qed.

(** The entry a claim has of its own. *)
Definition ownEntry (claim : ObjectMeta) : podEntry :=
  MkPodEntry None (mapGet (meta_Labels claim) LabelStep)
    (mapGet (meta_Annotations claim) AnnotationRunName) (mapGet (meta_Labels claim) LabelRun)
    (meta_CreationTimestamp claim).

(** No claim escapes the deadlines: when the pods were resolved and the
    claims listed, every claim labelled with a run and a step is checked,
    through a pod seen for that run and step or, when there is none, by an
    entry of its own with the claim's creation time. *)
Theorem listSandboxPods_covers_claims tr entries claims claim :
  runs listSandboxPods tr entries →
  Ev (ListClaims (r_Namespace r)) (Ok claims) ∈ tr →
  claim ∈ claims →
  mapGet (meta_Labels claim) LabelStep ≠ "" → mapGet (meta_Labels claim) LabelRun ≠ "" →
  (∃ e pod, e ∈ entries ∧ entry_Pod e = Some pod ∧ entryKey e = entryKey (ownEntry claim)) ∨
  ownEntry claim ∈ entries.
Proof.
  unfold listSandboxPods. intros H Hev Hc Hstep Hrun. run_call H pods.
  apply elem_of_cons in Hev as [Hev|Hev]; [done|].
  destruct pods as [items|err]; [|runs_step; by apply elem_of_nil in Hev].
  assert (Hinv : seenCovered ([], [])) by (intros key Hk; by apply elem_of_nil in Hk).
  revert Hinv H Hev. generalize (@nil podEntry, @nil string) as s. revert tr0.
  induction items as [|pod items IH]; intros tr s Hinv H Hev; cbn [forEach] in H.
  - destruct s as [es seen]. run_call H listed. runs_step.
    apply list_elem_of_singleton, (f_equal claimsListed) in Hev. simpl in Hev.
    destruct listed as [cs|]; simplify_eq.
    destruct (decide (entryKey (ownEntry claim) ∈ seen)) as [Hs|Hs].
    + left. destruct (Hinv _ Hs) as (e & p & Hin & ? & ?). exists e, p. split; [|done].
      apply elem_of_app. by left.
    + right. apply elem_of_app. right. apply elem_of_omap. exists claim. split; [done|].
      unfold claimEntry. apply String.eqb_neq in Hstep as ->, Hrun as ->. simpl.
      by rewrite bool_decide_eq_false_2.
  - apply runs_bind in H as (tr1 & o & tr2 & -> & Hb & H).
    apply elem_of_app in Hev as [Hev|Hev].
    { apply sandboxEntry_no_claims in Hb. rewrite Forall_forall in Hb.
      by apply Hb in Hev. }
    destruct o as [s'|b]; [|runs_step; by apply elem_of_nil in Hev].
    eapply IH; [|exact H|exact Hev]. by eapply sandboxEntry_covered.
Qed.
End TimeoutHandler.
