(* ===== verification/SandboxAgent.v ===== *)
(** The sandbox agent caller ([controller/agenticrun/sandbox_agent.go]): it
    launches the sandbox of a step, records its name in the status of the run,
    and releases sandboxes.  What it needs of the sandbox manager is the
    interface [SandboxLifecycle] of the code with the laws
    [SandboxLifecycleLaws]; the manager is an instance of both. *)
From stdpp Require Import base list option strings gmap.
From Stdlib Require Import ZArith Lia.
From S2P Require Import Prelude GoText Crypto Json ApiMachinery Types Objects Phase Effects.
From S2P Require Import Approval Resolve PodSpecBuilder Results Helpers InputConfigMap Rbac Spoke.
From S2P Require Import SandboxManager TimeoutHandler.

Local Open Scope string_scope.
Local Open Scope list_scope.
Local Open Scope prog_scope.

Definition sandboxInfoPatchAttempts : nat := 5.
Definition analysisStepTimeout : Duration := (10 * Minute)%Z.
Definition executionStepTimeout : Duration := (10 * Minute)%Z.
Definition verificationStepTimeout : Duration := (30 * Minute)%Z.
Definition ErrClaimSandbox : string := "claim sandbox".

Definition stepTimeout (step : string) : Duration :=
  if String.eqb step "analysis" || String.eqb step "escalation" then analysisStepTimeout
  else if String.eqb step "execution" then executionStepTimeout
  else if String.eqb step "verification" then verificationStepTimeout
  else analysisStepTimeout.

Definition stepString (step : string) : string := ToLower step.

(** The interface [SandboxLifecycle]. *)
Class SandboxLifecycle := {
  createSandbox : AgenticRun → string → option Agent → option LLMProvider → option ToolsSpec →
    Duration → option agentContext → M (string * option error);
  releaseSandboxOf : AgenticRun → string → option SpokeAccess → bool → M (option error);
}.

(** What the caller relies on: the status of a run is the caller's to write, work
    starts only behind the guard, and a release starts none. *)
Class SandboxLifecycleLaws (K : ApiMachinery) (L : SandboxLifecycle) : Prop := {
  create_no_patch run step agent llm tools deadline agentCtx :
    emits (λ ev, isStatusPatch ev = false)
      (createSandbox run step agent llm tools deadline agentCtx);
  create_guarded run step agent llm tools deadline agentCtx tr out :
    runs (createSandbox run step agent llm tools deadline agentCtx) tr out →
    keepsIdentity tr → preceded startsWork (justGuarded (run_UID run)) tr;
  release_access run step spoke zeroGrace :
    emits (λ ev, accessCall ev = true) (releaseSandboxOf run step spoke zeroGrace);
}.

#[export] Instance managerLifecycle `{K : ApiMachinery} `{CC : ClientCmd} `{RJ : RawJSON}
    `{RE : Rendering} `{SL : SandboxLibs} (m : SandboxManager) : SandboxLifecycle := {|
  createSandbox := Create m;
  releaseSandboxOf := Release m;
|}.

#[export] Instance managerLifecycle_laws `{K : ApiMachinery} `{CC : ClientCmd} `{RJ : RawJSON}
    `{RE : Rendering} `{SL : SandboxLibs} (m : SandboxManager) :
  SandboxLifecycleLaws K (managerLifecycle m).
Proof.
  split.
  - intros. apply Create_noPatch.
  - intros run step agent llm tools deadline agentCtx tr [name e] H Hk.
    exact (Create_preceded m _ _ _ _ _ _ _ _ _ _ H Hk).
  - intros. apply Release_access.
Qed.

(** The caller: its reader and its namespace. *)
Record SandboxAgentCaller := MkSandboxAgentCaller {
  sac_APIReader : bool;
  sac_Namespace : string;
}.

Definition sacReader (s : SandboxAgentCaller) : AgenticRunReconciler :=
  MkReconciler (sac_Namespace s) (sac_APIReader s) false false false false false.

(** [current.Status.Steps.<Step>.Sandbox = info]. *)
Definition withStepSandbox (run : AgenticRun) (step : string) (info : SandboxInfo) : AgenticRun :=
  let s := run_Steps run in
  if String.eqb step "analysis"
  then withSteps run (withAnalysisStep s (withSandbox (steps_Analysis s) info))
  else if String.eqb step "execution"
  then withSteps run (withExecutionStep s (withSandbox (steps_Execution s) info))
  else if String.eqb step "verification"
  then withSteps run (withVerificationStep s (withSandbox (steps_Verification s) info))
  else if String.eqb step "escalation"
  then withSteps run (withEscalationStep s (withSandbox (steps_Escalation s) info))
  else run.

Definition sandboxPodDeadline (agent : option Agent) (step : string) : Duration :=
  wrap64 (wrap64 (sandboxStartupTimeout + wrap64 (resolveTimeout agent step * Second))
          + sandboxRunningGrace).

Section SandboxAgent.
Context `{K : ApiMachinery} `{CC : ClientCmd} `{L : SandboxLifecycle}.
Context (s : SandboxAgentCaller).

Definition patchInfoError (step : string) (err : error) : error :=
  wrapError ("patch sandbox info for step " +:+ step) err.

(** The error after the last attempt. *)
Definition patchInfoExhausted (step : string) (lastErr : option error) : option error :=
  patchInfoError step <$> lastErr.

(** One attempt: the last conflict, or what the function returns. *)
Definition patchInfoAttempt (run : AgenticRun) (step claimName : string)
    : M (option error + option error) :=
  guard <- readRunnableRun (sacReader s) (run_Key run) (run_UID run) ;;
  match guard with
  | Err err => Ret (inr (Some err))
  | Ok base =>
      patched <- call (StatusPatchRun base
        (withStepSandbox base step (MkSandboxInfo claimName (sac_Namespace s)))) ;;
      Ret match patched with
          | Ok _ => inr None
          | Err err => if negb (IsConflict err) then inr (Some (patchInfoError step err))
                       else inl (Some err)
          end
  end.

Definition patchSandboxInfo (run : AgenticRun) (step claimName : string) : M (option error) :=
  if negb (sac_APIReader s) then
    Ret (Some (errorString "uncached API reader is required before patching sandbox info"))
  else
    forEach (seq 0 sandboxInfoPatchAttempts) None
      (λ _ _, patchInfoAttempt run step claimName)
      (λ lastErr, Ret (patchInfoExhausted step lastErr)).

Definition launchSandbox (run : AgenticRun) (stepName : string) (step : resolvedStep)
    (agentCtx : agentContext) : M (option error) :=
  let agent := Some (rs_Agent step) in
  created <- retryOnTransient ""
    (createSandbox run stepName agent (Some (rs_LLM step)) (Some (rs_Tools step))
       (sandboxPodDeadline agent stepName) (Some agentCtx)) ;;
  let '(name, e) := created in
  onErr e (λ err, Ret (Some (wrapError ErrClaimSandbox err)))
  (e <- patchSandboxInfo run stepName name ;;
   Ret (patchInfoError stepName <$> e)).

(** [if option != nil { agentCtx.ApprovedOption = option }]. *)
Definition withApprovedOption (c : agentContext) (opt : option RemediationOption)
    : agentContext :=
  match opt with
  | Some o => MkAgentContext (ctx_PreviousAttempts c) (Some o) (ctx_ExecutionResult c)
  | None => c
  end.

Definition analyze (run : AgenticRun) (step : resolvedStep) : M (option error) :=
  launchSandbox run (stepString SandboxStepAnalysis) step (buildAgentContext run).

Definition execute (run : AgenticRun) (step : resolvedStep) (opt : option RemediationOption)
    : M (option error) :=
  launchSandbox run (stepString SandboxStepExecution) step
    (withApprovedOption (buildAgentContext run) opt).

Definition verify (run : AgenticRun) (step : resolvedStep) (opt : option RemediationOption)
    (exec : option ExecutionOutput) : M (option error) :=
  let c := withApprovedOption (buildAgentContext run) opt in
  launchSandbox run (stepString SandboxStepVerification) step
    (MkAgentContext (ctx_PreviousAttempts c) (ctx_ApprovedOption c)
       (executionOutputToAgentResult exec)).

Definition escalate (run : AgenticRun) (step : resolvedStep) : M (option error) :=
  launchSandbox run (stepString SandboxStepEscalation) step (buildAgentContext run).

Definition releaseSandbox (run : AgenticRun) (step : string) : M (option error) :=
  resolved <- spokeAccessForRun run (sac_Namespace s) ;;
  let '(spoke, spokeErr) := resolved in
  e <- releaseSandboxOf run step spoke false ;;
  onErr e (λ err, Ret (Some err)) (Ret spokeErr).

Definition sandboxSteps : list string := ["analysis"; "execution"; "verification"; "escalation"].

(** A step of the loop of [ReleaseSandboxes]. *)
Definition releaseStep (run : AgenticRun) (spoke : option SpokeAccess) (zeroGrace : bool)
    (step : string) (firstErr : option error) : M (option error) :=
  if String.eqb (sandboxClaimName run step) "" then Ret firstErr
  else e <- releaseSandboxOf run step spoke zeroGrace ;; Ret (keepFirst firstErr e).

Definition releaseSandboxes (run : AgenticRun) (zeroGrace : bool) : M (option error) :=
  resolved <- spokeAccessForRun run (sac_Namespace s) ;;
  let '(spoke, spokeErr) := resolved in
  let firstErr := match spokeErr with
    | Some err => if negb (IsNotFound err) || TimePtr_IsZero (meta_DeletionTimestamp (run_Meta run))
                  then Some err else None
    | None => None
    end in
  firstErr <- foldM sandboxSteps firstErr (releaseStep run spoke zeroGrace) ;;
  if negb (String.eqb (sandboxClaimName run "execution") "") then Ret firstErr
  else
    e <- cleanupStepRBAC spoke (sac_Namespace s) run "execution" ;;
    Ret (keepFirst firstErr e).
End SandboxAgent.

(** ** Deadlines *)

(** Kubernetes never kills a sandbox before the operator would: the deadline
    of the pod, counted from its creation, is the startup allowance, the agent's
    timeout and the grace, without overflow for the [int32] timeouts of the API;
    it is not before the operator's own deadline from creation, nor before its
    running deadline for a container that started within the startup allowance. *)
Theorem sandboxPodDeadline_covers agent step :
  (resolveTimeout (Some agent) step ≤ 2147483647)%Z →
  let deadline := sandboxPodDeadline (Some agent) step in
  deadline = (6 * Minute + stepBudget agent step)%Z ∧
  (Z.quot deadline Second * Second = deadline)%Z ∧
  ∀ created started, (started ≤ created + podStartTimeout)%Z →
    (started + wrap64 (agentTimeoutOf agent step + sandboxRunningGrace)
     ≤ Time_Add created deadline)%Z.
Proof.
  intros Hb. destruct (budget_exact agent step Hb) as (Ht & Hg & Hd & Hp). cbv zeta.
  unfold sandboxPodDeadline. change (wrap64 (resolveTimeout (Some agent) step * Second))
    with (agentTimeoutOf agent step). rewrite Ht, Hd.
  split; [lia|]. split.
  - unfold stepBudget, Minute, Second.
    replace (resolveTimeout (Some agent) step * 1000000000 + 6 * 60000000000)%Z
      with ((resolveTimeout (Some agent) step + 360) * 1000000000)%Z by lia.
    by rewrite Z.quot_mul.
  - intros created started Hs. rewrite Hg. unfold Time_Add, podStartTimeout, Minute in *. lia.
Qed.

(** ** Retries *)
Section Retry.
Context `{K : ApiMachinery}.

Lemma emits_retryFrom {A} P (fn : M (A * option error)) left attempt seen lastErr :
  emits P fn → (∀ d a, P (Ev (Sleep d) a)) → emits P (retryFrom left attempt seen lastErr fn).
Proof.
  intros Hf Hs. revert attempt seen lastErr.
  induction left as [|left IH]; intros; cbn [retryFrom]; [apply emits_ret|].
  apply emits_bind; [done|]. intros [value [err|]]; [|apply emits_ret].
  destruct (negb _); [apply emits_ret|]. destruct (_ <? _)%Z; [|apply IH].
  apply emits_bind; [by apply emits_call|]. intros [e|]; [apply emits_ret|apply IH].
Qed.

(** A success is the success of an attempt, and its value is the one seen. *)
Lemma retryFrom_ok {A} (fn : M (A * option error)) left attempt seen lastErr tr v :
  runs (retryFrom left attempt seen lastErr fn) tr (v, None) →
  (left = 0 ∧ lastErr = None) ∨ ∃ t, t ⊆ tr ∧ runs fn t (v, None).
Proof.
  revert attempt seen lastErr tr. induction left as [|left IH]; intros attempt seen lastErr tr;
    cbn [retryFrom].
  { intros [_ [= _ <-]]%runs_ret. by left. }
  intros (t1 & [v1 o] & t2 & -> & H1 & H)%runs_bind. right.
  destruct o as [err|]; [|apply runs_ret in H as [-> [= ->]]; exists t1; split; [set_solver|done]].
  destruct (negb _); [by apply runs_ret in H as [_ ?]|]. destruct (_ <? _)%Z.
  - run_call H slept. destruct slept; [by apply runs_ret in H as [_ ?]|].
    apply IH in H as [[_ ?]|(t & Ht & Hr)]; [done|]. exists t. split; [set_solver|done].
  - apply IH in H as [[_ ?]|(t & Ht & Hr)]; [done|]. exists t. split; [set_solver|done].
Qed.
End Retry.

(** ** Launching *)
Section Launch.
Context `{K : ApiMachinery} `{CC : ClientCmd} `{L : SandboxLifecycle} `{LL : !SandboxLifecycleLaws K L}.
Context (s : SandboxAgentCaller).

(** What the caller asks of the manager for a step. *)
Definition creation (run : AgenticRun) (stepName : string) (step : resolvedStep)
    (agentCtx : agentContext) : M (string * option error) :=
  createSandbox run stepName (Some (rs_Agent step)) (Some (rs_LLM step)) (Some (rs_Tools step))
    (sandboxPodDeadline (Some (rs_Agent step)) stepName) (Some agentCtx).

(** A status patch of [patchSandboxInfo] records the claim on the run the guard read. *)
Definition recordsClaim (run : AgenticRun) (step claimName : string) (pre : trace)
    (ev : event answer) : Prop :=
  match ev with
  | Ev (StatusPatchRun base obj) _ =>
      obj = withStepSandbox base step (MkSandboxInfo claimName (sac_Namespace s)) ∧
      ∃ before reads, pre = before ++ reads ∧ guarded (run_Key run) (run_UID run) reads base
  | _ => True
  end.

Lemma recordsClaim_mono run step claimName x pre ev :
  recordsClaim run step claimName pre ev → recordsClaim run step claimName (x ++ pre) ev.
Proof.
  destruct ev as [e a]. destruct e; try done. intros (-> & before & reads & -> & Hg).
  split; [done|]. exists (x ++ before), reads. by rewrite app_assoc.
Qed.

Lemma patchInfoAttempt_run run step claimName tr o :
  runs (patchInfoAttempt s run step claimName) tr o →
  preceded isStatusPatch (recordsClaim run step claimName) tr ∧
  (o = inr None → ∃ base obj r, Ev (StatusPatchRun base obj) (Ok r) ∈ tr).
Proof.
  unfold patchInfoAttempt. intros (t1 & guard & t2 & -> & Hg & H)%runs_bind.
  assert (Hq : Forall (λ ev, isStatusPatch ev = false) t1).
  { apply readRunnableRun_quiet in Hg. eapply Forall_impl; [exact Hg|].
    intros [e a] [Hw _]. by destruct e. }
  destruct guard as [base|err].
  - run_call H patched. apply runs_ret in H as [-> ->]. apply readRunnableRun_ok in Hg. split.
    + intros pre ev post Heq Hs.
      apply (cut_unique isStatusPatch) in Heq as (<- & <- & _); [|done..].
      split; [done|]. by exists [], t1.
    + destruct patched as [r|err]; [|by destruct (negb _)]. intros _.
      do 3 eexists. apply elem_of_app. right. left.
  - apply runs_ret in H as [-> ->]. rewrite app_nil_r. split; [|done].
    by apply preceded_none.
Qed.

Lemma patchSandboxInfo_run run step claimName tr e :
  runs (patchSandboxInfo s run step claimName) tr e →
  preceded isStatusPatch (recordsClaim run step claimName) tr ∧
  (e = None → ∃ base obj r, Ev (StatusPatchRun base obj) (Ok r) ∈ tr).
Proof.
  unfold patchSandboxInfo. destruct (sac_APIReader s); cbn [negb]; cycle 1.
  { intros [-> ->]%runs_ret. split; [by apply preceded_none|done]. }
  unfold sandboxInfoPatchAttempts. change (seq 0 5) with (0 :: seq 1 4).
  assert (Hloop : ∀ (ns : list nat) last tr, (ns = [] → last ≠ None) →
    runs (forEach ns last (λ _ _, patchInfoAttempt s run step claimName)
            (λ lastErr, Ret (patchInfoExhausted step lastErr))) tr e →
    preceded isStatusPatch (recordsClaim run step claimName) tr ∧
    (e = None → ∃ base obj r, Ev (StatusPatchRun base obj) (Ok r) ∈ tr)).
  { induction ns as [|n ns IH]; intros last tr' Hl; cbn [forEach].
    - intros [-> ->]%runs_ret. split; [by apply preceded_none|]. by destruct last; [|destruct Hl].
    - intros (t1 & o & t2 & -> & H1 & H)%runs_bind.
      pose proof (patchInfoAttempt_run _ _ _ _ _ H1) as [Hp Hok].
      destruct o as [last'|e'].
      + apply IH in H as [Hp2 Hok2]; [|intros _ ->; unfold patchInfoAttempt in H1;
          repeat runs_step; by repeat case_match].
        split; [by apply preceded_app; [apply recordsClaim_mono|..]|].
        intros He. destruct (Hok2 He) as (b & o & r & Hin). exists b, o, r. set_solver.
      + apply runs_ret in H as [-> ->]. rewrite app_nil_r. split; [done|]. intros ->. by apply Hok. }
  by apply Hloop.
Qed.

(** A launch that succeeds is remembered, and only such a launch: every status
    patch of [launchSandbox] records, on the run as the guard just read it (the
    same UID, no accepted stop, no global suspension), the name that a creation of
    this launch returned without an error, and changes nothing else of the run;
    and a launch without an error had such a patch accepted.  A creation that
    returns a name with an error is not recorded. *)
Theorem launchSandbox_records run stepName step agentCtx tr e :
  runs (launchSandbox s run stepName step agentCtx) tr e →
  (∀ base obj ans, Ev (StatusPatchRun base obj) ans ∈ tr →
     ∃ name t, t ⊆ tr ∧ runs (creation run stepName step agentCtx) t (name, None) ∧
       obj = withStepSandbox base stepName (MkSandboxInfo name (sac_Namespace s)) ∧
       run_UID base = run_UID run ∧ HasAcceptedStop base = false) ∧
  (e = None → ∃ base obj r, Ev (StatusPatchRun base obj) (Ok r) ∈ tr).
Proof.
  unfold launchSandbox. intros (t1 & [name e1] & t2 & -> & H1 & H)%runs_bind.
  assert (Hq : Forall (λ ev, isStatusPatch ev = false) t1).
  { revert H1. apply emits_retryFrom; [apply create_no_patch|done]. }
  assert (Hno : ∀ base obj ans, Ev (StatusPatchRun base obj) ans ∉ t1).
  { intros base obj ans Hi. rewrite Forall_forall in Hq. by apply Hq in Hi. }
  destruct e1 as [err|]; unfold onErr in H.
  { apply runs_ret in H as [-> ->]. rewrite app_nil_r. split; [|done].
    intros base obj ans Hi. by apply Hno in Hi. }
  apply runs_bind in H as (t3 & e2 & t4 & -> & H2 & [-> ->]%runs_ret). rewrite app_nil_r.
  apply retryFrom_ok in H1 as [[? _]|(t & Hsub & Hc)]; [done|].
  apply patchSandboxInfo_run in H2 as [Hp Hok]. split.
  - intros base obj ans [Hi|Hi]%elem_of_app; [by apply Hno in Hi|].
    apply list_elem_of_split in Hi as (pre & post & ->).
    destruct (Hp _ _ _ eq_refl eq_refl) as (-> & before & reads & _ & Hg).
    destruct Hg as (config & _ & Hu & Hs & _). exists name, t. split; [set_solver|]. done.
  - intros He. destruct e2; [done|]. destruct (Hok eq_refl) as (b & o & r & Hin).
    exists b, o, r. set_solver.
Qed.
End Launch.

(** ** What launches and releases start *)
Section Starts.
Context `{K : ApiMachinery} `{CC : ClientCmd} `{L : SandboxLifecycle} `{LL : !SandboxLifecycleLaws K L}.
Context (s : SandboxAgentCaller).

Lemma retryCreate_guarded run stepName step agentCtx left attempt seen lastErr tr o :
  runs (retryFrom left attempt seen lastErr (creation run stepName step agentCtx)) tr o →
  keepsIdentity tr → preceded startsWork (justGuarded (run_UID run)) tr.
Proof.
  revert attempt seen lastErr tr. induction left as [|left IH]; intros attempt seen lastErr tr;
    cbn [retryFrom]; [by intros [-> _]%runs_ret _; apply preceded_none|].
  intros (t1 & [v1 e1] & t2 & -> & H1 & H)%runs_bind [Hk1 Hk2]%keepsIdentity_app.
  apply preceded_app; [apply justGuarded_mono|by eapply create_guarded|].
  destruct e1 as [err|]; [|apply runs_ret in H as [-> _]; by apply preceded_none].
  destruct (negb _); [apply runs_ret in H as [-> _]; by apply preceded_none|].
  destruct (_ <? _)%Z; [|by eapply IH]. run_call H slept.
  apply (preceded_app _ _ (justGuarded_mono _) [_]); [by apply preceded_none; repeat constructor|].
  destruct slept; [apply runs_ret in H as [-> _]; by apply preceded_none|].
  apply (keepsIdentity_app [_]) in Hk2 as [_ Hk2]. by eapply IH.
Qed.

Lemma patchSandboxInfo_noWork run step claimName :
  emits (λ ev, startsWork ev = false) (patchSandboxInfo s run step claimName).
Proof. unfold patchSandboxInfo, patchInfoAttempt, readRunnableRun. emits_walk done. Qed.

(** Every pod or claim of a launch is created right behind the guard. *)
Lemma launchSandbox_guarded run stepName step agentCtx tr e :
  runs (launchSandbox s run stepName step agentCtx) tr e →
  keepsIdentity tr → preceded startsWork (justGuarded (run_UID run)) tr.
Proof.
  unfold launchSandbox. intros (t1 & [name e1] & t2 & -> & H1 & H)%runs_bind [Hk _]%keepsIdentity_app.
  apply preceded_app; [apply justGuarded_mono|by eapply retryCreate_guarded|].
  apply preceded_none. revert H. destruct e1 as [err|]; cbn [onErr]; intros H;
    [by apply runs_ret in H as [-> _]|].
  apply runs_bind in H as (t3 & e2 & t4 & -> & H2%patchSandboxInfo_noWork & [-> _]%runs_ret).
  by rewrite app_nil_r.
Qed.

Lemma releaseSandbox_access run step : emits (λ ev, accessCall ev = true) (releaseSandbox s run step).
Proof.
  unfold releaseSandbox.
  repeat (first [apply release_access | apply spokeAccessForRun_access | apply emits_onErr; intros
                | emits_walk done]).
Qed.

Lemma releaseSandboxes_access run zeroGrace :
  emits (λ ev, accessCall ev = true) (releaseSandboxes s run zeroGrace).
Proof.
  unfold releaseSandboxes, releaseStep.
  repeat (first [apply release_access | apply spokeAccessForRun_access | apply cleanupStepRBAC_access
                | emits_walk done]).
Qed.

Lemma releaseLoop_run run spoke zeroGrace steps acc tr e :
  runs (foldM steps acc (releaseStep run spoke zeroGrace)) tr e →
  (e = None → acc = None) ∧
  ∀ step, step ∈ steps → sandboxClaimName run step ≠ "" →
    ∃ t e', t ⊆ tr ∧ runs (releaseSandboxOf run step spoke zeroGrace) t e' ∧ (e = None → e' = None).
Proof.
  revert acc tr. induction steps as [|x steps IH]; intros acc tr; cbn [foldM].
  - intros [-> ->]%runs_ret. split; [done|]. by intros ? ?%elem_of_nil.
  - intros (t1 & acc' & t2 & -> & Hb & H)%runs_bind. apply IH in H as [Hacc Hall].
    unfold releaseStep in Hb. destruct (String.eqb_spec (sandboxClaimName run x) "") as [Hx|Hx].
    + apply runs_ret in Hb as [-> ->]. split; [done|].
      intros step [->|Hs]%elem_of_cons Hn; [done|]. by apply Hall.
    + apply runs_bind in Hb as (t3 & e3 & t4 & -> & Hr & [-> ->]%runs_ret).
      setoid_rewrite keepFirst_None in Hacc. split; [naive_solver|].
      intros step [->|Hs]%elem_of_cons Hn.
      * exists t3, e3. split; [set_solver|]. split; [done|]. naive_solver.
      * destruct (Hall step Hs Hn) as (t & e' & Ht & He & Hi). exists t, e'.
        split; [set_solver|done].
Qed.

(** Releasing a run releases all of it: one failure does not stop the others.
    Every step with a recorded sandbox is released, with the one access to the
    spoke resolved for the whole teardown, and the execution's roles are removed
    even when no execution sandbox was recorded; no error means that all of this
    reported none and that the spoke was reached, or that its access was already
    gone for a run that is being deleted. *)
Theorem releaseSandboxes_all run zeroGrace tr e :
  runs (releaseSandboxes s run zeroGrace) tr e →
  ∃ spoke spokeErr,
    (∃ t, t ⊆ tr ∧ runs (spokeAccessForRun run (sac_Namespace s)) t (spoke, spokeErr)) ∧
    (∀ step, step ∈ sandboxSteps → sandboxClaimName run step ≠ "" →
       ∃ t e', t ⊆ tr ∧ runs (releaseSandboxOf run step spoke zeroGrace) t e' ∧
               (e = None → e' = None)) ∧
    (sandboxClaimName run "execution" = "" →
       ∃ t e', t ⊆ tr ∧ runs (cleanupStepRBAC spoke (sac_Namespace s) run "execution") t e' ∧
               (e = None → e' = None)) ∧
    (∀ err, e = None → spokeErr = Some err →
       IsNotFound err = true ∧ TimePtr_IsZero (meta_DeletionTimestamp (run_Meta run)) = false).
Proof.
  unfold releaseSandboxes. intros (t1 & [spoke spokeErr] & t2 & -> & H1 & H)%runs_bind.
  set (first := match spokeErr with Some err => _ | None => None end) in H.
  apply runs_bind in H as (t3 & e3 & t4 & -> & [Hacc Hall]%releaseLoop_run & H).
  assert (Hfin : (e = None → e3 = None) ∧
    (sandboxClaimName run "execution" = "" →
       ∃ t e', t ⊆ t4 ∧ runs (cleanupStepRBAC spoke (sac_Namespace s) run "execution") t e' ∧
               (e = None → e' = None))).
  { destruct (String.eqb_spec (sandboxClaimName run "execution") ""); cbn [negb] in H.
    - apply runs_bind in H as (t5 & e5 & t6 & -> & Hc & [-> ->]%runs_ret).
      setoid_rewrite keepFirst_None. split; [tauto|]. intros _. exists t5, e5.
      split; [set_solver|]. split; [done|tauto].
    - apply runs_ret in H as [-> ->]. done. }
  destruct Hfin as [He3 Hexe]. exists spoke, spokeErr.
  split; [exists t1; split; [set_solver|done]|]. split; [|split].
  - intros step Hs Hn. destruct (Hall step Hs Hn) as (t & e' & Ht & Hr & Hi).
    exists t, e'. split; [set_solver|]. split; [done|auto].
  - intros Hn. destruct (Hexe Hn) as (t & e' & Ht & Hr & Hi). exists t, e'.
    split; [set_solver|done].
  - intros err He ->. specialize (Hacc (He3 He)). unfold first in Hacc.
    destruct (negb _ || _) eqn:Hb; [done|]. by bool_hyps.
Qed.
End Starts.
