(* ===== verification/SuspensionInventory.v ===== *)
(** What a suspension finds on the cluster
    ([controller/agenticrun/suspension_cleanup.go]): the identity of managed
    objects, their ownership, the report of a pass, and the classification of
    claims, sandboxes and pods into the work of the pass. *)
From stdpp Require Import base list option strings gmap sorting.
From Stdlib Require Import ZArith Lia.
From S2P Require Import Prelude GoText Crypto Json ApiMachinery Types Objects Phase Effects.
From S2P Require Import Approval Resolve Results Helpers Rbac Spoke SandboxManager.

Local Open Scope string_scope.
Local Open Scope list_scope.

(** [schema.ParseGroupVersion] (the group, if the string parses), and two
    predicates on errors. *)
Class SuspensionLibs := {
  ParseGroup : string → option string;
  IsForbidden : error → bool;
  IsNoMatchError : error → bool;
}.

Definition claimGroup : string := "extensions.agents.x-k8s.io".
Definition sandboxGroup : string := "agents.x-k8s.io".
Definition claimKind : string := "SandboxClaim".
Definition sandboxKindName : string := "Sandbox".

(** ** Identities *)
Definition suspensionRunSelector (uid : string) : Selector :=
  if String.eqb uid "" then HasLabels [LabelRun] else MatchingLabels {[LabelRun := uid]}.

Definition suspensionUIDMatches (labels : gmap string string) (uid : string) : bool :=
  let value := mapGet labels LabelRun in
  negb (String.eqb value "") && (String.eqb uid "" || String.eqb value uid).

Definition suspensionSteps : list string := ["analysis"; "execution"; "verification"; "escalation"].

Definition suspensionStepAllowed (step : string) : bool :=
  existsb (String.eqb step) suspensionSteps.

(** [labels[key] != "" && labels[key] != value]. *)
Definition labelConflicts (labels : gmap string string) (key value : string) : bool :=
  negb (String.eqb (mapGet labels key) "") && negb (String.eqb (mapGet labels key) value).

(** The step in [<step>-sa], if the component ends so and has more than that. *)
Definition accountComponentStep (component : string) : option string :=
  let n := String.length component in
  if (n <=? 3)%nat || negb (String.eqb (String.substring (n - 3) 3 component) "-sa") then None
  else Some (str_take (n - 3) component).

(** The step, whether the object is managed, and whether its identity is valid. *)
Definition suspensionServiceAccountStep (labels : gmap string string) (uid : string)
    : string * bool * bool :=
  if negb (suspensionUIDMatches labels uid) then ("", false, false)
  else
    match accountComponentStep (mapGet labels LabelComponent) with
    | None => ("", false, false)
    | Some step =>
        (step, true, suspensionStepAllowed step && negb (labelConflicts labels LabelStep step))
    end.

Definition suspensionRBACStep (labels : gmap string string) (name uid : string)
    : string * bool * bool :=
  if negb (suspensionUIDMatches labels uid) then ("", false, false)
  else
    let component := mapGet labels LabelComponent in
    if String.eqb component "execution-rbac" then
      ("execution", true, negb (labelConflicts labels LabelStep "execution"))
    else if String.eqb component "result-rbac" then
      match List.find (λ step, String.eqb name (resultRoleName (mapGet labels LabelRun) step))
              suspensionSteps with
      | Some step => (step, true, negb (labelConflicts labels LabelStep step))
      | None => ("", true, false)
      end
    else ("", false, false).

Definition suspensionCredentialStep (name runUID : string) : string :=
  default "" (List.find (λ step, String.eqb name (sandboxKubeconfigSecretName runUID step))
                suspensionSteps).

Definition suspensionPodLabelsMatch (labels : gmap string string) (runUID step : string) : bool :=
  String.eqb (mapGet labels LabelRun) runUID && String.eqb (mapGet labels LabelStep) step.

(** ** Owners *)
Definition isController (ref : OwnerReference) : bool := default false (owner_Controller ref).

Section Owners.
Context `{SUL : SuspensionLibs}.

Definition ownerInGroup (ref : OwnerReference) (group : string) : bool :=
  match ParseGroup (owner_APIVersion ref) with Some g => String.eqb g group | None => false end.

Definition suspensionControllerOwnerReference (child : ObjectMeta) (group kind : string)
    : option OwnerReference :=
  List.find (λ ref, isController ref && String.eqb (owner_Kind ref) kind
                    && negb (String.eqb (owner_Name ref) "") && negb (String.eqb (owner_UID ref) "")
                    && ownerInGroup ref group)
    (meta_OwnerReferences child).

Definition suspensionHasControllerOwner (child : ObjectMeta) (group kind parentName parentUID : string)
    : bool :=
  match suspensionControllerOwnerReference child group kind with
  | Some ref => String.eqb (owner_Name ref) parentName && String.eqb (owner_UID ref) parentUID
  | None => false
  end.
End Owners.

Definition suspensionHasControllerOwnerKind (child : ObjectMeta) (kind : string) : bool :=
  existsb (λ ref, isController ref && String.eqb (owner_Kind ref) kind)
    (meta_OwnerReferences child).
Definition suspensionHasOwnerKind (child : ObjectMeta) (kind : string) : bool :=
  existsb (λ ref, String.eqb (owner_Kind ref) kind) (meta_OwnerReferences child).
Definition suspensionHasAnyControllerOwner (child : ObjectMeta) : bool :=
  existsb isController (meta_OwnerReferences child).

(** ** The report of a pass *)

(** The summary and the operation errors. *)
Record Report := MkReport { rep_Summary : SuspensionCleanup; rep_Errors : list error }.

Definition emptyReport : Report := MkReport (MkSuspensionCleanup [] [] []) [].

Definition appendSuspensionMessage (messages : list string) (message : string) : list string :=
  if existsb (String.eqb message) messages then messages else messages ++ [message].

Definition recordSuspensionPending (r : Report) (message : string) : Report :=
  let c := rep_Summary r in
  MkReport (MkSuspensionCleanup (appendSuspensionMessage (sc_Pending c) message)
              (sc_Failures c) (sc_Unverified c)) (rep_Errors r).

Definition recordSuspensionFailure (r : Report) (message : string) (err : error) : Report :=
  let c := rep_Summary r in
  MkReport (MkSuspensionCleanup (sc_Pending c)
              (appendSuspensionMessage (sc_Failures c) (message +:+ ": " +:+ Error err))
              (sc_Unverified c))
    (rep_Errors r ++ [wrapError message err]).

Definition recordSuspensionUnverified (r : Report) (message : string) (err : error) : Report :=
  let c := rep_Summary r in
  MkReport (MkSuspensionCleanup (sc_Pending c) (sc_Failures c)
              (appendSuspensionMessage (sc_Unverified c) (message +:+ ": " +:+ Error err)))
    (rep_Errors r ++ [wrapError message err]).

(** [recordSuspensionUnverified] with an error that may be [nil]. *)
Definition recordUnverifiedIf (r : Report) (message : string) (err : option error) : Report :=
  match err with Some e => recordSuspensionUnverified r message e | None => r end.

(** [%T] of an object as the controller holds it. *)
Definition goTypeName (k : Kind) : string :=
  match k with
  | KRole => "*v1.Role"
  | KRoleBinding => "*v1.RoleBinding"
  | KClusterRole => "*v1.ClusterRole"
  | KClusterRoleBinding => "*v1.ClusterRoleBinding"
  | KServiceAccount => "*v1.ServiceAccount"
  | KSecret => "*v1.Secret"
  | KConfigMap => "*v1.ConfigMap"
  | KPod => "*v1.Pod"
  | KSandboxTemplate | KSandboxWarmPool | KSandboxClaim | KSandbox | KCustomResourceDefinition =>
      "*unstructured.Unstructured"
  end.

Definition suspensionObjectDescription {k} (o : Object k) : string :=
  goTypeName k +:+ " " +:+ obj_Namespace o +:+ "/" +:+ obj_Name o +:+ " UID " +:+ obj_UID o.

(** ** Verdicts

    What a pass does with an object it found: nothing, refuse it (it is reported
    as unverified), or manage it: delete it, and when the pass looks again, report
    it as pending. *)
Inductive Verdict := Ignore | Refuse (message : string) (err : error) | Manage.

(** The two looks at the cluster, which word their refusals differently. *)
Inductive Look := Deleting | Confirming.

Definition wording (look : Look) (deleting confirming : string) : string :=
  match look with Deleting => deleting | Confirming => confirming end.

Section Verdicts.
Context `{K : ApiMachinery}.
Context (uid : string).

Definition invalidStep (step : string) : error := errorString ("invalid step " +:+ Quote step).

(** An object with a run label and a step label. *)
Definition judgeLabelled {k} (message : string) (o : Object k) : Verdict :=
  let labels := obj_Labels o in
  if negb (suspensionUIDMatches labels uid) then Ignore
  else if negb (suspensionStepAllowed (mapGet labels LabelStep)) then
    Refuse (message +:+ suspensionObjectDescription o) (invalidStep (mapGet labels LabelStep))
  else Manage.

Definition judgePool (look : Look) : Object KSandboxWarmPool → Verdict :=
  judgeLabelled (wording look "managed SandboxWarmPool has no valid step label: "
                              "retained SandboxWarmPool has no valid step label: ").

(** A pod that is confirmed only has to be inactive. *)
Definition judgePodRemains (o : Object KPod) : Verdict :=
  match judgeLabelled "retained managed Pod has no valid step label: " o with
  | Manage =>
      let phase := podobj_Phase (obj_Content (k := KPod) o) in
      if negb (String.eqb phase PodSucceeded) && negb (String.eqb phase PodFailed)
      then Manage else Ignore
  | v => v
  end.

Definition judgeAccount (look : Look) (o : Object KServiceAccount) : Verdict :=
  let '(_, managed, valid) := suspensionServiceAccountStep (obj_Labels o) uid in
  if negb managed then Ignore
  else if negb (valid : bool) then
    Refuse (wording look "managed" "retained" +:+ " ServiceAccount has invalid component identity: "
              +:+ suspensionObjectDescription o)
      (errorString "ServiceAccount component does not identify an allowed step")
  else Manage.

(** A role or a role binding, [what] being its kind. *)
Definition judgeNamespaced {k} (look : Look) (operatorNS what : string) (o : Object k) : Verdict :=
  let labels := obj_Labels o in
  let '(_, managed, valid) := suspensionRBACStep labels (obj_Name o) uid in
  if negb managed then Ignore
  else if negb (valid : bool) then
    Refuse (wording look "managed " "retained " +:+ what +:+ " has invalid component identity: "
              +:+ suspensionObjectDescription o)
      (errorString (what +:+ " component does not identify an allowed step"))
  else if String.eqb (mapGet labels LabelComponent) "result-rbac"
          && negb (String.eqb (obj_Namespace o) operatorNS) then
    Refuse (wording look "result " "retained result " +:+ what +:+
              " is outside the operator namespace: " +:+ suspensionObjectDescription o)
      (errorString (wording look "refuse to delete result RBAC outside the operator namespace"
                      "result RBAC was found outside the operator namespace"))
  else Manage.

Definition judgeClusterRole (look : Look) (o : Object KClusterRole) : Verdict :=
  let labels := obj_Labels o in
  let component := mapGet labels LabelComponent in
  if suspensionUIDMatches labels uid
     && (String.eqb component "result-rbac" || String.eqb component "reader-rbac") then
    Refuse ("namespace-scoped RBAC component " +:+ wording look "found" "remains" +:+
              " on ClusterRole: " +:+ suspensionObjectDescription o)
      (errorString ("unexpected ClusterRole component " +:+ Quote component))
  else
    let '(_, managed, valid) := suspensionRBACStep labels (obj_Name o) uid in
    if negb managed then Ignore
    else if negb (valid : bool) then
      Refuse (wording look "managed" "retained" +:+ " ClusterRole has invalid component identity: "
                +:+ suspensionObjectDescription o)
        (errorString "ClusterRole component does not identify an allowed step")
    else Manage.

Definition judgeClusterRoleBinding (look : Look) (o : Object KClusterRoleBinding) : Verdict :=
  let labels := obj_Labels o in
  let component := mapGet labels LabelComponent in
  let step := mapGet labels LabelStep in
  let described := suspensionObjectDescription o in
  if negb (suspensionUIDMatches labels uid) then Ignore
  else if String.eqb component "reader-rbac" then
    if negb (suspensionStepAllowed step) then
      Refuse (wording look "" "retained " +:+
                "temporary reader ClusterRoleBinding has invalid step identity: " +:+ described)
        (invalidStep step)
    else Manage
  else if String.eqb component "execution-rbac" then
    if labelConflicts labels LabelStep "execution" then
      Refuse (wording look "" "retained " +:+
                "execution ClusterRoleBinding has conflicting step identity: " +:+ described)
        (invalidStep step)
    else Manage
  else if String.eqb component "result-rbac" then
    Refuse ("namespace-scoped result RBAC component " +:+ wording look "found" "remains" +:+
              " on ClusterRoleBinding: " +:+ described)
      (errorString (wording look "refuse to delete result RBAC from cluster scope"
                      "result RBAC was found in cluster scope"))
  else Ignore.

Definition judgeSecret (look : Look) (o : Object KSecret) : Verdict :=
  let labels := obj_Labels o in
  if negb (suspensionUIDMatches labels uid)
     || negb (String.eqb (mapGet labels LabelComponent) "sandbox-kubeconfig") then Ignore
  else
    let step := suspensionCredentialStep (obj_Name o) (mapGet labels LabelRun) in
    if negb (suspensionStepAllowed step) || labelConflicts labels LabelStep step then
      Refuse (wording look "" "retained " +:+
                "sandbox credential Secret has invalid step identity: " +:+
                suspensionObjectDescription o)
        (errorString ("invalid step identity " +:+ Quote (mapGet labels LabelStep)))
    else Manage.

(** A managed object carries the label of the run; of any run if [uid] is empty. *)
Lemma judgeLabelled_managed {k} message (o : Object k) :
  judgeLabelled message o = Manage → suspensionUIDMatches (obj_Labels o) uid = true.
Proof. unfold judgeLabelled. by destruct (suspensionUIDMatches _ _). Qed.

Lemma suspensionRBACStep_matches labels name step valid :
  suspensionRBACStep labels name uid = (step, true, valid) → suspensionUIDMatches labels uid = true.
Proof. unfold suspensionRBACStep. by destruct (suspensionUIDMatches _ _). Qed.

Lemma judgeAccount_managed look o :
  judgeAccount look o = Manage → suspensionUIDMatches (obj_Labels o) uid = true.
Proof.
  unfold judgeAccount, suspensionServiceAccountStep. by destruct (suspensionUIDMatches _ _).
Qed.

Lemma judgeNamespaced_managed {k} look ns what (o : Object k) :
  judgeNamespaced look ns what o = Manage → suspensionUIDMatches (obj_Labels o) uid = true.
Proof.
  unfold judgeNamespaced. destruct (suspensionRBACStep _ _ _) as [[step []] valid] eqn:Hs; [|done].
  intros _. by eapply suspensionRBACStep_matches.
Qed.

Lemma judgeClusterRole_managed look o :
  judgeClusterRole look o = Manage → suspensionUIDMatches (obj_Labels o) uid = true.
Proof.
  unfold judgeClusterRole. destruct (_ && _); [done|].
  destruct (suspensionRBACStep _ _ _) as [[step []] valid] eqn:Hs; [|done].
  intros _. by eapply suspensionRBACStep_matches.
Qed.

Lemma judgeClusterRoleBinding_managed look o :
  judgeClusterRoleBinding look o = Manage → suspensionUIDMatches (obj_Labels o) uid = true.
Proof. unfold judgeClusterRoleBinding. by destruct (suspensionUIDMatches _ _). Qed.

Lemma judgeSecret_managed look o :
  judgeSecret look o = Manage → suspensionUIDMatches (obj_Labels o) uid = true.
Proof. unfold judgeSecret. by destruct (suspensionUIDMatches _ _). Qed.

(** The second look never overlooks what the first one would delete: the verdict
    is the same but for its wording. *)
Definition sameVerdict (v v' : Verdict) : Prop :=
  match v, v' with
  | Ignore, Ignore | Manage, Manage | Refuse _ _, Refuse _ _ => True
  | _, _ => False
  end.
End Verdicts.

(** ** The work of a pass

    Claims are known by their position; sandboxes by their key.  A claim lists the
    keys of its sandboxes, and a sandbox may point back to its claim. *)
Record ClaimWork := MkClaimWork {
  cw_Object : Object KSandboxClaim;
  cw_UID : string;
  cw_RunUID : string;
  cw_Step : string;
  cw_Blocked : bool;
  cw_Sandboxes : list NamespacedName;
}.

Record SandboxWork := MkSandboxWork {
  sw_Object : Object KSandbox;
  sw_RunUID : string;
  sw_Step : string;
  sw_Claim : option nat;
  sw_Blocked : bool;
  sw_IdentitySaved : bool;
  sw_PodSafe : bool;
  sw_PodCompleted : bool;
}.

Record Inventory := MkInventory {
  inv_Claims : list ClaimWork;
  inv_ClaimByUID : gmap string nat;
  inv_ClaimUIDs : list string;     (* of every claim, managed or not *)
  inv_SandboxByName : gmap string (Object KSandbox);
  inv_Sandboxes : list (NamespacedName * SandboxWork);
  inv_Report : Report;
}.

Definition withClaims (i : Inventory) (claims : list ClaimWork) : Inventory :=
  MkInventory claims (inv_ClaimByUID i) (inv_ClaimUIDs i) (inv_SandboxByName i) (inv_Sandboxes i)
    (inv_Report i).
Definition withSandboxes (i : Inventory) (works : list (NamespacedName * SandboxWork)) : Inventory :=
  MkInventory (inv_Claims i) (inv_ClaimByUID i) (inv_ClaimUIDs i) (inv_SandboxByName i) works
    (inv_Report i).
Definition withReport (i : Inventory) (r : Report) : Inventory :=
  MkInventory (inv_Claims i) (inv_ClaimByUID i) (inv_ClaimUIDs i) (inv_SandboxByName i)
    (inv_Sandboxes i) r.

Definition unverified (i : Inventory) (message : string) (err : error) : Inventory :=
  withReport i (recordSuspensionUnverified (inv_Report i) message err).

(** Fields of the work, set. *)
Definition blockedClaim (c : ClaimWork) : ClaimWork :=
  MkClaimWork (cw_Object c) (cw_UID c) (cw_RunUID c) (cw_Step c) true (cw_Sandboxes c).
Definition blockedSandbox (w : SandboxWork) : SandboxWork :=
  MkSandboxWork (sw_Object w) (sw_RunUID w) (sw_Step w) (sw_Claim w) true (sw_IdentitySaved w)
    (sw_PodSafe w) (sw_PodCompleted w).
Definition claimedBy (w : SandboxWork) (claim : nat) : SandboxWork :=
  MkSandboxWork (sw_Object w) (sw_RunUID w) (sw_Step w) (Some claim) (sw_Blocked w)
    (sw_IdentitySaved w) (sw_PodSafe w) (sw_PodCompleted w).
Definition newSandboxWork (o : Object KSandbox) (runUID step : string) (claim : option nat)
    : SandboxWork := MkSandboxWork o runUID step claim false false false false.

(** [sandboxWorkByKey[key]]. *)
Fixpoint workAt (works : list (NamespacedName * SandboxWork)) (key : NamespacedName)
    : option SandboxWork :=
  match works with
  | [] => None
  | (k, w) :: works' => if decide (k = key) then Some w else workAt works' key
  end.

(** [sandboxWorkByKey[key] = work], or an update through the pointer stored there. *)
Fixpoint setWork (works : list (NamespacedName * SandboxWork)) (key : NamespacedName)
    (w : SandboxWork) : list (NamespacedName * SandboxWork) :=
  match works with
  | [] => [(key, w)]
  | (k, w0) :: works' => if decide (k = key) then (k, w) :: works'
                         else (k, w0) :: setWork works' key w
  end.

Definition putWork (i : Inventory) (key : NamespacedName) (w : SandboxWork) : Inventory :=
  withSandboxes i (setWork (inv_Sandboxes i) key w).

(** [claim.blocked = true]. *)
Definition blockClaim (i : Inventory) (claim : nat) : Inventory :=
  withClaims i (alter blockedClaim claim (inv_Claims i)).
Definition blockClaimOf (i : Inventory) (claim : option nat) : Inventory :=
  match claim with Some c => blockClaim i c | None => i end.

(** [if work != nil { work.blocked = true; if work.claim != nil { ... } }]. *)
Definition blockWork (i : Inventory) (key : NamespacedName) : Inventory :=
  match workAt (inv_Sandboxes i) key with
  | Some w => blockClaimOf (putWork i key (blockedSandbox w)) (sw_Claim w)
  | None => i
  end.

(** [work.claim = ownerClaim], and the sandbox is added to those of the claim. *)
Definition attach (i : Inventory) (key : NamespacedName) (claim : nat) : Inventory :=
  match workAt (inv_Sandboxes i) key with
  | None => i
  | Some w =>
      let i' := putWork i key (claimedBy w claim) in
      withClaims i' (alter (λ c,
        if decide (key ∈ cw_Sandboxes c) then c
        else MkClaimWork (cw_Object c) (cw_UID c) (cw_RunUID c) (cw_Step c) (cw_Blocked c)
               (cw_Sandboxes c ++ [key])) claim (inv_Claims i'))
  end.

Section Classify.
Context `{K : ApiMachinery} `{SUL : SuspensionLibs}.
Context (uid : string).

(** ** Claims *)
Definition classifyClaim (i : Inventory) (claim : Object KSandboxClaim) : Inventory :=
  let cuid := obj_UID claim in
  let i := if String.eqb cuid "" then i else
    MkInventory (inv_Claims i) (inv_ClaimByUID i) (cuid :: inv_ClaimUIDs i) (inv_SandboxByName i)
      (inv_Sandboxes i) (inv_Report i) in
  let labels := obj_Labels claim in
  let step := mapGet labels LabelStep in
  if negb (suspensionUIDMatches labels uid) then i
  else if negb (suspensionStepAllowed step) then
    unverified i ("managed SandboxClaim has no valid step label: " +:+
                  suspensionObjectDescription claim) (invalidStep step)
  else if String.eqb cuid "" then
    unverified i ("managed SandboxClaim has no UID: " +:+ suspensionObjectDescription claim)
      (errorString "refuse to remove claim without UID")
  else
    MkInventory
      (inv_Claims i ++ [MkClaimWork claim cuid (mapGet labels LabelRun) step false []])
      (<[cuid := length (inv_Claims i)]> (inv_ClaimByUID i)) (inv_ClaimUIDs i)
      (inv_SandboxByName i) (inv_Sandboxes i) (inv_Report i).

(** ** Sandboxes *)

(** [claimWorkByUID[uid]] with its position. *)
Definition claimAt (i : Inventory) (cuid : string) : option (nat * ClaimWork) :=
  inv_ClaimByUID i !! cuid ≫= λ n, (λ c, (n, c)) <$> inv_Claims i !! n.

(** The managed claim that controls the sandbox. *)
Definition ownerClaimOf (i : Inventory) (sandbox : Object KSandbox) : option (nat * ClaimWork) :=
  head (omap (λ ref,
    if isController ref && String.eqb (owner_Kind ref) claimKind && ownerInGroup ref claimGroup
    then claimAt i (owner_UID ref) ≫= λ nc,
           if String.eqb (owner_Name ref) (obj_Name (cw_Object (snd nc))) then Some nc else None
    else None) (meta_OwnerReferences (obj_Meta sandbox))).

(** The identity of a sandbox without a managed claim: the inventory with what is
    recorded against it, and its run and step if it is to be cleaned up. *)
Definition ownIdentity (claimListErr : option error) (i : Inventory) (sandbox : Object KSandbox)
    : Inventory * option (string * string) :=
  let labels := obj_Labels sandbox in
  let step := mapGet labels LabelStep in
  let described := suspensionObjectDescription sandbox in
  let identity := (i, Some (mapGet labels LabelRun, step)) in
  if negb (suspensionUIDMatches labels uid) then (i, None)
  else if negb (suspensionStepAllowed step) then
    (unverified i ("managed Sandbox has no valid step label: " +:+ described) (invalidStep step), None)
  else
    match suspensionControllerOwnerReference (obj_Meta sandbox) claimGroup claimKind with
    | Some ref =>
        match claimListErr with
        | Some err =>
            (unverified i ("cannot validate SandboxClaim creation source for " +:+ described) err, None)
        | None =>
            if decide (owner_UID ref ∈ inv_ClaimUIDs i) then
              (unverified i ("managed Sandbox is still controlled by a claim without matching run/step identity: "
                             +:+ described)
                 (errorString ("claim UID " +:+ owner_UID ref +:+
                               " is not a validated run-owned SandboxClaim")), None)
            else identity
        end
    | None =>
        if suspensionHasAnyControllerOwner (obj_Meta sandbox)
           || suspensionHasOwnerKind (obj_Meta sandbox) claimKind then
          (unverified i ("managed Sandbox has an unvalidated creation owner: " +:+ described)
             (errorString "Sandbox controller owner is not a validated SandboxClaim"), None)
        else identity
    end.

(** The identity a sandbox takes from the claim that controls it. *)
Definition claimIdentity (i : Inventory) (n : nat) (c : ClaimWork) (sandbox : Object KSandbox)
    : Inventory * option (string * string) :=
  let labels := obj_Labels sandbox in
  let described := suspensionObjectDescription sandbox in
  if labelConflicts labels LabelRun (cw_RunUID c) then
    (unverified (blockClaim i n)
       ("Sandbox run label conflicts with its validated claim owner: " +:+ described)
       (errorString ("Sandbox belongs to run UID " +:+ Quote (mapGet labels LabelRun) +:+
                     ", claim belongs to " +:+ Quote (cw_RunUID c))), None)
  else if labelConflicts labels LabelStep (cw_Step c) then
    (unverified (blockClaim i n)
       ("Sandbox step label conflicts with its validated claim owner: " +:+ described)
       (errorString ("Sandbox step " +:+ Quote (mapGet labels LabelStep) +:+
                     " conflicts with claim step " +:+ Quote (cw_Step c))), None)
  else (i, Some (cw_RunUID c, cw_Step c)).

Definition attachTo (i : Inventory) (key : NamespacedName) (claim : option nat) : Inventory :=
  match claim with Some n => attach i key n | None => i end.

Definition classifySandbox (claimListErr : option error) (i : Inventory) (sandbox : Object KSandbox)
    : Inventory :=
  let owner := ownerClaimOf i sandbox in
  let '(i, identity) := match owner with
    | Some (n, c) => claimIdentity i n c sandbox
    | None => ownIdentity claimListErr i sandbox
    end in
  match identity with
  | None => i
  | Some (runUID, step) =>
      let key := obj_Key sandbox in
      let claim := fst <$> owner in
      match workAt (inv_Sandboxes i) key with
      | None => attachTo (putWork i key (newSandboxWork sandbox runUID step claim)) key claim
      | Some w =>
          if negb (String.eqb (sw_RunUID w) runUID) || negb (String.eqb (sw_Step w) step) then
            unverified (blockWork i key)
              ("Sandbox has conflicting managed identities: " +:+ suspensionObjectDescription sandbox)
              (errorString "conflicting run or step identity")
          else attachTo i key claim
      end
  end.

(** ** Pods

    A pod may be the only sign that its sandbox belongs to the run. *)

(** The claim behind the sandbox of a pod, if it may be trusted. *)
Definition podClaim (claimListErr : option error) (i : Inventory) (sandbox : Object KSandbox)
    (labels : gmap string string) : Inventory * option (option nat) :=
  let key := obj_Key sandbox in
  let described := suspensionObjectDescription sandbox in
  match suspensionControllerOwnerReference (obj_Meta sandbox) claimGroup claimKind with
  | Some ref =>
      match claimListErr with
      | Some err =>
          (unverified (blockWork i key)
             ("cannot validate SandboxClaim creation source for " +:+ described) err, None)
      | None =>
          if decide (owner_UID ref ∈ inv_ClaimUIDs i) then
            let refused :=
              (unverified (blockWork i key)
                 ("managed Pod's Sandbox has an unvalidated claim owner: " +:+ described)
                 (errorString ("claim owner UID " +:+ owner_UID ref +:+
                               " has no matching run/step identity")), None) in
            match claimAt i (owner_UID ref) with
            | Some (n, c) =>
                if String.eqb (cw_RunUID c) (mapGet labels LabelRun)
                   && String.eqb (cw_Step c) (mapGet labels LabelStep)
                   && String.eqb (obj_Name (cw_Object c)) (owner_Name ref)
                then (i, Some (Some n)) else refused
            | None => refused
            end
          else (i, Some None)
      end
  | None =>
      if suspensionHasAnyControllerOwner (obj_Meta sandbox)
         || suspensionHasOwnerKind (obj_Meta sandbox) claimKind then
        (unverified (blockWork i key)
           ("managed Sandbox has an unvalidated creation owner: " +:+ described)
           (errorString "Sandbox controller owner is not a validated SandboxClaim"), None)
      else (i, Some None)
  end.

(** [work.claim.uid != ownerClaim.uid] of two claims. *)
Definition otherClaim (i : Inventory) (claim : option nat) (n : nat) : bool :=
  match claim ≫= (λ c, inv_Claims i !! c), inv_Claims i !! n with
  | Some c, Some c' => negb (String.eqb (cw_UID c) (cw_UID c'))
  | _, _ => false
  end.

(** The sandbox of a pod joins the work, under the pod's identity. *)
Definition joinPodSandbox (i : Inventory) (pod : Object KPod) (sandbox : Object KSandbox)
    (claim : option nat) : Inventory :=
  let key := obj_Key sandbox in
  let runUID := mapGet (obj_Labels pod) LabelRun in
  let step := mapGet (obj_Labels pod) LabelStep in
  match workAt (inv_Sandboxes i) key with
  | None => attachTo (putWork i key (newSandboxWork sandbox runUID step claim)) key claim
  | Some w =>
      if negb (String.eqb (sw_RunUID w) runUID) || negb (String.eqb (sw_Step w) step) then
        unverified (blockWork i key)
          ("managed Pod identity conflicts with existing Sandbox identity: " +:+
           suspensionObjectDescription pod)
          (errorString "run UID or step labels conflict")
      else
        match claim with
        | None => i
        | Some n =>
            if otherClaim i (sw_Claim w) n then
              unverified (blockClaim (blockWork i key) n)
                ("Sandbox has conflicting claim owners: " +:+ suspensionObjectDescription sandbox)
                (errorString "claim UID ownership conflict")
            else attach i key n
        end
  end.

Definition classifyPod (claimListErr : option error) (i : Inventory) (pod : Object KPod) : Inventory :=
  let labels := obj_Labels pod in
  let described := suspensionObjectDescription pod in
  if negb (suspensionUIDMatches labels uid) || negb (suspensionStepAllowed (mapGet labels LabelStep))
  then i
  else
    match suspensionControllerOwnerReference (obj_Meta pod) sandboxGroup sandboxKindName with
    | None =>
        if suspensionHasControllerOwnerKind (obj_Meta pod) sandboxKindName then
          unverified i ("managed Pod has an invalid Sandbox owner reference: " +:+ described)
            (errorString "Sandbox owner reference API group or UID is invalid")
        else i
    | Some ref =>
        match inv_SandboxByName i !! owner_Name ref with
        | None => i
        | Some sandbox =>
            let key := obj_Key sandbox in
            if negb (String.eqb (obj_UID sandbox) (owner_UID ref))
               || negb (suspensionHasControllerOwner (obj_Meta pod) sandboxGroup sandboxKindName
                          (obj_Name sandbox) (obj_UID sandbox)) then
              unverified (blockWork i key)
                ("managed Pod does not validate its Sandbox owner: " +:+ described)
                (errorString ("Sandbox owner UID changed or does not match Pod owner UID " +:+
                              owner_UID ref))
            else if labelConflicts (obj_Labels sandbox) LabelRun (mapGet labels LabelRun)
                    || labelConflicts (obj_Labels sandbox) LabelStep (mapGet labels LabelStep) then
              unverified (blockWork i key)
                ("managed Pod identity conflicts with its Sandbox: " +:+ described)
                (errorString "run UID or step labels conflict")
            else
              match podClaim claimListErr i sandbox labels with
              | (i', None) => i'
              | (i', Some claim) => joinPodSandbox i' pod sandbox claim
              end
        end
    end.

(** ** The sandboxes claims refer to *)
Definition checkClaim (operatorNS : string) (sandboxListErr : option error) (i : Inventory)
    (n : nat) : Inventory :=
  match inv_Claims i !! n with
  | None => i
  | Some c =>
      let described := suspensionObjectDescription (cw_Object c) in
      let refuse message err := unverified (blockClaim i n) (message +:+ described) err in
      match sandboxListErr with
      | Some err =>
          refuse "cannot validate Sandbox descendants for "
            (wrapError "Sandbox inventory unavailable" err)
      | None =>
          match claim_StatusSandboxName (obj_Content (k := KSandboxClaim) (cw_Object c)) with
          | Err err => refuse "cannot read Sandbox reference from " err
          | Ok None => i
          | Ok (Some name) =>
              if String.eqb name "" then i
              else
                match inv_SandboxByName i !! name with
                | None =>
                    refuse "SandboxClaim references a missing Sandbox: "
                      (errorString ("referenced Sandbox " +:+ operatorNS +:+ "/" +:+ name +:+
                                    " is absent from authoritative inventory"))
                | Some sandbox =>
                    if negb (suspensionHasControllerOwner (obj_Meta sandbox) claimGroup claimKind
                               (obj_Name (cw_Object c)) (cw_UID c)) then
                      refuse "SandboxClaim references a Sandbox with an unvalidated owner: "
                        (errorString ("Sandbox " +:+ obj_Namespace sandbox +:+ "/" +:+
                           obj_Name sandbox +:+ " is not controlled by claim UID " +:+ cw_UID c))
                    else if decide (obj_Key sandbox ∈ cw_Sandboxes c) then i
                    else refuse "SandboxClaim's status Sandbox was not safely inventoried: "
                           (errorString "validated status Sandbox is not a managed cleanup candidate")
                end
          end
      end
  end.

(** ** The inventory of a pass *)
Definition errorOf {A} (r : res A) : option error :=
  match r with Ok _ => None | Err e => Some e end.
Definition itemsOf {A} (r : res (list A)) : list A := match r with Ok xs => xs | Err _ => [] end.

Definition initialInventory (sandboxes : list (Object KSandbox)) (r : Report) : Inventory :=
  MkInventory [] ∅ [] (fold_left (λ m o, <[obj_Name o := o]> m) sandboxes ∅) [] r.

(** [claimErr] and [sandboxErr] are the list errors that are left once an absent
    optional API is not one; the items are those the list calls returned. *)
Definition buildInventory (operatorNS : string) (pods : res (list (Object KPod)))
    (claims : list (Object KSandboxClaim)) (claimErr : option error)
    (sandboxes : list (Object KSandbox)) (sandboxErr : option error) (r : Report) : Inventory :=
  let guard {A} (e : option error) (xs : list A) : list A :=
    match e with None => xs | Some _ => [] end in
  let i0 := initialInventory (guard sandboxErr sandboxes) r in
  let i1 := fold_left classifyClaim (guard claimErr claims) i0 in
  let i2 := fold_left (classifySandbox claimErr) (guard sandboxErr sandboxes) i1 in
  let i3 := fold_left (classifyPod claimErr) (guard sandboxErr (itemsOf pods)) i2 in
  fold_left (checkClaim operatorNS sandboxErr)
    (guard claimErr (seq 0 (length (inv_Claims i3)))) i3.

(** ** The order of the sandboxes *)
Definition keyLe (a b : NamespacedName) : Prop :=
  if decide (nn_Namespace a = nn_Namespace b) then strLe (nn_Name a) (nn_Name b)
  else strLe (nn_Namespace a) (nn_Namespace b).
#[local] Instance keyLe_dec : RelDecision keyLe.
Proof. intros a b. unfold keyLe. destruct (decide _); apply _. Defined.

Definition sandboxWorkKeys (i : Inventory) : list NamespacedName :=
  merge_sort keyLe (map fst (inv_Sandboxes i)).
End Classify.

(** ** Reports *)

(** Nothing is pending, failed or in doubt. *)
Definition clean (r : Report) : Prop := Confirmed (rep_Summary r) = true.

(** A clean report has no operation errors. *)
Definition sound (r : Report) : Prop := clean r → rep_Errors r = [].

Lemma appendSuspensionMessage_ne messages message :
  (length (appendSuspensionMessage messages message) =? 0)%nat = false.
Proof.
  unfold appendSuspensionMessage. destruct (existsb _ messages) eqn:He.
  - destruct messages; [done|]. by apply Nat.eqb_neq.
  - rewrite length_app. cbn. apply Nat.eqb_neq. lia.
Qed.

Lemma unverified_unclean r message err : ¬ clean (recordSuspensionUnverified r message err).
Proof.
  unfold clean, Confirmed. cbn. rewrite appendSuspensionMessage_ne, andb_false_r. done.
Qed.

Lemma failure_unclean r message err : ¬ clean (recordSuspensionFailure r message err).
Proof.
  unfold clean, Confirmed. cbn. rewrite appendSuspensionMessage_ne, andb_false_r. done.
Qed.

Lemma pending_unclean r message : ¬ clean (recordSuspensionPending r message).
Proof. unfold clean, Confirmed. cbn. by rewrite appendSuspensionMessage_ne. Qed.

Lemma sound_unverified r message err : sound (recordSuspensionUnverified r message err).
Proof. by intros ?%unverified_unclean. Qed.
Lemma sound_failure r message err : sound (recordSuspensionFailure r message err).
Proof. by intros ?%failure_unclean. Qed.
Lemma sound_pending r message : sound (recordSuspensionPending r message).
Proof. by intros ?%pending_unclean. Qed.
Lemma sound_empty : sound emptyReport.
Proof. done. Qed.

Create HintDb reports discriminated.
#[export] Hint Resolve sound_unverified sound_failure sound_pending sound_empty : reports.

(** ** The work is the run's *)

(** A run UID of the pass: not empty, and the one asked for, if any. *)
Definition runOf (uid value : string) : Prop := value ≠ "" ∧ (uid = "" ∨ value = uid).

Lemma suspensionUIDMatches_runOf labels uid :
  suspensionUIDMatches labels uid = true ↔ runOf uid (mapGet labels LabelRun).
Proof.
  unfold suspensionUIDMatches, runOf.
  rewrite andb_true_iff, negb_true_iff, orb_true_iff, String.eqb_neq, !String.eqb_eq. done.
Qed.

Definition goodClaim (uid : string) (c : ClaimWork) : Prop :=
  suspensionUIDMatches (obj_Labels (cw_Object c)) uid = true ∧
  cw_RunUID c = mapGet (obj_Labels (cw_Object c)) LabelRun ∧
  cw_UID c = obj_UID (cw_Object c).

(** A sandbox is worked on under a run of the pass. *)
Definition goodWork (uid : string) (kw : NamespacedName * SandboxWork) : Prop :=
  runOf uid (sw_RunUID (snd kw)).

(** The claims are of the pass and come from [claims]; the sandboxes are too; and the
    report is sound. *)
Definition inventoryOk (uid : string) (claims : list (Object KSandboxClaim)) (i : Inventory)
    : Prop :=
  Forall (λ c, goodClaim uid c ∧ cw_Object c ∈ claims) (inv_Claims i) ∧
  Forall (goodWork uid) (inv_Sandboxes i) ∧ sound (inv_Report i).

Lemma workAt_elem works key w : workAt works key = Some w → ∃ k, (k, w) ∈ works.
Proof.
  induction works as [|[k w0] works IH]; cbn; [done|]. destruct (decide (k = key)).
  - intros [= ->]. exists k. left.
  - intros [k' ?]%IH. exists k'. by right.
Qed.

Lemma Forall_setWork P works key w :
  (∀ k, P (k, w)) → Forall P works → Forall P (setWork works key w).
Proof.
  intros Hw. induction 1 as [|[k w0] works Hk Hworks IH]; cbn; [by constructor|].
  destruct (decide (k = key)); constructor; auto.
Qed.

Section InventoryOk.
Context (uid : string) (claims : list (Object KSandboxClaim)).
Abbreviation ok := (inventoryOk uid claims).

Lemma ok_unverified i message err : ok i → ok (unverified i message err).
Proof. intros (H1 & H2 & _). split; [exact H1|]. split; [exact H2|]. apply sound_unverified. Qed.

Lemma ok_report i r : ok i → sound r → ok (withReport i r).
Proof. intros (H1 & H2 & _) Hr. split; [exact H1|]. by split. Qed.

Lemma ok_put i key w : ok i → runOf uid (sw_RunUID w) → ok (putWork i key w).
Proof. intros (H1 & H2 & H3) Hw. split; [exact H1|]. split; [by apply Forall_setWork|exact H3]. Qed.

Lemma ok_alter i f n :
  (∀ c, cw_Object (f c) = cw_Object c ∧ cw_RunUID (f c) = cw_RunUID c ∧ cw_UID (f c) = cw_UID c) →
  ok i → ok (withClaims i (alter f n (inv_Claims i))).
Proof.
  intros Hf (H1 & H2 & H3). split; [|by split]. cbn. apply Forall_alter; [exact H1|].
  intros c Hc [Hg Hin]. destruct (Hf c) as (Ho & Hr & Hu). unfold goodClaim.
  by rewrite Ho, Hr, Hu.
Qed.

Lemma ok_blockClaim i n : ok i → ok (blockClaim i n).
Proof. by apply ok_alter. Qed.

Lemma ok_blockClaimOf i n : ok i → ok (blockClaimOf i n).
Proof. destruct n; [apply ok_blockClaim|done]. Qed.

Lemma ok_work i key w : ok i → workAt (inv_Sandboxes i) key = Some w → runOf uid (sw_RunUID w).
Proof.
  intros (_ & H & _) [k Hin]%workAt_elem. rewrite Forall_forall in H. exact (H _ Hin).
Qed.

Lemma ok_blockWork i key : ok i → ok (blockWork i key).
Proof.
  intros Hi. unfold blockWork. destruct (workAt _ key) as [w|] eqn:Hw; [|done].
  apply ok_blockClaimOf, ok_put; [done|]. exact (ok_work _ _ _ Hi Hw).
Qed.

Lemma ok_attach i key n : ok i → ok (attach i key n).
Proof.
  intros Hi. unfold attach. destruct (workAt _ key) as [w|] eqn:Hw; [|done].
  apply ok_alter; [|apply ok_put; [done|exact (ok_work _ _ _ Hi Hw)]].
  intros c. by destruct (decide _).
Qed.

Lemma ok_attachTo i key n : ok i → ok (attachTo i key n).
Proof. destruct n; [apply ok_attach|done]. Qed.
End InventoryOk.

#[export] Hint Resolve ok_unverified ok_put ok_blockClaim ok_blockClaimOf ok_blockWork
  ok_attach ok_attachTo : reports.

Section ClassifyOk.
Context `{K : ApiMachinery} `{SUL : SuspensionLibs} (uid : string) (claims : list (Object KSandboxClaim)).
Abbreviation ok := (inventoryOk uid claims).

Lemma ok_claim i n c : ok i → inv_Claims i !! n = Some c → runOf uid (cw_RunUID c).
Proof.
  intros (H & _) Hn%list_elem_of_lookup_2. rewrite Forall_forall in H.
  destruct (H _ Hn) as ((Hm & -> & _) & _). by apply suspensionUIDMatches_runOf.
Qed.

Lemma classifyClaim_ok i claim : claim ∈ claims → ok i → ok (classifyClaim uid i claim).
Proof.
  intros Hin Hi. unfold classifyClaim. set (i' := if String.eqb _ _ then i else _).
  assert (Hi' : ok i') by (subst i'; by destruct (String.eqb _ _)). clearbody i'.
  destruct (suspensionUIDMatches _ _) eqn:Hm; [cbn [negb]|done].
  destruct (suspensionStepAllowed _); [cbn [negb]|by apply ok_unverified].
  destruct (String.eqb _ _); [by apply ok_unverified|].
  destruct Hi' as (H1 & H2 & H3). split; [|by split]. cbn. apply Forall_app_2; [exact H1|].
  repeat constructor; [exact Hm|exact Hin].
Qed.

Lemma claimAt_lookup i cuid n c : claimAt i cuid = Some (n, c) → inv_Claims i !! n = Some c.
Proof.
  unfold claimAt. intros (n' & _ & (c' & Hc & [= -> ->])%fmap_Some)%bind_Some. exact Hc.
Qed.

Lemma ownerClaimOf_lookup i sandbox n c :
  ownerClaimOf i sandbox = Some (n, c) → inv_Claims i !! n = Some c.
Proof.
  unfold ownerClaimOf. intros Hh%head_Some_elem_of. apply list_elem_of_omap in Hh as (ref & _ & Href).
  destruct (_ && _); [|done]. apply bind_Some in Href as ([n' c'] & Hat & Heq).
  destruct (String.eqb _ _); [|done]. injection Heq as -> ->. by eapply claimAt_lookup.
Qed.

Lemma claimIdentity_ok i n c sandbox i' id :
  ok i → inv_Claims i !! n = Some c → claimIdentity i n c sandbox = (i', id) →
  ok i' ∧ ∀ r s, id = Some (r, s) → runOf uid r.
Proof.
  intros Hi Hn. unfold claimIdentity.
  repeat destruct (labelConflicts _ _ _); intros [= <- <-];
    (split; [auto with reports|]); try done.
  intros r s [= <- _]. exact (ok_claim _ _ _ Hi Hn).
Qed.

Lemma ownIdentity_ok claimErr i sandbox i' id :
  ok i → ownIdentity uid claimErr i sandbox = (i', id) →
  ok i' ∧ ∀ r s, id = Some (r, s) → runOf uid r.
Proof.
  intros Hi. unfold ownIdentity.
  destruct (suspensionUIDMatches _ _) eqn:Hm; cbn [negb]; [|by intros [= <- <-]].
  apply suspensionUIDMatches_runOf in Hm.
  repeat case_match; intros [= <- <-]; (split; [auto with reports|]);
    try done; by intros r s [= <- _].
Qed.

Lemma classifySandbox_ok claimErr i sandbox : ok i → ok (classifySandbox uid claimErr i sandbox).
Proof.
  intros Hi. unfold classifySandbox.
  destruct (ownerClaimOf _ _) as [[n c]|] eqn:Ho;
    [destruct (claimIdentity _ _ _ _) as [i' id] eqn:Hid; apply claimIdentity_ok in Hid;
       [|done|by eapply ownerClaimOf_lookup]
    |destruct (ownIdentity _ _ _ _) as [i' id] eqn:Hid; apply ownIdentity_ok in Hid; [|done]];
    destruct Hid as [Hi' Hrun];
    (destruct id as [[r s]|]; [|done]); specialize (Hrun r s eq_refl);
    (destruct (workAt _ _) as [w|] eqn:Hw; [destruct (_ || _)|]); auto with reports.
Qed.

Lemma podClaim_ok claimErr i sandbox labels i' out :
  ok i → podClaim claimErr i sandbox labels = (i', out) → ok i'.
Proof.
  intros Hi. unfold podClaim. repeat case_match; intros [= <- <-]; auto with reports.
Qed.

Lemma joinPodSandbox_ok i pod sandbox claim :
  suspensionUIDMatches (obj_Labels pod) uid = true → ok i → ok (joinPodSandbox i pod sandbox claim).
Proof.
  intros Hm%suspensionUIDMatches_runOf Hi. unfold joinPodSandbox.
  repeat case_match; auto with reports.
Qed.

Lemma classifyPod_ok claimErr i pod : ok i → ok (classifyPod uid claimErr i pod).
Proof.
  intros Hi. unfold classifyPod.
  destruct (suspensionUIDMatches _ _) eqn:Hm; [|done].
  destruct (suspensionStepAllowed _); [cbn|done].
  destruct (suspensionControllerOwnerReference _ _ _) as [ref|];
    [|case_match; auto with reports].
  destruct (_ !! _) as [sandbox|]; [|done].
  do 2 (destruct (_ || _); [auto with reports|]).
  destruct (podClaim _ _ _ _) as [i' [claim|]] eqn:Hp; apply podClaim_ok in Hp; try done.
  by apply joinPodSandbox_ok.
Qed.

Lemma checkClaim_ok ns sandboxErr i n : ok i → ok (checkClaim ns sandboxErr i n).
Proof. intros Hi. unfold checkClaim. repeat case_match; auto with reports. Qed.
End ClassifyOk.

(** The inventory a pass works on: every claim is a listed one and carries the label
    of the run, and every sandbox is worked on under a run of the pass. *)
Lemma buildInventory_ok `{K : ApiMachinery} `{SUL : SuspensionLibs} uid ns pods claims claimErr
    sandboxes sandboxErr r :
  sound r →
  inventoryOk uid claims (buildInventory uid ns pods claims claimErr sandboxes sandboxErr r).
Proof.
  intros Hr. unfold buildInventory.
  assert (Hfold : ∀ {A} (f : Inventory → A → Inventory) xs i, inventoryOk uid claims i →
    (∀ x i, x ∈ xs → inventoryOk uid claims i → inventoryOk uid claims (f i x)) →
    inventoryOk uid claims (fold_left f xs i)).
  { intros A f xs. induction xs as [|x xs IH]; intros i Hi Hf; cbn; [done|].
    apply IH; [apply Hf; [by left|done]|]. intros y i' Hy. apply Hf. by right. }
  apply Hfold; [apply Hfold; [apply Hfold; [apply Hfold; [by repeat constructor|]|]|]|].
  - intros c i Hc. apply classifyClaim_ok. destruct claimErr; [by apply not_elem_of_nil in Hc|done].
  - intros s i _. apply classifySandbox_ok.
  - intros p i _. apply classifyPod_ok.
  - intros n i _. apply checkClaim_ok.
Qed.
