(* ===== verification/Identity.v ===== *)
(** What the sandbox manager creates, the suspension cleanup recognises: the names and
    labels of the objects of a step are read back as this step of this run, and every
    object [Create] makes on the hub is one that the cleanup manages, or one that is
    owned by the run and collected with it. *)
From stdpp Require Import base list option strings gmap.
From Stdlib Require Import ZArith Lia.
From S2P Require Import Prelude GoText Crypto Json ApiMachinery Types Objects Phase Effects.
From S2P Require Import Approval Resolve PodSpecBuilder Results Helpers InputConfigMap Rbac Spoke.
From S2P Require Import SandboxManager SuspensionInventory.

Local Open Scope string_scope.
Local Open Scope list_scope.
Local Open Scope prog_scope.

(** ** Labels *)
Lemma mapGet_insert (m : gmap string string) k v k' :
  mapGet (<[k := v]> m) k' = if decide (k = k') then v else mapGet m k'.
Proof. unfold mapGet. rewrite lookup_insert. by case_decide. Qed.

Lemma mapGet_singleton k v k' :
  mapGet ({[k := v]} : gmap string string) k' = if decide (k = k') then v else "".
Proof. unfold mapGet. rewrite lookup_singleton. by case_decide. Qed.

(** Labels that are written out are read. *)
Ltac read_labels :=
  rewrite ?mapGet_insert, ?mapGet_singleton;
  repeat (first [rewrite decide_True by reflexivity | rewrite decide_False by discriminate]).

Lemma rbacLabels_run uid c : mapGet (rbacLabels uid c) LabelRun = uid.
Proof. unfold rbacLabels. by read_labels. Qed.
Lemma rbacLabels_component uid c : mapGet (rbacLabels uid c) LabelComponent = c.
Proof. unfold rbacLabels. by read_labels. Qed.
Lemma rbacLabels_step uid c : mapGet (rbacLabels uid c) LabelStep = "".
Proof. unfold rbacLabels. by read_labels. Qed.

Lemma noConflict labels key value : mapGet labels key = "" → labelConflicts labels key value = false.
Proof. unfold labelConflicts. by intros ->. Qed.

Lemma matchesOwn labels uid : mapGet labels LabelRun = uid → uid ≠ "" → suspensionUIDMatches labels uid = true.
Proof.
  unfold suspensionUIDMatches. intros -> Hn. rewrite String.eqb_refl, orb_true_r, andb_true_r.
  by apply negb_true_iff, String.eqb_neq.
Qed.

Lemma matchesOther labels uid uid' :
  mapGet labels LabelRun = uid → uid' ≠ "" → uid' ≠ uid → suspensionUIDMatches labels uid' = false.
Proof.
  unfold suspensionUIDMatches. intros -> Hn Hd. rewrite (proj2 (String.eqb_neq uid' "")) by done.
  rewrite (proj2 (String.eqb_neq uid uid')) by done. apply andb_false_r.
Qed.

(** ** Names *)
Lemma truncate_short name : (String.length name ≤ 63)%nat → truncateK8sName name = name.
Proof. unfold truncateK8sName. intros H. by rewrite (proj2 (Nat.ltb_ge _ _) H). Qed.

(** The name of the Secret of a UID that is not longer than those of Kubernetes. *)
Lemma secretName_short uid step :
  (String.length uid ≤ 36)%nat → step ∈ suspensionSteps →
  sandboxKubeconfigSecretName uid step = sandboxKubeconfigPrefix +:+ stepAbbrev step +:+ "-" +:+ uid.
Proof.
  intros Hl Hs. unfold sandboxKubeconfigSecretName. apply truncate_short.
  rewrite !string_length_app.
  assert (String.length (stepAbbrev step) = 3%nat) as ->.
  { unfold suspensionSteps in Hs. rewrite !elem_of_cons, elem_of_nil in Hs.
    by destruct Hs as [->|[->|[->|[->|[]]]]]. }
  cbn. lia.
Qed.

(** The allowed steps, one by one. *)
Ltac each_step H :=
  unfold suspensionSteps in H; rewrite !elem_of_cons, elem_of_nil in H;
  destruct H as [->|[->|[->|[->|[]]]]].

Lemma step_allowed step : step ∈ suspensionSteps → suspensionStepAllowed step = true.
Proof. intros H. each_step H; reflexivity. Qed.

Lemma accountComponent_step step : step ∈ suspensionSteps → accountComponentStep (step +:+ "-sa") = Some step.
Proof. intros H. each_step H; reflexivity. Qed.

Lemma accountStep_own uid step :
  uid ≠ "" → step ∈ suspensionSteps →
  suspensionServiceAccountStep (rbacLabels uid (step +:+ "-sa")) uid = (step, true, true).
Proof.
  intros Hu Hs. unfold suspensionServiceAccountStep.
  rewrite (matchesOwn _ uid) by (done || apply rbacLabels_run).
  rewrite rbacLabels_component, accountComponent_step, step_allowed by done.
  by rewrite noConflict by apply rbacLabels_step.
Qed.

Lemma executionStep_own uid name :
  uid ≠ "" → suspensionRBACStep (rbacLabels uid "execution-rbac") name uid = ("execution", true, true).
Proof.
  intros Hu. unfold suspensionRBACStep. rewrite (matchesOwn _ uid) by (done || apply rbacLabels_run).
  rewrite rbacLabels_component. cbn -[labelConflicts]. by rewrite noConflict by apply rbacLabels_step.
Qed.

Lemma find_own (f : string → string) step :
  step ∈ suspensionSteps → (∀ step', step' ∈ suspensionSteps → f step = f step' → step = step') →
  List.find (λ step', String.eqb (f step) (f step')) suspensionSteps = Some step.
Proof.
  intros Hs Hf. assert (∀ l, step ∈ l → (∀ s, s ∈ l → f step = f s → step = s) →
    List.find (λ step', String.eqb (f step) (f step')) l = Some step) as Hg; [|by apply Hg].
  induction l as [|s l IH]; [by intros ?%not_elem_of_nil|]. intros Hin Hl. cbn.
  destruct (String.eqb_spec (f step) (f s)) as [He|He].
  - f_equal. symmetry. apply Hl; [left|done].
  - apply elem_of_cons in Hin as [->|Hin]; [done|]. apply IH; [done|]. intros s' H'. apply Hl. by right.
Qed.

Lemma resultRoleName_inj uid step step' :
  step ∈ suspensionSteps → step' ∈ suspensionSteps →
  resultRoleName uid step = resultRoleName uid step' → step = step'.
Proof. intros H H'. each_step H; each_step H'; by intros. Qed.

Lemma secretName_inj uid step step' :
  (String.length uid ≤ 36)%nat → step ∈ suspensionSteps → step' ∈ suspensionSteps →
  sandboxKubeconfigSecretName uid step = sandboxKubeconfigSecretName uid step' → step = step'.
Proof.
  intros Hl H H'. rewrite !secretName_short by done. each_step H; each_step H'; by intros.
Qed.

Lemma resultStep_own uid step :
  uid ≠ "" → step ∈ suspensionSteps →
  suspensionRBACStep (rbacLabels uid "result-rbac") (resultRoleName uid step) uid = (step, true, true).
Proof.
  intros Hu Hs. unfold suspensionRBACStep. rewrite (matchesOwn _ uid) by (done || apply rbacLabels_run).
  rewrite rbacLabels_component, rbacLabels_run. cbn -[labelConflicts List.find].
  rewrite (find_own (resultRoleName uid)) by eauto using resultRoleName_inj.
  by rewrite noConflict by apply rbacLabels_step.
Qed.

Lemma credentialStep_own uid step :
  (String.length uid ≤ 36)%nat → step ∈ suspensionSteps →
  suspensionCredentialStep (sandboxKubeconfigSecretName uid step) uid = step.
Proof.
  intros Hl Hs. unfold suspensionCredentialStep.
  by rewrite (find_own (sandboxKubeconfigSecretName uid)) by eauto using secretName_inj.
Qed.

(** C33: identities survive the round trip through the cluster.  For a UID of
    Kubernetes (not empty, at most 36 characters), the labels and names the sandbox
    manager gives the account, the result role, the execution role and the kubeconfig
    Secret of a step are parsed back by the suspension cleanup as this step of this
    run, and by no cleanup of another run; and no two steps of a run share the name of
    a result role or of a Secret. *)
Theorem identity_roundtrip uid step :
  uid ≠ "" → (String.length uid ≤ 36)%nat → step ∈ suspensionSteps →
  suspensionServiceAccountStep (rbacLabels uid (step +:+ "-sa")) uid = (step, true, true) ∧
  suspensionRBACStep (rbacLabels uid "result-rbac") (resultRoleName uid step) uid = (step, true, true) ∧
  (∀ name, suspensionRBACStep (rbacLabels uid "execution-rbac") name uid = ("execution", true, true)) ∧
  suspensionCredentialStep (sandboxKubeconfigSecretName uid step) uid = step ∧
  (∀ uid' component, uid' ≠ "" → uid' ≠ uid →
     suspensionUIDMatches (rbacLabels uid component) uid' = false) ∧
  ∀ step', step' ∈ suspensionSteps →
    resultRoleName uid step = resultRoleName uid step' ∨
    sandboxKubeconfigSecretName uid step = sandboxKubeconfigSecretName uid step' → step = step'.
Proof.
  intros Hu Hl Hs. split_and!.
  - by apply accountStep_own.
  - by apply resultStep_own.
  - intros name. by apply executionStep_own.
  - by apply credentialStep_own.
  - intros uid' component Hn Hd. by apply (matchesOther _ uid), Hd; [apply rbacLabels_run|].
  - intros step' Hs' [H|H]; [by eapply resultRoleName_inj|by eapply secretName_inj].
Qed.

(** ** Recognised objects *)

(** What the cleanup of the run [uid] does with an object: it manages it; input
    configuration maps and templates, which it leaves alone, are owned by the run. *)
Definition recognised `{K : ApiMachinery} (uid ns : string) {k} (o : Object k) : Prop :=
  match k return Object k → Prop with
  | KPod => λ o, judgeLabelled uid "" o = Manage
  | KSandboxClaim => λ o, judgeLabelled uid "" o = Manage
  | KSandboxWarmPool => λ o, judgePool uid Deleting o = Manage
  | KServiceAccount => λ o, judgeAccount uid Deleting o = Manage
  | KRole => λ o, judgeNamespaced uid Deleting ns "Role" o = Manage
  | KRoleBinding => λ o, judgeNamespaced uid Deleting ns "RoleBinding" o = Manage
  | KClusterRole => λ o, judgeClusterRole uid Deleting o = Manage
  | KClusterRoleBinding => λ o, judgeClusterRoleBinding uid Deleting o = Manage
  | KSecret => λ o, judgeSecret uid Deleting o = Manage
  | KConfigMap | KSandboxTemplate => λ o, ∃ ref, ref ∈ meta_OwnerReferences (obj_Meta o) ∧
      owner_Kind ref = "AgenticRun" ∧ owner_UID ref = uid
  | KSandbox | KCustomResourceDefinition => λ _, False
  end o.

(** A creation on the hub is of a recognised object. *)
Definition recognises `{K : ApiMachinery} (uid ns : string) (ev : event answer) : Prop :=
  match ev with
  | Ev (ObjCreate c k o) _ => c = HubClient → recognised uid ns o
  | _ => True
  end.

Section Recognised.
Context `{K : ApiMachinery} (uid ns : string) (Huid : uid ≠ "").
Context (step : string) (Hstep : step ∈ suspensionSteps).

Lemma rec_labelled {k} message (o : Object k) :
  mapGet (obj_Labels o) LabelRun = uid → mapGet (obj_Labels o) LabelStep = step →
  judgeLabelled uid message o = Manage.
Proof.
  intros Hr Hs. unfold judgeLabelled. by rewrite (matchesOwn _ uid), Hs, step_allowed.
Qed.

Lemma rec_account (o : Object KServiceAccount) :
  obj_Labels o = rbacLabels uid (step +:+ "-sa") → judgeAccount uid Deleting o = Manage.
Proof. intros Hl. unfold judgeAccount. by rewrite Hl, accountStep_own. Qed.

Lemma rec_reader (o : Object KClusterRoleBinding) :
  mapGet (obj_Labels o) LabelRun = uid → mapGet (obj_Labels o) LabelStep = step →
  mapGet (obj_Labels o) LabelComponent = "reader-rbac" →
  judgeClusterRoleBinding uid Deleting o = Manage.
Proof.
  intros Hr Hs Hc. unfold judgeClusterRoleBinding.
  rewrite (matchesOwn _ uid), Hc, Hs by done. cbn -[suspensionStepAllowed].
  by rewrite step_allowed by done.
Qed.

Lemma rec_execution {k} what (o : Object k) :
  obj_Labels o = rbacLabels uid "execution-rbac" → judgeNamespaced uid Deleting ns what o = Manage.
Proof.
  intros Hl. unfold judgeNamespaced. by rewrite Hl, executionStep_own, rbacLabels_component.
Qed.

Lemma rec_result {k} what (o : Object k) :
  obj_Labels o = rbacLabels uid "result-rbac" → obj_Name o = resultRoleName uid step →
  obj_Namespace o = ns → judgeNamespaced uid Deleting ns what o = Manage.
Proof.
  intros Hl Hn Hns. unfold judgeNamespaced.
  by rewrite Hl, Hn, Hns, resultStep_own, rbacLabels_component, !String.eqb_refl.
Qed.

Lemma rec_clusterRole (o : Object KClusterRole) :
  obj_Labels o = rbacLabels uid "execution-rbac" → judgeClusterRole uid Deleting o = Manage.
Proof.
  intros Hl. unfold judgeClusterRole. rewrite Hl, executionStep_own, rbacLabels_component by done.
  by rewrite andb_false_r.
Qed.

Lemma rec_clusterBinding (o : Object KClusterRoleBinding) :
  obj_Labels o = rbacLabels uid "execution-rbac" → judgeClusterRoleBinding uid Deleting o = Manage.
Proof.
  intros Hl. unfold judgeClusterRoleBinding.
  rewrite Hl, (matchesOwn _ uid), rbacLabels_component by (done || apply rbacLabels_run).
  cbn -[labelConflicts]. by rewrite noConflict by apply rbacLabels_step.
Qed.

Lemma rec_secret (o : Object KSecret) :
  (String.length uid ≤ 36)%nat → obj_Labels o = rbacLabels uid "sandbox-kubeconfig" →
  obj_Name o = sandboxKubeconfigSecretName uid step → judgeSecret uid Deleting o = Manage.
Proof.
  intros Hu Hl Hn. unfold judgeSecret.
  rewrite Hl, Hn, (matchesOwn _ uid), rbacLabels_component, rbacLabels_run, credentialStep_own
    by (done || apply rbacLabels_run).
  rewrite step_allowed by done. by rewrite noConflict by apply rbacLabels_step.
Qed.
End Recognised.

Lemma withExtra_none labels : withExtra ∅ labels = labels.
Proof. apply map_empty_union. Qed.

(** ** The parts of a creation *)
#[local] Opaque withExtra rbacLabels.
Section Parts.
Context `{K : ApiMachinery} `{CC : ClientCmd} `{RJ : RawJSON} `{RE : Rendering} `{SL : SandboxLibs}.
Context (m : SandboxManager) (run : AgenticRun) (step : string).
Context (Huid : run_UID run ≠ "") (Hlen : (String.length (run_UID run) ≤ 36)%nat).
Context (Hstep : step ∈ suspensionSteps).
Abbreviation recOnly := (emits (recognises (run_UID run) (sm_Namespace m))).

(** A creation of a kind with a lemma above; one through the client of a spoke. *)
Ltac rec_leaf :=
  match goal with
  | |- True => exact I
  | |- HubClient = HubClient → recognised _ _ ?o =>
      intros _; cbn [recognised];
      lazymatch goal with
      | |- judgeAccount _ _ _ = _ => by apply (rec_account _ Huid step Hstep)
      | |- judgeSecret _ _ _ = _ => by apply (rec_secret _ Huid step Hstep)
      | |- judgeClusterRole _ _ _ = _ => apply rec_clusterRole; [done|exact (withExtra_none _)]
      | |- judgeClusterRoleBinding _ _ (readerBinding _ _ _ _ _) = _ =>
          apply (rec_reader _ Huid step Hstep); unfold obj_Labels; cbn; by read_labels
      | |- judgeClusterRoleBinding _ _ _ = _ =>
          apply rec_clusterBinding; [done|exact (withExtra_none _)]
      | |- judgeNamespaced _ _ _ _ _ = _ =>
          first [ by apply (rec_result _ _ Huid step Hstep)
                | apply rec_execution; [done|exact (withExtra_none _)] ]
      | |- _ = Manage =>
          apply (rec_labelled _ Huid step Hstep); unfold obj_Labels; cbn; unfold sandboxLabels;
          by read_labels
      | |- ∃ _, _ => by eexists; split; [left|split]
      end
  | |- _ = HubClient → _ => intros ?; exfalso; congruence
  end.

Ltac rec_walk := repeat (first [apply emits_onErr; intros | apply emits_untilError; intros
                               | emits_walk ltac:(cbn [recognises]; rec_leaf)]).

Lemma deleteIfExists_rec c k key : recOnly (deleteIfExists c k key).
Proof. unfold deleteIfExists. rec_walk. Qed.

Lemma addReaderSubject_rec sa ns : recOnly (addReaderSubject HubClient (run_UID run) step sa ns).
Proof.
  unfold addReaderSubject, resolveReaderBindings, discoverReaderBindings,
    addReaderSubjectForBindings, addReaderBinding, cleanupCreated. rec_walk.
Qed.

Lemma addReaderSubjectOnSpoke_rec c sa ns extra :
  c ≠ HubClient → recOnly (addReaderSubjectOnSpoke c (run_UID run) step sa ns extra).
Proof.
  intros Hc. unfold addReaderSubjectOnSpoke, cleanupCreatedCRBs.
  apply emits_forEach; [intros [i name] created _|intros; apply emits_ret].
  repeat (first [apply deleteIfExists_rec | rec_walk]).
Qed.

Context (spoke : option SpokeAccess) (Hspoke : ∀ s, spoke = Some s → sa_Client s ≠ HubClient).

Lemma ensureAccess_rec : recOnly (ensureAccess m run step spoke).
Proof.
  unfold ensureAccess, ensureSA, accountWith, createAccount, ensureSandboxKubeconfig,
    requestSpokeToken.
  destruct spoke as [s|]; [pose proof (Hspoke s eq_refl) as Hs|];
    repeat (first [apply addReaderSubject_rec | by apply addReaderSubjectOnSpoke_rec | rec_walk]).
Qed.

Lemma grantExecution_rec agentCtx : recOnly (grantExecution m run step spoke agentCtx).
Proof.
  unfold grantExecution. destruct (grantedRules step agentCtx) as [rbac|]; [|apply emits_ret].
  unfold ensureExecutionRBAC, ensureNamespaceRBAC, ensureClusterRBAC, createIfMissing.
  destruct spoke as [s|]; [pose proof (Hspoke s eq_refl) as Hs|]; rec_walk.
Qed.

Lemma ensureResultRBAC_rec sa : recOnly (ensureResultRBAC HubClient run step sa (sm_Namespace m)).
Proof. unfold ensureResultRBAC, createIfMissing. rec_walk. Qed.

Lemma buildInputConfigMap_owner ns agent schema agentCtx cm :
  buildInputConfigMap ns run step agent schema agentCtx = Ok cm →
  meta_OwnerReferences (obj_Meta cm) = [agenticRunOwnerRef run].
Proof.
  unfold buildInputConfigMap. destruct (contextJson _); [|done].
  destruct (buildResultTemplate _ _ _); [|done]. destruct (resolvePrompts _ _ _ _ _) as [[]|]; [|done].
  by intros [= <-].
Qed.

Lemma buildWorkload_rec cfg agent llm tools deadline agentCtx :
  recOnly (buildWorkload m cfg run step agent llm tools deadline agentCtx spoke).
Proof.
  unfold buildWorkload. destruct (buildInputConfigMap _ _ _ _ _ _) as [cm|] eqn:Hcm;
    [|apply emits_ret].
  apply buildInputConfigMap_owner in Hcm. unfold createInputConfigMap, spanEvent.
  repeat (first [apply ensureResultRBAC_rec | apply emits_onErr; intros
    | emits_walk ltac:(cbn [recognises]; first [rec_leaf | intros _; cbn [recognised]; rewrite Hcm; by eexists; split; [left|split]])]).
Qed.

Lemma waitTurns_rec n key timeout deadline : recOnly (waitTurns n key timeout deadline).
Proof. induction n; cbn [waitTurns]; rec_walk. Qed.

Lemma createWorkload_rec cfg podSpec : recOnly (createWorkload m cfg run step podSpec).
Proof.
  unfold createWorkload, createSandboxClaim, ensureClaimTemplate, createClaim, createBarePod,
    recreatePod, existingPod, waitForPodDeletion, requireRunnableRun, readRunnableRun, createIfMissing.
  repeat (first [apply waitTurns_rec | rec_walk]).
Qed.

Lemma adoptDependents_rec sa owner : recOnly (adoptDependents m run step sa spoke owner).
Proof.
  unfold adoptDependents, setInputConfigMapOwner, setResultRBACOwner, setSAOwner, patchOwners. rec_walk.
Qed.

Lemma cleanupOnCreateFailure_rec run' sa : recOnly (cleanupOnCreateFailure m run' step sa spoke).
Proof.
  unfold cleanupOnCreateFailure, cleanupStepRBAC, removeReaderSubjectOnSpoke, removeReaderSubject,
    cleanupExecutionRBAC, cleanupNamespaceRBAC, deleteReader.
  repeat (first [apply deleteIfExists_rec | rec_walk]).
Qed.
End Parts.

(** ** The whole creation *)
Section Creation.
Context `{K : ApiMachinery} `{CC : ClientCmd} `{RJ : RawJSON} `{RE : Rendering} `{SL : SandboxLibs}.
Context (m : SandboxManager) (step : string) (Hstep : step ∈ suspensionSteps).
Abbreviation recognisedIn uid := (Forall (recognises uid (sm_Namespace m))).

Lemma setupSandbox_rec cfg run agent llm tools deadline agentCtx spoke tr out :
  run_UID run ≠ "" → (String.length (run_UID run) ≤ 36)%nat → resolvedSpoke run spoke →
  runs (setupSandbox m cfg run step agent llm tools deadline agentCtx spoke) tr out →
  keepsIdentity tr → recognisedIn (run_UID run) tr.
Proof.
  intros Huid Hlen Hres.
  assert (Hsp : ∀ s, spoke = Some s → sa_Client s ≠ HubClient) by (by intros s ->).
  unfold setupSandbox, spanEvent. intros (t1 & e1 & t2 & -> & H1 & H)%runs_bind Hk.
  apply Forall_app. split; [by eapply ensureAccess_rec|]. apply keepsIdentity_app in Hk as [_ Hk].
  destruct e1 as [err|]; unfold onErr at 1 in H; [by apply runs_ret in H as [-> _]|].
  run_call H u. constructor; [done|].
  apply runs_bind in H as (t3 & [run' e2] & t4 & -> & H2 & H).
  apply (keepsIdentity_app [_]) in Hk as [_ [Hk3 _]%keepsIdentity_app].
  pose proof (grantExecution_run m _ _ _ _ _ _ _ H2 Hk3) as [Hu _].
  apply Forall_app. split; [by eapply grantExecution_rec|].
  destruct e2 as [err|]; unfold onErr at 1 in H; [by apply runs_ret in H as [-> _]|].
  rewrite <- Hu in *. clear H1 H2 Hk3.
  apply runs_bind in H as (t5 & built & t6 & -> & H3 & H). apply Forall_app. split.
  { apply (emits_run _ _ _ _ H3). by apply buildWorkload_rec. }
  destruct built as [podSpec|err]; [|by apply runs_ret in H as [-> _]].
  apply runs_bind in H as (t7 & made & t8 & -> & H4 & H). apply Forall_app. split.
  { apply (emits_run _ _ _ _ H4). by apply createWorkload_rec. }
  destruct made as [[name owner]|err]; [|by apply runs_ret in H as [-> _]].
  run_call H u2. constructor; [done|].
  apply runs_bind in H as (t9 & e & t10 & -> & H5 & [-> _]%runs_ret). rewrite app_nil_r.
  apply (emits_run _ _ _ _ H5). by apply adoptDependents_rec.
Qed.

Lemma reads_rec uid tr : Forall (λ ev, touchesObject ev = false) tr → recognisedIn uid tr.
Proof. intros H. eapply Forall_impl; [exact H|]. by intros [[] a]. Qed.

(** C8: nothing the operator creates escapes the cleanup.  Whatever the API server
    answers, every object that [Create] makes on the hub for a step of a run is one
    that the suspension cleanup of this run recognises and manages (pods, claims, warm
    pools, accounts, roles, bindings, Secrets), or, for the input and the template it
    leaves alone, one that is owned by the run. *)
Theorem Create_recognised run agent llm tools deadline agentCtx tr name e :
  run_UID run ≠ "" → (String.length (run_UID run) ≤ 36)%nat →
  runs (Create m run step agent llm tools deadline agentCtx) tr (name, e) → keepsIdentity tr →
  ∀ k (o : Object k) ans,
    Ev (ObjCreate HubClient k o) ans ∈ tr → recognised (run_UID run) (sm_Namespace m) o.
Proof.
  intros Huid Hlen H Hk k o ans Hin.
  enough (Hall : recognisedIn (run_UID run) tr)
    by (rewrite Forall_forall in Hall; by apply (Hall _ Hin)).
  apply Create_run in H as [(_ & _ & Hr)|(cfg & current & pre & spoke & setup & out & clean & rest &
    -> & Hu & Hpre & Hrest & Hsp & Hs & _ & _ & Hc)]; [by apply reads_rec|].
  apply keepsIdentity_app in Hk as [_ [Hk _]%keepsIdentity_app]. rewrite <- Hu in *.
  rewrite !Forall_app. split_and!; [by apply reads_rec| | |by apply reads_rec].
  - by eapply setupSandbox_rec.
  - destruct (cr_Cleanup out); [|by subst clean]. run_call Hc x. constructor; [done|].
    apply (emits_run _ _ _ _ Hc). eapply cleanupOnCreateFailure_rec; eauto. by intros s ->.
Qed.
End Creation.
