(* ===== verification/SuspensionCleanup.v ===== *)
(** One cleanup pass of a suspension ([CleanupSuspension] of
    [controller/agenticrun/suspension_cleanup.go]): the inventory, the deletions
    and the second look that decides whether nothing is left. *)
From stdpp Require Import base list option strings gmap.
From Stdlib Require Import ZArith Lia.
From S2P Require Import Prelude GoText Crypto Json ApiMachinery Types Objects Phase Effects.
From S2P Require Import Approval Resolve Results Helpers Rbac Spoke SandboxManager Suspension.
From S2P Require Import SuspensionInventory.

Local Open Scope string_scope.
Local Open Scope list_scope.
Local Open Scope prog_scope.

Section Cleanup.
Context `{K : ApiMachinery} `{SUL : SuspensionLibs}.
Context (m : SandboxManager).

(** ** Deletions, bound to a UID *)
Definition deleteWithUIDPrecondition {k} (o : Object k) (zeroGrace orphan : bool)
    : M (option error) :=
  let uid := obj_UID o in
  if String.eqb uid "" then
    Ret (Some (errorString ("refuse suspension delete without UID: " +:+ goTypeName k +:+ " " +:+
                            obj_Namespace o +:+ "/" +:+ obj_Name o)))
  else
    e <- call (ObjDelete HubClient k (obj_Key o) (MkDeleteOptions zeroGrace (Some uid) orphan)) ;;
    Ret match e with
        | Some err => if IsNotFound err then None
                      else Some (wrapError ("delete " +:+ suspensionObjectDescription o) err)
        | None => None
        end.

Definition deleteSuspensionObject {k} (o : Object k) (orphan : bool) (r : Report)
    : M (bool * Report) :=
  e <- deleteWithUIDPrecondition o false orphan ;;
  Ret match e with
      | Some err => (false, recordSuspensionFailure r
                       ("delete suspension resource " +:+ suspensionObjectDescription o) err)
      | None => (true, r)
      end.

(** ** Identity labels

    The object as it was last read, and the error. *)
Definition patchRunIdentityLabels {k} (o : Object k) (expectedUID runUID step : string)
    : M (Object k * option error) :=
  let bad (o : Object k) (err : error) : M (Object k * option error) := Ret (o, Some err) in
  if String.eqb expectedUID "" || String.eqb runUID "" || negb (suspensionStepAllowed step) then
    bad o (errorString "invalid suspension identity")
  else if negb (sm_Reader m) then
    bad o (errorString "uncached API reader is required to persist suspension identity")
  else
    got <- call (ObjGet HubReader k (obj_Key o)) ;;
    match got with
    | Err err => bad o err
    | Ok o =>
        let labels := obj_Labels o in
        if negb (String.eqb (obj_UID o) expectedUID) then
          bad o (errorString ("object UID changed before suspension identity patch: expected " +:+
                              expectedUID +:+ ", got " +:+ obj_UID o))
        else if labelConflicts labels LabelRun runUID then
          bad o (errorString ("object belongs to another run UID " +:+ mapGet labels LabelRun))
        else if labelConflicts labels LabelStep step then
          bad o (errorString ("object belongs to another step " +:+ mapGet labels LabelStep))
        else if suspensionPodLabelsMatch labels runUID step then Ret (o, None)
        else if String.eqb (meta_ResourceVersion (obj_Meta o)) "" then
          bad o (errorString "object has no resourceVersion for suspension identity patch")
        else
          patched <- call (ObjLabel HubClient k (obj_Key o) expectedUID
                             (meta_ResourceVersion (obj_Meta o))
                             (<[LabelRun := runUID]> {[LabelStep := step]})) ;;
          match patched with
          | Err err => bad o err
          | Ok o =>
              again <- call (ObjGet HubReader k (obj_Key o)) ;;
              match again with
              | Err err => bad o (wrapError "confirm persisted suspension identity" err)
              | Ok o =>
                  if negb (String.eqb (obj_UID o) expectedUID)
                     || negb (suspensionPodLabelsMatch (obj_Labels o) runUID step)
                  then bad o (errorString
                         "validated suspension identity was not persisted on the expected object")
                  else Ret (o, None)
              end
          end
    end.

(** ** Pods *)

(** What [deleteSuspensionPod] returns: whether the pod is safe, whether it had
    completed, and the report. *)
Record PodOutcome := MkPodOutcome { po_Safe : bool; po_Completed : bool; po_Report : Report }.

(** The deletion of an active pod, and the look after it. *)
Definition removeActivePod (pod : Object KPod) (parentSafe : bool) (r : Report) : M PodOutcome :=
  e <- deleteWithUIDPrecondition pod true false ;;
  match e with
  | Some err =>
      Ret (MkPodOutcome false false (recordSuspensionFailure r
             ("delete active suspension Pod " +:+ suspensionObjectDescription pod) err))
  | None =>
      got <- call (ObjGet HubReader KPod (obj_Key pod)) ;;
      Ret match got with
          | Err err =>
              if IsNotFound err then MkPodOutcome parentSafe false r
              else MkPodOutcome false false (recordSuspensionUnverified r
                     ("cannot confirm suspension Pod removal " +:+ suspensionObjectDescription pod) err)
          | Ok pod' =>
              MkPodOutcome false false (recordSuspensionPending r
                (if negb (String.eqb (obj_UID pod') (obj_UID pod))
                 then "replacement Pod " +:+ obj_Namespace pod' +:+ "/" +:+ obj_Name pod' +:+
                      " UID " +:+ obj_UID pod' +:+ " requires independent validation"
                 else "active Pod remains after deletion request: " +:+
                      suspensionObjectDescription pod'))
          end
  end.

(** The pod once its identity is known. *)
Definition removePod (pod : Object KPod) (runUID step : string) (parentSafe : bool) (r : Report)
    : M PodOutcome :=
  let phase := podobj_Phase (obj_Content (k := KPod) pod) in
  if String.eqb phase PodSucceeded || String.eqb phase PodFailed then
    Ret (MkPodOutcome
           (if negb parentSafe && suspensionPodLabelsMatch (obj_Labels pod) runUID step
            then true else parentSafe) true r)
  else removeActivePod pod parentSafe r.

(** The pod is controlled by the sandbox it was reached from, if any. *)
Definition ownedBy (pod : Object KPod) (parent : option (Object KSandbox)) : bool :=
  match parent with
  | Some sandbox => suspensionHasControllerOwner (obj_Meta pod) sandboxGroup
                      sandboxKindName (obj_Name sandbox) (obj_UID sandbox)
  | None => true
  end.

Definition deleteSuspensionPod (podName runUID step : string) (parent : option (Object KSandbox))
    (persistIdentity : bool) (r : Report) : M PodOutcome :=
  let unsafe r : M PodOutcome := Ret (MkPodOutcome false false r) in
  let key := hubKey m podName in
  got <- call (ObjGet HubReader KPod key) ;;
  match got with
  | Err err =>
      if IsNotFound err then Ret (MkPodOutcome true false r)
      else unsafe (recordSuspensionUnverified r ("cannot confirm backing Pod " +:+
                     nn_Namespace key +:+ "/" +:+ nn_Name key) err)
  | Ok pod =>
      let described := suspensionObjectDescription pod in
      if String.eqb (obj_UID pod) "" then
        unsafe (recordSuspensionUnverified r ("managed Pod has no UID: " +:+ described)
                  (errorString "refuse to remove Pod without UID"))
      else
        let parentSafe := ownedBy pod parent in
        let r := if parentSafe then r else
          recordSuspensionUnverified r ("backing Pod owner does not validate: " +:+ described)
            (errorString ("Pod " +:+ obj_Namespace pod +:+ "/" +:+ obj_Name pod +:+
               " is not controlled by Sandbox UID " +:+ from_option obj_UID "" parent)) in
        if negb parentSafe && negb (suspensionPodLabelsMatch (obj_Labels pod) runUID step)
        then unsafe r
        else if persistIdentity then
          patched <- patchRunIdentityLabels pod (obj_UID pod) runUID step ;;
          let '(pod, e) := patched in
          match e with
          | Some err =>
              unsafe (recordSuspensionUnverified r ("cannot persist validated Pod identity: " +:+
                        suspensionObjectDescription pod) err)
          | None => removePod pod runUID step parentSafe r
          end
        else if negb (suspensionPodLabelsMatch (obj_Labels pod) runUID step) then
          unsafe (recordSuspensionUnverified r
                    ("Pod identity changed before suspension deletion: " +:+ described)
                    (errorString ("Pod labels do not identify run UID " +:+ runUID +:+
                                  " and step " +:+ step)))
        else removePod pod runUID step parentSafe r
  end.

(** ** Sandbox APIs that may be absent *)
Definition suspensionOptionalListAbsence (err : error) : bool :=
  if IsForbidden err || IsTimeout err || IsServerTimeout err
     || errorsAny isSentinelCanceled err || errorsAny isSentinelDeadline err then false
  else if match err with joinError errs => (1 <? length errs)%nat | _ => false end then false
  else IsNotFound err || IsNoMatchError err.

Definition optionalSandboxAPIAbsent (listErr : option error) (crdName : string) (r : Report)
    : M (bool * Report) :=
  match listErr with
  | None => Ret (false, r)
  | Some err =>
      if negb (sm_ForceBareMode m) then Ret (false, r)
      else
        cfg <- call ConfigGet ;;
        if from_option (λ c, negb (String.eqb (cfg_SandboxMode c) "bare-pod")) false cfg
        then Ret (false, r)
        else if negb (suspensionOptionalListAbsence err) then Ret (false, r)
        else
          got <- call (ObjGet HubReader KCustomResourceDefinition (clusterKey crdName)) ;;
          Ret match got with
              | Err err =>
                  if IsNotFound err && negb (IsNoMatchError err) && suspensionOptionalListAbsence err
                  then (true, r)
                  else (false, recordSuspensionUnverified r
                                 ("confirm optional CRD absence " +:+ crdName) err)
              | Ok _ =>
                  (false, recordSuspensionUnverified r
                     ("optional CRD is present despite an unavailable inventory mapping: " +:+ crdName)
                     (errorString ("CRD " +:+ crdName +:+ " is installed")))
              end
  end.

(** The list error that is left, and the report, for a sandbox API. *)
Definition optionalList (listErr : option error) (crdName what : string) (r : Report)
    : M (option error * Report) :=
  absent <- optionalSandboxAPIAbsent listErr crdName r ;;
  let '(absent, r) := absent in
  let left := if (absent : bool) then None else listErr in
  Ret (left, recordUnverifiedIf r what left).

Definition claimsCRD : string := "sandboxclaims.extensions.agents.x-k8s.io".
Definition sandboxesCRD : string := "sandboxes.agents.x-k8s.io".
Definition poolsCRD : string := "sandboxwarmpools.extensions.agents.x-k8s.io".

(** ** The second look *)

(** Objects the verdict says are still there are pending. *)
Definition judgeRemains {k} (judge : Object k → Verdict) (pending : string) (r : Report)
    (o : Object k) : Report :=
  match judge o with
  | Ignore => r
  | Refuse message err => recordSuspensionUnverified r message err
  | Manage => recordSuspensionPending r (pending +:+ suspensionObjectDescription o)
  end.

(** A list, and what is left of it. *)
Definition confirmList (k : Kind) (namespace : string) (uid what pending : string)
    (judge : Object k → Verdict) (r : Report) : M Report :=
  got <- call (ObjList HubReader k namespace (suspensionRunSelector uid)) ;;
  Ret match got with
      | Err err => recordSuspensionUnverified r what err
      | Ok items => fold_left (judgeRemains judge pending) items r
      end.

(** The three sandbox APIs, which may be absent. *)
Definition confirmSandboxAPIs (uid : string) (r : Report) : M Report :=
  let ns := sm_Namespace m in
  let sel := suspensionRunSelector uid in
  claims <- call (ObjList HubReader KSandboxClaim ns sel) ;;
  sandboxes <- call (ObjList HubReader KSandbox ns sel) ;;
  pools <- call (ObjList HubReader KSandboxWarmPool ns sel) ;;
  c <- optionalList (errorOf claims) claimsCRD "SandboxClaim confirmation inventory" r ;;
  let '(claimErr, r) := c in
  s <- optionalList (errorOf sandboxes) sandboxesCRD "Sandbox confirmation inventory" r ;;
  let '(sandboxErr, r) := s in
  p <- optionalList (errorOf pools) poolsCRD "SandboxWarmPool confirmation inventory" r ;;
  let '(poolErr, r) := p in
  let r := fold_left (judgeRemains (k := KSandboxClaim)
             (judgeLabelled uid "retained SandboxClaim has no valid step label: ")
             "SandboxClaim remains in authoritative inventory: ") (itemsOf claims) r in
  let r := fold_left (judgeRemains (k := KSandbox)
             (judgeLabelled uid "retained Sandbox has no valid step label: ")
             "Sandbox remains in authoritative inventory: ") (itemsOf sandboxes) r in
  Ret (fold_left (judgeRemains (judgePool uid Confirming)
         "SandboxWarmPool remains in authoritative inventory: ") (itemsOf pools) r).

Definition confirmSuspensionInventory (uid : string) (r : Report) : M Report :=
  let ns := sm_Namespace m in
  r <- confirmList KPod ns uid "Pod confirmation inventory"
         "active Pod remains in authoritative inventory: " (judgePodRemains uid) r ;;
  r <- confirmSandboxAPIs uid r ;;
  r <- confirmList KServiceAccount ns uid "ServiceAccount confirmation inventory"
         "ServiceAccount remains in authoritative inventory: " (judgeAccount uid Confirming) r ;;
  r <- confirmList KRole "" uid "Role confirmation inventory"
         "managed Role remains in authoritative inventory: "
         (judgeNamespaced uid Confirming ns "Role") r ;;
  r <- confirmList KRoleBinding "" uid "RoleBinding confirmation inventory"
         "managed RoleBinding remains in authoritative inventory: "
         (judgeNamespaced uid Confirming ns "RoleBinding") r ;;
  r <- confirmList KClusterRole "" uid "ClusterRole confirmation inventory"
         "managed ClusterRole remains in authoritative inventory: "
         (judgeClusterRole uid Confirming) r ;;
  r <- confirmList KClusterRoleBinding "" uid "ClusterRoleBinding confirmation inventory"
         "managed ClusterRoleBinding remains in authoritative inventory: "
         (judgeClusterRoleBinding uid Confirming) r ;;
  confirmList KSecret ns uid "credential Secret confirmation inventory"
    "sandbox credential Secret remains in authoritative inventory: " (judgeSecret uid Confirming) r.

(** ** The deletions of a pass *)

(** Every object of a list, by its verdict. *)
Definition removeEach {k} (judge : Object k → Verdict) (items : list (Object k)) (r : Report)
    : M Report :=
  foldM items r (λ o r,
    match judge o with
    | Ignore => Ret r
    | Refuse message err => Ret (recordSuspensionUnverified r message err)
    | Manage => d <- deleteSuspensionObject o false r ;; Ret (snd d)
    end).

(** A pass at work: the inventory, and the pods that were handled. *)
Record Pass := MkPass { pass_Inventory : Inventory; pass_Handled : list NamespacedName }.

Definition savedIdentity (w : SandboxWork) (o : Object KSandbox) : SandboxWork :=
  MkSandboxWork o (sw_RunUID w) (sw_Step w) (sw_Claim w) (sw_Blocked w) true
    (sw_PodSafe w) (sw_PodCompleted w).
Definition withObject (w : SandboxWork) (o : Object KSandbox) : SandboxWork :=
  MkSandboxWork o (sw_RunUID w) (sw_Step w) (sw_Claim w) (sw_Blocked w) (sw_IdentitySaved w)
    (sw_PodSafe w) (sw_PodCompleted w).
Definition withPod (w : SandboxWork) (out : PodOutcome) : SandboxWork :=
  MkSandboxWork (sw_Object w) (sw_RunUID w) (sw_Step w) (sw_Claim w) (sw_Blocked w)
    (sw_IdentitySaved w) (po_Safe out) (po_Completed out).

(** The pod of a sandbox, then the sandbox: an orphan if its pod had completed. *)
Definition removeSandboxPod (key : NamespacedName) (p : Pass) (w : SandboxWork) : M Pass :=
  let i := pass_Inventory p in
  let podName := backingPodName (sw_Object w) in
  let handled := hubKey m podName :: pass_Handled p in
  out <- deleteSuspensionPod podName (sw_RunUID w) (sw_Step w) (Some (sw_Object w)) true
           (inv_Report i) ;;
  let i := withReport (putWork i key (withPod w out)) (po_Report out) in
  if negb (po_Safe out) then Ret (MkPass (blockWork i key) handled)
  else
    d <- deleteSuspensionObject (sw_Object w) (po_Completed out) (inv_Report i) ;;
    let '(deleted, r) := d in
    let i := withReport i r in
    Ret (MkPass (if po_Completed out && negb deleted then blockWork i key else i) handled).

(** A sandbox of the work. *)
Definition removeSandbox (key : NamespacedName) (p : Pass) : M Pass :=
  let i := pass_Inventory p in
  match workAt (inv_Sandboxes i) key with
  | None => Ret p
  | Some w =>
      if sw_Blocked w then Ret (MkPass (blockClaimOf i (sw_Claim w)) (pass_Handled p))
      else
        patched <- patchRunIdentityLabels (sw_Object w) (obj_UID (sw_Object w)) (sw_RunUID w)
                     (sw_Step w) ;;
        let '(o, e) := patched in
        match e with
        | Some err =>
            Ret (MkPass (unverified (blockWork (putWork i key (withObject w o)) key)
                   ("cannot persist validated Sandbox identity: " +:+ suspensionObjectDescription o)
                   err) (pass_Handled p))
        | None =>
            let w := savedIdentity w o in
            removeSandboxPod key (MkPass (putWork i key w) (pass_Handled p)) w
        end
  end.

(** A pod that no sandbox of the work led to. *)
Definition removeStrayPod (uid : string) (pod : Object KPod) (p : Pass) : M Pass :=
  let i := pass_Inventory p in
  match judgeLabelled uid "managed Pod has no valid step label: " pod with
  | Ignore => Ret p
  | Refuse message err => Ret (MkPass (unverified i message err) (pass_Handled p))
  | Manage =>
      if decide (obj_Key pod ∈ pass_Handled p) then Ret p
      else
        out <- deleteSuspensionPod (obj_Name pod) (mapGet (obj_Labels pod) LabelRun)
                 (mapGet (obj_Labels pod) LabelStep) None false (inv_Report i) ;;
        Ret (MkPass (withReport i (po_Report out)) (obj_Key pod :: pass_Handled p))
  end.

(** A claim none of whose sandboxes is in doubt. *)
Definition claimReady (i : Inventory) (c : ClaimWork) : bool :=
  negb (cw_Blocked c) &&
  forallb (λ key, match workAt (inv_Sandboxes i) key with
                  | Some w => negb (sw_Blocked w || negb (sw_IdentitySaved w) || negb (sw_PodSafe w))
                  | None => true
                  end) (cw_Sandboxes c).

Definition removeClaim (i : Inventory) (c : ClaimWork) (r : Report) : M Report :=
  if claimReady i c then d <- deleteSuspensionObject (cw_Object c) false r ;; Ret (snd d)
  else Ret r.

(** ** [CleanupSuspension] *)

(** The lists of a pass, with the errors left, and the report so far. *)
Record Lists := MkLists {
  l_Pods : res (list (Object KPod));
  l_Claims : list (Object KSandboxClaim);
  l_ClaimErr : option error;
  l_Sandboxes : list (Object KSandbox);
  l_SandboxErr : option error;
  l_Pools : list (Object KSandboxWarmPool);
  l_Accounts : res (list (Object KServiceAccount));
  l_Roles : res (list (Object KRole));
  l_RoleBindings : res (list (Object KRoleBinding));
  l_ClusterRoles : res (list (Object KClusterRole));
  l_ClusterRoleBindings : res (list (Object KClusterRoleBinding));
  l_Secrets : res (list (Object KSecret));
  l_Report : Report;
}.

Definition takeInventory (uid : string) : M Lists :=
  let ns := sm_Namespace m in
  let sel := suspensionRunSelector uid in
  pods <- call (ObjList HubReader KPod ns Everything) ;;
  let r := recordUnverifiedIf emptyReport "Pod inventory" (errorOf pods) in
  claims <- call (ObjList HubReader KSandboxClaim ns Everything) ;;
  sandboxes <- call (ObjList HubReader KSandbox ns Everything) ;;
  pools <- call (ObjList HubReader KSandboxWarmPool ns sel) ;;
  c <- optionalList (errorOf claims) claimsCRD "SandboxClaim inventory" r ;;
  let '(claimErr, r) := c in
  s <- optionalList (errorOf sandboxes) sandboxesCRD "Sandbox inventory" r ;;
  let '(sandboxErr, r) := s in
  p <- optionalList (errorOf pools) poolsCRD "SandboxWarmPool inventory" r ;;
  let '(poolErr, r) := p in
  accounts <- call (ObjList HubReader KServiceAccount ns sel) ;;
  let r := recordUnverifiedIf r "ServiceAccount inventory" (errorOf accounts) in
  roles <- call (ObjList HubReader KRole "" sel) ;;
  let r := recordUnverifiedIf r "Role inventory" (errorOf roles) in
  roleBindings <- call (ObjList HubReader KRoleBinding "" sel) ;;
  let r := recordUnverifiedIf r "RoleBinding inventory" (errorOf roleBindings) in
  clusterRoles <- call (ObjList HubReader KClusterRole "" sel) ;;
  let r := recordUnverifiedIf r "ClusterRole inventory" (errorOf clusterRoles) in
  clusterRoleBindings <- call (ObjList HubReader KClusterRoleBinding "" sel) ;;
  let r := recordUnverifiedIf r "ClusterRoleBinding inventory" (errorOf clusterRoleBindings) in
  secrets <- call (ObjList HubReader KSecret ns sel) ;;
  let r := recordUnverifiedIf r "credential Secret inventory" (errorOf secrets) in
  Ret (MkLists pods (itemsOf claims) claimErr (itemsOf sandboxes) sandboxErr (itemsOf pools)
         accounts roles roleBindings clusterRoles clusterRoleBindings secrets r).

(** Everything the pass deletes, in the order of the code. *)
Definition removeAll (uid : string) (l : Lists) : M Report :=
  let ns := sm_Namespace m in
  let i := buildInventory uid ns (l_Pods l) (l_Claims l) (l_ClaimErr l) (l_Sandboxes l)
             (l_SandboxErr l) (l_Report l) in
  p <- foldM (sandboxWorkKeys i) (MkPass i []) removeSandbox ;;
  r <- removeEach (judgePool uid Deleting) (l_Pools l) (inv_Report (pass_Inventory p)) ;;
  p <- foldM (itemsOf (l_Pods l)) (MkPass (withReport (pass_Inventory p) r) (pass_Handled p))
         (removeStrayPod uid) ;;
  r <- removeEach (judgeAccount uid Deleting) (itemsOf (l_Accounts l))
         (inv_Report (pass_Inventory p)) ;;
  r <- removeEach (judgeNamespaced uid Deleting ns "Role") (itemsOf (l_Roles l)) r ;;
  r <- removeEach (judgeNamespaced uid Deleting ns "RoleBinding") (itemsOf (l_RoleBindings l)) r ;;
  r <- removeEach (judgeClusterRole uid Deleting) (itemsOf (l_ClusterRoles l)) r ;;
  r <- removeEach (judgeClusterRoleBinding uid Deleting) (itemsOf (l_ClusterRoleBindings l)) r ;;
  r <- removeEach (judgeSecret uid Deleting) (itemsOf (l_Secrets l)) r ;;
  foldM (inv_Claims (pass_Inventory p)) r (removeClaim (pass_Inventory p)).

(** The activation of a global pass, checked once the inventory is taken: what the
    pass returns if it must not go on. *)
Definition checkActivation (activation : option SuspensionActivation) (r : Report)
    : M (option (SuspensionCleanup * option error)) :=
  match activation with
  | None => Ret None
  | Some a =>
      e <- RequireCurrentActivation (sm_Reader m) a ;;
      Ret match e with
          | None => None
          | Some err =>
              if errorsAny isSentinelSuperseded err then Some (rep_Summary r, Some err)
              else let r := recordSuspensionUnverified r "suspension activation" err in
                   Some (rep_Summary r, joinAll (rep_Errors r))
          end
  end.

Definition cleanupSuspension (uid : string) (activation : option SuspensionActivation)
    : M (SuspensionCleanup * option error) :=
  if negb (sm_Reader m) then
    let err := errorString "uncached API reader is required for suspension cleanup" in
    Ret (rep_Summary (recordSuspensionUnverified emptyReport
           "suspension inventory: uncached API reader is not configured" err), Some err)
  else
    l <- takeInventory uid ;;
    stop <- checkActivation activation (l_Report l) ;;
    match stop with
    | Some out => Ret out
    | None =>
        r <- removeAll uid l ;;
        r <- confirmSuspensionInventory uid r ;;
        Ret (rep_Summary r, joinAll (rep_Errors r))
    end.
End Cleanup.

(** ** What is left of a run

    The objects of a run that stand for work or access that suspension takes away,
    said without the pass: the label of the run, and for each kind what marks an
    object as one the operator made for a sandbox.  Not among them are what neither
    works nor gives access: pods that succeeded or failed, the input ConfigMaps and the
    sandbox templates, which the garbage collector and the operator remove otherwise. *)
Definition oneOf (component : string) (components : list string) : bool :=
  existsb (String.eqb component) components.

Definition marked {k} (o : Object k) : bool :=
  let component := mapGet (obj_Labels o) LabelComponent in
  match k return Object k → bool with
  | KPod => λ o, let phase := podobj_Phase (obj_Content (k := KPod) o) in
      negb (oneOf phase [PodSucceeded; PodFailed])
  | KSandboxClaim | KSandbox | KSandboxWarmPool => λ _, true
  | KServiceAccount => λ _, match accountComponentStep component with Some _ => true | None => false end
  | KRole | KRoleBinding => λ _, oneOf component ["execution-rbac"; "result-rbac"]
  | KClusterRole | KClusterRoleBinding => λ _,
      oneOf component ["execution-rbac"; "result-rbac"; "reader-rbac"]
  | KSecret => λ _, oneOf component ["sandbox-kubeconfig"]
  | KConfigMap | KSandboxTemplate | KCustomResourceDefinition => λ _, false
  end o.

Definition left (uid : string) {k} (o : Object k) : bool :=
  suspensionUIDMatches (obj_Labels o) uid && marked o.

(** An authoritative list of a kind, with nothing of the run in it. *)
Definition listedClear (uid : string) (k : Kind) (ns : string) (tr : trace) : Prop :=
  ∃ items : list (Object k),
    (Ev (ObjList HubReader k ns (suspensionRunSelector uid)) (Ok items) : event answer) ∈ tr ∧
    Forall (λ o, left uid o = false) items.

(** The API of a kind was found to be absent. *)
Definition apiAbsent `{K : ApiMachinery} (crd : string) (tr : trace) : Prop :=
  ∃ err, (Ev (ObjGet HubReader KCustomResourceDefinition (clusterKey crd)) (Err err) : event answer)
           ∈ tr ∧ IsNotFound err = true.

Definition nothingLeft `{K : ApiMachinery} (uid ns : string) (tr : trace) : Prop :=
  listedClear uid KPod ns tr ∧
  (listedClear uid KSandboxClaim ns tr ∨ apiAbsent claimsCRD tr) ∧
  (listedClear uid KSandbox ns tr ∨ apiAbsent sandboxesCRD tr) ∧
  (listedClear uid KSandboxWarmPool ns tr ∨ apiAbsent poolsCRD tr) ∧
  listedClear uid KServiceAccount ns tr ∧ listedClear uid KRole "" tr ∧
  listedClear uid KRoleBinding "" tr ∧ listedClear uid KClusterRole "" tr ∧
  listedClear uid KClusterRoleBinding "" tr ∧ listedClear uid KSecret ns tr.

(** The call changes an object of the cluster. *)
Definition changesObject (ev : event answer) : bool :=
  match ev with
  | Ev (ObjCreate _ _ _) _ | Ev (ObjUpdate _ _ _) _ | Ev (ObjPatch _ _ _ _) _
  | Ev (ObjLabel _ _ _ _ _ _) _ | Ev (ObjDelete _ _ _ _) _ => true
  | _ => false
  end.

Section Confirmation.
Context `{K : ApiMachinery} `{SUL : SuspensionLibs}.
Context (m : SandboxManager) (uid : string).

(** *** Verdicts that ignore an object *)
Lemma judgeLabelled_ignore {k} message (o : Object k) :
  judgeLabelled uid message o = Ignore → left uid o = false.
Proof.
  unfold judgeLabelled, left. destruct (suspensionUIDMatches _ _); [|done].
  by destruct (suspensionStepAllowed _).
Qed.

Lemma judgePodRemains_ignore o : judgePodRemains uid o = Ignore → left uid o = false.
Proof.
  unfold judgePodRemains. destruct (judgeLabelled _ _ _) eqn:Hj; try done.
  - intros _. by eapply judgeLabelled_ignore.
  - unfold left, marked, oneOf. cbn. rewrite orb_false_r, negb_orb.
    destruct (_ && _); [done|]. by rewrite andb_false_r.
Qed.

Lemma judgeAccount_ignore look o : judgeAccount uid look o = Ignore → left uid o = false.
Proof.
  unfold judgeAccount, suspensionServiceAccountStep, left, marked.
  destruct (suspensionUIDMatches _ _); cbn; [|done].
  destruct (accountComponentStep _); cbn; [|done]. by destruct (_ && _).
Qed.

Lemma suspensionRBACStep_unmanaged labels name step valid :
  suspensionRBACStep labels name uid = (step, false, valid) →
  suspensionUIDMatches labels uid
  && oneOf (mapGet labels LabelComponent) ["execution-rbac"; "result-rbac"] = false.
Proof.
  unfold suspensionRBACStep, oneOf. destruct (suspensionUIDMatches _ _); cbn [negb]; [|done].
  cbn. rewrite !orb_false_r. destruct (String.eqb _ "execution-rbac"); [done|].
  destruct (String.eqb _ "result-rbac"); [|done]. by case_match.
Qed.

Lemma judgeNamespaced_managed_of {k} look ns what (o : Object k) :
  judgeNamespaced uid look ns what o = Ignore →
  suspensionUIDMatches (obj_Labels o) uid
  && oneOf (mapGet (obj_Labels o) LabelComponent) ["execution-rbac"; "result-rbac"] = false.
Proof.
  unfold judgeNamespaced. destruct (suspensionRBACStep _ _ _) as [[step []] valid] eqn:Hs.
  - destruct valid; [|done]. cbn. by destruct (_ && _).
  - intros _. by eapply suspensionRBACStep_unmanaged.
Qed.

Lemma judgeClusterRole_ignore look o : judgeClusterRole uid look o = Ignore → left uid o = false.
Proof.
  unfold judgeClusterRole, left, marked, oneOf.
  destruct (suspensionRBACStep _ _ _) as [[step managed] valid] eqn:Hs.
  destruct (suspensionUIDMatches _ _) eqn:Hm; [cbn|done].
  destruct (String.eqb _ "result-rbac") eqn:Hr; [done|].
  destruct (String.eqb _ "reader-rbac") eqn:Hd; [done|]. cbn.
  destruct managed; [by destruct valid|]. intros _.
  apply suspensionRBACStep_unmanaged in Hs. rewrite Hm in Hs. cbn in Hs.
  by rewrite Hr, !orb_false_r in *.
Qed.

Lemma judgeClusterRoleBinding_ignore look o :
  judgeClusterRoleBinding uid look o = Ignore → left uid o = false.
Proof.
  unfold judgeClusterRoleBinding, left, marked, oneOf.
  destruct (suspensionUIDMatches _ _); [cbn|done].
  destruct (String.eqb _ "reader-rbac"); [by destruct (negb _)|].
  destruct (String.eqb _ "execution-rbac"); [by destruct (labelConflicts _ _ _)|].
  by destruct (String.eqb _ "result-rbac").
Qed.

Lemma judgeSecret_ignore look o : judgeSecret uid look o = Ignore → left uid o = false.
Proof.
  unfold judgeSecret, left, marked, oneOf. destruct (suspensionUIDMatches _ _); [cbn|done].
  destruct (String.eqb _ _); [cbn|done]. by destruct (_ || _).
Qed.

(** *** A clean report means that nothing was said *)
Lemma judgeRemains_step {k} (judge : Object k → Verdict) pending r o :
  clean (judgeRemains judge pending r o) →
  judgeRemains judge pending r o = r ∧ judge o = Ignore.
Proof.
  unfold judgeRemains. destruct (judge o) as [|message err|]; [done| |].
  - by intros ?%unverified_unclean.
  - by intros ?%pending_unclean.
Qed.

Lemma judgeRemains_clean {k} (judge : Object k → Verdict) pending items r r' :
  fold_left (judgeRemains judge pending) items r = r' → clean r' →
  r' = r ∧ Forall (λ o, judge o = Ignore) items.
Proof.
  intros <-. revert r. induction items as [|o items IH]; intros r; cbn; [done|].
  intros Hc. destruct (IH _ Hc) as [Heq Hf]. rewrite Heq in Hc |- *.
  apply judgeRemains_step in Hc as [-> Ho]. split; [done|by constructor].
Qed.

Lemma confirmList_clean k ns what pending (judge : Object k → Verdict) r tr r' :
  (∀ o, judge o = Ignore → left uid o = false) →
  runs (confirmList k ns uid what pending judge r) tr r' → clean r' →
  r' = r ∧ listedClear uid k ns tr.
Proof.
  intros Hj H Hc. unfold confirmList in H. run_call H got. apply runs_ret in H as [-> ->].
  destruct got as [items|err]; [|by apply unverified_unclean in Hc].
  destruct (judgeRemains_clean _ _ _ _ _ eq_refl Hc) as [-> Hf]. split; [done|].
  exists items. split; [left|]. by eapply Forall_impl; [exact Hf|].
Qed.

(** *** An API that may be absent *)
Lemma optionalSandboxAPIAbsent_clean e crd r tr absent r' :
  runs (optionalSandboxAPIAbsent m e crd r) tr (absent, r') → clean r' →
  r' = r ∧ (absent = true → apiAbsent crd tr).
Proof.
  intros H Hc. unfold optionalSandboxAPIAbsent in H.
  destruct e as [err|]; [|by apply runs_ret in H as [-> [= -> ->]]].
  run_if H; [by apply runs_ret in H as [-> [= -> ->]]|]. run_call H cfg.
  run_if H; [by apply runs_ret in H as [-> [= -> ->]]|].
  run_if H; [by apply runs_ret in H as [-> [= -> ->]]|]. run_call H got.
  apply runs_ret in H as [-> H]. destruct got as [o|err'].
  - injection H as -> ->. by apply unverified_unclean in Hc.
  - destruct (IsNotFound err') eqn:Hn; cbn in H;
      [|injection H as -> ->; by apply unverified_unclean in Hc].
    destruct (_ && _); injection H as -> ->; [|by apply unverified_unclean in Hc].
    split; [done|]. intros _. exists err'. split; [right; left|done].
Qed.

Lemma optionalList_clean e crd what r tr out r' :
  runs (optionalList m e crd what r) tr (out, r') → clean r' →
  r' = r ∧ out = None ∧ (e = None ∨ apiAbsent crd tr).
Proof.
  intros H Hc. unfold optionalList in H.
  apply runs_bind in H as (t1 & [absent r1] & t2 & -> & H1 & H).
  apply runs_ret in H as [-> [= -> ->]]. rewrite app_nil_r.
  assert (clean r1 ∧ (if absent then None else e) = None) as [Hc1 He].
  { destruct (if absent then None else e); [by apply unverified_unclean in Hc|done]. }
  rewrite He in *. destruct (optionalSandboxAPIAbsent_clean _ _ _ _ _ _ H1 Hc1) as [-> Ha].
  split; [done|]. split; [done|]. destruct absent; [right; by apply Ha|by left].
Qed.

(** *** What the lists of the second look say *)
Lemma listedClear_mono k ns tr tr' : tr ⊆ tr' → listedClear uid k ns tr → listedClear uid k ns tr'.
Proof. intros Hs (items & Hin & Hf). exists items. auto. Qed.

Lemma apiAbsent_mono crd tr tr' : tr ⊆ tr' → apiAbsent crd tr → apiAbsent crd tr'.
Proof. intros Hs (err & Hin & Hf). exists err. auto. Qed.

Lemma listed_or_absent k ns crd what (judge : Object k → Verdict) items r t out r' tr :
  (∀ o, judge o = Ignore → left uid o = false) →
  (Ev (ObjList HubReader k ns (suspensionRunSelector uid)) items : event answer) ∈ tr →
  Forall (λ o, judge o = Ignore) (itemsOf items) →
  runs (optionalList m (errorOf items) crd what r) t (out, r') → clean r' → t ⊆ tr →
  r' = r ∧ (listedClear uid k ns tr ∨ apiAbsent crd tr).
Proof.
  intros Hj Hin Hf H Hc Hs.
  destruct (optionalList_clean _ _ _ _ _ _ _ H Hc) as (-> & _ & Hor). split; [done|].
  destruct Hor as [He|Ha]; [left|right; by eapply apiAbsent_mono].
  destruct items as [items|err]; [|done]. exists items. split; [done|].
  by eapply Forall_impl; [exact Hf|].
Qed.

Lemma confirmSandboxAPIs_clean r tr r' :
  runs (confirmSandboxAPIs m uid r) tr r' → clean r' →
  let ns := sm_Namespace m in
  r' = r ∧ (listedClear uid KSandboxClaim ns tr ∨ apiAbsent claimsCRD tr) ∧
  (listedClear uid KSandbox ns tr ∨ apiAbsent sandboxesCRD tr) ∧
  (listedClear uid KSandboxWarmPool ns tr ∨ apiAbsent poolsCRD tr).
Proof.
  intros H Hc ns. unfold confirmSandboxAPIs in H.
  run_call H claims. run_call H sandboxes. run_call H pools.
  apply runs_bind in H as (t1 & [e1 r1] & t & -> & H1 & H).
  apply runs_bind in H as (t2 & [e2 r2] & t' & -> & H2 & H).
  apply runs_bind in H as (t3 & [e3 r3] & t'' & -> & H3 & H).
  apply runs_ret in H as [-> Hr']. rewrite app_nil_r in *.
  destruct (judgeRemains_clean _ _ _ _ _ (eq_sym Hr') Hc) as [Heq Hf3]. rewrite Heq in *.
  destruct (judgeRemains_clean _ _ _ _ _ eq_refl Hc) as [Heq' Hf2]. rewrite Heq' in *.
  destruct (judgeRemains_clean _ _ _ _ _ eq_refl Hc) as [Heq'' Hf1]. rewrite Heq'' in *.
  set (tr := _ :: _ :: _ :: _).
  eapply (listed_or_absent _ _ _ _ _ _ _ _ _ _ tr) in H3 as [-> Hp]; [|apply judgeLabelled_ignore
    |right; right; left|exact Hf3|done|set_solver].
  eapply (listed_or_absent _ _ _ _ _ _ _ _ _ _ tr) in H2 as [-> Hb]; [|apply judgeLabelled_ignore
    |right; left|exact Hf2|done|set_solver].
  eapply (listed_or_absent _ _ _ _ _ _ _ _ _ _ tr) in H1 as [-> Ha]; [|apply judgeLabelled_ignore
    |left|exact Hf1|done|set_solver].
  done.
Qed.

(** *** The second look *)
Lemma confirmSuspensionInventory_clean r tr r' :
  runs (confirmSuspensionInventory m uid r) tr r' → clean r' →
  r' = r ∧ nothingLeft uid (sm_Namespace m) tr.
Proof.
  intros H Hc. unfold confirmSuspensionInventory in H.
  apply runs_bind in H as (t1 & r1 & u1 & -> & H1 & H).
  apply runs_bind in H as (t2 & r2 & u2 & -> & H2 & H).
  apply runs_bind in H as (t3 & r3 & u3 & -> & H3 & H).
  apply runs_bind in H as (t4 & r4 & u4 & -> & H4 & H).
  apply runs_bind in H as (t5 & r5 & u5 & -> & H5 & H).
  apply runs_bind in H as (t6 & r6 & u6 & -> & H6 & H).
  apply runs_bind in H as (t7 & r7 & t8 & -> & H7 & H8).
  apply confirmList_clean in H8 as [-> G8]; [|apply judgeSecret_ignore|done].
  apply confirmList_clean in H7 as [-> G7]; [|apply judgeClusterRoleBinding_ignore|done].
  apply confirmList_clean in H6 as [-> G6]; [|apply judgeClusterRole_ignore|done].
  apply confirmList_clean in H5 as [-> G5]; [|apply judgeNamespaced_managed_of|done].
  apply confirmList_clean in H4 as [-> G4]; [|apply judgeNamespaced_managed_of|done].
  apply confirmList_clean in H3 as [-> G3]; [|apply judgeAccount_ignore|done].
  apply confirmSandboxAPIs_clean in H2 as (-> & G2a & G2b & G2c); [|done].
  apply confirmList_clean in H1 as [-> G1]; [|apply judgePodRemains_ignore|done].
  split; [done|].
  assert (Hor : ∀ k ns crd t t', t ⊆ t' → listedClear uid k ns t ∨ apiAbsent crd t →
    listedClear uid k ns t' ∨ apiAbsent crd t').
  { intros k ns crd t t' Hs [?|?]; [left; by eapply listedClear_mono|right; by eapply apiAbsent_mono]. }
  repeat split; (eapply listedClear_mono || eapply Hor); try eassumption; set_solver.
Qed.
End Confirmation.

(** ** What a pass may change

    Nothing but: the deletion of an object that was read from the API server and
    carries the label of the run, bound to its UID; and the addition of the identity
    labels to such an object, bound to its UID and resource version, if it has none
    or the same. *)
Definition readIn (tr : trace) {k} (o : Object k) : Prop :=
  (∃ key, (Ev (ObjGet HubReader k key) (Ok o) : event answer) ∈ tr) ∨
  (∃ ns sel items, (Ev (ObjList HubReader k ns sel) (Ok items) : event answer) ∈ tr ∧ o ∈ items).

Definition ownChange (uid : string) (pre : trace) (ev : event answer) : Prop :=
  match ev with
  | Ev (ObjDelete c k key opts) _ => ∃ o : Object k,
      readIn pre o ∧ c = HubClient ∧ key = obj_Key o ∧
      del_UID opts = Some (obj_UID o) ∧ obj_UID o ≠ "" ∧
      suspensionUIDMatches (obj_Labels o) uid = true
  | Ev (ObjLabel c k key objUID version labels) _ => ∃ (o : Object k) runUID step,
      readIn pre o ∧ c = HubClient ∧ key = obj_Key o ∧
      objUID = obj_UID o ∧ objUID ≠ "" ∧ version = meta_ResourceVersion (obj_Meta o) ∧ version ≠ "" ∧
      runOf uid runUID ∧ suspensionStepAllowed step = true ∧
      labels = <[LabelRun := runUID]> {[LabelStep := step]} ∧
      labelConflicts (obj_Labels o) LabelRun runUID = false ∧
      labelConflicts (obj_Labels o) LabelStep step = false
  | _ => changesObject ev = false
  end.

Lemma readIn_mono tr tr' {k} (o : Object k) : tr ⊆ tr' → readIn tr o → readIn tr' o.
Proof.
  intros Hs [(key & H)|(ns & sel & items & H & Ho)]; [left; eauto|right].
  exists ns, sel, items. auto.
Qed.

Lemma ownChange_mono uid pre pre' ev : pre ⊆ pre' → ownChange uid pre ev → ownChange uid pre' ev.
Proof.
  intros Hs. destruct ev as [[] r]; cbn; try done; naive_solver eauto using readIn_mono.
Qed.

Section Changes.
Context `{K : ApiMachinery} `{SUL : SuspensionLibs}.
Context (m : SandboxManager) (uid : string).

(** The changes of a program that starts once [seed] has been read. *)
Abbreviation own seed := (precededIn changesObject (λ pre, ownChange uid (seed ++ pre))).

Lemma own_quiet seed {A} (p : M A) : emits (λ ev, changesObject ev = false) p → own seed p.
Proof. apply precededIn_none. Qed.

Lemma own_bind seed {A B} (p : M A) (f : A → M B) :
  own seed p → (∀ t a, runs p t a → own (seed ++ t) (f a)) → own seed (bind p f).
Proof.
  intros Hp Hf tr b (t1 & a & t2 & -> & H1 & H2)%runs_bind.
  apply preceded_seq; [by eapply Hp|]. intros pre ev post Heq Hs. rewrite app_assoc.
  by eapply (Hf _ _ H1 _ _ H2).
Qed.

Lemma own_mono seed seed' {A} (p : M A) : seed ⊆ seed' → own seed p → own seed' p.
Proof.
  intros Hs Hp tr a H pre ev post Heq Hev. eapply ownChange_mono; [|by eapply Hp]. set_solver.
Qed.

Lemma own_ret seed {A} (a : A) : own seed (Ret a).
Proof. apply own_quiet, emits_ret. Qed.

Lemma own_read seed {B} e (f : answer e → M B) :
  (∀ r, changesObject (Ev e r) = false) → (∀ r, own (seed ++ [Ev e r]) (f r)) →
  own seed (bind (call e) f).
Proof.
  intros He Hf. apply own_bind; [by apply own_quiet, emits_call|]. by intros t a ->%runs_call.
Qed.

Lemma own_delete seed {k} (o : Object k) zeroGrace orphan :
  readIn seed o → suspensionUIDMatches (obj_Labels o) uid = true →
  own seed (deleteWithUIDPrecondition o zeroGrace orphan).
Proof.
  intros Ho Hm. unfold deleteWithUIDPrecondition. destruct (String.eqb _ _) eqn:Hu; [apply own_ret|].
  apply String.eqb_neq in Hu. apply own_bind; [|intros; apply own_ret].
  intros tr a ->%runs_call pre ev post Heq _.
  destruct pre as [|x pre]; [|destruct pre; discriminate Heq].
  injection Heq as <- <-. cbn. rewrite app_nil_r. by exists o.
Qed.

Lemma own_deleteObject seed {k} (o : Object k) orphan r :
  readIn seed o → suspensionUIDMatches (obj_Labels o) uid = true →
  own seed (deleteSuspensionObject o orphan r).
Proof.
  intros Ho Hm. apply own_bind; [by apply own_delete|]. intros; apply own_ret.
Qed.

Lemma deleteSuspensionObject_sound {k} (o : Object k) orphan r tr d r' :
  sound r → runs (deleteSuspensionObject o orphan r) tr (d, r') → sound r'.
Proof.
  intros Hr (t1 & e & t2 & _ & _ & H)%runs_bind. apply runs_ret in H as [_ H].
  destruct e; injection H as -> ->; auto with reports.
Qed.

(** *** Identity labels *)
Lemma own_label seed {k} (o : Object k) runUID step :
  readIn seed o → obj_UID o ≠ "" → runOf uid runUID → suspensionStepAllowed step = true →
  labelConflicts (obj_Labels o) LabelRun runUID = false →
  labelConflicts (obj_Labels o) LabelStep step = false →
  meta_ResourceVersion (obj_Meta o) ≠ "" →
  own seed (call (ObjLabel HubClient k (obj_Key o) (obj_UID o) (meta_ResourceVersion (obj_Meta o))
                    (<[LabelRun := runUID]> {[LabelStep := step]}))).
Proof.
  intros Ho Hu Hr Hs H1 H2 Hv tr a ->%runs_call pre ev post Heq _.
  destruct pre as [|x pre]; [|destruct pre; discriminate Heq].
  injection Heq as <- <-. cbn. rewrite app_nil_r. exists o, runUID, step. naive_solver.
Qed.

Lemma patchRunIdentityLabels_own seed {k} (o : Object k) objUID runUID step :
  runOf uid runUID → own seed (patchRunIdentityLabels m o objUID runUID step).
Proof.
  intros Hrun. unfold patchRunIdentityLabels.
  destruct (_ || _) eqn:Hid; [apply own_ret|]. destruct (negb (sm_Reader m)); [apply own_ret|].
  bool_hyps. apply own_read; [done|]. intros [o'|err]; [|apply own_ret].
  destruct (negb (String.eqb _ _)) eqn:Hu; [apply own_ret|].
  destruct (labelConflicts _ LabelRun _) eqn:Hc1; [apply own_ret|].
  destruct (labelConflicts _ LabelStep _) eqn:Hc2; [apply own_ret|].
  destruct (suspensionPodLabelsMatch _ _ _); [apply own_ret|].
  destruct (String.eqb (meta_ResourceVersion _) _) eqn:Hv; [apply own_ret|]. bool_hyps. subst objUID.
  apply own_bind.
  - apply own_label; try done. left. exists (obj_Key o). set_solver.
  - intros t a _. apply own_quiet. destruct a; emits_walk done.
Qed.

(** A labelled object was read, and carries the labels. *)
Lemma patchRunIdentityLabels_run {k} (o : Object k) objUID runUID step tr o' :
  runs (patchRunIdentityLabels m o objUID runUID step) tr (o', None) →
  readIn tr o' ∧ suspensionPodLabelsMatch (obj_Labels o') runUID step = true.
Proof.
  intros H. unfold patchRunIdentityLabels in H.
  run_if H; [by apply runs_ret in H as [_ ?]|]. run_if H; [by apply runs_ret in H as [_ ?]|].
  run_call H got. destruct got as [o1|]; [|by apply runs_ret in H as [_ ?]].
  run_if H; [by apply runs_ret in H as [_ ?]|]. run_if H; [by apply runs_ret in H as [_ ?]|].
  run_if H; [by apply runs_ret in H as [_ ?]|]. run_if H.
  { apply runs_ret in H as [-> [= ->]]. split; [left; exists (obj_Key o); left|done]. }
  run_if H; [by apply runs_ret in H as [_ ?]|]. run_call H patched.
  destruct patched as [o2|]; [|by apply runs_ret in H as [_ ?]]. run_call H again.
  destruct again as [o3|]; [|by apply runs_ret in H as [_ ?]].
  run_if H; [by apply runs_ret in H as [_ ?]|]. apply runs_ret in H as [-> [= ->]]. bool_hyps.
  split; [|done]. left. exists (obj_Key o2). set_solver.
Qed.

Lemma suspensionPodLabelsMatch_run labels runUID step :
  runOf uid runUID → suspensionPodLabelsMatch labels runUID step = true →
  suspensionUIDMatches labels uid = true.
Proof.
  unfold suspensionPodLabelsMatch. rewrite suspensionUIDMatches_runOf.
  by intros Hr [->%String.eqb_eq _]%andb_true_iff.
Qed.

(** *** Pods *)
Lemma removeActivePod_own seed pod parentSafe r :
  readIn seed pod → suspensionUIDMatches (obj_Labels pod) uid = true →
  own seed (removeActivePod pod parentSafe r).
Proof.
  intros Hr Hm. apply own_bind; [by apply own_delete|]. intros t [e|] _; [apply own_ret|].
  apply own_quiet. emits_walk done.
Qed.

Lemma removePod_own seed pod runUID step parentSafe r :
  readIn seed pod → suspensionUIDMatches (obj_Labels pod) uid = true →
  own seed (removePod pod runUID step parentSafe r).
Proof.
  intros Hr Hm. unfold removePod. destruct (_ || _); [apply own_ret|by apply removeActivePod_own].
Qed.

Lemma deleteSuspensionPod_own seed podName runUID step parent persist r :
  runOf uid runUID → own seed (deleteSuspensionPod m podName runUID step parent persist r).
Proof.
  intros Hrun. unfold deleteSuspensionPod. apply own_read; [done|].
  intros [pod|err]; [|destruct (IsNotFound _); apply own_ret].
  destruct (String.eqb _ _); [apply own_ret|].
  destruct (_ && _); [apply own_ret|]. destruct persist.
  - apply own_bind; [by apply patchRunIdentityLabels_own|]. intros t [pod' [err|]] H; [apply own_ret|].
    apply patchRunIdentityLabels_run in H as [Hin Hm]. apply removePod_own.
    + eapply readIn_mono; [|exact Hin]. set_solver.
    + by eapply suspensionPodLabelsMatch_run.
  - destruct (suspensionPodLabelsMatch _ _ _) eqn:Hm; [|apply own_ret]. apply removePod_own.
    + left. exists (hubKey m podName). set_solver.
    + by eapply suspensionPodLabelsMatch_run.
Qed.

Lemma removePod_sound pod runUID step parentSafe r tr out :
  sound r → runs (removePod pod runUID step parentSafe r) tr out → sound (po_Report out).
Proof.
  intros Hr H. unfold removePod, removeActivePod in H. run_if H; [by apply runs_ret in H as [_ ->]|].
  apply runs_bind in H as (t1 & [err|] & t2 & _ & _ & H).
  { apply runs_ret in H as [_ ->]. cbn. auto with reports. }
  run_call H got. apply runs_ret in H as [_ ->].
  repeat case_match; cbn; auto with reports.
Qed.

Lemma deleteSuspensionPod_sound podName runUID step parent persist r tr out :
  sound r → runs (deleteSuspensionPod m podName runUID step parent persist r) tr out →
  sound (po_Report out).
Proof.
  intros Hr H. unfold deleteSuspensionPod in H. run_call H got. destruct got as [pod|err].
  - run_if H; [apply runs_ret in H as [_ ->]; cbn; auto with reports|].
    set (parentSafe := ownedBy pod parent) in H.
    set (r' := if parentSafe then r else _) in H.
    assert (Hr' : sound r') by (subst r'; destruct parentSafe; auto with reports). clearbody r'.
    run_if H; [by apply runs_ret in H as [_ ->]|]. run_if H.
    + apply runs_bind in H as (t1 & [pod' [e|]] & t2 & _ & _ & H); [|by eapply removePod_sound].
      apply runs_ret in H as [_ ->]. cbn. auto with reports.
    + run_if H; [apply runs_ret in H as [_ ->]; cbn; auto with reports|by eapply removePod_sound].
  - run_if H; apply runs_ret in H as [_ ->]; cbn; auto with reports.
Qed.

(** *** The loops of a pass *)

(** A step of a loop keeps the invariant, and changes only what it may. *)
Lemma own_foldM seed {A S} (P : S → Prop) (xs : list A) (body : A → S → M S) s tr s' :
  (∀ x s0, x ∈ xs → P s0 → own seed (body x s0) ∧
     ∀ t s1, runs (body x s0) t s1 → P s1) →
  P s → runs (foldM xs s body) tr s' →
  P s' ∧ preceded changesObject (λ pre, ownChange uid (seed ++ pre)) tr.
Proof.
  intros Hb. apply foldM_inv_trace.
  - apply preceded_none. constructor.
  - apply preceded_app. intros x pre ev. apply ownChange_mono. set_solver.
  - intros x s0 t s1 Hx Hs0 H. destruct (Hb x s0 Hx Hs0) as [Ho Hp]. split; [by eapply Hp|by eapply Ho].
Qed.

Lemma removeEach_keeps seed {k} (judge : Object k → Verdict) items r tr r' :
  (∀ o, judge o = Manage → suspensionUIDMatches (obj_Labels o) uid = true) →
  (∀ o, o ∈ items → readIn seed o) → sound r → runs (removeEach judge items r) tr r' →
  sound r' ∧ preceded changesObject (λ pre, ownChange uid (seed ++ pre)) tr.
Proof.
  intros Hj Hin. apply own_foldM. intros o r0 Ho Hr0.
  destruct (judge o) as [|message err|] eqn:Hv.
  - split; [apply own_ret|]. by intros t r1 [_ ->]%runs_ret.
  - split; [apply own_ret|]. intros t r1 [_ ->]%runs_ret. auto with reports.
  - split; [apply own_bind; [apply own_deleteObject; auto|intros; apply own_ret]|].
    intros t r1 (t1 & [d r2] & t2 & _ & H & H2)%runs_bind. apply runs_ret in H2 as [_ ->].
    by eapply deleteSuspensionObject_sound.
Qed.

Context (claims : list (Object KSandboxClaim)).
Abbreviation ok p := (inventoryOk uid claims (pass_Inventory p)).

Lemma ok_withReport i r : inventoryOk uid claims i → sound r → inventoryOk uid claims (withReport i r).
Proof. intros (H1 & H2 & _) Hr. split; [exact H1|]. by split. Qed.

Lemma ok_sound i : inventoryOk uid claims i → sound (inv_Report i).
Proof. by intros (_ & _ & H). Qed.

Lemma removeSandboxPod_keeps seed key p w :
  runOf uid (sw_RunUID w) → readIn seed (sw_Object w) →
  suspensionUIDMatches (obj_Labels (sw_Object w)) uid = true → ok p →
  own seed (removeSandboxPod m key p w) ∧
  ∀ t p', runs (removeSandboxPod m key p w) t p' → ok p'.
Proof.
  intros Hrun Ho Hm Hp. split.
  - apply own_bind; [by apply deleteSuspensionPod_own|]. intros t out _.
    destruct (negb _); [apply own_ret|]. apply own_bind; [|intros ? []; intros; apply own_ret].
    apply own_deleteObject; [|done]. eapply readIn_mono; [|exact Ho]. set_solver.
  - intros tr p' (t1 & out & t2 & _ & H1 & H)%runs_bind.
    assert (Hs : sound (po_Report out)).
    { eapply deleteSuspensionPod_sound; [|exact H1]. by apply ok_sound. }
    assert (Hi : inventoryOk uid claims
              (withReport (putWork (pass_Inventory p) key (withPod w out)) (po_Report out))).
    { apply ok_withReport; [|done]. by apply ok_put. }
    cbv zeta in H. run_if H; [apply runs_ret in H as [_ ->]; cbn; auto with reports|].
    apply runs_bind in H as (t3 & [d r] & t4 & _ & H3 & H). apply runs_ret in H as [_ ->]. cbn.
    apply deleteSuspensionObject_sound in H3; [|done].
    assert (Hi' := ok_withReport _ _ Hi H3). destruct (_ && _); auto with reports.
Qed.

Lemma removeSandbox_keeps seed key p :
  ok p → own seed (removeSandbox m key p) ∧
  ∀ t p', runs (removeSandbox m key p) t p' → ok p'.
Proof.
  intros Hp. unfold removeSandbox.
  destruct (workAt _ _) as [w|] eqn:Hw; [|split; [apply own_ret|by intros t p' [_ ->]%runs_ret]].
  pose proof (ok_work _ _ _ _ _ Hp Hw) as Hrun.
  destruct (sw_Blocked w).
  { split; [apply own_ret|]. intros t p' [_ ->]%runs_ret. cbn. auto with reports. }
  assert (Hput : ∀ o, inventoryOk uid claims (putWork (pass_Inventory p) key (savedIdentity w o)))
    by (intros; by apply ok_put).
  split.
  - apply own_bind; [by apply patchRunIdentityLabels_own|]. intros t [o [err|]] H; [apply own_ret|].
    apply patchRunIdentityLabels_run in H as [Hin Hm]. apply removeSandboxPod_keeps; cbn; try done.
    + eapply readIn_mono; [|exact Hin]. set_solver.
    + by eapply suspensionPodLabelsMatch_run.
  - intros tr p' (t1 & [o [err|]] & t2 & _ & H1 & H)%runs_bind.
    + apply runs_ret in H as [_ ->]. cbn. by apply ok_unverified, ok_blockWork, ok_put.
    + apply patchRunIdentityLabels_run in H1 as [Hin Hm].
      eapply (removeSandboxPod_keeps t1); [..|exact H]; cbn; try done.
      by eapply suspensionPodLabelsMatch_run.
Qed.

Lemma removeStrayPod_keeps seed pod p :
  ok p → own seed (removeStrayPod m uid pod p) ∧
  ∀ t p', runs (removeStrayPod m uid pod p) t p' → ok p'.
Proof.
  intros Hp. unfold removeStrayPod. destruct (judgeLabelled _ _ _) as [|message err|] eqn:Hj.
  - split; [apply own_ret|by intros t p' [_ ->]%runs_ret].
  - split; [apply own_ret|]. intros t p' [_ ->]%runs_ret. cbn. auto with reports.
  - apply judgeLabelled_managed, suspensionUIDMatches_runOf in Hj.
    destruct (decide _); [split; [apply own_ret|by intros t p' [_ ->]%runs_ret]|]. split.
    + apply own_bind; [by apply deleteSuspensionPod_own|]. intros; apply own_ret.
    + intros tr p' (t1 & out & t2 & _ & H1 & H)%runs_bind. apply runs_ret in H as [_ ->]. cbn.
      apply ok_withReport; [done|]. eapply deleteSuspensionPod_sound; [|exact H1]. by apply ok_sound.
Qed.

Lemma removeClaims_keeps seed i r tr r' :
  inventoryOk uid claims i → (∀ o, o ∈ claims → readIn seed o) → sound r →
  runs (foldM (inv_Claims i) r (removeClaim i)) tr r' →
  sound r' ∧ preceded changesObject (λ pre, ownChange uid (seed ++ pre)) tr.
Proof.
  intros (Hc & _) Hin. apply own_foldM. intros c r0 Hc0 Hr0. unfold removeClaim.
  destruct (claimReady i c); [|split; [apply own_ret|by intros t r1 [_ ->]%runs_ret]].
  rewrite Forall_forall in Hc. destruct (Hc _ Hc0) as [(Hm & _) Hcin].
  split; [apply own_bind; [apply own_deleteObject; auto|intros; apply own_ret]|].
  intros t r1 (t1 & [d r2] & t2 & _ & H & H2)%runs_bind. apply runs_ret in H2 as [_ ->].
  by eapply deleteSuspensionObject_sound.
Qed.
End Changes.

(** ** The whole pass *)
Section Passes.
Context `{K : ApiMachinery} `{SUL : SuspensionLibs}.
Context (m : SandboxManager) (uid : string).
Abbreviation own seed := (precededIn changesObject (λ pre, ownChange uid (seed ++ pre))).
Abbreviation ownIn seed tr := (preceded changesObject (λ pre, ownChange uid (seed ++ pre)) tr).

(** *** The lists *)

(** Everything in the lists was read in the trace. *)
Definition listsRead (tr : trace) (l : Lists) : Prop :=
  (∀ o, o ∈ l_Claims l → readIn tr o) ∧ (∀ o, o ∈ l_Pools l → readIn tr o) ∧
  (∀ o, o ∈ itemsOf (l_Accounts l) → readIn tr o) ∧ (∀ o, o ∈ itemsOf (l_Roles l) → readIn tr o) ∧
  (∀ o, o ∈ itemsOf (l_RoleBindings l) → readIn tr o) ∧
  (∀ o, o ∈ itemsOf (l_ClusterRoles l) → readIn tr o) ∧
  (∀ o, o ∈ itemsOf (l_ClusterRoleBindings l) → readIn tr o) ∧
  (∀ o, o ∈ itemsOf (l_Secrets l) → readIn tr o).

Lemma itemsOf_read tr k ns sel (items : res (list (Object k))) :
  (Ev (ObjList HubReader k ns sel) items : event answer) ∈ tr →
  ∀ o, o ∈ itemsOf items → readIn tr o.
Proof.
  destruct items as [items|]; cbn; [|by intros _ o ?%not_elem_of_nil].
  intros Hin o Ho. right. by exists ns, sel, items.
Qed.

Lemma optionalList_quiet e crd what r :
  emits (λ ev, changesObject ev = false) (optionalList m e crd what r).
Proof. unfold optionalList, optionalSandboxAPIAbsent. emits_walk done. Qed.

Lemma sound_unverifiedIf r message err : sound r → sound (recordUnverifiedIf r message err).
Proof. destruct err; cbn; auto with reports. Qed.

Lemma optionalList_sound e crd what r tr out r' :
  sound r → runs (optionalList m e crd what r) tr (out, r') → sound r'.
Proof.
  intros Hr (t1 & [absent r1] & t2 & _ & H & H2)%runs_bind. apply runs_ret in H2 as [_ [= -> ->]].
  apply sound_unverifiedIf. unfold optionalSandboxAPIAbsent in H.
  destruct e as [err|]; [|by apply runs_ret in H as [_ [= -> ->]]].
  run_if H; [by apply runs_ret in H as [_ [= -> ->]]|]. run_call H cfg.
  run_if H; [by apply runs_ret in H as [_ [= -> ->]]|].
  run_if H; [by apply runs_ret in H as [_ [= -> ->]]|]. run_call H got.
  apply runs_ret in H as [_ H]. repeat case_match; injection H as -> ->; auto with reports.
Qed.

Lemma takeInventory_quiet : emits (λ ev, changesObject ev = false) (takeInventory m uid).
Proof.
  unfold takeInventory. repeat (first [solve [apply optionalList_quiet] | emits_walk done]).
Qed.

Lemma takeInventory_run tr l :
  runs (takeInventory m uid) tr l → listsRead tr l ∧ sound (l_Report l).
Proof.
  intros H. unfold takeInventory in H.
  run_call H pods. run_call H claims. run_call H sandboxes. run_call H pools.
  apply runs_bind in H as (t1 & [e1 r1] & u1 & -> & H1 & H).
  apply runs_bind in H as (t2 & [e2 r2] & u2 & -> & H2 & H).
  apply runs_bind in H as (t3 & [e3 r3] & u3 & -> & H3 & H).
  run_call H accounts. run_call H roles. run_call H roleBindings. run_call H clusterRoles.
  run_call H clusterRoleBindings. run_call H secrets. apply runs_ret in H as [-> ->]. cbn.
  apply optionalList_sound in H1; [|apply sound_unverifiedIf, sound_empty].
  apply optionalList_sound in H2; [|done]. apply optionalList_sound in H3; [|done].
  split; [|by repeat apply sound_unverifiedIf].
  repeat split; eapply itemsOf_read; find_event.
Qed.

(** *** The deletions *)
Lemma removeAll_keeps seed l tr r :
  listsRead seed l → sound (l_Report l) → runs (removeAll m uid l) tr r →
  sound r ∧ ownIn seed tr.
Proof.
  intros (Hclaims & Hpools & Hacc & Hroles & Hrbs & Hcrs & Hcrbs & Hsecs) Hr H.
  unfold removeAll in H. set (i := buildInventory _ _ _ _ _ _ _ _) in H.
  assert (Hi : inventoryOk uid (l_Claims l) i) by by apply buildInventory_ok.
  assert (Hmono : ∀ (x pre : trace) ev, ownChange uid (seed ++ pre) ev → ownChange uid (seed ++ x ++ pre) ev).
  { intros x pre ev. apply ownChange_mono. set_solver. }
  apply runs_bind in H as (t1 & p1 & u1 & -> & H1 & H).
  apply runs_bind in H as (t2 & r2 & u2 & -> & H2 & H).
  apply runs_bind in H as (t3 & p3 & u3 & -> & H3 & H).
  apply runs_bind in H as (t4 & r4 & u4 & -> & H4 & H).
  apply runs_bind in H as (t5 & r5 & u5 & -> & H5 & H).
  apply runs_bind in H as (t6 & r6 & u6 & -> & H6 & H).
  apply runs_bind in H as (t7 & r7 & u7 & -> & H7 & H).
  apply runs_bind in H as (t8 & r8 & u8 & -> & H8 & H).
  apply runs_bind in H as (t9 & r9 & u9 & -> & H9 & H).
  apply (own_foldM uid seed (λ p, inventoryOk uid (l_Claims l) (pass_Inventory p))) in H1
    as [Hp1 O1]; [|intros key p _; apply removeSandbox_keeps|exact Hi].
  apply (removeEach_keeps uid seed) in H2 as [S2 O2];
    [|apply judgeLabelled_managed|done|by eapply ok_sound].
  apply (own_foldM uid seed (λ p, inventoryOk uid (l_Claims l) (pass_Inventory p))) in H3
    as [Hp3 O3]; [|intros pod p _; apply removeStrayPod_keeps|by apply ok_withReport].
  apply (removeEach_keeps uid seed) in H4 as [S4 O4];
    [|apply judgeAccount_managed|done|by eapply ok_sound].
  apply (removeEach_keeps uid seed) in H5 as [S5 O5]; [|apply judgeNamespaced_managed|done|done].
  apply (removeEach_keeps uid seed) in H6 as [S6 O6]; [|apply judgeNamespaced_managed|done|done].
  apply (removeEach_keeps uid seed) in H7 as [S7 O7]; [|apply judgeClusterRole_managed|done|done].
  apply (removeEach_keeps uid seed) in H8 as [S8 O8]; [|apply judgeClusterRoleBinding_managed|done|done].
  apply (removeEach_keeps uid seed) in H9 as [S9 O9]; [|apply judgeSecret_managed|done|done].
  apply (removeClaims_keeps uid (l_Claims l) seed) in H as [S10 O10]; [|done|done|done].
  split; [done|]. by repeat (apply preceded_app; [exact Hmono|assumption|]).
Qed.

(** *** The runs of a pass *)
Lemma confirmSuspensionInventory_quiet r :
  emits (λ ev, changesObject ev = false) (confirmSuspensionInventory m uid r).
Proof.
  unfold confirmSuspensionInventory, confirmSandboxAPIs, confirmList.
  repeat (first [solve [apply optionalList_quiet] | emits_walk done]).
Qed.

Lemma RequireCurrentActivation_current reader a tr e :
  runs (RequireCurrentActivation reader a) tr e →
  none changesObject tr ∧
  (e = None → ∃ config, (Ev (ApiGetConfig "cluster") (Ok config) : event answer) ∈ tr ∧
                        SuspensionActivationMatches (Some config) a = true).
Proof.
  intros H. unfold RequireCurrentActivation in H. run_call H ctx.
  destruct ctx as [err|]; [apply runs_ret in H as [-> ->]; split; [by repeat constructor|done]|].
  run_if H; [apply runs_ret in H as [-> ->]; split; [by repeat constructor|done]|].
  run_call H got. apply runs_ret in H as [-> ->]. split; [by repeat constructor|].
  destruct got as [config|err]; [|by destruct (IsNotFound err)].
  destruct (SuspensionActivationMatches (Some config) a) eqn:Hm; [|done].
  intros _. exists config. split; [find_event|done].
Qed.

(** What a pass that stops before its work returns. *)
Lemma checkActivation_run activation r tr stop :
  runs (checkActivation m activation r) tr stop →
  none changesObject tr ∧
  match stop with
  | Some (c, e) =>
      Confirmed c = false ∨ ∃ err, e = Some err ∧ errorsAny isSentinelSuperseded err = true
  | None =>
      match activation with
      | None => True
      | Some a => ∃ config, (Ev (ApiGetConfig "cluster") (Ok config) : event answer) ∈ tr ∧
                            SuspensionActivationMatches (Some config) a = true
      end
  end.
Proof.
  intros H. unfold checkActivation in H. destruct activation as [a|]; [|by apply runs_ret in H as [-> ->]].
  apply runs_bind in H as (t1 & e & t2 & -> & H1 & H). apply runs_ret in H as [-> ->]. rewrite app_nil_r.
  apply RequireCurrentActivation_current in H1 as [Hq Hok]. split; [done|].
  destruct e as [err|]; [|by apply Hok].
  destruct (errorsAny isSentinelSuperseded err) eqn:Hs; [by eauto|].
  left. apply not_true_is_false, unverified_unclean.
Qed.

(** A pass takes its lists; it stops, or it works and looks again. *)
Lemma cleanupSuspension_run activation tr c e :
  runs (cleanupSuspension m uid activation) tr (c, e) →
  (tr = [] ∧ Confirmed c = false) ∨
  ∃ t1 l t2 stop, runs (takeInventory m uid) t1 l ∧
    runs (checkActivation m activation (l_Report l)) t2 stop ∧
    match stop with
    | Some out => tr = t1 ++ t2 ∧ out = (c, e)
    | None => ∃ t3 r t4 r', tr = t1 ++ t2 ++ t3 ++ t4 ∧ runs (removeAll m uid l) t3 r ∧
                runs (confirmSuspensionInventory m uid r) t4 r' ∧
                c = rep_Summary r' ∧ e = joinAll (rep_Errors r')
    end.
Proof.
  intros H. unfold cleanupSuspension in H. run_if H.
  { apply runs_ret in H as [-> [= -> ->]]. left. split; [done|].
    done. }
  right. apply runs_bind in H as (t1 & l & u1 & -> & H1 & H).
  apply runs_bind in H as (t2 & stop & u2 & -> & H2 & H). exists t1, l, t2, stop.
  split; [done|]. split; [done|]. destruct stop as [out|].
  { apply runs_ret in H as [-> ->]. by rewrite app_nil_r. }
  apply runs_bind in H as (t3 & r & u3 & -> & H3 & H).
  apply runs_bind in H as (t4 & r' & u4 & -> & H4 & H). apply runs_ret in H as [-> [= -> ->]].
  rewrite app_nil_r. eauto 12.
Qed.

Lemma cleanupSuspension_clean activation tr c e :
  runs (cleanupSuspension m uid activation) tr (c, e) → Confirmed c = true →
  match e with
  | Some err => errorsAny isSentinelSuperseded err = true ∧ none changesObject tr
  | None => ∃ work look, tr = work ++ look ∧ none changesObject look ∧
              nothingLeft uid (sm_Namespace m) look
  end.
Proof.
  intros [[_ Hn]|(t1 & l & t2 & stop & H1 & H2 & H)]%cleanupSuspension_run Hc; [congruence|].
  pose proof (takeInventory_quiet _ _ H1) as Q1. destruct (takeInventory_run _ _ H1) as [Hl Hs].
  apply checkActivation_run in H2 as [Q2 Hstop]. destruct stop as [out|].
  - destruct H as [-> ->]. destruct Hstop as [?|(err & -> & ?)]; [congruence|].
    split; [done|]. by apply none_app.
  - destruct H as (t3 & r & t4 & r' & -> & H3 & H4 & -> & ->).
    pose proof (confirmSuspensionInventory_quiet _ _ _ H4) as Q4.
    destruct (removeAll_keeps _ _ _ _ Hl Hs H3) as [Hr _].
    apply confirmSuspensionInventory_clean in H4 as [-> Hleft]; [|exact Hc].
    rewrite (Hr Hc). cbn. exists (t1 ++ t2 ++ t3), t4. by rewrite !app_assoc.
Qed.

(** C6: a pass that reports nothing pending, failed or unverified has, after its
    last change to the cluster, listed from the uncached API every kind of object that
    works for a run or gives it access (unfinished pods, claims, sandboxes, warm pools,
    accounts, roles and their bindings, kubeconfigs: [marked]), and found none of the run
    (a sandbox API may instead have been found absent); and it returns no error.  Finished
    pods, input ConfigMaps and sandbox templates may be left.  The only other report like it is that of a
    pass whose activation was superseded, which returns that error and changed
    nothing. *)
Theorem cleanupSuspension_confirmed activation tr c e :
  runs (cleanupSuspension m uid activation) tr (c, e) → Confirmed c = true →
  match e with
  | Some err => errorsAny isSentinelSuperseded err = true ∧ none changesObject tr
  | None => ∃ work look, tr = work ++ look ∧ none changesObject look ∧
              nothingLeft uid (sm_Namespace m) look
  end.
Proof. apply cleanupSuspension_clean. Qed.

Lemma cleanupSuspension_own activation tr c e :
  runs (cleanupSuspension m uid activation) tr (c, e) →
  preceded changesObject (ownChange uid) tr.
Proof.
  intros [[-> _]|(t1 & l & t2 & stop & H1 & H2 & H)]%cleanupSuspension_run;
    [apply preceded_none; constructor|].
  pose proof (takeInventory_quiet _ _ H1) as Q1. destruct (takeInventory_run _ _ H1) as [Hl Hs].
  apply checkActivation_run in H2 as [Q2 _].
  destruct stop as [out|]; [destruct H as [-> _]; by apply preceded_none, none_app|].
  destruct H as (t3 & r & t4 & r' & -> & H3 & H4 & _).
  destruct (removeAll_keeps _ _ _ _ Hl Hs H3) as [_ Ho].
  apply preceded_seq; [by apply preceded_none|].
  apply preceded_app; [intros x pre ev; apply ownChange_mono; set_solver|by apply preceded_none|].
  apply preceded_app; [intros x pre ev; apply ownChange_mono; set_solver|exact Ho|].
  by apply preceded_none, (confirmSuspensionInventory_quiet _ _ _ H4).
Qed.

(** The calls of a pass. *)
Definition passCall (ev : event answer) : bool :=
  match ev with
  | Ev (ObjGet _ _ _) _ | Ev (ObjList _ _ _ _) _ | Ev (ObjLabel _ _ _ _ _ _) _
  | Ev (ObjDelete _ _ _ _) _ | Ev ConfigGet _ | Ev ContextErr _ | Ev (ApiGetConfig _) _ => true
  | _ => false
  end.
Abbreviation passOnly := (emits (λ ev, passCall ev = true)).

Lemma patchRunIdentityLabels_calls {k} (o : Object k) objUID runUID step :
  passOnly (patchRunIdentityLabels m o objUID runUID step).
Proof. emits_deep. Qed.
Lemma deleteSuspensionObject_calls {k} (o : Object k) orphan r :
  passOnly (deleteSuspensionObject o orphan r).
Proof. emits_deep. Qed.
Lemma optionalList_calls e crd what r : passOnly (optionalList m e crd what r).
Proof. emits_deep. Qed.
#[local] Hint Resolve patchRunIdentityLabels_calls deleteSuspensionObject_calls
  optionalList_calls : emits_deep.
Lemma deleteSuspensionPod_calls podName runUID step parent persist r :
  passOnly (deleteSuspensionPod m podName runUID step parent persist r).
Proof. emits_deep. Qed.
Lemma takeInventory_calls : passOnly (takeInventory m uid).
Proof. emits_deep. Qed.
#[local] Hint Resolve deleteSuspensionPod_calls takeInventory_calls : emits_deep.
Lemma removeAll_calls l : passOnly (removeAll m uid l).
Proof. emits_deep. Qed.
Lemma confirmSuspensionInventory_calls r : passOnly (confirmSuspensionInventory m uid r).
Proof. emits_deep. Qed.
#[local] Hint Resolve removeAll_calls confirmSuspensionInventory_calls : emits_deep.
Lemma cleanupSuspension_calls activation : passOnly (cleanupSuspension m uid activation).
Proof. emits_deep. Qed.

(** C7: a pass changes the cluster only by deleting objects it read from the uncached
    API that carry the label of the run, each deletion bound to the UID read, and by
    adding the labels of the run and the step to such objects, bound to the UID and
    the resource version read, where they do not contradict labels that are there. *)
Theorem cleanupSuspension_changes_own activation tr c e :
  runs (cleanupSuspension m uid activation) tr (c, e) →
  preceded changesObject (ownChange uid) tr.
Proof. apply cleanupSuspension_own. Qed.

(** A pass of an activation changes nothing before it has read, from the uncached
    API, a configuration that is still suspended by that activation; so a superseded
    activation, or one that cannot be verified, changes nothing. *)
Theorem cleanupSuspension_current a tr c e :
  runs (cleanupSuspension m uid (Some a)) tr (c, e) →
  preceded changesObject (λ pre _, ∃ config,
    (Ev (ApiGetConfig "cluster") (Ok config) : event answer) ∈ pre ∧
    SuspensionActivationMatches (Some config) a = true) tr.
Proof.
  intros [[-> _]|(t1 & l & t2 & stop & H1 & H2 & H)]%cleanupSuspension_run;
    [apply preceded_none; constructor|].
  pose proof (takeInventory_quiet _ _ H1) as Q1. apply checkActivation_run in H2 as [Q2 Hok].
  destruct stop as [out|]; [destruct H as [-> _]; by apply preceded_none, none_app|].
  destruct H as (t3 & r & t4 & r' & -> & _). destruct Hok as (config & Hin & Hm).
  rewrite app_assoc. apply preceded_seq; [by apply preceded_none, none_app|].
  intros pre ev post _ _. exists config. split; [set_solver|done].
Qed.
End Passes.
