(* ===== verification/OLSConfig.v ===== *)
(** The global suspension controller
    ([controller/agenticolsconfig/reconciler.go]): activation and deactivation
    of the suspension in the status of the [AgenticOLSConfig], the pass that
    records the stop of every affected run and cleans the sandboxes up, and the
    outcome and resumption safety it publishes. *)
From stdpp Require Import base list option strings gmap sorting.
From Stdlib Require Import ZArith Lia.
From S2P Require Import Prelude GoText ApiMachinery Types Phase Effects Approval Resolve.
From S2P Require Import Results Helpers Handlers Suspension.

Local Open Scope string_scope.
Local Open Scope list_scope.
Local Open Scope prog_scope.

Definition requeueDelay : Duration := (5 * Second)%Z.
Definition backgroundCleanupPassTimeout : Duration := (5 * Second)%Z.
Definition statusPatchAttempts : nat := 3.
Definition maxDiagnosticItems : nat := 6.
Definition maxDiagnosticLength : nat := 1024.
Definition reasonStopping : string := "Stopping".
Definition reasonAdminActivated : string := "AdminActivated".
Definition reasonAdminActivatedWithErrors : string := "AdminActivatedWithErrors".
Definition reasonAdminDeactivated : string := "AdminDeactivated".
Definition reasonCleanupConfirmed : string := "CleanupConfirmed".
Definition eventReasonSuspensionActivated : string := "SuspensionActivated".
Definition eventReasonSuspensionDeactivated : string := "SuspensionDeactivated".
Definition EventTypeNormal : string := "Normal".
Definition EventTypeWarning : string := "Warning".

(** The fields of [Reconciler] that may be [nil]. *)
Record OLSReconciler := MkOLSReconciler {
  ols_Client : bool;
  ols_EventRecorder : bool;
  ols_APIReader : bool;
  ols_Sandbox : bool;
}.

Definition config_Generation (c : AgenticOLSConfig) : Z := meta_Generation (config_Meta c).

(** [now.UTC().Truncate(time.Second)]. *)
Definition truncateSecond (t : Time) : Time := (t - t mod Second)%Z.

(** ** Diagnostics *)

(** The loop of [sortedUnique] over the sorted values: [last] is
    [values[write-1]]. *)
Fixpoint dedupFrom (last : string) (values : list string) : list string :=
  match values with
  | [] => []
  | value :: values' =>
      if String.eqb last value then dedupFrom last values'
      else value :: dedupFrom value values'
  end.

Definition sortedUnique (values : list string) : list string :=
  match sortStrings values with
  | [] => []
  | value :: values' => value :: dedupFrom value values'
  end.

Definition boundedDiagnostic (message : string) : string :=
  if (String.length message <=? maxDiagnosticLength)%nat then message
  else
    let rs := runes message in
    if (length rs <=? maxDiagnosticLength)%nat then message
    else stringOfRunes (take (maxDiagnosticLength - 3) rs) +:+ "...".

Definition knownRemoteEvidence (run : AgenticRun) : string :=
  match RemoteExecutionEvidence run with
  | [] => ""
  | evidence =>
      boundedDiagnostic ("remote execution/access unverified for " +:+ run_Namespace run +:+ "/"
        +:+ run_Name run +:+ " uid=" +:+ run_UID run +:+ " target="
        +:+ spec_TargetCluster (run_Spec run) +:+ ": " +:+ Join (sortStrings evidence) ", ")
  end.

(** ** Evidence of a pass *)
Record activationEvidence := MkEvidence {
  ev_cleanup : SuspensionCleanup;
  ev_cleanupErr : option error;
  ev_runInventoryErr : option error;
  ev_unsavedMarkers : list string;
  ev_pendingRunOutcomes : list string;
  ev_unverifiedRemote : list string;
}.

Definition noEvidence : activationEvidence :=
  MkEvidence (MkSuspensionCleanup [] [] []) None None [] [] [].

Definition withInventoryErr (e : activationEvidence) (err : error) : activationEvidence :=
  MkEvidence (ev_cleanup e) (ev_cleanupErr e) (Some err) (ev_unsavedMarkers e)
    (ev_pendingRunOutcomes e) (ev_unverifiedRemote e).
Definition withCleanup (e : activationEvidence) (report : SuspensionCleanup)
    (err : option error) : activationEvidence :=
  MkEvidence report err (ev_runInventoryErr e) (ev_unsavedMarkers e)
    (ev_pendingRunOutcomes e) (ev_unverifiedRemote e).
Definition addUnsaved (e : activationEvidence) (item : string) : activationEvidence :=
  MkEvidence (ev_cleanup e) (ev_cleanupErr e) (ev_runInventoryErr e)
    (ev_unsavedMarkers e ++ [item]) (ev_pendingRunOutcomes e) (ev_unverifiedRemote e).
Definition addPending (e : activationEvidence) (item : string) : activationEvidence :=
  MkEvidence (ev_cleanup e) (ev_cleanupErr e) (ev_runInventoryErr e) (ev_unsavedMarkers e)
    (ev_pendingRunOutcomes e ++ [item]) (ev_unverifiedRemote e).
Definition addRemote (e : activationEvidence) (item : string) : activationEvidence :=
  MkEvidence (ev_cleanup e) (ev_cleanupErr e) (ev_runInventoryErr e) (ev_unsavedMarkers e)
    (ev_pendingRunOutcomes e) (ev_unverifiedRemote e ++ [item]).

Definition isNil {A} (xs : list A) : bool := match xs with [] => true | _ => false end.
Definition isNone {A} (o : option A) : bool := match o with None => true | _ => false end.

Definition cleanupConfirmed (e : activationEvidence) : bool :=
  isNone (ev_cleanupErr e) && Confirmed (ev_cleanup e).

Definition runAcceptanceConfirmed (e : activationEvidence) : bool :=
  isNone (ev_runInventoryErr e) && isNil (ev_unsavedMarkers e).

Definition safeToResume (e : activationEvidence) : bool :=
  cleanupConfirmed e && runAcceptanceConfirmed e && isNil (ev_unverifiedRemote e).

Definition unresolved (e : activationEvidence) : bool :=
  negb (cleanupConfirmed e) || negb (runAcceptanceConfirmed e)
  || negb (isNil (ev_pendingRunOutcomes e)) || negb (isNil (ev_unverifiedRemote e)).

(** The items of [diagnostic], before they are sorted. *)
Definition diagnosticItems (e : activationEvidence) : list string :=
  map (λ item, "cleanup pending: " +:+ item) (sc_Pending (ev_cleanup e))
  ++ map (λ item, "cleanup failed: " +:+ item) (sc_Failures (ev_cleanup e))
  ++ map (λ item, "cleanup unverified: " +:+ item) (sc_Unverified (ev_cleanup e))
  ++ ev_unsavedMarkers e ++ ev_pendingRunOutcomes e ++ ev_unverifiedRemote e
  ++ (if isNone (ev_cleanupErr e) then [] else ["cleanup pass returned an error"])
  ++ (if isNone (ev_runInventoryErr e) then [] else ["run inventory unavailable"]).

Definition count {A} (xs : list A) : string := Itoa (Z.of_nat (length xs)).

Definition diagnostic (e : activationEvidence) (prefix : string) : string :=
  let items := sortedUnique (diagnosticItems e) in
  let counts :=
    count (sc_Pending (ev_cleanup e)) +:+ " cleanup pending, "
    +:+ count (sc_Failures (ev_cleanup e)) +:+ " cleanup failures, "
    +:+ count (sc_Unverified (ev_cleanup e)) +:+ " cleanup unverified, "
    +:+ count (ev_unsavedMarkers e) +:+ " unsaved stop markers, "
    +:+ count (ev_pendingRunOutcomes e) +:+ " run outcomes pending, "
    +:+ count (ev_unverifiedRemote e) +:+ " remote executions/access unverified"
    +:+ (if isNone (ev_cleanupErr e) then "" else ", cleanup pass error")
    +:+ (if isNone (ev_runInventoryErr e) then "" else ", run inventory unavailable") in
  let message := prefix +:+ ": " +:+ counts in
  let selected :=
    if (maxDiagnosticItems <? length items)%nat
    then take maxDiagnosticItems items
         ++ [Itoa (Z.of_nat (length items - maxDiagnosticItems)) +:+ " additional unresolved items"]
    else items in
  boundedDiagnostic
    (if isNil items then message else message +:+ "; unresolved: " +:+ Join selected "; ").

Definition outcomeForEvidence (e : activationEvidence) (currentReason : string)
    (deadlineReached : bool) : string * string :=
  if String.eqb currentReason reasonAdminActivatedWithErrors then
    (reasonAdminActivatedWithErrors,
     if unresolved e then diagnostic e "Suspension completed with errors"
     else "Suspension completed with errors; current cleanup and stop-acceptance safety are confirmed")
  else if unresolved e then
    if deadlineReached
    then (reasonAdminActivatedWithErrors, diagnostic e "Suspension completed with errors")
    else (reasonStopping, diagnostic e "Suspension stopping")
  else (reasonAdminActivated, "System suspended; cleanup and affected run outcomes are confirmed").

(** [terminalRunMayBeAffected]. *)
Definition terminalRunMayBeAffected (run : AgenticRun) (start : Time) : bool :=
  match status_TerminalTime (run_Status run) with
  | None => true
  | Some t => Time_IsZero t || negb (Time_Before t start)
  end.

(** Whether the pass records a stop on the run. *)
Definition acceptStop (run : AgenticRun) (start : Time) : bool :=
  negb (isTerminal (DerivePhase (run_Conditions run))) || terminalRunMayBeAffected run start.

Definition suspensionRequeueDelay (start now : Time) : Duration :=
  let remaining := Time_Sub (Time_Add start SuspensionStopWindow) now in
  if (0 <? remaining)%Z && (remaining <? requeueDelay)%Z then remaining else requeueDelay.

Section OLSConfig.
Context `{K : ApiMachinery} (r : OLSReconciler).

Definition findConfig (c : AgenticOLSConfig) (typ : string) : option Condition :=
  FindStatusCondition (config_Conditions c) typ.

(** [Suspended=True] of the generation, with its time: the activation is recorded. *)
Definition currentActivation (c : AgenticOLSConfig) : option Time :=
  match findConfig c AgenticOLSConfigConditionSuspended with
  | Some s =>
      if bool_decide (cond_Status s = ConditionTrue)
         && (cond_ObservedGeneration s =? config_Generation c)%Z
         && negb (Time_IsZero (cond_LastTransitionTime s))
      then Some (cond_LastTransitionTime s) else None
  | None => None
  end.

Definition activationStart (c : AgenticOLSConfig) (now : Time) : Time :=
  match currentActivation c with
  | Some start => start
  | None => truncateSecond now
  end.

(** [setConditionAt]: [SetStatusCondition] reads the clock, and the time of the
    condition is then the one given. *)
Definition setConditionAt (cs : list Condition) (c : Condition) (at_ : Time)
    : M (list Condition) :=
  now <- call Now ;;
  Ret (setLastTransitionTime (SetStatusCondition now cs c) (cond_Type c) at_).

(** What an attempt of a patch loop ends with; [None] is a conflict. *)
Definition patchConfig {A} (base : AgenticOLSConfig) (cs : list Condition)
    (bad : error → A) (good : AgenticOLSConfig → M A) : M (option A) :=
  p <- call (StatusPatchConfig base (withConfigConditions base cs)) ;;
  match p with
  | Err err => Ret (if IsConflict err then None else Some (bad err))
  | Ok current => a <- good current ;; Ret (Some a)
  end.

(** What [ensureActivationStatus] returns without an error. *)
Inductive activationStatus :=
| configGone
| notSuspended (current : AgenticOLSConfig)
| activated (current : AgenticOLSConfig) (start : Time) (fresh : bool).

Definition activationAttempt (name : string) : M (option (res activationStatus)) :=
  got <- call (ApiGetConfig name) ;;
  match got with
  | Err err =>
      Ret (Some (if IsNotFound err then Ok configGone
                 else Err (wrapError "read AgenticOLSConfig through uncached API reader" err)))
  | Ok current =>
      if negb (config_Suspended current) then Ret (Some (Ok (notSuspended current)))
      else
        now <- call Now ;;
        let generation := config_Generation current in
        let recorded := negb (isNone (currentActivation current)) in
        let start := activationStart current now in
        let needsSafetyCondition :=
          match findConfig current AgenticOLSConfigConditionSafeToResume with
          | Some safe => negb (cond_ObservedGeneration safe =? generation)%Z
          | None => true
          end in
        if recorded && negb needsSafetyCondition then
          Ret (Some (Ok (activated current start false)))
        else
          cs <-
            (if negb recorded then
               cs1 <- setConditionAt (config_Conditions current)
                 (NewCondition AgenticOLSConfigConditionSuspended ConditionTrue reasonStopping
                    "Suspension accepted; global workload and access cleanup is in progress"
                    generation) start ;;
               setConditionAt cs1
                 (NewCondition AgenticOLSConfigConditionSafeToResume ConditionFalse
                    reasonStopping
                    "Cleanup and durable run-stop acceptance are not yet confirmed"
                    generation) start
             else
               setConditionAt (config_Conditions current)
                 (NewCondition AgenticOLSConfigConditionSafeToResume ConditionFalse
                    reasonStopping
                    "Current-generation resumption safety has not been confirmed"
                    generation) start) ;;
          patchConfig current cs
            (λ err, Err (wrapError "persist current-generation suspension acceptance" err))
            (λ patched, Ret (Ok (activated patched start (negb recorded))))
  end.

Definition ensureActivationStatus (name : string) : M (res activationStatus) :=
  retry statusPatchAttempts (activationAttempt name)
    (Ret (Err (errorString
       "persist current-generation suspension acceptance: status conflict retry limit reached"))).

Definition recordIf (enabled : bool) (c : AgenticOLSConfig) (typ reason message : string)
    : M unit :=
  if enabled then call (RecordEvent c typ reason message) else Ret tt.

Definition deactivationAttempt (name : string) : M (option outcome) :=
  got <- call (ApiGetConfig name) ;;
  match got with
  | Err err =>
      Ret (Some (if IsNotFound err then ok emptyResult
                 else fail (wrapError "read AgenticOLSConfig through uncached API reader" err)))
  | Ok current =>
      if config_Suspended current then Ret (Some (ok requeueNow))
      else
        match findConfig current AgenticOLSConfigConditionSuspended with
        | None => Ret (Some (ok emptyResult))
        | Some existing =>
            let wasSuspended := bool_decide (cond_Status existing = ConditionTrue) in
            if negb wasSuspended
               && (cond_ObservedGeneration existing =? config_Generation current)%Z
            then Ret (Some (ok emptyResult))
            else
              now <- call Now ;;
              cs <- setConditionAt (config_Conditions current)
                (NewCondition AgenticOLSConfigConditionSuspended ConditionFalse
                   reasonAdminDeactivated "System resumed; agentic operations re-enabled"
                   (config_Generation current)) now ;;
              patchConfig current cs
                (λ err, fail (wrapError "patch Suspended=False" err))
                (λ patched,
                   recordIf (wasSuspended && ols_EventRecorder r) patched EventTypeNormal
                     eventReasonSuspensionDeactivated
                     "System resumed; agentic operations re-enabled" ;;;
                   Ret (ok emptyResult))
        end
  end.

Definition handleDeactivation (name : string) : M outcome :=
  retry statusPatchAttempts (deactivationAttempt name)
    (Ret (fail (errorString "patch Suspended=False: status conflict retry limit reached"))).

(** ** The pass over the runs *)

(** What [persistRunStop] returns without an error: the run disappeared, or it
    carries the stop marker. *)
Inductive markerStatus := disappeared | markerSaved (current : AgenticRun).

Definition markerAttempt (snapshot : AgenticRun) (activation : SuspensionActivation)
    : M (option (res markerStatus)) :=
  got <- call (ApiGetRun (run_Key snapshot)) ;;
  match got with
  | Err err =>
      Ret (Some (if IsNotFound err then Ok disappeared
                 else Err (wrapError "read run through uncached API reader" err)))
  | Ok current =>
      if negb (String.eqb (run_UID current) (run_UID snapshot)) then Ret (Some (Ok disappeared))
      else if HasAcceptedStop current then Ret (Some (Ok (markerSaved current)))
      else
        superseded <- RequireCurrentActivation (ols_APIReader r) activation ;;
        match superseded with
        | Some err => Ret (Some (Err err))
        | None =>
            cs <- setConditionAt (run_Conditions current)
              (NewCondition AgenticRunConditionStopping ConditionTrue reasonSystemSuspended
                 "Stop accepted by global system suspension" (run_Generation current))
              (act_Start activation) ;;
            p <- call (StatusPatchRun current (withConditions current cs)) ;;
            Ret match p with
                | Ok patched => Some (Ok (markerSaved patched))
                | Err err => if IsConflict err then None
                             else Some (Err (wrapError "patch stop acceptance" err))
                end
        end
  end.

Definition persistRunStop (snapshot : AgenticRun) (activation : SuspensionActivation)
    : M (res markerStatus) :=
  retry statusPatchAttempts (markerAttempt snapshot activation)
    (Ret (Err (errorString "status conflict retry limit reached"))).

Definition runLabel (run : AgenticRun) : string :=
  run_Namespace run +:+ "/" +:+ run_Name run.

(** The end of the loop body: what the run as now known leaves open.  [saved]
    says that this pass holds its marker. *)
Definition noteRun (run current : AgenticRun) (saved : bool) (e : activationEvidence)
    : activationEvidence :=
  let remote := knownRemoteEvidence current in
  let e1 := if negb (String.eqb remote "") then addRemote e remote else e in
  if negb (isTerminal (DerivePhase (run_Conditions run))) && saved
     && negb (isTerminal (DerivePhase (run_Conditions current)))
     && negb (HasFinalStopOutcome current)
  then addPending e1 ("run outcome pending: " +:+ runLabel current +:+ " uid=" +:+ run_UID current)
  else e1.

(** The body of the loop over the runs; [inr tt] is the return of a
    superseded pass. *)
Definition passRun (activation : SuspensionActivation) (run : AgenticRun)
    (e : activationEvidence) : M (activationEvidence + option activationEvidence) :=
  if negb (acceptStop run (act_Start activation)) then Ret (inl (noteRun run run false e))
  else if String.eqb (run_UID run) "" then
    Ret (inl (noteRun run run false
      (addUnsaved e ("stop marker not persisted for " +:+ runLabel run
         +:+ ": run UID is missing"))))
  else
    m <- persistRunStop run activation ;;
    Ret match m with
        | Err err =>
            if errorsAny isSentinelSuperseded err then inr None
            else inl (noteRun run run false
              (addUnsaved e ("stop marker not persisted for " +:+ runLabel run
                 +:+ " uid=" +:+ run_UID run)))
        | Ok disappeared => inl e
        | Ok (markerSaved current) => inl (noteRun run current true e)
        end.

(** The inventory and the stops; [None] when the activation was superseded. *)
Definition stopRuns (activation : SuspensionActivation) : M (option activationEvidence) :=
  listed <- call ApiListRuns ;;
  match listed with
  | Err err => Ret (Some (withInventoryErr noEvidence err))
  | Ok items =>
      superseded <- RequireCurrentActivation (ols_APIReader r) activation ;;
      match superseded with
      | Some err =>
          Ret (if errorsAny isSentinelSuperseded err then None
               else Some (withInventoryErr noEvidence err))
      | None => forEach items noEvidence (passRun activation) (λ e, Ret (Some e))
      end
  end.

(** ** The outcome *)
Definition panicNilConfig : error :=
  panicError "invalid memory address or nil pointer dereference".

Definition outcomeAttempt (activation : SuspensionActivation) (e : activationEvidence)
    (deadlineReached : bool) : M (option (option error)) :=
  got <- call (ApiGetConfig "cluster") ;;
  match got with
  | Err err =>
      Ret (Some (if IsNotFound err then None
                 else Some (wrapError "read AgenticOLSConfig before outcome patch" err)))
  | Ok current =>
      if negb (SuspensionActivationMatches (Some current) activation) then Ret (Some None)
      else
        match findConfig current AgenticOLSConfigConditionSuspended with
        | None => Ret (Some (Some panicNilConfig))
        | Some suspended =>
            let (reason, message) :=
              outcomeForEvidence e (cond_Reason suspended) deadlineReached in
            let safe := safeToResume e in
            let safeStatus := if safe then ConditionTrue else ConditionFalse in
            cs1 <- setConditionAt (config_Conditions current)
              (NewCondition AgenticOLSConfigConditionSuspended ConditionTrue reason message
                 (act_Generation activation)) (act_Start activation) ;;
            now <- call Now ;;
            let cs2 := SetStatusCondition now cs1
              (NewCondition AgenticOLSConfigConditionSafeToResume safeStatus
                 (if safe then reasonCleanupConfirmed else reasonStopping)
                 (if safe
                  then "Observed workload/access cleanup and durable run-stop acceptance are confirmed"
                  else diagnostic e "Resumption remains blocked")
                 (act_Generation activation)) in
            cs3 <-
              (if condIs (findConfig current AgenticOLSConfigConditionSafeToResume) safeStatus
               then Ret cs2
               else t <- call Now ;;
                    Ret (setLastTransitionTime cs2 AgenticOLSConfigConditionSafeToResume t)) ;;
            if bool_decide (config_Conditions current = cs3) then Ret (Some None)
            else
              patchConfig current cs3
                (λ err, Some (wrapError "patch global suspension outcome and safety" err))
                (λ _, Ret None)
        end
  end.

Definition patchActivationOutcome (activation : SuspensionActivation)
    (e : activationEvidence) (deadlineReached : bool) : M (option error) :=
  retry statusPatchAttempts (outcomeAttempt activation e deadlineReached)
    (Ret (Some (errorString
       "patch global suspension outcome and safety: status conflict retry limit reached"))).

(** [errors.Is(err, context.DeadlineExceeded)] on a possibly nil error. *)
Definition deadlineIn (e : option error) : bool :=
  match e with Some err => errorsAny isSentinelDeadline err | None => false end.

(** [boundedCleanupContext]: the new context, and whether the pass is within
    the initial window. *)
Definition boundedCleanupContext (start now : Time) : M bool :=
  let remaining := Time_Sub (Time_Add start SuspensionStopWindow) now in
  if (0 <? remaining)%Z then call (ContextWithTimeout remaining) ;;; Ret true
  else call (ContextWithTimeout backgroundCleanupPassTimeout) ;;; Ret false.

(** From the cleanup on, with the evidence of the runs. *)
Definition concludePass (activation : SuspensionActivation) (initialWindowPass : bool)
    (e : activationEvidence) (report : SuspensionCleanup) (cleanupErr : option error)
    : M outcome :=
  let start := act_Start activation in
  let evidence := withCleanup e report cleanupErr in
  passErr <- call ContextErr ;;
  now <- call Now ;;
  let deadline := Time_Add start SuspensionStopWindow in
  let pastDeadline := negb (Time_Before now deadline) in
  ctxErr <- (if initialWindowPass then call ParentContextErr else Ret None) ;;
  let timedOut :=
    initialWindowPass && isNone ctxErr
    && (deadlineIn passErr || deadlineIn (ev_runInventoryErr evidence)
        || deadlineIn (ev_cleanupErr evidence)) in
  let deadlineReached := pastDeadline || timedOut in
  let now' := if deadlineReached && Time_Before now deadline then deadline else now in
  err <- patchActivationOutcome activation evidence deadlineReached ;;
  Ret match err with
      | Some e0 => fail e0
      | None => ok (requeueAfter (suspensionRequeueDelay start now'))
      end.

Definition reconcileSuspension (config : AgenticOLSConfig) (start : Time) : M outcome :=
  let activation :=
    MkSuspensionActivation (meta_UID (config_Meta config)) (config_Generation config) start in
  now <- call Now ;;
  initialWindowPass <- boundedCleanupContext start now ;;
  stopped <- stopRuns activation ;;
  match stopped with
  | None => Ret (ok emptyResult)
  | Some e =>
      let! (report, cleanupErr) := call (CleanupSuspension "" (Some activation)) in
      if match cleanupErr with
         | Some err => errorsAny isSentinelSuperseded err
         | None => false
         end
      then Ret (ok emptyResult)
      else concludePass activation initialWindowPass e report cleanupErr
  end.

Definition Reconcile (req : NamespacedName) : M outcome :=
  let name := nn_Name req in
  if negb (ols_APIReader r) then
    Ret (fail (errorString "uncached API reader is required by the global suspension controller"))
  else if negb (ols_Client r) then
    Ret (fail (errorString "client is required by the global suspension controller"))
  else
    got <- call (ApiGetConfig name) ;;
    match got with
    | Err err => Ret (emptyResult, IgnoreNotFound err)
    | Ok config =>
        if negb (config_Suspended config) then handleDeactivation name
        else if negb (ols_Sandbox r) then
          Ret (fail (errorString
            "sandbox manager is required by the global suspension controller"))
        else
          status <- ensureActivationStatus name ;;
          match status with
          | Err err => Ret (fail err)
          | Ok configGone => Ret (ok (requeueAfter requeueDelay))
          | Ok (notSuspended _) => handleDeactivation name
          | Ok (activated activeConfig start fresh) =>
              recordIf (fresh && ols_EventRecorder r) activeConfig EventTypeWarning
                eventReasonSuspensionActivated
                "System suspension accepted; workload and access cleanup is in progress" ;;;
              reconcileSuspension activeConfig start
          end
    end.

(** ** The patches of the configuration *)
Section Patches.
Context {KL : ApiMachineryLaws K}.

Definition configStatus (c : AgenticOLSConfig) (typ : string) : option ConditionStatus :=
  statusOf (config_Conditions c) typ.

Definition configPatchOf (ev : event answer) : option (AgenticOLSConfig * AgenticOLSConfig) :=
  match ev with Ev (StatusPatchConfig base obj) _ => Some (base, obj) | _ => None end.

(** Every configuration patch among the calls satisfies [P]. *)
Definition configPatches (P : AgenticOLSConfig → AgenticOLSConfig → Prop) (ev : event answer)
    : Prop :=
  ∀ base obj, configPatchOf ev = Some (base, obj) → P base obj.

Lemma patchConfig_emits {A} P base cs bad (good : AgenticOLSConfig → M A) :
  P base (withConfigConditions base cs) →
  (∀ c, emits (configPatches P) (good c)) →
  emits (configPatches P) (patchConfig base cs bad good).
Proof.
  intros HP Hg. unfold patchConfig. apply emits_bind.
  - apply emits_call. by intros x ? ? [= <- <-].
  - intros [c|err]; [|apply emits_ret]. apply emits_bind; [apply Hg|]. intros. apply emits_ret.
Qed.

Lemma setConditionAt_run cs c t tr cs' :
  runs (setConditionAt cs c t) tr cs' →
  ∃ now, cs' = setLastTransitionTime (SetStatusCondition now cs c) (cond_Type c) t.
Proof. unfold setConditionAt. intros H. run_call H now. runs_step. eauto. Qed.

Lemma setConditionAt_emits P cs c t : emits (configPatches P) (setConditionAt cs c t).
Proof. unfold setConditionAt. emits_walk done. Qed.

(** The conditions after [setConditionAt]. *)
Lemma setAt_same now cs c t :
  firstCondition (setLastTransitionTime (SetStatusCondition now cs c) (cond_Type c) t)
    (cond_Type c) = Some (withLastTransitionTime c t).
Proof.
  rewrite setLastTransitionTime_same.
  destruct (SetStatusCondition_fields now cs c) as [t' ->]. done.
Qed.

Lemma setAt_other now cs c t typ :
  typ ≠ cond_Type c →
  firstCondition (setLastTransitionTime (SetStatusCondition now cs c) (cond_Type c) t) typ
  = firstCondition cs typ.
Proof.
  intros Hn. rewrite setLastTransitionTime_other by done. by apply SetStatusCondition_other.
Qed.

(** A patch of a suspended configuration keeps a recorded activation; a patch
    of one that is not suspended ends it and leaves the safety condition. *)
Definition configStep (base obj : AgenticOLSConfig) : Prop :=
  config_Meta obj = config_Meta base ∧ config_Suspended obj = config_Suspended base ∧
  if config_Suspended base then
    configStatus obj AgenticOLSConfigConditionSuspended = Some ConditionTrue ∧
    ∀ s, currentActivation base = Some s → currentActivation obj = Some s
  else
    configStatus obj AgenticOLSConfigConditionSuspended = Some ConditionFalse ∧
    configStatus obj AgenticOLSConfigConditionSafeToResume
      = configStatus base AgenticOLSConfigConditionSafeToResume.

(** The patch claims that it is safe to resume a suspended system. *)
Definition claimsSafe (obj : AgenticOLSConfig) : Prop :=
  configStatus obj AgenticOLSConfigConditionSuspended = Some ConditionTrue ∧
  configStatus obj AgenticOLSConfigConditionSafeToResume = Some ConditionTrue.

Definition plainStep (base obj : AgenticOLSConfig) : Prop :=
  configStep base obj ∧ ¬ claimsSafe obj.

Lemma currentActivation_status c s :
  currentActivation c = Some s →
  configStatus c AgenticOLSConfigConditionSuspended = Some ConditionTrue.
Proof.
  unfold currentActivation, findConfig, configStatus, statusOf.
  rewrite FindStatusCondition_first. destruct (firstCondition _ _) as [c0|]; [|done].
  intros Hc. case_match; [|done]. bool_hyps. simpl. congruence.
Qed.

Lemma currentActivation_ext c cs :
  firstCondition cs AgenticOLSConfigConditionSuspended
  = firstCondition (config_Conditions c) AgenticOLSConfigConditionSuspended →
  currentActivation (withConfigConditions c cs) = currentActivation c.
Proof.
  intros He. unfold currentActivation, findConfig. rewrite !FindStatusCondition_first.
  simpl. by rewrite He.
Qed.

Lemma freshActivation_step current t1 t2 start reason1 msg1 reason2 msg2 g :
  config_Suspended current = true → currentActivation current = None →
  let set typ st reason msg t cs :=
    setLastTransitionTime (SetStatusCondition t cs (NewCondition typ st reason msg g)) typ start in
  plainStep current (withConfigConditions current
    (set AgenticOLSConfigConditionSafeToResume ConditionFalse reason2 msg2 t2
       (set AgenticOLSConfigConditionSuspended ConditionTrue reason1 msg1 t1
          (config_Conditions current)))).
Proof.
  intros Hsus Hn. cbv zeta. unfold plainStep, configStep, claimsSafe, configStatus.
  rewrite Hsus, Hn. simpl.
  rewrite !statusOf_setTime, statusOf_set_same, statusOf_set_other by done.
  rewrite statusOf_setTime, statusOf_set_same. simpl. naive_solver.
Qed.

Lemma recordedActivation_step current t start reason msg g s :
  config_Suspended current = true → currentActivation current = Some s →
  plainStep current (withConfigConditions current
    (setLastTransitionTime
       (SetStatusCondition t (config_Conditions current)
          (NewCondition AgenticOLSConfigConditionSafeToResume ConditionFalse reason msg g))
       AgenticOLSConfigConditionSafeToResume start)).
Proof.
  intros Hsus Hc. pose proof (currentActivation_status _ _ Hc) as Hs.
  unfold plainStep, configStep, claimsSafe. rewrite Hsus, currentActivation_ext.
  - unfold configStatus in *. simpl.
    rewrite !statusOf_setTime, statusOf_set_same, statusOf_set_other by done.
    simpl. naive_solver.
  - by apply (setAt_other t _ (NewCondition AgenticOLSConfigConditionSafeToResume _ _ _ _)).
Qed.

Lemma activationAttempt_emits name :
  emits (configPatches plainStep) (activationAttempt name).
Proof.
  unfold activationAttempt. apply emits_bind; [apply emits_call; by intros ? ? ?|].
  intros [current|err]; [|apply emits_ret].
  destruct (negb (config_Suspended current)) eqn:Hsus; [apply emits_ret|]. bool_hyps.
  apply emits_bind; [apply emits_call; by intros ? ? ?|]. intros now. cbv zeta.
  destruct (negb (isNone (currentActivation current)) && _); [apply emits_ret|].
  eapply (emits_bind_post _ (λ cs, plainStep current (withConfigConditions current cs))).
  - destruct (negb (negb _));
      [apply emits_bind; [|intros]; apply setConditionAt_emits|apply setConditionAt_emits].
  - intros tr cs H. destruct (currentActivation current) as [s|] eqn:Hc;
    cbn [isNone negb] in H.
    + apply setConditionAt_run in H as [t ->]. by eapply recordedActivation_step.
    + apply runs_bind in H as (tr1 & cs1 & tr2 & -> & H1 & H2).
      apply setConditionAt_run in H1 as [t1 ->]. apply setConditionAt_run in H2 as [t2 ->].
      by apply freshActivation_step.
  - intros cs Hcs. apply patchConfig_emits; [done|]. intros. apply emits_ret.
Qed.

Lemma deactivationAttempt_emits name :
  emits (configPatches plainStep) (deactivationAttempt name).
Proof.
  unfold deactivationAttempt. apply emits_bind; [apply emits_call; by intros ? ? ?|].
  intros [current|err]; [|apply emits_ret].
  destruct (config_Suspended current) eqn:Hsus; [apply emits_ret|].
  destruct (findConfig current _) as [existing|]; [|apply emits_ret]. cbv zeta.
  destruct (_ && _); [apply emits_ret|].
  apply emits_bind; [apply emits_call; by intros ? ? ?|]. intros now.
  eapply (emits_bind_post _ (λ cs, plainStep current (withConfigConditions current cs))).
  - apply setConditionAt_emits.
  - intros tr cs [t ->]%setConditionAt_run.
    unfold plainStep, configStep, claimsSafe, configStatus. rewrite Hsus. simpl.
    rewrite !statusOf_setTime.
    rewrite (statusOf_set_same t _ (NewCondition AgenticOLSConfigConditionSuspended _ _ _ _)),
      statusOf_set_other by done. naive_solver.
  - intros cs Hcs. apply patchConfig_emits; [done|]. intros c. unfold recordIf.
    emits_walk ltac:(by intros ? ? ?).
Qed.

(** The outcome keeps the activation, and claims safety by the evidence. *)
Lemma SuspensionActivationMatches_spec c activation :
  SuspensionActivationMatches (Some c) activation = true →
  config_Suspended c = true ∧ config_Generation c = act_Generation activation ∧
  ∃ s, firstCondition (config_Conditions c) AgenticOLSConfigConditionSuspended = Some s ∧
    cond_Status s = ConditionTrue ∧ cond_ObservedGeneration s = act_Generation activation ∧
    cond_LastTransitionTime s = act_Start activation.
Proof.
  unfold SuspensionActivationMatches, config_Generation. rewrite FindStatusCondition_first.
  destruct (_ || _) eqn:Hb; [done|]. bool_hyps.
  destruct (firstCondition _ _) as [s|]; [|done]. intros. bool_hyps. eauto 8.
Qed.

Definition outcomeStep (activation : SuspensionActivation) (safe : bool)
    (base obj : AgenticOLSConfig) : Prop :=
  SuspensionActivationMatches (Some base) activation = true ∧ configStep base obj ∧
  configStatus obj AgenticOLSConfigConditionSafeToResume
    = Some (if safe then ConditionTrue else ConditionFalse).

Lemma outcome_step activation current t1 reason msg cs3 (safe : bool) :
  SuspensionActivationMatches (Some current) activation = true →
  (∀ typ, typ ≠ AgenticOLSConfigConditionSafeToResume →
     firstCondition cs3 typ = firstCondition
       (setLastTransitionTime
          (SetStatusCondition t1 (config_Conditions current)
             (NewCondition AgenticOLSConfigConditionSuspended ConditionTrue reason msg
                (act_Generation activation)))
          AgenticOLSConfigConditionSuspended (act_Start activation)) typ) →
  statusOf cs3 AgenticOLSConfigConditionSafeToResume
    = Some (if safe then ConditionTrue else ConditionFalse) →
  outcomeStep activation safe current (withConfigConditions current cs3).
Proof.
  intros Hm Hother Hsafe. split; [done|]. split; [|done].
  destruct (SuspensionActivationMatches_spec _ _ Hm) as (Hsus & Hg & s & Hf & Hs & Hgen & Hl).
  specialize (Hother AgenticOLSConfigConditionSuspended).
  rewrite (setAt_same t1 _ (NewCondition AgenticOLSConfigConditionSuspended _ _ _ _) _) in Hother.
  specialize (Hother ltac:(done)).
  split; [done|]. split; [done|]. rewrite Hsus. unfold configStatus, statusOf. simpl.
  rewrite Hother. split; [done|]. unfold currentActivation, findConfig.
  rewrite !FindStatusCondition_first. simpl. rewrite Hother, Hf. simpl.
  unfold config_Generation in *. simpl. rewrite Hs, Hg, Hgen, Hl. done.
Qed.

Lemma outcomeAttempt_emits activation e deadlineReached :
  emits (configPatches (outcomeStep activation (safeToResume e)))
    (outcomeAttempt activation e deadlineReached).
Proof.
  unfold outcomeAttempt. apply emits_bind; [apply emits_call; by intros ? ? ?|].
  intros [current|err]; [|apply emits_ret].
  destruct (negb (SuspensionActivationMatches _ _)) eqn:Hm; [apply emits_ret|]. bool_hyps.
  destruct (findConfig current AgenticOLSConfigConditionSuspended) as [s|]; [|apply emits_ret].
  destruct (outcomeForEvidence _ _ _) as [reason msg]. cbv zeta.
  eapply (emits_bind_post _ (λ cs, ∃ t1, cs = setLastTransitionTime
    (SetStatusCondition t1 (config_Conditions current)
       (NewCondition AgenticOLSConfigConditionSuspended ConditionTrue reason msg
          (act_Generation activation)))
    AgenticOLSConfigConditionSuspended (act_Start activation)));
    [apply setConditionAt_emits|by intros tr cs H%setConditionAt_run|].
  intros cs1 [t1 ->]. cbn [cond_Type NewCondition].
  apply emits_bind; [apply emits_call; by intros ? ? ?|]. intros now.
  set (cs2 := SetStatusCondition now _ _).
  eapply (emits_bind_post _ (λ cs3, outcomeStep activation (safeToResume e) current
    (withConfigConditions current cs3))).
  - destruct (condIs _ _); emits_walk ltac:(by intros ? ? ?).
  - intros tr cs3 H.
    assert (Hcs : cs3 = cs2 ∨ ∃ t, cs3 = setLastTransitionTime cs2
      AgenticOLSConfigConditionSafeToResume t).
    { run_if H; [runs_step; by left|]. run_call H t. runs_step. right. eauto. }
    eapply outcome_step; [done| |].
    + intros typ Hn. destruct Hcs as [->|[t ->]];
        [|rewrite setLastTransitionTime_other by done];
        unfold cs2; by apply SetStatusCondition_other.
    + destruct Hcs as [->|[t ->]]; [|rewrite statusOf_setTime]; unfold cs2;
        apply (statusOf_set_same now _ (NewCondition AgenticOLSConfigConditionSafeToResume _ _ _ _)).
  - intros cs3 H. destruct (bool_decide _); [apply emits_ret|].
    apply patchConfig_emits; [done|]. intros. apply emits_ret.
Qed.
Definition noConfigPatch (ev : event answer) : Prop := configPatchOf ev = None.

Lemma noConfigPatch_patches P {A} (m : M A) :
  emits noConfigPatch m → emits (configPatches P) m.
Proof. apply emits_mono. intros ev He base obj Hp. unfold noConfigPatch in He. congruence. Qed.

Lemma stopRuns_emits activation : emits noConfigPatch (stopRuns activation).
Proof.
  unfold stopRuns, RequireCurrentActivation. emits_walk done.
  unfold passRun, persistRunStop, markerAttempt, RequireCurrentActivation, setConditionAt.
  emits_walk done.
Qed.

(** Before the conclusion of a pass no patch claims safety. *)
Lemma ensureActivationStatus_emits name :
  emits (configPatches plainStep) (ensureActivationStatus name).
Proof. apply emits_retry; [apply activationAttempt_emits|apply emits_ret]. Qed.

Lemma handleDeactivation_emits name :
  emits (configPatches plainStep) (handleDeactivation name).
Proof. apply emits_retry; [apply deactivationAttempt_emits|apply emits_ret]. Qed.

Lemma concludePass_emits activation initial e report err :
  emits (configPatches (outcomeStep activation (safeToResume (withCleanup e report err))))
    (concludePass activation initial e report err).
Proof.
  unfold concludePass. cbv zeta.
  assert (Hp : ∀ d, emits (configPatches (outcomeStep activation
    (safeToResume (withCleanup e report err))))
    (patchActivationOutcome activation (withCleanup e report err) d)).
  { intros d. apply emits_retry; [apply outcomeAttempt_emits|apply emits_ret]. }
  emits_walk ltac:(by intros ? ? ?); apply Hp.
Qed.

(** A run of [Reconcile] ends with a conclusion of a pass on the evidence it
    gathered, or every patch of it is plain. *)
Definition concluded (activation : SuspensionActivation) (e : activationEvidence)
    (report : SuspensionCleanup) (err : option error) (tr : trace) : Prop :=
  ∃ tr1 trs tr2 initial o, runs (stopRuns activation) trs (Some e) ∧
    runs (concludePass activation initial e report err) tr2 o ∧
    Forall (configPatches plainStep) tr1 ∧
    tr = tr1 ++ trs ++ [Ev (CleanupSuspension "" (Some activation)) (report, err)] ++ tr2.

Lemma reconcileSuspension_run config start tr o :
  runs (reconcileSuspension config start) tr o →
  Forall (configPatches plainStep) tr ∨
  ∃ activation e report err, concluded activation e report err tr.
Proof.
  unfold reconcileSuspension. cbv zeta. intros H.
  set (activation := MkSuspensionActivation _ _ _) in *. run_call H now.
  apply runs_bind in H as (tr1 & initial & tr2 & -> & Hb & H).
  assert (Hq1 : Forall (configPatches plainStep) (Ev Now now :: tr1)).
  { constructor; [by intros ? ? ?|]. revert Hb. apply noConfigPatch_patches.
    unfold boundedCleanupContext. cbv zeta. emits_walk done. }
  apply runs_bind in H as (trs & stopped & tr3 & -> & Hs & H).
  pose proof (stopRuns_emits _ _ _ Hs) as Hqs.
  assert (Hqs' : Forall (configPatches plainStep) trs).
  { eapply noConfigPatch_patches; [apply stopRuns_emits|exact Hs]. }
  rewrite app_comm_cons.
  destruct stopped as [e|]; [|runs_step; left; rewrite app_nil_r; by apply Forall_app].
  run_call H cleaned. destruct cleaned as [report err]. run_if H.
  { runs_step. left. rewrite app_comm_cons, !Forall_app. do 2 (split; [done|]).
    constructor; [by intros ? ? ?|constructor]. }
  right. exists activation, e, report, err. eexists (Ev Now now :: tr1), trs, _, initial, o.
  do 2 (split; [done|]). split; [done|]. done.
Qed.

Lemma Reconcile_run req tr o :
  runs (Reconcile req) tr o →
  Forall (configPatches plainStep) tr ∨
  ∃ activation e report err, concluded activation e report err tr.
Proof.
  unfold Reconcile. cbv zeta. intros H. run_if H; [runs_step; by left|].
  run_if H; [runs_step; by left|]. run_call H got.
  assert (Hget : configPatches plainStep (Ev (ApiGetConfig (nn_Name req)) got))
    by (by intros ? ? ?).
  destruct got as [config|err]; [|runs_step; left; by constructor].
  run_if H; [left; constructor; [done|by eapply handleDeactivation_emits]|].
  run_if H; [runs_step; left; by constructor|].
  apply runs_bind in H as (tr1 & status & tr2 & -> & He & H).
  apply ensureActivationStatus_emits in He. rewrite app_comm_cons.
  assert (Hq : Forall (configPatches plainStep) (Ev (ApiGetConfig (nn_Name req)) (Ok config) :: tr1))
    by (by constructor).
  destruct status as [[|c|c start fresh]|err].
  - runs_step. left. by rewrite app_nil_r.
  - left. apply Forall_app. split; [done|by eapply handleDeactivation_emits].
  - apply runs_bind in H as (tr3 & u & tr4 & -> & Hr & H).
    assert (Hqr : Forall (configPatches plainStep) tr3).
    { unfold recordIf in Hr. run_if Hr; [run_last Hr|runs_step]; [|constructor].
      constructor; [by intros ? ? ?|constructor]. }
    apply reconcileSuspension_run in H as [H|(act & e & report & err & H)].
    + left. rewrite !Forall_app. done.
    + right. destruct H as (t1 & ts & t2 & initial & o' & Hs & Hc & Hq1 & ->).
      exists act, e, report, err, ((Ev (ApiGetConfig (nn_Name req)) (Ok config) :: tr1) ++ tr3 ++ t1),
        ts, t2, initial, o'.
      do 2 (split; [done|]). split; [|by rewrite <- !app_assoc].
      rewrite !Forall_app. done.
  - runs_step. left. by rewrite app_nil_r.
Qed.

Lemma configPatches_in P tr base obj x :
  Forall (configPatches P) tr → Ev (StatusPatchConfig base obj) x ∈ tr → P base obj.
Proof. intros Hf Hin. rewrite Forall_forall in Hf. by eapply (Hf _ Hin). Qed.

(** The activation recorded in the status is stable: every patch the
    controller sends while the configuration is suspended leaves its metadata
    alone, reports [Suspended=True] and keeps the start time of an activation
    already recorded for the generation, so that the stop markers of the runs
    go on matching it; and a patch of a configuration that is not suspended
    reports [Suspended=False] and does not touch the safety condition. *)
Theorem Reconcile_keeps_activation req tr o base obj x :
  runs (Reconcile req) tr o →
  Ev (StatusPatchConfig base obj) x ∈ tr →
  configStep base obj.
Proof.
  intros [H|(activation & e & report & err & tr1 & trs & tr2 & initial & o' & Hs & Hc & Hq & ->)]
    %Reconcile_run Hin.
  { by apply (configPatches_in _ _ _ _ _ H Hin). }
  apply concludePass_emits in Hc.
  rewrite !elem_of_app in Hin. destruct Hin as [Hin|[Hin|[Hin|Hin]]].
  - by apply (configPatches_in _ _ _ _ _ Hq Hin).
  - apply stopRuns_emits in Hs. rewrite Forall_forall in Hs. by apply Hs in Hin.
  - by apply list_elem_of_singleton in Hin.
  - by apply (configPatches_in _ _ _ _ _ Hc Hin).
Qed.
(** ** The evidence of the pass *)

(** In the trace the run was seen gone or replaced, seen with an accepted
    stop, or the server accepted the stop marker of the activation on it. *)
Definition stoppedIn (tr : trace) (start : Time) (run : AgenticRun) : Prop :=
  (∃ err, Ev (ApiGetRun (run_Key run)) (Err err) ∈ tr ∧ IsNotFound err = true) ∨
  (∃ current, Ev (ApiGetRun (run_Key run)) (Ok current) ∈ tr ∧
     (run_UID current ≠ run_UID run ∨ HasAcceptedStop current = true)) ∨
  ∃ base obj patched, Ev (StatusPatchRun base obj) (Ok patched) ∈ tr ∧
    run_UID base = run_UID run ∧ HasAcceptedStop base = false ∧
    ∃ c, find obj AgenticRunConditionStopping = Some c ∧ cond_Status c = ConditionTrue ∧
      cond_Reason c = reasonSystemSuspended ∧ cond_LastTransitionTime c = start.

Lemma stoppedIn_mono tr1 tr tr2 start run :
  stoppedIn tr start run → stoppedIn (tr1 ++ tr ++ tr2) start run.
Proof.
  assert (Hin : ∀ ev, ev ∈ tr → ev ∈ tr1 ++ tr ++ tr2)
    by (intros ev ?; rewrite !elem_of_app; tauto).
  intros [(err & ? & ?)|[(cur & ? & ?)|(base & obj & p & ? & ?)]].
  - left. eauto.
  - right. left. eauto.
  - right. right. exists base, obj, p. eauto.
Qed.

Lemma markerAttempt_stopped snapshot activation tr m :
  runs (markerAttempt snapshot activation) tr (Some (Ok m)) →
  stoppedIn tr (act_Start activation) snapshot.
Proof.
  unfold markerAttempt. intros H. run_call H got. destruct got as [current|err]; cycle 1.
  { runs_step. left. exists err. split; [left|]. by destruct (IsNotFound err). }
  run_if H.
  { bool_hyps. runs_step. right. left. exists current. split; [left|by left]. }
  run_if H.
  { runs_step. right. left. exists current. split; [left|by right]. }
  bool_hyps. apply runs_bind in H as (tr1 & sup & tr2 & -> & _ & H).
  destruct sup as [err|]; [by runs_step|].
  apply runs_bind in H as (tr3 & cs & tr4 & -> & Hc & H).
  apply setConditionAt_run in Hc as [now ->]. run_call H p. runs_step.
  destruct p as [patched|err]; [|by destruct (IsConflict err)].
  right. right. eexists current, _, patched.
  split; [right; rewrite !elem_of_app; right; right; left|]. do 2 (split; [done|]).
  eexists. unfold find. rewrite FindStatusCondition_first.
  split; [apply (setAt_same now _ (NewCondition AgenticRunConditionStopping _ _ _ _) _)|done].
Qed.

Lemma retry_some {A} n (body : M (option A)) exhausted tr a :
  runs (retry n body exhausted) tr a →
  (∃ tr1 tr2, tr = tr1 ++ tr2 ∧ runs body tr2 (Some a)) ∨
  ∃ tr1 tr2, tr = tr1 ++ tr2 ∧ runs exhausted tr2 a.
Proof.
  intros H. eapply (retry_inv (λ t o, runs body t o)) in H; [|done].
  destruct H as (trs & tr' & -> & _ & _ & [H|[_ H]]); eauto.
Qed.

Lemma persistRunStop_stopped snapshot activation tr m :
  runs (persistRunStop snapshot activation) tr (Ok m) →
  stoppedIn tr (act_Start activation) snapshot.
Proof.
  intros [(tr1 & tr2 & -> & H)|(tr1 & tr2 & -> & H)]%retry_some; [|by runs_step].
  apply markerAttempt_stopped in H. eapply (stoppedIn_mono tr1 _ []) in H.
  by rewrite app_nil_r in H.
Qed.

Lemma noteRun_unsaved run current saved e :
  ev_unsavedMarkers (noteRun run current saved e) = ev_unsavedMarkers e ∧
  ev_runInventoryErr (noteRun run current saved e) = ev_runInventoryErr e.
Proof. unfold noteRun. cbv zeta. by repeat case_match. Qed.

(** A run of the loop body adds no unsaved marker only when the run, if it is
    affected, is stopped. *)
Lemma passRun_stopped activation run e tr e' :
  runs (passRun activation run e) tr (inl e') →
  (ev_unsavedMarkers e' = [] → ev_unsavedMarkers e = [] ∧
     (acceptStop run (act_Start activation) = true →
      stoppedIn tr (act_Start activation) run)) ∧
  ev_runInventoryErr e' = ev_runInventoryErr e.
Proof.
  unfold passRun. intros H. run_if H; [|run_if H].
  - bool_hyps. runs_step. simplify_eq.
    destruct (noteRun_unsaved run run false e) as [-> ->]. split; [|done].
    intros ?. split; [done|]. by rewrite Hb.
  - runs_step. simplify_eq.
    match goal with |- context [noteRun run run false ?e1] =>
      destruct (noteRun_unsaved run run false e1) as [-> ->] end.
    split; [|done]. simpl. by intros [_ ?]%app_eq_nil.
  - apply runs_bind in H as (tr1 & m & tr2 & -> & Hm & H). runs_step.
    rewrite app_nil_r. destruct m as [[|current]|err]; simplify_eq.
    + apply persistRunStop_stopped in Hm. done.
    + destruct (noteRun_unsaved run current true e) as [-> ->].
      apply persistRunStop_stopped in Hm. done.
    + destruct (errorsAny _ _); simplify_eq.
      match goal with |- context [noteRun run run false ?e1] =>
        destruct (noteRun_unsaved run run false e1) as [-> ->] end.
      split; [|done]. simpl. by intros [_ ?]%app_eq_nil.
Qed.

Lemma passRun_leaves activation run e tr b :
  runs (passRun activation run e) tr (inr b) → b = None.
Proof.
  unfold passRun. intros H. run_if H; [by runs_step|]. run_if H; [by runs_step|].
  apply runs_bind in H as (tr1 & m & tr2 & -> & _ & H). runs_step.
  destruct m as [[|current]|err]; simplify_eq. by destruct (errorsAny _ _); simplify_eq.
Qed.

Lemma passRuns_stopped activation items e tr e' :
  runs (forEach items e (passRun activation) (λ e, Ret (Some e))) tr (Some e') →
  (ev_unsavedMarkers e' = [] → ev_unsavedMarkers e = [] ∧
     ∀ run, run ∈ items → acceptStop run (act_Start activation) = true →
      stoppedIn tr (act_Start activation) run) ∧
  ev_runInventoryErr e' = ev_runInventoryErr e.
Proof.
  revert e tr. induction items as [|run items IH]; intros e tr H; cbn [forEach] in H.
  - runs_step. simplify_eq. split; [|done]. intros ?. split; [done|].
    by intros run ?%elem_of_nil.
  - apply runs_bind in H as (tr1 & o & tr2 & -> & Hb & H).
    destruct o as [e1|b]; [|apply passRun_leaves in Hb as ->; by runs_step].
    apply IH in H as [H1 H2]. apply passRun_stopped in Hb as [H3 H4].
    split; [|congruence]. intros [H5 Hs]%H1. apply H3 in H5 as [? Hr]. split; [done|].
    intros run' [->|Hin]%elem_of_cons Ha.
    + by eapply (stoppedIn_mono []), Hr.
    + specialize (Hs _ Hin Ha). eapply (stoppedIn_mono tr1 _ []) in Hs.
      by rewrite app_nil_r in Hs.
Qed.
(** What an inventory without an open acceptance has seen. *)
Lemma stopRuns_accepted activation tr e :
  runs (stopRuns activation) tr (Some e) → runAcceptanceConfirmed e = true →
  ∃ items, Ev ApiListRuns (Ok items) ∈ tr ∧
    ∀ run, run ∈ items → acceptStop run (act_Start activation) = true →
      stoppedIn tr (act_Start activation) run.
Proof.
  unfold stopRuns, runAcceptanceConfirmed. intros H Hacc. bool_hyps. run_call H listed.
  destruct listed as [items|err]; [|runs_step; by simplify_eq].
  apply runs_bind in H as (tr1 & sup & tr2 & -> & Hsup & H).
  destruct sup as [err|].
  { runs_step. destruct (errorsAny _ _); by simplify_eq. }
  exists items. split; [left|]. apply passRuns_stopped in H as [Hs _].
  destruct (ev_unsavedMarkers e); [|done]. destruct Hs as [_ Hs]; [done|].
  intros run Hin Ha. specialize (Hs _ Hin Ha).
  eapply (stoppedIn_mono (Ev ApiListRuns (Ok items) :: tr1) _ []) in Hs.
  by rewrite app_nil_r in Hs.
Qed.

(** C11: resumption is reported safe only on evidence gathered in the same
    pass: a patch that reports [Suspended=True] with [SafeToResume=True]
    starts from a configuration whose activation is the one the pass worked
    for, after a cleanup of that activation that answered without error and
    left nothing pending, failed or unverified, and after an inventory of the
    runs in which every run the activation affects (not terminal, or
    terminal since its start) was seen gone, seen stopped, or marked as
    stopped by a patch the API server accepted. *)
Theorem safe_to_resume_evidence req tr o base obj x :
  runs (Reconcile req) tr o →
  Ev (StatusPatchConfig base obj) x ∈ tr →
  claimsSafe obj →
  ∃ activation report items,
    SuspensionActivationMatches (Some base) activation = true ∧
    Ev (CleanupSuspension "" (Some activation)) (report, None) ∈ tr ∧
    Confirmed report = true ∧
    Ev ApiListRuns (Ok items) ∈ tr ∧
    ∀ run, run ∈ items → acceptStop run (act_Start activation) = true →
      stoppedIn tr (act_Start activation) run.
Proof.
  intros [H|(activation & e & report & err & tr1 & trs & tr2 & initial & o' & Hs & Hc & Hq & ->)]
    %Reconcile_run Hin Hsafe.
  { by destruct (configPatches_in _ _ _ _ _ H Hin). }
  apply concludePass_emits in Hc.
  assert (Hin2 : Ev (StatusPatchConfig base obj) x ∈ tr2).
  { rewrite !elem_of_app in Hin. destruct Hin as [Hin|[Hin|[Hin|Hin]]]; [| | |done].
    - by destruct (configPatches_in _ _ _ _ _ Hq Hin).
    - apply stopRuns_emits in Hs. rewrite Forall_forall in Hs. by apply Hs in Hin.
    - by apply list_elem_of_singleton in Hin. }
  destruct (configPatches_in _ _ _ _ _ Hc Hin2) as (Hm & _ & Hst).
  destruct Hsafe as [_ Hsafe]. rewrite Hsafe in Hst.
  destruct (safeToResume _) eqn:Hev; [|done]. unfold safeToResume, cleanupConfirmed in Hev.
  bool_hyps. simpl in *. destruct err; [done|].
  destruct (stopRuns_accepted _ _ _ Hs) as (items & Hl & Hall); [done|].
  exists activation, report, items. split; [done|].
  split; [rewrite !elem_of_app; right; right; left; left|]. split; [done|].
  split; [rewrite !elem_of_app; tauto|].
  intros run Hr Ha. by apply stoppedIn_mono, Hall.
Qed.
End Patches.

(** ** Reasons and diagnostics *)

(** The reason of the suspension tells its progress truthfully: completion
    without errors is reported exactly when nothing is unresolved and no error
    was reported before; an error once reported is never taken back; the pass
    is still stopping exactly when something is unresolved before the
    deadline; and a resolved pass is safe to resume from. *)
Theorem outcomeForEvidence_reason e currentReason deadlineReached :
  let reason := fst (outcomeForEvidence e currentReason deadlineReached) in
  (reason = reasonAdminActivated ↔
     unresolved e = false ∧ currentReason ≠ reasonAdminActivatedWithErrors) ∧
  (reason = reasonStopping ↔
     unresolved e = true ∧ deadlineReached = false ∧
     currentReason ≠ reasonAdminActivatedWithErrors) ∧
  (reason = reasonAdminActivatedWithErrors ↔
     currentReason = reasonAdminActivatedWithErrors ∨
     (unresolved e = true ∧ deadlineReached = true)) ∧
  (unresolved e = false → safeToResume e = true) ∧
  (safeToResume e = true → unresolved e = true → ev_pendingRunOutcomes e ≠ []).
Proof.
  unfold outcomeForEvidence. cbv zeta.
  assert (Hun : unresolved e = negb (safeToResume e && isNil (ev_pendingRunOutcomes e))).
  { unfold unresolved, safeToResume. destruct (cleanupConfirmed e), (runAcceptanceConfirmed e),
      (isNil (ev_pendingRunOutcomes e)), (isNil (ev_unverifiedRemote e)); done. }
  assert (Hnil : isNil (ev_pendingRunOutcomes e) = true ↔ ev_pendingRunOutcomes e = [])
    by (destruct (ev_pendingRunOutcomes e); done).
  assert (Hd : reasonAdminActivated ≠ reasonStopping ∧
    reasonAdminActivated ≠ reasonAdminActivatedWithErrors ∧
    reasonStopping ≠ reasonAdminActivatedWithErrors) by done.
  rewrite Hun. clear Hun.
  destruct (String.eqb_spec currentReason reasonAdminActivatedWithErrors);
    destruct (safeToResume e), (isNil (ev_pendingRunOutcomes e)), deadlineReached; simpl;
    naive_solver.
Qed.
End OLSConfig.

(** ** Sorting out duplicates *)
Lemma dedupFrom_elem last values x :
  x ∈ dedupFrom last values ∨ x = last ↔ x ∈ values ∨ x = last.
Proof.
  revert last. induction values as [|v values IH]; intros last; simpl; [done|].
  destruct (String.eqb_spec last v) as [->|Hn].
  - rewrite IH, elem_of_cons. tauto.
  - rewrite !elem_of_cons. specialize (IH v). tauto.
Qed.

Lemma dedupFrom_sorted last values :
  StronglySorted strLe (last :: values) →
  StronglySorted strLe (last :: dedupFrom last values) ∧ NoDup (last :: dedupFrom last values).
Proof.
  revert last. induction values as [|v values IH]; intros last Hs; simpl.
  - split; [done|]. apply NoDup_singleton.
  - apply StronglySorted_inv in Hs as [Hs Hall].
    destruct (String.eqb_spec last v) as [->|Hn]; [by apply IH|].
    destruct (IH v Hs) as [Hs' Hnd]. split.
    + constructor; [done|]. rewrite Forall_forall in *. intros x Hx.
      apply Hall. rewrite elem_of_cons in *. pose proof (dedupFrom_elem v values x). tauto.
    + apply NoDup_cons. split; [|done]. intros Hin.
      apply StronglySorted_inv in Hs' as [_ Hv].
      rewrite Forall_cons in Hall. destruct Hall as [Hlv _].
      apply Hn, strLe_antisym; [done|].
      apply elem_of_cons in Hin as [->|Hin]; [done|]. rewrite Forall_forall in Hv. by apply Hv.
Qed.

(** The items of a diagnostic are listed once each, in byte order, and none
    is lost: [sortedUnique] returns a sorted list without duplicates of exactly
    the values it was given. *)
Theorem sortedUnique_spec values :
  StronglySorted strLe (sortedUnique values) ∧ NoDup (sortedUnique values) ∧
  ∀ x, x ∈ sortedUnique values ↔ x ∈ values.
Proof.
  unfold sortedUnique, sortStrings.
  pose proof (StronglySorted_merge_sort strLe values) as Hs.
  pose proof (merge_sort_Permutation strLe values) as Hp.
  destruct (merge_sort strLe values) as [|v vs].
  - split; [constructor|]. split; [constructor|]. intros x. by rewrite <- Hp.
  - destruct (dedupFrom_sorted v vs Hs) as [H1 H2]. do 2 (split; [done|]).
    intros x. rewrite <- Hp, !elem_of_cons. pose proof (dedupFrom_elem v vs x). tauto.
Qed.

