(* ===== verification/Operator.v ===== *)
(** The operator: the run controller with its collaborators put in place of the
    calls it makes of them, and what holds of the whole.  [wire] says which
    program carries out which call: the agent caller ([sandbox_agent.go]) the
    launches and releases, the sandbox manager ([suspension_cleanup.go]) the
    cleanup of a stop, the functions of [spoke.go] the access to a spoke. *)
From stdpp Require Import base list option strings gmap.
From Stdlib Require Import ZArith Lia.
From S2P Require Import Prelude GoText Crypto Json ApiMachinery Types Objects Phase Effects.
From S2P Require Import Approval Resolve PodSpecBuilder Results Helpers InputConfigMap Rbac Spoke.
From S2P Require Import SandboxManager Handlers Suspension Reconcile SandboxAgent.
From S2P Require Import SuspensionInventory SuspensionCleanup.

Local Open Scope string_scope.
Local Open Scope list_scope.
Local Open Scope prog_scope.

(** ** The calls of the run controller

    The controller itself touches no object of a sandbox: it calls for runs,
    approvals, results and its collaborators only. *)
Definition direct (ev : event answer) : bool :=
  match ev with
  | Ev (ObjGet _ _ _) _ | Ev (ObjList _ _ _ _) _ | Ev (ObjCreate _ _ _) _ | Ev (ObjUpdate _ _ _) _
  | Ev (ObjPatch _ _ _ _) _ | Ev (ObjLabel _ _ _ _ _ _) _ | Ev (ObjDelete _ _ _ _) _
  | Ev (CreateToken _ _ _ _) _ | Ev LoadReaderBindings _ | Ev (StoreReaderBindings _) _ => false
  | _ => true
  end.

Section Direct.
Context `{K : ApiMachinery} (r : AgenticRunReconciler).
Abbreviation directOnly := (emits (λ ev, direct ev = true)).

Lemma readRunnableRun_direct key uid : directOnly (readRunnableRun r key uid).
Proof. emits_deep. Qed.
#[local] Hint Resolve readRunnableRun_direct : emits_deep.
Lemma setCondition_direct run typ status reason message :
  directOnly (setCondition run typ status reason message).
Proof. emits_deep. Qed.
#[local] Hint Resolve setCondition_direct : emits_deep.
Lemma statusPatch_direct run base : directOnly (statusPatch run base).
Proof. emits_deep. Qed.
#[local] Hint Resolve statusPatch_direct : emits_deep.
Lemma failStep_direct run conditionType err : directOnly (failStep r run conditionType err).
Proof. emits_deep. Qed.
#[local] Hint Resolve failStep_direct : emits_deep.
Lemma getLatestAnalysisResult_direct run : directOnly (getLatestAnalysisResult r run).
Proof. emits_deep. Qed.
#[local] Hint Resolve getLatestAnalysisResult_direct : emits_deep.
Lemma trimNonSelectedOptions_direct run approval :
  directOnly (trimNonSelectedOptions r run approval).
Proof. emits_deep. Qed.
#[local] Hint Resolve trimNonSelectedOptions_direct : emits_deep.
Lemma denyAgenticRun_direct run message : directOnly (denyAgenticRun run message).
Proof. emits_deep. Qed.
#[local] Hint Resolve denyAgenticRun_direct : emits_deep.
Lemma launched_direct run conditionType err : directOnly (launched r run conditionType err).
Proof. emits_deep. Qed.
#[local] Hint Resolve launched_direct : emits_deep.
Lemma getApprovalPolicy_direct : directOnly getApprovalPolicy.
Proof. emits_deep. Qed.
#[local] Hint Resolve getApprovalPolicy_direct : emits_deep.
Lemma ensureAgenticRunApproval_direct run policy namespace :
  directOnly (ensureAgenticRunApproval run policy namespace).
Proof. emits_deep. Qed.
#[local] Hint Resolve ensureAgenticRunApproval_direct : emits_deep.
Lemma validateStep_direct approval operatorNamespace entry v :
  directOnly (validateStep approval operatorNamespace entry v).
Proof. emits_deep. Qed.
#[local] Hint Resolve validateStep_direct : emits_deep.
Lemma resolveAgenticRun_direct run approval operatorNamespace :
  directOnly (resolveAgenticRun run approval operatorNamespace).
Proof. emits_deep. Qed.
#[local] Hint Resolve resolveAgenticRun_direct : emits_deep.
Lemma handleAnalysis_direct run resolved approval policy :
  directOnly (handleAnalysis r run resolved approval policy).
Proof. emits_deep. Qed.
#[local] Hint Resolve handleAnalysis_direct : emits_deep.
Lemma handleRevision_direct run resolved : directOnly (handleRevision r run resolved).
Proof. emits_deep. Qed.
#[local] Hint Resolve handleRevision_direct : emits_deep.
Lemma skipExecution_direct run resolved : directOnly (skipExecution run resolved).
Proof. emits_deep. Qed.
#[local] Hint Resolve skipExecution_direct : emits_deep.
Lemma startExecution_direct run step approval policy :
  directOnly (startExecution r run step approval policy).
Proof. emits_deep. Qed.
#[local] Hint Resolve startExecution_direct : emits_deep.
Lemma latestExecution_direct run : directOnly (latestExecution r run).
Proof. emits_deep. Qed.
#[local] Hint Resolve latestExecution_direct : emits_deep.
Lemma handleExecution_direct run resolved approval policy :
  directOnly (handleExecution r run resolved approval policy).
Proof. emits_deep. Qed.
#[local] Hint Resolve handleExecution_direct : emits_deep.
Lemma handleVerification_direct run resolved approval policy :
  directOnly (handleVerification r run resolved approval policy).
Proof. emits_deep. Qed.
#[local] Hint Resolve handleVerification_direct : emits_deep.
Lemma handleFailed_direct run : directOnly (handleFailed run).
Proof. emits_deep. Qed.
#[local] Hint Resolve handleFailed_direct : emits_deep.
Lemma startEscalation_direct run step : directOnly (startEscalation r run step).
Proof. emits_deep. Qed.
#[local] Hint Resolve startEscalation_direct : emits_deep.
Lemma handleEscalation_direct run resolved approval policy :
  directOnly (handleEscalation r run resolved approval policy).
Proof. emits_deep. Qed.
#[local] Hint Resolve handleEscalation_direct : emits_deep.
Lemma patchAttempt_direct obj base what : directOnly (patchAttempt obj base what).
Proof. emits_deep. Qed.
#[local] Hint Resolve patchAttempt_direct : emits_deep.
Lemma persistRunStop_direct key uid start : directOnly (persistRunStop key uid start).
Proof. emits_deep. Qed.
#[local] Hint Resolve persistRunStop_direct : emits_deep.
Lemma writeSuspensionOutcome_direct key uid confirmed :
  directOnly (writeSuspensionOutcome key uid confirmed).
Proof. emits_deep. Qed.
#[local] Hint Resolve writeSuspensionOutcome_direct : emits_deep.
Lemma clearSandboxReferences_direct key uid : directOnly (clearSandboxReferences key uid).
Proof. emits_deep. Qed.
#[local] Hint Resolve clearSandboxReferences_direct : emits_deep.
Lemma suspensionCleanupPass_direct run timeout : directOnly (suspensionCleanupPass r run timeout).
Proof. emits_deep. Qed.
#[local] Hint Resolve suspensionCleanupPass_direct : emits_deep.
Lemma stopExpired_direct key run : directOnly (stopExpired r key run).
Proof. emits_deep. Qed.
#[local] Hint Resolve stopExpired_direct : emits_deep.
Lemma stopAccepted_direct key current stopStart remaining0 :
  directOnly (stopAccepted r key current stopStart remaining0).
Proof. emits_deep. Qed.
#[local] Hint Resolve stopAccepted_direct : emits_deep.
Lemma handleSuspensionAt_direct run activationStart :
  directOnly (handleSuspensionAt r run activationStart).
Proof. emits_deep. Qed.
#[local] Hint Resolve handleSuspensionAt_direct : emits_deep.
Lemma removeFinalizer_direct run finalizer optimisticLock :
  directOnly (removeFinalizer run finalizer optimisticLock).
Proof. emits_deep. Qed.
#[local] Hint Resolve removeFinalizer_direct : emits_deep.
Lemma handleTemplogCleanup_direct run : directOnly (handleTemplogCleanup r run).
Proof. emits_deep. Qed.
#[local] Hint Resolve handleTemplogCleanup_direct : emits_deep.
Lemma labelTerminal_direct run : directOnly (labelTerminal run).
Proof. emits_deep. Qed.
#[local] Hint Resolve labelTerminal_direct : emits_deep.
Lemma handleTerminalRecord_direct run phase ceilingDays :
  directOnly (handleTerminalRecord r run phase ceilingDays).
Proof. emits_deep. Qed.
#[local] Hint Resolve handleTerminalRecord_direct : emits_deep.
Lemma handleTerminalCleanup_direct run phase ceilingDays :
  directOnly (handleTerminalCleanup r run phase ceilingDays).
Proof. emits_deep. Qed.
#[local] Hint Resolve handleTerminalCleanup_direct : emits_deep.
Lemma readSuspension_direct run : directOnly (readSuspension r run).
Proof. emits_deep. Qed.
#[local] Hint Resolve readSuspension_direct : emits_deep.
Lemma finishDeletion_direct run : directOnly (finishDeletion r run).
Proof. emits_deep. Qed.
#[local] Hint Resolve finishDeletion_direct : emits_deep.
Lemma reconcileDeleting_direct run : directOnly (reconcileDeleting r run).
Proof. emits_deep. Qed.
#[local] Hint Resolve reconcileDeleting_direct : emits_deep.
Lemma ensureFinalizers_direct key run : directOnly (ensureFinalizers key run).
Proof. emits_deep. Qed.
#[local] Hint Resolve ensureFinalizers_direct : emits_deep.
Lemma reconcileSuspended_direct run start : directOnly (reconcileSuspended r run start).
Proof. emits_deep. Qed.
#[local] Hint Resolve reconcileSuspended_direct : emits_deep.
Lemma resolutionFailed_direct run err : directOnly (resolutionFailed r run err).
Proof. emits_deep. Qed.
#[local] Hint Resolve resolutionFailed_direct : emits_deep.
Lemma routePhase_direct run phase resolved approval policy :
  directOnly (routePhase r run phase resolved approval policy).
Proof. emits_deep. Qed.
#[local] Hint Resolve routePhase_direct : emits_deep.
Lemma reconcileWorkflow_direct run phase : directOnly (reconcileWorkflow r run phase).
Proof. emits_deep. Qed.
#[local] Hint Resolve reconcileWorkflow_direct : emits_deep.
Lemma reconcileTerminal_direct run phase ttlDays :
  directOnly (reconcileTerminal r run phase ttlDays).
Proof. emits_deep. Qed.
#[local] Hint Resolve reconcileTerminal_direct : emits_deep.
Lemma reconcileActive_direct run : directOnly (reconcileActive r run).
Proof. emits_deep. Qed.
#[local] Hint Resolve reconcileActive_direct : emits_deep.
Lemma Reconcile_direct req : directOnly (Reconcile r req).
Proof. emits_deep. Qed.
#[local] Hint Resolve Reconcile_direct : emits_deep.

Lemma controller_direct req : directOnly (Reconcile r req).
Proof. apply Reconcile_direct. Qed.
Lemma suspension_direct run start : directOnly (handleSuspensionAt r run start).
Proof. apply handleSuspensionAt_direct. Qed.
End Direct.

(** ** Wiring *)
Section Operator.
Context `{K : ApiMachinery} {KL : ApiMachineryLaws K} `{CC : ClientCmd} `{SUL : SuspensionLibs}.
Context `{L : SandboxLifecycle} `{LL : !SandboxLifecycleLaws K L}.
Context (r : AgenticRunReconciler) (s : SandboxAgentCaller) (m : SandboxManager).

Definition wire (e : eff) : M (answer e) :=
  match e return M (answer e) with
  | Analyze run step => analyze s run step
  | Execute run step opt => execute s run step opt
  | Verify run step opt exec => verify s run step opt exec
  | Escalate run step => escalate s run step
  | ReleaseSandboxes run zeroGrace => releaseSandboxes s run zeroGrace
  | ReleaseSandbox run step => releaseSandbox s run step
  | CleanupSuspension uid activation => cleanupSuspension m uid activation
  | SpokeAccessForRun run => spokeAccessForRun run (sac_Namespace s)
  | CleanupStepRBAC spoke run step => cleanupStepRBAC spoke (sac_Namespace s) run step
  | e => call e
  end.

(** The program of a call that the controller makes of a collaborator. *)
Definition delegated (e : eff) : bool :=
  match e with
  | Analyze _ _ | Execute _ _ _ | Verify _ _ _ _ | Escalate _ _ | ReleaseSandboxes _ _
  | ReleaseSandbox _ _ | CleanupSuspension _ _ | SpokeAccessForRun _ | CleanupStepRBAC _ _ _ => true
  | _ => false
  end.

Lemma wire_plain e : delegated e = false → wire e = call e.
Proof. by destruct e. Qed.

Lemma wire_call e seg a : delegated e = false → runs (wire e) seg a → seg = [Ev e a].
Proof. intros Hd. rewrite wire_plain by done. apply runs_call. Qed.

(** A plain call of the controller is one of the operator. *)
Lemma linked_plain outer tr e a :
  linked wire outer tr → Ev e a ∈ outer → delegated e = false → (Ev e a : event answer) ∈ tr.
Proof.
  intros Hl Hin Hd. destruct (linked_elem _ _ _ _ _ Hl Hin) as (t1 & seg & t2 & -> & H).
  apply (wire_call _ _ _ Hd) in H as ->. set_solver.
Qed.

(** *** Launches *)
(** A workload is created by a launch of the controller, behind its guard. *)
Lemma delegated_noWork e a seg :
  direct (Ev e a) = true → runs (wire e) seg a → launchOf (Ev e a) = None → none startsWork seg.
Proof.
  intros Hd H Hl. destruct (delegated e) eqn:Hde; cycle 1.
  { apply (wire_call _ _ _ Hde) in H as ->. repeat constructor. by destruct e. }
  apply (emits_run _ _ _ _ H). destruct e; try done; cbn.
  - apply access_noWork, releaseSandboxes_access.
  - apply access_noWork, releaseSandbox_access.
  - eapply emits_mono; [|apply cleanupSuspension_calls]. by intros [[] ?].
  - apply access_noWork, spokeAccessForRun_access.
  - apply access_noWork, cleanupStepRBAC_access.
Qed.

Lemma launch_starts e a seg stage run :
  launchOf (Ev e a) = Some (stage, run) → runs (wire e) seg a → keepsIdentity seg →
  preceded startsWork (justGuarded (run_UID run)) seg.
Proof.
  intros Hl H Hk. destruct e; try discriminate Hl; cbn in Hl, H; simplify_eq;
    unfold analyze, execute, verify, escalate in H; (eapply launchSandbox_guarded; [exact H|exact Hk]).
Qed.

(** Calls that launch nothing create no workload. *)
Lemma linked_noWork outer tr :
  linked wire outer tr → Forall (λ ev, direct ev = true) outer → none launches outer →
  none startsWork tr.
Proof.
  intros Hl Hd Hn. eapply (linked_Forall wire (λ ev, direct ev = true ∧ launches ev = false));
    [|exact Hl|by apply Forall_and].
  intros e a seg [He Hla] H. eapply delegated_noWork; [done|done|]. by apply launchOf_launches.
Qed.

(** The reads and the writes of a run, of the policy, of the approval and of the
    configuration are those of the operator. *)
Definition plain (ev : event answer) : bool := match ev with Ev e _ => negb (delegated e) end.

Lemma linked_elem_plain outer tr ev :
  linked wire outer tr → ev ∈ outer → plain ev = true → ev ∈ tr.
Proof. destruct ev as [e a]. intros Hl Hin Hp%negb_true_iff. by eapply linked_plain. Qed.

(** The grounds of a launch of the controller are grounds of the operator. *)
Lemma launchGrounds_linked req outer tr stage launched :
  linked wire outer tr → launchGrounds r req outer stage launched →
  launchGrounds r req tr stage launched.
Proof.
  intros Hl (first & rest & run & -> & Hd & Hr & Ha & (config & Hc & Hs) & policy & approval & aev &
    (got & Hg & Hp) & Hin & Hap & Hwhy & base & Hb & (marked & Hm & Hmk)).
  destruct Hl as (seg & t & -> & Hseg & Hl). apply (wire_call (ApiGetRun req) _ _ eq_refl) in Hseg as ->.
  assert (Hk : ∀ ev, ev ∈ rest → plain ev = true → ev ∈ t).
  { intros ev. by apply linked_elem_plain. }
  exists first, t, run. split; [done|]. split; [done|]. split.
  { destruct Hr as [?|?]; [by left|right; by apply Hk]. }
  split; [done|]. split; [exists config; split; [by apply Hk|done]|].
  exists policy, approval, aev. split; [exists got; split; [by apply Hk|done]|]. split.
  { apply Hk; [done|]. by destruct aev as [[] ?]. }
  split; [done|]. split; [done|]. exists base. split.
  - destruct Hb as [?|(? & ? & [?|[? Hp']])]; [by left|by right; split_and!; [..|left]|].
    right. split_and!; [done|done|]. right. split; [done|by apply Hk].
  - exists marked. split; [by apply Hk|done].
Qed.

(** C1: no agent of the whole operator starts without approval or behind a stop.
    Linked with the sandbox agent caller and the sandbox manager, a reconciliation
    creates pods and claims in one launch at most, none before and none after it.  What
    came before the launch is what a launch needs: the run was read and is not deleted,
    has no accepted stop, the configuration does not suspend, and by the policy that was
    read (none if it could not be) and the approval that was read or created the stage is the one of the run's phase and approved, or the
    analysis of a pending revision; and the launched run is the answer to the patch that
    marked the step of that run in progress.  In the launch every creation comes
    directly after uncached reads that found the launched run still without a stop and
    the configuration still not suspended. *)
Theorem operator_starts_work req tr o :
  runs (interp wire (Reconcile r req)) tr o → keepsIdentity tr →
  none startsWork tr ∨
  ∃ pre e a seg post stage launched,
    tr = pre ++ seg ++ post ∧ none startsWork pre ∧ none startsWork post ∧
    launchOf (Ev e a) = Some (stage, launched) ∧ runs (wire e) seg a ∧
    launchGrounds r req pre stage launched ∧
    preceded startsWork (justGuarded (run_UID launched)) seg.
Proof.
  intros (outer & Ho & Hl)%runs_interp Hk.
  pose proof (controller_direct _ _ _ _ Ho) as Hd.
  destruct (Reconcile_launch r _ _ _ Ho) as [Hn|(o1 & [e a] & o2 & stage & launched & -> & H1 & H2 &
    Hla & Hg)]; [left; by eapply linked_noWork|].
  apply Forall_app in Hd as [Hd1 [_ Hd2]%List.Forall_cons_iff].
  apply linked_at in Hl as (pre & seg & post & -> & Hl1 & Hs & Hl2).
  rewrite !keepsIdentity_app in Hk. destruct Hk as (_ & Hk & _).
  right. exists pre, e, a, seg, post, stage, launched. split_and!; try done.
  - by eapply linked_noWork.
  - by eapply linked_noWork.
  - by eapply launchGrounds_linked.
  - by eapply launch_starts.
Qed.

(** *** The end of a stop *)

(** A cleanup pass is for the run of UID [uid], of any activation. *)
Definition cleansFor (uid : string) (ev : event answer) : Prop :=
  match ev with
  | Ev (CleanupSuspension uid' activation) _ => uid' = uid ∧ activation = None
  | _ => True
  end.

(** All passes are, or the run of that UID was found to be gone. *)
Definition cleansOwn (uid : string) (tr : trace) : Prop :=
  Forall (cleansFor uid) tr ∨ existsb (lost uid) tr = true.

Lemma cleansOwn_app uid tr1 tr2 : cleansOwn uid tr1 → cleansOwn uid tr2 → cleansOwn uid (tr1 ++ tr2).
Proof.
  unfold cleansOwn. rewrite existsb_app, Forall_app.
  intros [?|Hl] [?|Hl']; rewrite ?Hl, ?Hl', ?orb_true_r; auto.
Qed.

(** What follows a writer is for the run the writer answers, of the same UID or lost. *)
Lemma cleansOwn_then uid c t1 t2 :
  Forall (cleansFor uid) t1 → tracked uid t1 (Ok (Some c)) →
  (run_UID c = uid → cleansOwn uid t2) → cleansOwn uid (t1 ++ t2).
Proof.
  intros H1 [Hu|Hl] H2; [apply cleansOwn_app; [by left|auto]|].
  right. by rewrite existsb_app, Hl.
Qed.

Lemma quietly_own {A} uid (p : M A) :
  emits (λ ev, tearsDown ev = false) p → ∀ tr a, runs p tr a → Forall (cleansFor uid) tr.
Proof. intros Hp tr a H. eapply Forall_impl; [by eapply Hp|]. by intros [[] ?]. Qed.

Lemma suspensionCleanupPass_own run d : emits (cleansFor (run_UID run)) (suspensionCleanupPass r run d).
Proof. unfold suspensionCleanupPass. emits_walk done. Qed.

Lemma writeSuspensionOutcome_keeps key uid confirmed :
  emits (λ ev, tearsDown ev = false) (writeSuspensionOutcome key uid confirmed).
Proof. emits_deep. Qed.
Lemma clearSandboxReferences_keeps key uid :
  emits (λ ev, tearsDown ev = false) (clearSandboxReferences key uid).
Proof. emits_deep. Qed.
Lemma persistRunStop_keeps key uid start :
  emits (λ ev, tearsDown ev = false) (persistRunStop key uid start).
Proof. emits_deep. Qed.

Lemma stopExpired_own key run tr v : runs (stopExpired r key run) tr v → cleansOwn (run_UID run) tr.
Proof.
  unfold stopExpired. intros (t1 & w & t2 & -> & Hw & H)%runs_bind.
  pose proof (quietly_own (run_UID run) _ (writeSuspensionOutcome_keeps _ _ _) _ _ Hw) as Hq.
  apply writeSuspensionOutcome_tracked in Hw.
  destruct w as [[c|]|err]; [|apply runs_ret in H as [-> _]; rewrite app_nil_r; by left..].
  eapply cleansOwn_then; [done|exact Hw|]. intros <-. left. apply (emits_run _ _ _ _ H).
  apply emits_bind; [apply suspensionCleanupPass_own|]. intros pass.
  destruct (passConfirmed pass); [|apply emits_ret]. apply emits_bind; [|intros; apply emits_ret].
  intros tr a. apply quietly_own, clearSandboxReferences_keeps.
Qed.

Lemma stopAccepted_own key current start d tr v :
  runs (stopAccepted r key current start d) tr v → cleansOwn (run_UID current) tr.
Proof.
  unfold stopAccepted. intros (t1 & rem & t2 & -> & H1 & H)%runs_bind. apply cleansOwn_app.
  { left. apply (emits_run _ _ _ _ H1). unfold readRemaining. emits_walk done. }
  run_if H; [by eapply stopExpired_own|]. left. apply (emits_run _ _ _ _ H).
  apply emits_bind; [apply suspensionCleanupPass_own|]. intros pass.
  apply emits_bind; [by apply emits_call|]. intros [current'|err]; [|apply emits_ret].
  intros tr' a. apply quietly_own. emits_deep.
Qed.

Lemma handleSuspensionAt_own run start tr v :
  runs (handleSuspensionAt r run start) tr v → cleansOwn (run_UID run) tr.
Proof.
  unfold handleSuspensionAt. intros H.
  run_if H; [apply runs_ret in H as [-> _]; by left|]. run_if H; [apply runs_ret in H as [-> _]; by left|].
  run_call H got. apply (cleansOwn_app _ [_]); [left; by repeat constructor|].
  destruct got as [current|err]; [|apply runs_ret in H as [-> _]; by left].
  run_if H; [apply runs_ret in H as [-> _]; by left|]. run_if H; [apply runs_ret in H as [-> _]; by left|].
  bool_hyps. subst. rewrite <- Hb1.
  apply runs_bind in H as (t1 & rem & t2 & -> & H1 & H). apply cleansOwn_app.
  { left. apply (emits_run _ _ _ _ H1). unfold readRemaining. emits_walk done. }
  run_if H; [|by eapply stopAccepted_own].
  run_if H; [apply runs_ret in H as [-> _]; by left|].
  run_call H u. apply (cleansOwn_app _ [_]); [left; by repeat constructor|].
  apply runs_bind in H as (t3 & w & t4 & -> & Hw & H).
  pose proof (quietly_own (run_UID current) _ (persistRunStop_keeps _ _ _) _ _ Hw) as Hq.
  apply persistRunStop_tracked in Hw.
  destruct w as [[c|]|err]; [|apply runs_ret in H as [-> _]; rewrite app_nil_r; by left..].
  eapply cleansOwn_then; [done|exact Hw|]. intros <-. by eapply stopAccepted_own.
Qed.

Lemma releases_quiet e seg a :
  direct (Ev e a) = true → runs (wire e) seg a → launchOf (Ev e a) = None →
  delegated e = true → Forall (λ ev, isStatusPatch ev = false) seg.
Proof.
  intros Hd H Hl Hde. apply (emits_run _ _ _ _ H). destruct e; try done; cbn.
  - apply access_noPatch, releaseSandboxes_access.
  - apply access_noPatch, releaseSandbox_access.
  - eapply emits_mono; [|apply cleanupSuspension_calls]. by intros [[] ?].
  - apply access_noPatch, spokeAccessForRun_access.
  - apply access_noPatch, cleanupStepRBAC_access.
Qed.

(** C5: a stop is complete only when nothing that works for the run or gives it access is
    left.  Linked with the sandbox manager, a status patch of the stop handling that
    marks the teardown complete, or touches the sandbox references of the run, comes
    after a cleanup pass that, behind its last change to the cluster, listed from the
    uncached API unfinished pods, claims, sandboxes, warm pools, accounts, roles and
    their bindings and kubeconfigs, and found none of that run (or the API of a sandbox
    kind absent); unless the run of that UID was found to be gone.  Finished pods, input
    ConfigMaps and sandbox templates may be left. *)
Theorem operator_stop_leaves_nothing run start tr v before base obj ans after :
  runs (interp wire (handleSuspensionAt r run start)) tr v →
  tr = before ++ Ev (StatusPatchRun base obj) ans :: after →
  condHas (find obj AgenticRunConditionStopping) ConditionFalse reasonTeardownComplete = true
    ∨ run_Steps obj ≠ run_Steps base →
  existsb (lost (run_UID run)) tr = true ∨
  ∃ earlier look later, before = earlier ++ look ++ later ∧
    none changesObject look ∧ nothingLeft (run_UID run) (sm_Namespace m) look.
Proof.
  intros (outer & Ho & Hl)%runs_interp Heq Hobs.
  pose proof (suspension_direct _ _ _ _ _ Ho) as Hd.
  pose proof (handleSuspensionAt_own _ _ _ _ Ho) as Hown.
  destruct (linked_split _ _ _ _ _ _ Hl Heq)
    as (o1 & e & a & o2 & pre & seg1 & seg2 & rest & -> & Hl1 & -> & -> & Hr).
  destruct (handleSuspensionAt_steps_of r _ _ _ _ Ho) as [Hnl _].
  rewrite Forall_app, List.Forall_cons_iff in Hd. destruct Hd as (_ & Hd & _).
  apply none_app in Hnl as [_ [Hnl _]%none_cons]. apply launchOf_launches in Hnl.
  destruct (delegated e) eqn:Hde.
  { pose proof (releases_quiet _ _ _ Hd Hr Hnl Hde) as Hq.
    rewrite Forall_app, List.Forall_cons_iff in Hq. by destruct Hq as (_ & Hq & _). }
  apply (wire_call _ _ _ Hde) in Hr.
  destruct seg1 as [|? seg1]; [|destruct seg1; discriminate Hr].
  pose proof (f_equal head Hr) as He. apply (inj Some) in He. apply (f_equal tail) in Hr.
  cbn in Hr. subst seg2. rewrite <- He in *. clear He Hd Hnl Hde.
  destruct (confirmed_pass_before r _ _ _ _ _ _ _ _ Ho Hobs) as (uid & activation & report & Hin & Hc).
  destruct Hown as [Hown|Hlost]; cycle 1.
  { left. apply existsb_exists in Hlost as ([le la] & Hlin%list_elem_of_In & Hlev).
    apply existsb_exists. exists (Ev le la). split; [|done]. apply list_elem_of_In.
    eapply linked_plain; [exact Hl|exact Hlin|]. by destruct le. }
  right. rewrite Forall_app, Forall_forall in Hown. destruct Hown as [Hown _].
  destruct (Hown _ Hin) as [-> ->].
  destruct (linked_elem _ _ _ _ _ Hl1 Hin) as (u1 & seg & u2 & -> & Hseg). cbn in Hseg.
  destruct (cleanupSuspension_clean _ _ _ _ _ _ Hseg Hc) as (work & look & -> & Hq & Hleft).
  exists (u1 ++ work), look, u2. rewrite app_nil_r, <- !app_assoc. done.
Qed.
End Operator.
