(* ===== verification/Lifecycle.v ===== *)
(** The lifecycle of a run across every controller that writes it: the
    abstract machine of phases, stops and results, the refinement of that
    machine by each status patch of the run controller, the pod events, the
    timeout loop and the global suspension controller, and what it means for
    the history of a stored run. *)
From stdpp Require Import base list option strings gmap relations.
From Stdlib Require Import ZArith Lia.
From S2P Require Import OLSConfig.
From S2P Require Import Prelude GoText ApiMachinery Types Phase Effects Approval Resolve.
From S2P Require Import Results Helpers Handlers Suspension Reconcile PodHandler TimeoutHandler.
From S2P Require Import Spoke SandboxManager SandboxAgent.

Local Open Scope string_scope.
Local Open Scope list_scope.
Local Open Scope prog_scope.

(** ** The abstract machine *)

(** How far the stop of a run has come: none, accepted, concluded. *)
Inductive StopState := Working | StopAccepted | Stopped.

(** What the machine sees of a run: its phase, how far each step has come, its
    stop and the results of its four steps. *)
Record RunView := MkView {
  view_Phase : AgenticRunPhase;
  view_Marks : list nat;
  view_Stop : StopState;
  view_Results : list (list StepResultRef);
}.

Inductive label := Keep | Work | Conclude | Late | Revise.

(** No step goes back, and the phase changes only with a step. *)
Definition ahead (v v' : RunView) : Prop :=
  Forall2 le (view_Marks v) (view_Marks v') ∧
  (view_Marks v' = view_Marks v → view_Phase v' = view_Phase v).

(** A working run moves forward and only adds results; an accepted stop moves
    only to its conclusion, and a terminal phase survives it; a completion that
    comes too late and a revision are the moves that may go back, and a revision
    is the one that may follow a stop. *)
Inductive moves : label → RunView → RunView → Prop :=
| moves_keep v : moves Keep v v
| moves_work v v' :
    view_Stop v = Working → ahead v v' →
    Forall2 prefix (view_Results v) (view_Results v') → moves Work v v'
| moves_conclude (confirmed : bool) v v' :
    view_Stop v = StopAccepted → view_Stop v' = Stopped → ahead v v' →
    view_Results v' = view_Results v →
    view_Phase v' = (if isTerminal (view_Phase v) then view_Phase v
                     else if confirmed then PhaseEmergencyStopped else PhaseFailed) →
    moves Conclude v v'
| moves_late v v' :
    view_Stop v = Working → Forall2 prefix (view_Results v) (view_Results v') →
    moves Late v v'
| moves_revise v v' : view_Results v' = view_Results v → moves Revise v v'.

(** The analysis of the run is a revision that is under way. *)
Definition revising (run : AgenticRun) : Prop :=
  ∃ c, firstCondition (run_Conditions run) AgenticRunConditionAnalyzed = Some c ∧
       cond_Status c = ConditionUnknown ∧ cond_Reason c = reasonRevising.

(** A patch that records a revision and leaves the stop marker alone. *)
Definition revises (base obj : AgenticRun) : Prop :=
  revising obj ∧
  firstCondition (run_Conditions obj) AgenticRunConditionStopping
  = firstCondition (run_Conditions base) AgenticRunConditionStopping.

(** The completion of a pod on a run in which the step, or the escalation of a
    failed verification, was decided in the meantime. *)
Definition decidedStep (run : AgenticRun) (typ : string) : Prop :=
  statusOf (run_Conditions run) typ ∉ [None; Some ConditionUnknown].
Definition completesLate `{K : ApiMachinery} (base obj : AgenticRun) : Prop :=
  (∃ step cr why msg,
     resultPatch step (stepConditionType step) cr ConditionTrue why msg base obj ∧
     decidedStep base (stepConditionType step)) ∨
  (∃ cr reason, escalationPatch cr reason base obj ∧
     decidedStep base AgenticRunConditionEscalated).

(** The status patches among the calls satisfy [P]. *)
Definition patched (P : AgenticRun → AgenticRun → Prop) (ev : event answer) : Prop :=
  match ev with Ev (StatusPatchRun base obj) _ => P base obj | _ => True end.

Lemma quiet_patched P tr : Forall quiet tr → Forall (patched P) tr.
Proof.
  intros H. eapply Forall_impl; [exact H|]. intros [e a] [Hw _]. by destruct e.
Qed.

Lemma patched_quiet {A} P (m : M A) : emits quiet m → emits (patched P) m.
Proof. intros Hm tr a H. by eapply quiet_patched, Hm. Qed.

Lemma patched_mono (P Q : AgenticRun → AgenticRun → Prop) ev :
  (∀ base obj, P base obj → Q base obj) → patched P ev → patched Q ev.
Proof. intros HPQ. destruct ev as [[] ?]; simpl; auto. Qed.

Lemma patched_in P tr base obj ans :
  Forall (patched P) tr → Ev (StatusPatchRun base obj) ans ∈ tr → P base obj.
Proof. rewrite Forall_forall. intros H Hin. exact (H _ Hin). Qed.

Lemma patched_statusPatches P tr :
  (∀ base obj, (base, obj) ∈ statusPatches tr → P base obj) → Forall (patched P) tr.
Proof.
  intros H. apply Forall_forall. intros [[] ans] Hin; try exact I. apply H.
  unfold statusPatches. apply elem_of_omap. by eexists.
Qed.

Section Lifecycle.
Context `{K : ApiMachinery}.

Definition stopState (run : AgenticRun) : StopState :=
  if HasFinalStopOutcome run then Stopped
  else if stopPending run then StopAccepted else Working.

Definition resultsOf (run : AgenticRun) : list (list StepResultRef) :=
  let s := run_Steps run in
  [ step_Results (steps_Analysis s); step_Results (steps_Execution s);
    step_Results (steps_Verification s); step_Results (steps_Escalation s) ].

Definition viewOf (run : AgenticRun) : RunView :=
  MkView (DerivePhase (run_Conditions run)) (marksOf (run_Conditions run)) (stopState run)
    (resultsOf run).

(** What a status patch does to the run: a move, a revision only when the patch
    records one, and a late completion only when it is one. *)
Definition refines (base obj : AgenticRun) : Prop :=
  ∃ l, moves l (viewOf base) (viewOf obj) ∧ (l = Revise → revises base obj) ∧
       (l = Late → completesLate base obj).

(** A terminal phase is only left for a revision. *)
Definition keepsTerminal (base obj : AgenticRun) : Prop :=
  isTerminal (DerivePhase (run_Conditions base)) = true →
  isTerminal (DerivePhase (run_Conditions obj)) = true ∨ revising obj.

Definition runStep (base obj : AgenticRun) : Prop := refines base obj ∧ keepsTerminal base obj.

Lemma stopState_accepted run :
  HasAcceptedStop run = false ↔ stopState run = Working.
Proof.
  rewrite HasAcceptedStop_orb. unfold stopState.
  destruct (HasFinalStopOutcome run), (stopPending run); simpl; naive_solver.
Qed.

Lemma resultsKept_prefix base obj :
  resultsKept base obj ↔ Forall2 prefix (resultsOf base) (resultsOf obj).
Proof.
  unfold resultsKept, resultsOf. rewrite !Forall2_cons, Forall2_nil. tauto.
Qed.

Lemma resultsOf_steps base obj : run_Steps obj = run_Steps base → resultsOf obj = resultsOf base.
Proof. unfold resultsOf. by intros ->. Qed.

Lemma viewOf_ext base obj :
  run_Conditions obj = run_Conditions base → resultsOf obj = resultsOf base →
  viewOf obj = viewOf base.
Proof.
  unfold viewOf, stopState, stopPending, HasFinalStopOutcome, find. by intros -> ->.
Qed.

Lemma refines_keep base obj : viewOf obj = viewOf base → refines base obj.
Proof. intros Hv. exists Keep. rewrite Hv. split; [constructor|done]. Qed.

Lemma refines_work base obj :
  HasAcceptedStop base = false → resultsKept base obj →
  forward (run_Conditions base) (run_Conditions obj) → refines base obj.
Proof.
  intros Ha%stopState_accepted Hk%resultsKept_prefix Hf. exists Work.
  split; [by apply moves_work|done].
Qed.

Lemma refines_late base obj :
  HasAcceptedStop base = false → resultsKept base obj → completesLate base obj →
  refines base obj.
Proof.
  intros Ha%stopState_accepted Hk%resultsKept_prefix Hl. exists Late.
  split; [by apply moves_late|done].
Qed.

Lemma runStep_same base obj :
  run_Conditions obj = run_Conditions base → run_Steps obj = run_Steps base → runStep base obj.
Proof.
  intros Hc Hs. split; [apply refines_keep, viewOf_ext; [done|by apply resultsOf_steps]|].
  intros Ht. left. by rewrite Hc.
Qed.

(** The patch of a handler of a working run that is not terminal. *)
Lemma runStep_work base obj :
  HasAcceptedStop base = false → isTerminal (DerivePhase (run_Conditions base)) = false →
  run_Steps obj = run_Steps base → forward (run_Conditions base) (run_Conditions obj) →
  runStep base obj.
Proof.
  intros Ha Ht Hs Hf. split.
  - apply refines_work; [done| |done]. apply resultsKept_prefix.
    rewrite (resultsOf_steps _ _ Hs). by repeat constructor.
  - unfold keepsTerminal. by rewrite Ht.
Qed.

(** A step that fails on a guarded run. *)
Lemma runStep_fail `{!ApiMachineryLaws K} base obj now ct reason msg gen :
  HasAcceptedStop base = false → resultsKept base obj →
  ct ∈ [AgenticRunConditionAnalyzed; AgenticRunConditionExecuted;
        AgenticRunConditionVerified; AgenticRunConditionEscalated] →
  run_Conditions obj = SetStatusCondition now (run_Conditions base)
    (NewCondition ct ConditionFalse reason msg gen) →
  runStep base obj.
Proof.
  intros Ha Hk Hct Hc.
  split; [apply refines_work; [done..|]; rewrite Hc; by apply forward_fail|].
  intros Ht. left. rewrite Hc.
  by apply DerivePhase_fail_terminal.
Qed.

(** ** The run reconciler *)
Section Reconciler.
Context {KL : ApiMachineryLaws K}.
Context (r : AgenticRunReconciler).

Abbreviation steps := (emits (patched runStep)).

(** A condition is set before the patch: only the conditions change. *)
Lemma steps_setCondition {B} run typ st reason msg (f : AgenticRun → M B) :
  (∀ now, steps (f (withConditions run (SetStatusCondition now (run_Conditions run)
                     (NewCondition typ st reason msg (run_Generation run)))))) →
  steps (bind (setCondition run typ st reason msg) f).
Proof.
  intros Hf tr o (t1 & obj & t2 & -> & Hs & H)%runs_bind. apply Forall_app. split.
  - by eapply quiet_patched, setCondition_quiet.
  - apply setCondition_run in Hs as [now ->]. by eapply Hf.
Qed.

Lemma steps_statusPatch obj base : runStep base obj → steps (statusPatch obj base).
Proof. intros H. refine (emits_call _ (StatusPatchRun base obj) _). by intros a. Qed.

Lemma failStep_steps run stage err : steps (failStep r run (stageCondition stage) err).
Proof.
  intros tr o H. apply failStep_run in H as
    [Hq|(tr0 & base & obj & now & ans & -> & Hq & _ & (trg & tr1 & _ & Hg) & Hc & Hk)];
    [by apply quiet_patched|].
  apply Forall_app; split; [by apply quiet_patched|]. constructor; [|constructor].
  destruct Hg as (config & _ & _ & Ha & _).
  eapply runStep_fail; [done|done| |exact Hc]. by destruct stage; decide_closed.
Qed.

Lemma launched_steps run stage e : steps (launched r run (stageCondition stage) e).
Proof. unfold launched. emits_walk done. apply failStep_steps. Qed.

(** What is undecided in the phases of a stage. *)
Lemma stage_undecided stage cs :
  DerivePhase cs ∈ stagePhases stage →
  isTerminal (DerivePhase cs) = false ∧
  statusOf cs (stageCondition stage) ∈ [None; Some ConditionUnknown] ∧
  (stage = StageExecution → statusOf cs AgenticRunConditionVerified = None).
Proof.
  intros Hin%(bool_decide_eq_true_2 _). revert Hin. rewrite DerivePhase_view.
  generalize (noActionRequired cs).
  destruct stage; cbn [stageCondition];
    destruct (statusOf cs AgenticRunConditionEmergencyStopped) as [[]|]; try done;
    destruct (statusOf cs AgenticRunConditionEscalated) as [[]|]; try done;
    destruct (statusOf cs AgenticRunConditionDenied) as [[]|]; try done;
    destruct (statusOf cs AgenticRunConditionVerified) as [[]|]; try done;
    destruct (statusOf cs AgenticRunConditionExecuted) as [[]|]; try done;
    destruct (statusOf cs AgenticRunConditionAnalyzed) as [[]|]; try done;
    intros []; try done; intros _; (split; [done|]; split; [decide_closed|done]).
Qed.

(** The conditions of a patch of a handler, from what is undecided at its stage. *)
Ltac forward_solve Hu Hv :=
  rewrite ?run_Conditions_with; cbn [stageCondition] in *;
  first
    [ apply forward_flag; decide_closed
    | apply forward_undecided; [decide_closed|exact Hu]
    | eapply forward_trans;
        [|apply forward_undecided;
            [decide_closed|status_simpl; first [exact Hu | rewrite Hv by done; decide_closed]]];
      first [ apply forward_undecided; [decide_closed|exact Hu]
            | apply forward_remove_verified, Hv; done ] ].

(** Walks a handler of a working run that is not terminal: the patches start
    from the run, the rest is quiet or fails a step. *)
Ltac handler_walk Ha Hnt Hu Hv :=
  repeat match goal with
  | |- emits _ (bind (setCondition _ _ _ _ _) _) => apply steps_setCondition; intros
  | |- emits _ (setCondition _ _ _ _ _) => apply patched_quiet, setCondition_quiet
  | |- emits _ (bind (statusPatch _ _) _) =>
      apply emits_bind; [apply steps_statusPatch, runStep_work;
                          [exact Ha|exact Hnt|reflexivity|forward_solve Hu Hv]|intros]
  | |- emits _ (bind (call _) _) =>
      apply emits_bind; [refine (emits_call _ _ _); intros; exact I|intros]
  | |- emits _ (bind _ _) =>
      apply emits_bind; [apply patched_quiet;
        first [ apply auditIf_quiet | apply trimNonSelectedOptions_quiet
              | apply selectedOption_quiet | apply latestExecution_quiet ]|intros]
  | |- emits _ (Ret _) => apply emits_ret
  | |- emits _ (match ?x with _ => _ end) => destruct x
  end;
  match goal with
  | |- emits _ (launched _ _ AgenticRunConditionAnalyzed _) =>
      apply (launched_steps _ StageAnalysis)
  | |- emits _ (launched _ _ AgenticRunConditionExecuted _) =>
      apply (launched_steps _ StageExecution)
  | |- emits _ (launched _ _ AgenticRunConditionVerified _) =>
      apply (launched_steps _ StageVerification)
  | |- emits _ (launched _ _ AgenticRunConditionEscalated _) =>
      apply (launched_steps _ StageEscalation)
  | |- emits _ (failStep _ _ AgenticRunConditionExecuted _) =>
      apply (failStep_steps _ StageExecution)
  | |- emits _ (failStep _ _ AgenticRunConditionVerified _) =>
      apply (failStep_steps _ StageVerification)
  | |- emits _ (failStep _ _ AgenticRunConditionEscalated _) =>
      apply (failStep_steps _ StageEscalation)
  end.

Lemma stageHandler_steps stage run resolved approval policy :
  HasAcceptedStop run = false → DerivePhase (run_Conditions run) ∈ stagePhases stage →
  steps (stageHandler r stage run resolved approval policy).
Proof.
  intros Ha (Hnt & Hu & Hv)%stage_undecided. destruct stage; cbn [stageHandler];
    unfold handleAnalysis, handleExecution, skipExecution, startExecution,
      handleVerification, handleEscalation, startEscalation, denyAgenticRun,
      setVerificationSkipped; handler_walk Ha Hnt Hu Hv.
Qed.

(** The status patch of a revision marks the analysis as being revised. *)
Lemma revision_marks now run reason message :
  reason = reasonRevising →
  revising (withConditions run
    (SetStatusCondition now (run_Conditions run)
       (NewCondition AgenticRunConditionAnalyzed ConditionUnknown reason message
          (run_Generation run)))).
Proof.
  intros ->. unfold revising. rewrite run_Conditions_with.
  destruct (SetStatusCondition_fields now (run_Conditions run)
    (NewCondition AgenticRunConditionAnalyzed ConditionUnknown reasonRevising message
       (run_Generation run))) as [t Ht].
  simpl in Ht. eauto.
Qed.

Lemma handleRevision_steps run resolved : steps (handleRevision r run resolved).
Proof.
  unfold handleRevision. destruct (condIs _ _); [apply emits_ret|].
  apply emits_bind; [destruct (negb _); [by refine (emits_call _ _ _)|apply emits_ret]|].
  intros [base|e]; [|apply emits_ret]. cbv zeta.
  intros tr o (t1 & run4 & t2 & -> & Hs & H)%runs_bind.
  pose proof (setCondition_quiet _ _ _ _ _ _ _ Hs) as Hq%(quiet_patched runStep).
  apply setCondition_run in Hs as [now ->]. unfold statusPatch in H. run_call H p.
  apply Forall_app; split; [exact Hq|]. constructor.
  - split; [|by intros _; right; apply revision_marks].
    exists Revise. split; [by constructor|]. split; [|done]. intros _.
    split; [by apply revision_marks|].
    rewrite run_Conditions_with, SetStatusCondition_other by done.
    trans (firstCondition (RemoveStatusCondition (RemoveStatusCondition (RemoveStatusCondition
      (run_Conditions base) AgenticRunConditionExecuted) AgenticRunConditionVerified)
      AgenticRunConditionEscalated) AgenticRunConditionStopping); [done|].
    by rewrite !RemoveStatusCondition_other.
  - destruct p as [run5|e]; [|by runs_step]. run_call H e. constructor; [exact I|].
    by eapply (launched_steps _ StageAnalysis).
Qed.

Lemma routePhase_steps run resolved approval policy :
  HasAcceptedStop run = false →
  steps (routePhase r run (DerivePhase (run_Conditions run)) resolved approval policy).
Proof.
  intros Ha. unfold routePhase. destruct (DerivePhase (run_Conditions run)) eqn:Hp;
    try apply emits_ret;
    try (destruct (needsRevision run); [apply handleRevision_steps|]);
    try (destruct (revisable run && _); [apply handleRevision_steps|apply emits_ret]).
  1,2: apply (stageHandler_steps StageAnalysis); [done|rewrite Hp; decide_closed].
  1,2: apply (stageHandler_steps StageExecution); [done|rewrite Hp; decide_closed].
  all: first [ apply (stageHandler_steps StageVerification); [done|rewrite Hp; decide_closed]
             | apply (stageHandler_steps StageEscalation); [done|rewrite Hp; decide_closed]
             | rewrite andb_false_r; apply emits_ret
             | rewrite andb_true_r; destruct (revisable run);
                 [apply handleRevision_steps|apply emits_ret] ].
Qed.

Lemma resolutionFailed_steps run err : steps (resolutionFailed r run err).
Proof.
  unfold resolutionFailed. intros tr o (t1 & guard & t2 & -> & Hg & H)%runs_bind.
  pose proof (readRunnableRun_quiet _ _ _ _ _ Hg) as Hq%(quiet_patched runStep).
  apply Forall_app; split; [exact Hq|]. destruct guard as [base|e]; [|run_if H; by runs_step].
  apply readRunnableRun_ok in Hg as (_ & _ & _ & Ha & _).
  apply runs_bind in H as (t3 & run1 & t4 & -> & Hs & H).
  pose proof (setCondition_quiet _ _ _ _ _ _ _ Hs) as Hq3%(quiet_patched runStep).
  apply setCondition_run in Hs as [now ->]. unfold statusPatch in H. run_call H p. runs_step.
  apply Forall_app; split; [exact Hq3|]. constructor; [|constructor].
  eapply runStep_fail; [done|exact (resultsKept_refl base)| |apply run_Conditions_with]. decide_closed.
Qed.

Lemma labelTerminal_steps run : steps (labelTerminal run).
Proof. unfold labelTerminal. emits_walk ltac:(exact I). Qed.

Lemma handleTerminalRecord_steps run phase days : steps (handleTerminalRecord r run phase days).
Proof.
  unfold handleTerminalRecord, statusPatch, auditIf.
  emits_walk ltac:(first [exact I | by apply runStep_same]); apply labelTerminal_steps.
Qed.

Lemma handleTerminalCleanup_steps run phase days :
  steps (handleTerminalCleanup r run phase days).
Proof.
  unfold handleTerminalCleanup. emits_walk ltac:(exact I). apply handleTerminalRecord_steps.
Qed.

(** The writes of a stop. *)
Lemma acceptStep_runStep base obj : acceptStep base obj → runStep base obj.
Proof. intros (Hnt & Ha & _ & _ & Hs & Hf). by apply runStep_work. Qed.

Lemma clearStep_runStep base obj : clearStep base obj → runStep base obj.
Proof.
  intros (Hc & Hs). split.
  - apply refines_keep, viewOf_ext; [done|]. unfold resultsOf. by rewrite Hs.
  - intros Ht. left. by rewrite Hc.
Qed.

Lemma outcomeStep_runStep confirmed base obj :
  outcomeStep confirmed base obj → runStep base obj.
Proof.
  intros Ho. pose proof (outcomeStep_final _ _ _ Ho) as Hf.
  destruct Ho as (Hp & Hnf & _ & Hph & Hs & Hfw). split.
  - exists Conclude. split; [|done]. apply (moves_conclude confirmed); simpl.
    + unfold stopState. by rewrite Hnf, Hp.
    + unfold stopState. by rewrite Hf.
    + exact Hfw.
    + unfold resultsOf. rewrite Hs. by destruct confirmed.
    + exact Hph.
  - intros Ht. left. by rewrite Hph, Ht.
Qed.

Lemma handleSuspensionAt_runStep run start : steps (handleSuspensionAt r run start).
Proof.
  intros tr v H. apply (handleSuspensionAt_ordered r (KL:=KL)), ordered_all in H.
  eapply Forall_impl; [exact H|]. intros ev [[_ Hev]|[_ Hev]]; destruct ev as [[] ans];
    try exact I; destruct Hev as [Hev|Hev];
    first [by apply acceptStep_runStep | by eapply outcomeStep_runStep | by apply clearStep_runStep].
Qed.

Lemma reconcileWorkflow_steps run :
  HasAcceptedStop run = false →
  steps (reconcileWorkflow r run (DerivePhase (run_Conditions run))).
Proof.
  intros Ha. unfold reconcileWorkflow.
  apply emits_bind; [unfold getApprovalPolicy; emits_walk ltac:(exact I)|intros p].
  apply emits_bind; [unfold ensureAgenticRunApproval, getAgenticRunApproval;
    emits_walk ltac:(exact I)|intros [approval|e]; [|apply emits_ret]].
  apply emits_bind; [unfold resolveAgenticRun, validateAgenticRun, validateStep,
    validateAgentDependencies; emits_walk ltac:(exact I)|].
  intros [resolved|e]; [by apply routePhase_steps|apply resolutionFailed_steps].
Qed.

Lemma handleFailed_steps run : steps (handleFailed run).
Proof. unfold handleFailed, cleanupFailedStep. emits_walk ltac:(exact I). Qed.

Lemma reconcileActive_steps run : HasAcceptedStop run = false → steps (reconcileActive r run).
Proof.
  intros Ha. unfold reconcileActive, currentConfig, reconcileTerminal.
  emits_walk ltac:(exact I);
    first [ apply handleTerminalCleanup_steps | apply handleFailed_steps
          | by apply reconcileWorkflow_steps ].
Qed.

Lemma reconcileSuspended_steps run start : steps (reconcileSuspended r run start).
Proof.
  unfold reconcileSuspended, currentConfig, handleSuspendedTerminalCleanup.
  emits_walk ltac:(exact I);
    first [apply handleSuspensionAt_runStep|apply handleTerminalRecord_steps].
Qed.

Lemma readSuspension_steps run : steps (readSuspension r run).
Proof. unfold readSuspension, readSuspensionActivation. emits_walk ltac:(exact I). Qed.

Lemma reconcileDeleting_steps run : steps (reconcileDeleting r run).
Proof.
  unfold reconcileDeleting, finishDeletion, auditIf, handleTemplogCleanup, removeFinalizer.
  emits_walk ltac:(exact I); first [apply readSuspension_steps|apply handleSuspensionAt_runStep].
Qed.

(** Every status patch of a reconciliation is a step. *)
Lemma Reconcile_steps req : steps (Reconcile r req).
Proof.
  unfold Reconcile. destruct (negb _); [apply emits_ret|].
  apply emits_bind; [refine (emits_call _ _ _); intros; exact I|].
  intros [run|e]; cycle 1.
  { unfold auditIf. emits_walk ltac:(exact I). }
  destruct (negb _); [apply reconcileDeleting_steps|].
  apply emits_bind; [unfold ensureFinalizers; emits_walk ltac:(exact I)|].
  intros [o|run1]; [apply emits_ret|].
  intros tr o (t1 & state & t2 & -> & Hs & H)%runs_bind.
  apply Forall_app; split; [by eapply readSuspension_steps|].
  destruct state as [o'|[[[accepted suspended] start] current]]; [by runs_step|].
  destruct (accepted || suspended) eqn:Has.
  - run_if H; [by runs_step|]. by eapply reconcileSuspended_steps.
  - apply orb_false_iff in Has as [-> ->]. apply readSuspension_clear in Hs as [Ha _].
    by eapply reconcileActive_steps.
Qed.

(** ** Pods and timeouts *)
Abbreviation refined := (emits (patched refines)).

Lemma steps_refined {A} (m : M A) : steps m → refined m.
Proof. apply emits_mono. intros ev. apply patched_mono. by intros base obj [? _]. Qed.

(** A patch that starts from the run the guard read. *)
Lemma onePatch_refines uid (P : AgenticRun → AgenticRun → Prop) tr :
  (∀ base obj, P base obj → resultsKept base obj) →
  (∀ base obj, P base obj →
     forward (run_Conditions base) (run_Conditions obj) ∨ completesLate base obj) →
  onePatch uid P tr → Forall (patched refines) tr.
Proof.
  intros HP Hf [_ Hp]. apply patched_statusPatches. intros base obj Hin.
  destruct (Hp _ _ Hin) as (_ & Hb & key & trl & trg & trr & (config & _ & _ & Ha & _) & _).
  destruct (Hf _ _ Hb); [apply refines_work|apply refines_late]; auto.
Qed.

Lemma completionPatch_kept step condType base obj :
  completionPatch step condType base obj → resultsKept base obj.
Proof.
  intros [[[[cr|] reason] H]|(why & msg & _ & now & H)]; [|destruct H as (_ & now & H)|];
    [|by destruct H as (_ & _ & _ & ?)..].
  unfold verdictPatch in H. destruct (String.eqb reason ""); [|destruct (String.eqb step _)].
  - by destruct H as (_ & _ & _ & now & _ & _ & _ & ?).
  - by destruct H as (_ & now1 & now2 & _ & _ & _ & ?).
  - by destruct H as (_ & _ & _ & now & _ & _ & _ & ?).
Qed.

Lemma undecided_status run typ :
  undecided run typ ↔ statusOf (run_Conditions run) typ ∈ [None; Some ConditionUnknown].
Proof.
  unfold undecided, statusOf, find. rewrite FindStatusCondition_first, !elem_of_cons, elem_of_nil.
  destruct (firstCondition _ _) as [c|]; simpl; [|split; auto]. split.
  - intros [?|(c' & [= <-] & ->)]; [done|auto].
  - intros [?|[[= Hc]|[]]]; [done|]. right. eauto.
Qed.

Lemma stepConditionType_cases step :
  stepConditionType step ∈ [AgenticRunConditionAnalyzed; AgenticRunConditionExecuted;
    AgenticRunConditionVerified; AgenticRunConditionEscalated] ∨ stepConditionType step = "".
Proof.
  unfold stepConditionType. repeat destruct (String.eqb _ _); [left; decide_closed..|by right].
Qed.

(** The condition a pod event sets, on a step that is undecided. *)
Lemma forward_stepCondition now cs step st reason msg gen :
  statusOf cs (stepConditionType step) ∈ [None; Some ConditionUnknown] →
  forward cs (SetStatusCondition now cs
    (NewCondition (stepConditionType step) st reason msg gen)).
Proof.
  intros Hu. destruct (stepConditionType_cases step) as [Ht|Ht];
    [by apply forward_undecided|]. rewrite Ht. apply forward_other. decide_closed.
Qed.

Lemma forward_stepFail now cs step reason msg gen :
  forward cs (SetStatusCondition now cs
    (NewCondition (stepConditionType step) ConditionFalse reason msg gen)).
Proof.
  destruct (stepConditionType_cases step) as [Ht|Ht]; [by apply forward_fail|].
  rewrite Ht. apply forward_other. decide_closed.
Qed.

Lemma completionPatch_forward step base obj :
  completionPatch step (stepConditionType step) base obj →
  forward (run_Conditions base) (run_Conditions obj) ∨ completesLate base obj.
Proof.
  assert (Hc : ∀ st why msg, conditionPatch (stepConditionType step) st why msg base obj →
    forward (run_Conditions base) (run_Conditions obj)).
  { intros st why msg (Hu%undecided_status & now & -> & _). by apply forward_stepCondition. }
  intros [[[[cr|] reason] H]|(why & msg & H)]; [|by left; eapply Hc..].
  unfold verdictPatch in H. destruct (String.eqb reason ""); [|destruct (String.eqb step _)].
  - destruct H as (why & msg & H). destruct (decide (statusOf (run_Conditions base)
      (stepConditionType step) ∈ [None; Some ConditionUnknown])).
    + left. destruct H as (_ & now & -> & _). by apply forward_stepCondition.
    + right. left. by exists step, cr, why, msg.
  - destruct (decide (statusOf (run_Conditions base) AgenticRunConditionEscalated
      ∈ [None; Some ConditionUnknown])).
    + left. destruct H as (_ & now1 & now2 & -> & _). unfold setBy.
      eapply forward_trans; [|apply forward_undecided; [decide_closed|by status_simpl]].
      apply forward_fail. decide_closed.
    + right. right. by exists cr, reason.
  - left. destruct H as (why & msg & _ & now & -> & _). apply forward_stepFail.
Qed.

(** A late completion leaves the stop marker alone. *)
Lemma completesLate_stopping base obj :
  completesLate base obj →
  statusOf (run_Conditions obj) AgenticRunConditionStopping
  = statusOf (run_Conditions base) AgenticRunConditionStopping.
Proof.
  intros [(step & cr & why & msg & (_ & now & -> & _) & _)
         |(cr & reason & (_ & now1 & now2 & -> & _) & _)]; unfold setBy; [|by status_simpl].
  apply statusOf_set_other. unfold stepConditionType. cbn [cond_Type].
  by repeat destruct (String.eqb _ _).
Qed.

Lemma completeStep_refined run pod step tmsg treason :
  refined (completeStep r run pod step (stepConditionType step) tmsg treason).
Proof.
  intros tr e H%completeStep_onePatch. eapply onePatch_refines; [| |exact H].
  - apply completionPatch_kept.
  - apply completionPatch_forward.
Qed.

Lemma patchStepCondition_refined run step st reason msg :
  refined (patchStepCondition r run (stepConditionType step) st reason msg).
Proof.
  intros tr e H%patchStepCondition_run%onePatch_guarded. eapply onePatch_refines; [| |exact H].
  - by intros base obj (_ & now & _ & _ & _ & ?).
  - intros base obj (Hu%undecided_status & now & -> & _). left. by apply forward_stepCondition.
Qed.

Lemma handlePodEvent_refined pod : refined (handlePodEvent r pod).
Proof.
  intros tr reqs [[Hq _]|(i & run & key & current & trq & trg & trp & e & _ & _ & _ & -> & Hq & Hg
    & _ & Hp & _)]%handlePodEvent_run; [by apply quiet_patched|].
  apply Forall_app; split; [by apply quiet_patched|].
  apply Forall_app; split; [by eapply quiet_patched, guarded_quiet|].
  unfold podProgress in Hp. cbv zeta in Hp.
  run_if Hp; [by eapply patchStepCondition_refined|by eapply completeStep_refined].
Qed.

Lemma handleEntry_refined now e : refined (handleEntry r now e).
Proof.
  unfold handleEntry, claimDeadline, podDeadline, timeoutDecision, resolveStepAgent, approvalOf,
    reconcileStopIn, reconcileAcceptedStop.
  emits_walk ltac:(exact I);
    first [ apply patched_quiet, runForSandboxIdentity_quiet
          | apply patched_quiet, readRunnableRun_quiet
          | apply steps_refined, Reconcile_steps
          | apply patchStepCondition_refined | apply completeStep_refined ].
Qed.

Lemma handlePodTimeEvent_refined : refined (handlePodTimeEvent r).
Proof.
  unfold handlePodTimeEvent, isSandboxClaimMode, listSandboxPods, listBarePods, sandboxEntry,
    sandboxClaimCreationTime.
  emits_walk ltac:(exact I);
    first [apply patched_quiet, resolveSandboxPodMetadata_quiet | apply handleEntry_refined].
Qed.

Lemma runTimeoutLoop_refined ticks : refined (runTimeoutLoop r ticks).
Proof.
  unfold runTimeoutLoop. apply emits_bind.
  { unfold sweepExpiredRuns. emits_walk ltac:(exact I). }
  intros _. generalize 1%Z. induction ticks as [|ticks IH]; intros i; cbn; [apply emits_ret|].
  unfold sweepExpiredRuns. emits_walk ltac:(exact I);
    first [apply handlePodTimeEvent_refined|apply IH].
Qed.
End Reconciler.

(** ** The global suspension controller *)
Lemma refined_setConditionAt {B} cs c at_ (f : list Condition → M B) :
  (∀ now, emits (patched refines)
     (f (setLastTransitionTime (SetStatusCondition now cs c) (cond_Type c) at_))) →
  emits (patched refines) (bind (setConditionAt cs c at_) f).
Proof.
  intros Hf tr b (t1 & cs' & t2 & -> & Hs & H)%runs_bind.
  unfold setConditionAt in Hs. run_call Hs now. runs_step.
  constructor; [exact I|]. by eapply Hf.
Qed.

Lemma markerAttempt_refined `{!ApiMachineryLaws K} (o : OLSReconciler) snapshot activation :
  emits (patched refines) (markerAttempt o snapshot activation).
Proof.
  unfold markerAttempt. apply emits_bind; [refine (emits_call _ _ _); intros; exact I|].
  intros [current|e]; [|apply emits_ret].
  destruct (negb _); [apply emits_ret|].
  destruct (HasAcceptedStop current) eqn:Ha; [apply emits_ret|].
  apply emits_bind; [unfold RequireCurrentActivation; emits_walk ltac:(exact I)|].
  intros [e|]; [apply emits_ret|]. apply refined_setConditionAt. intros now.
  apply emits_bind; [|intros; apply emits_ret]. refine (emits_call _ _ _). intros p.
  apply refines_work; [exact Ha|exact (resultsKept_refl current)|]. rewrite run_Conditions_with.
  eapply forward_trans; [apply forward_stopping|apply forward_setTime].
Qed.

Lemma OLSConfig_refined `{!ApiMachineryLaws K} (o : OLSReconciler) req :
  emits (patched refines) (OLSConfig.Reconcile o req).
Proof.
  unfold OLSConfig.Reconcile, handleDeactivation, deactivationAttempt, ensureActivationStatus,
    activationAttempt, patchConfig, recordIf, setConditionAt, reconcileSuspension, concludePass,
    boundedCleanupContext, patchActivationOutcome, OLSConfig.outcomeAttempt, stopRuns, passRun,
    OLSConfig.persistRunStop, RequireCurrentActivation, patchConfig, setConditionAt.
  emits_walk ltac:(exact I); apply markerAttempt_refined.
Qed.

(** Recording a sandbox keeps the results of a run that the guard just read. *)
Lemma withStepSandbox_kept run step info : resultsKept run (withStepSandbox run step info).
Proof. unfold withStepSandbox. repeat case_match; repeat split; done. Qed.

Lemma withStepSandbox_conditions run step info :
  run_Conditions (withStepSandbox run step info) = run_Conditions run.
Proof. unfold withStepSandbox. by repeat case_match. Qed.

Lemma launchSandbox_refined `{CC : ClientCmd} `{L : SandboxLifecycle} `{LL : !SandboxLifecycleLaws K L}
    s run stepName step agentCtx :
  emits (patched refines) (launchSandbox s run stepName step agentCtx).
Proof.
  unfold launchSandbox. apply emits_bind.
  { apply emits_retryFrom; [|done].
    eapply emits_mono; [|apply create_no_patch]. intros [e a]. by destruct e. }
  intros [name [err|]]; unfold onErr; [apply emits_ret|]. apply emits_bind; [|intros; apply emits_ret].
  intros tr e [Hp _]%patchSandboxInfo_run. apply Forall_forall. intros ev Hin.
  apply list_elem_of_split in Hin as (pre & post & ->).
  destruct ev as [e0 ans]. destruct e0; try exact I.
  destruct (Hp _ _ _ eq_refl eq_refl) as (-> & before & reads & _ & (c & _ & _ & Hs & _)).
  apply refines_work; [done|apply withStepSandbox_kept|].
  rewrite withStepSandbox_conditions. apply forward_refl.
Qed.

(** ** The controllers together *)

(** The trace of a run of one of the operator's controllers. *)
Inductive controllerRun : trace → Prop :=
| run_Reconcile r req tr o : runs (Reconcile r req) tr o → controllerRun tr
| run_handlePodEvent r pod tr reqs : runs (handlePodEvent r pod) tr reqs → controllerRun tr
| run_timeouts r ticks tr o : runs (runTimeoutLoop r ticks) tr o → controllerRun tr
| run_suspension o req tr out : runs (OLSConfig.Reconcile o req) tr out → controllerRun tr
| run_launch (CC : ClientCmd) (L : SandboxLifecycle) s run stepName step agentCtx tr out :
    SandboxLifecycleLaws K L →
    runs (launchSandbox s run stepName step agentCtx) tr out → controllerRun tr.

Context {KL : ApiMachineryLaws K}.

Lemma controllerRun_refined tr : controllerRun tr → Forall (patched refines) tr.
Proof.
  intros [r req tr' o H|r pod tr' reqs H|r ticks tr' o H|o req tr' out H
         |CC L s run stepName step agentCtx tr' out LL H].
  - by eapply steps_refined, H; apply Reconcile_steps.
  - by eapply handlePodEvent_refined.
  - by eapply runTimeoutLoop_refined.
  - by eapply OLSConfig_refined.
  - by eapply launchSandbox_refined.
Qed.

(** C3: the controllers refine the abstract machine: whatever the API server
    and the other controllers do in between, every status patch that a
    reconciliation, a pod event, the timeout loop, the global suspension or the
    launch of a sandbox sends is a move of the machine from the run it was computed from: no
    step of the workflow goes back and the phase changes only with a step, results
    are only added, an accepted stop is only concluded, a concluded stop stays,
    and a patch that departs from this is a revision that leaves the stop
    marker as it was, or completes a step that was decided in the meantime. *)
Theorem controllers_refine_lifecycle tr base obj ans :
  controllerRun tr → Ev (StatusPatchRun base obj) ans ∈ tr →
  ∃ l, moves l (viewOf base) (viewOf obj) ∧ (l = Revise → revises base obj) ∧
       (l = Late → completesLate base obj).
Proof. intros H%controllerRun_refined Hin. exact (patched_in _ _ _ _ _ H Hin). Qed.

(** No reconciliation revives a terminal run: a status patch on a run in a
    terminal phase leaves it in a terminal phase, unless it starts a revision,
    which the patch records as [Analyzed=Unknown] with reason [Revising]. *)
Theorem Reconcile_keeps_terminal r req tr o base obj ans :
  runs (Reconcile r req) tr o →
  Ev (StatusPatchRun base obj) ans ∈ tr →
  isTerminal (DerivePhase (run_Conditions base)) = true →
  isTerminal (DerivePhase (run_Conditions obj)) = true ∨ revising obj.
Proof. intros H%Reconcile_steps Hin. by apply (patched_in _ _ _ _ _ H Hin). Qed.

(** ** The history of a stored run *)

(** A patch of the API server with an optimistic lock applies to the status it
    was computed from; every other write leaves the status alone.  [ps] lists
    the patches. *)
Inductive history : list (AgenticRun * AgenticRun) → AgenticRun → AgenticRun → Prop :=
| history_refl s : history [] s s
| history_patch ps tr base obj ans s s' s'' :
    controllerRun tr → (Ev (StatusPatchRun base obj) (Ok ans) : event answer) ∈ tr →
    run_Status base = run_Status s → run_Status s' = run_Status obj →
    history ps s' s'' → history ((base, obj) :: ps) s s''
| history_other ps s s' s'' :
    run_Status s' = run_Status s → history ps s' s'' → history ps s s''.

(** A revision that changes the conditions of a run whose stop was accepted. *)
Definition overtakes (base obj : AgenticRun) : Prop :=
  HasAcceptedStop base = true ∧ revises base obj ∧ run_Conditions obj ≠ run_Conditions base.

Lemma viewOf_status s s' : run_Status s' = run_Status s → viewOf s' = viewOf s.
Proof.
  intros Hs. apply viewOf_ext; [unfold run_Conditions; by rewrite Hs|].
  unfold resultsOf, run_Steps. by rewrite Hs.
Qed.

Lemma Forall2_prefix_refl (rs : list (list StepResultRef)) : Forall2 prefix rs rs.
Proof. induction rs; by constructor. Qed.

Lemma moves_results l v v' : moves l v v' → Forall2 prefix (view_Results v) (view_Results v').
Proof.
  intros [v1|v1 v2 _ _ H|? v1 v2 _ _ _ H _|v1 v2 _ H|v1 v2 H]; rewrite ?H;
    first [done|apply Forall2_prefix_refl].
Qed.

Lemma Forall2_prefix_trans (a b c : list (list StepResultRef)) :
  Forall2 prefix a b → Forall2 prefix b c → Forall2 prefix a c.
Proof. intros ??. etrans; eassumption. Qed.

(** C17: the record of a run is append-only: in every history of a stored run,
    whatever the controllers, users and other writers do to it, each of its
    four lists of results only grows at its end. *)
Theorem history_keeps_results ps s s' : history ps s s' → resultsKept s s'.
Proof.
  rewrite resultsKept_prefix. induction 1 as [s|ps tr base obj ans s s' s'' Hr Hin Hb Ho _ IH
    |ps s s' s'' Hs _ IH].
  - apply Forall2_prefix_refl.
  - apply controllerRun_refined in Hr. destruct (patched_in _ _ _ _ _ Hr Hin) as (l & Hm & _).
    apply moves_results in Hm. apply viewOf_status in Hb, Ho.
    eapply Forall2_prefix_trans; [|exact IH].
    change (Forall2 prefix (view_Results (viewOf s)) (view_Results (viewOf s'))).
    by rewrite <- Hb, Ho.
  - apply viewOf_status in Hs. change (resultsOf s) with (view_Results (viewOf s)).
    rewrite <- Hs. exact IH.
Qed.

(** What becomes of a run whose stop was accepted. *)
Definition stopKept (v v' : RunView) : Prop :=
  v' = v ∨
  (view_Stop v = StopAccepted ∧ view_Stop v' = Stopped ∧ view_Results v' = view_Results v ∧
   if isTerminal (view_Phase v) then view_Phase v' = view_Phase v
   else view_Phase v' ∈ [PhaseEmergencyStopped; PhaseFailed]).

Lemma stopped_view l v v' :
  moves l v v' → view_Stop v ≠ Working →
  stopKept v v' ∨ l = Revise ∧ view_Results v' = view_Results v.
Proof.
  intros [v1|v1 v2 H _ _|confirmed v1 v2 Ha Hb _ Hr Hp|v1 v2 H _|v1 v2 H] Hw;
    [by left; left|done| |done|by right].
  left. right. split; [done|]. split; [done|]. split; [done|]. rewrite Hp.
  destruct (isTerminal _); [done|]. destruct confirmed; decide_closed.
Qed.

Lemma stopped_move base obj l :
  moves l (viewOf base) (viewOf obj) → (l = Revise → revises base obj) →
  HasAcceptedStop base = true → ¬ overtakes base obj → stopKept (viewOf base) (viewOf obj).
Proof.
  intros Hm Hl Ha Ho. apply stopped_view in Hm as [?|[-> Hr]]; [done| |].
  - left. destruct (decide (run_Conditions obj = run_Conditions base)) as [Hc|Hc].
    + by apply viewOf_ext.
    + exfalso. apply Ho. split; [done|]. split; [by apply Hl|done].
  - simpl. intros Hw%stopState_accepted. congruence.
Qed.

Lemma stopKept_trans v1 v2 v3 : stopKept v1 v2 → stopKept v2 v3 → stopKept v1 v3.
Proof.
  intros [->|(Ha & Hb & Hr & Hp)] H; [done|].
  destruct H as [->|(Ha' & _)]; [by right|]. congruence.
Qed.

Lemma stopKept_stop v v' : stopKept v v' → view_Stop v ≠ Working → view_Stop v' ≠ Working.
Proof. intros [->|(_ & -> & _)]; done. Qed.

(** C4: a stop is final: in a history in which no revision overtakes it, a run
    whose stop was accepted keeps its phase and its results until the stop is
    concluded; the conclusion makes a working run emergency-stopped or failed
    and leaves a finished one in its phase; and after it nothing changes. *)
Theorem stop_is_final ps s s' :
  history ps s s' → HasAcceptedStop s = true →
  (∀ base obj, (base, obj) ∈ ps → ¬ overtakes base obj) →
  HasAcceptedStop s' = true ∧ resultsOf s' = resultsOf s ∧
  (stopState s = Stopped → viewOf s' = viewOf s) ∧
  (stopState s' = StopAccepted → viewOf s' = viewOf s) ∧
  (isTerminal (DerivePhase (run_Conditions s)) = true →
   DerivePhase (run_Conditions s') = DerivePhase (run_Conditions s)) ∧
  (stopState s' ≠ stopState s → isTerminal (DerivePhase (run_Conditions s)) = false →
   DerivePhase (run_Conditions s') ∈ [PhaseEmergencyStopped; PhaseFailed]).
Proof.
  intros Hh Ha Hno.
  assert (Hk : stopKept (viewOf s) (viewOf s')).
  { clear - Hh Ha Hno KL. assert (Hw : stopState s ≠ Working).
    { intros Hw%stopState_accepted. congruence. }
    clear Ha. induction Hh as [s|ps tr base obj ans s s' s'' Hr Hin Hb Ho _ IH
      |ps s s' s'' Hs _ IH]; [by left|..].
    - apply controllerRun_refined in Hr. destruct (patched_in _ _ _ _ _ Hr Hin) as (l & Hm & Hl & _).
      apply viewOf_status in Hb, Ho.
      assert (Hk : stopKept (viewOf s) (viewOf s')).
      { rewrite <- Hb, Ho. eapply stopped_move; [done..| |by apply Hno; left].
        destruct (HasAcceptedStop base) eqn:Ha; [done|]. apply stopState_accepted in Ha.
        apply (f_equal view_Stop) in Hb. simpl in Hb. congruence. }
      eapply stopKept_trans; [exact Hk|]. apply IH; [intros; apply Hno; by right|].
      by eapply stopKept_stop in Hk.
    - apply viewOf_status in Hs. rewrite <- Hs. apply IH; [done|].
      apply (f_equal view_Stop) in Hs. simpl in Hs. congruence. }
  assert (Ha' : stopState s' ≠ Working).
  { eapply (stopKept_stop _ _ Hk). simpl. intros Hw%stopState_accepted. congruence. }
  split; [destruct (HasAcceptedStop s') eqn:E; [done|by apply stopState_accepted in E]|].
  destruct Hk as [Hv|(Hs & Hs' & Hr & Hp)]; simpl in *.
  - pose proof (f_equal view_Phase Hv) as Hph. pose proof (f_equal view_Stop Hv) as Hst.
    pose proof (f_equal view_Results Hv) as Hr. simpl in *. by repeat split.
  - rewrite Hs, Hs'. split; [done|]. split; [done|]. split; [done|].
    destruct (isTerminal _); by repeat split.
Qed.

(** ** The end of a workflow *)

(** How often the phase changed. *)
Definition phaseChanges (ps : list (AgenticRun * AgenticRun)) : nat :=
  List.length (List.filter (λ p, negb (bool_decide
    (DerivePhase (run_Conditions (fst p)) = DerivePhase (run_Conditions (snd p))))) ps).

(** How far a run has come, over all its steps: at most 14. *)
Definition progressOf (run : AgenticRun) : nat := list_sum (marksOf (run_Conditions run)).

Lemma progress_bounded run : (progressOf run ≤ 14)%nat.
Proof.
  assert (Hr : ∀ s, (markRank s ≤ 3)%nat) by (intros [[]|]; simpl; lia).
  assert (Hf : ∀ s, (markFlag s ≤ 1)%nat) by (intros [[]|]; simpl; lia).
  unfold progressOf, marksOf. cbn [list_sum foldr].
  repeat match goal with
  | |- context [markRank ?s] => pose proof (Hr s); generalize dependent (markRank s); intros
  | |- context [markFlag ?s] => pose proof (Hf s); generalize dependent (markFlag s); intros
  end. lia.
Qed.

Lemma marks_sum (ms ms' : list nat) :
  Forall2 le ms ms' → (list_sum ms ≤ list_sum ms')%nat ∧ (list_sum ms' = list_sum ms → ms' = ms).
Proof.
  induction 1 as [|x y ms ms' Hxy _ [IH1 IH2]]; [done|]. cbn [list_sum foldr] in *.
  change (foldr Nat.add 0%nat ?l) with (list_sum l) in *. split; [lia|].
  intros Hs. f_equal; [lia|]. apply IH2. lia.
Qed.

(** A move that is neither a revision nor a late completion goes ahead. *)
Lemma moves_ahead l v v' : moves l v v' → l ≠ Revise → l ≠ Late → ahead v v'.
Proof.
  intros [v1|v1 v2 _ H _|? v1 v2 _ _ H _ _|v1 v2 _ _|v1 v2 _] H1 H2; try done.
Qed.

Lemma ahead_progress base obj :
  ahead (viewOf base) (viewOf obj) →
  (phaseChanges [(base, obj)] + progressOf base ≤ progressOf obj)%nat.
Proof.
  intros [Hm Hp]. cbn [viewOf view_Marks view_Phase] in Hm, Hp.
  destruct (marks_sum _ _ Hm) as [Hle Heq].
  unfold phaseChanges, progressOf. cbn [List.filter fst snd].
  destruct (bool_decide _) eqn:Hd; cbn [negb List.length]; [lia|]. apply bool_decide_eq_false in Hd.
  assert (list_sum (marksOf (run_Conditions obj)) ≠ list_sum (marksOf (run_Conditions base)))
    by (intros He; apply Hd; by rewrite Hp; [|apply Heq]). lia.
Qed.

(** C16: a workflow ends: in a history of a stored run without a revision and
    without a completion that comes too late, whatever the controllers, users and
    other writers do, no step goes back, every change of the phase brings the run
    further, and there are at most 14 of them. *)
Theorem phases_end ps s s' :
  history ps s s' →
  (∀ base obj, (base, obj) ∈ ps → ¬ revises base obj ∧ ¬ completesLate base obj) →
  forward (run_Conditions s) (run_Conditions s') ∧
  (phaseChanges ps + progressOf s ≤ progressOf s' ≤ 14)%nat.
Proof.
  intros Hh Hno. cut (ahead (viewOf s) (viewOf s') ∧ (phaseChanges ps + progressOf s ≤ progressOf s')%nat).
  { intros [Ha Hp]. split; [exact Ha|]. split; [exact Hp|apply progress_bounded]. }
  induction Hh as [s|ps tr base obj ans s s' s'' Hr Hin Hb Ho _ IH|ps s s' s'' Hs _ IH].
  - split; [|done]. apply forward_refl.
  - apply controllerRun_refined in Hr.
    destruct (patched_in _ _ _ _ _ Hr Hin) as (l & Hm & Hrev & Hlate).
    destruct (Hno base obj ltac:(left)) as [H1 H2].
    apply moves_ahead in Hm; [|by intros ->; apply H1, Hrev|by intros ->; apply H2, Hlate].
    pose proof (ahead_progress _ _ Hm) as Hp.
    destruct IH as [IHa IHp]; [intros; apply Hno; by right|].
    apply viewOf_status in Hb, Ho. rewrite Hb, <- Ho in Hm.
    split; [exact (forward_trans _ _ _ Hm IHa)|].
    apply (f_equal (list_sum ∘ view_Marks)) in Hb, Ho. cbn in Hb, Ho.
    change (phaseChanges ((base, obj) :: ps)) with (phaseChanges ([(base, obj)] ++ ps)).
    unfold phaseChanges in *. rewrite List.filter_app, length_app.
    unfold progressOf in *. cbn [list_sum foldr marksOf] in *. lia.
  - destruct (IH Hno) as [IHa IHp]. apply viewOf_status in Hs. rewrite Hs in IHa. split; [done|].
    apply (f_equal (list_sum ∘ view_Marks)) in Hs. cbn in Hs.
    unfold progressOf in *. cbn [list_sum foldr marksOf] in *. lia.
Qed.
End Lifecycle.
