(* ===== verification/Configuration.v ===== *)
(** The operator's configuration ([pkg/configuration], [pkg/configwatch]): the
    ConfigMap handed over by the lightspeed operator, parsed into the cache the
    controllers read ([ConfigGet] is [Cache.Get]), the telemetry provider it
    reconfigures, and the watcher that delivers the ConfigMap.

    The package has calls of its own ([cfgCall]): the reader, the exporters and
    the SDK providers of OpenTelemetry, the admin API of the collector. *)
From stdpp Require Import base list option strings gmap.
From Stdlib Require Import ZArith Lia Ascii String.
From S2P Require Import Prelude GoText Json ApiMachinery Types Objects Effects.

Local Open Scope string_scope.
Local Open Scope list_scope.
Local Open Scope prog_scope.

(** ** Keys of the ConfigMap ([constants.go]) *)
Definition ConfigMapName : string := "lightspeed-agentic-configuration".
Definition DefaultTerminalTTLDays : Z := 14.
Definition KeySandboxMode : string := "sandbox-mode".
Definition KeyTerminalTTLDays : string := "terminal-ttl-days".
Definition KeySandboxPodSpec : string := "sandbox-pod-spec".
Definition KeyToolOutputInspectionEnabled : string := "tool-output-inspection-enabled".
Definition KeyTLSProfile : string := "tls-profile".
Definition KeyTLSMinVersion : string := "tls-min-version".
Definition KeyTLSCipherSuites : string := "tls-cipher-suites".
Definition KeyAdditionalCAConfigMap : string := "additional-ca-configmap".
Definition KeyOtelCollectorEndpoint : string := "otel-collector-endpoint".
Definition KeyOtelAdminEndpoint : string := "otel-admin-endpoint".
Definition KeyOtelCASecret : string := "otel-ca-secret".
Definition KeyOtelCredentialsSecret : string := "otel-credentials-secret".
Definition KeyMCPEndpoint : string := "mcp-endpoint".
Definition KeyMCPCASecret : string := "mcp-ca-secret".
Definition KeyRHOKPEndpoint : string := "rhokp-endpoint".
Definition KeyRHOKPCASecret : string := "rhokp-ca-secret".

Definition ErrReadConfigMap : string := "read configuration ConfigMap".
Definition ErrInvalidConfig : string := "invalid configuration ConfigMap".
Definition ErrParseSandboxPodSpec : string := "parse sandbox-pod-spec from ConfigMap".
Definition ErrReadCASecret : string := "read OTEL CA Secret".
Definition ErrParseCACert : string := "parse CA certificate".
Definition ErrReadCredentialsSecret : string := "read credentials Secret".
Definition ErrParseClientCert : string := "parse client TLS certificate".
Definition ErrCreateTraceExporter : string := "create OTLP trace exporter".
Definition ErrCreateLogExporter : string := "create OTLP log exporter".
Definition ErrCreateDeleteRequest : string := "create delete request".
Definition ErrDeleteLogs : string := "delete logs".

(** ** Texts of the standard library *)

(** [strconv.ParseBool]. *)
Definition ParseBool (s : string) : option bool :=
  if bool_decide (s ∈ ["1"; "t"; "T"; "true"; "TRUE"; "True"]) then Some true
  else if bool_decide (s ∈ ["0"; "f"; "F"; "false"; "FALSE"; "False"]) then Some false
  else None.

Definition maxInt32 : Z := 2147483647.
Definition minInt32 : Z := -2147483648.

(** [strconv.ParseInt(s, 10, 32)]. *)
Definition ParseInt32 (s : string) : option Z :=
  match Atoi s with
  | Some z => if ((minInt32 <=? z) && (z <=? maxInt32))%Z then Some z else None
  | None => None
  end.

(** The string before the last occurrence of a byte and the one after it. *)
Fixpoint cutLast (c : ascii) (s : string) : option (string * string) :=
  match s with
  | EmptyString => None
  | String a s' =>
      match cutLast c s' with
      | Some (before, after) => Some (String a before, after)
      | None => if Ascii.eqb a c then Some ("", s') else None
      end
  end.

(** The string before the first occurrence of a byte and the one after it. *)
Fixpoint cutFirst (c : ascii) (s : string) : option (string * string) :=
  match s with
  | EmptyString => None
  | String a s' =>
      if Ascii.eqb a c then Some ("", s')
      else match cutFirst c s' with
           | Some (before, after) => Some (String a before, after)
           | None => None
           end
  end.

Definition colon : ascii := byte 58.
Definition openBracket : ascii := byte 91.
Definition closeBracket : ascii := byte 93.

(** [net.SplitHostPort]; [None] is an error. *)
Definition SplitHostPort (hostport : string) : option (string * string) :=
  match cutLast colon hostport with
  | None => None
  | Some (before, port) =>
      match hostport with
      | String a rest =>
          if Ascii.eqb a openBracket then
            match cutFirst closeBracket rest with
            | None => None
            | Some (host, after) =>
                (* the colon right behind the bracket has to be the last one *)
                if String.eqb after (String colon port) && negb (hasByte openBracket rest)
                   && negb (hasByte closeBracket after)
                then Some (host, port) else None
            end
          else if hasByte colon before || hasByte openBracket hostport
                  || hasByte closeBracket hostport
               then None else Some (before, port)
      | EmptyString => None
      end
  end.

Example SplitHostPort_examples :
  map SplitHostPort ["otel:4317"; "[::1]:4317"; "otel"; "a:b:c"; "[::1]"; "[::1]x:1"; ":1"; "h:"; "]:1"; "[[]:1"]
  = [Some ("otel", "4317"); Some ("::1", "4317"); None; None; None; None; Some ("", "1"); Some ("h", "");
     None; None].
Proof. vm_compute. done. Qed.

(** ** The libraries

    [json.Unmarshal] of a pod specification, [url.Parse] (scheme and host),
    [CertPool.AppendCertsFromPEM] and [tls.X509KeyPair]. *)
Class ConfigLibs := {
  UnmarshalPodSpec : string → res PodSpec;
  ParseURL : string → option (string * string);
  AppendCertsFromPEM : string → bool;
  X509KeyPair : string → string → option error;
}.

(** ** The collector *)
Record CollectorConfig := MkCollectorConfig {
  cc_CollectorEndpoint : string;
  cc_AdminEndpoint : string;
  cc_CASecretName : string;
  cc_CACert : string;
  cc_CredentialsSecret : string;
  cc_ClientCert : string;
  cc_ClientKey : string;
}.

(** A [tls.Config] of a client: roots, minimum version, key pair. *)
Record TLSConfig := MkTLSConfig {
  tls_RootCAs : string;
  tls_MinVersion : Z;
  tls_Certificate : option (string * string);
}.

#[export] Instance CollectorConfig_eq_dec : EqDecision CollectorConfig.
Proof. solve_decision. Defined.
#[export] Instance TLSConfig_eq_dec : EqDecision TLSConfig.
Proof. solve_decision. Defined.

(** The providers of the SDK, by what they export to: the endpoint and its TLS
    configuration; a tracer provider without an exporter keeps its spans. *)
Definition exporter : Type := string * TLSConfig.
Record TracerProvider := MkTracerProvider { tp_Exporter : option exporter }.
Record LoggerProvider := MkLoggerProvider { lp_Exporter : exporter }.

Definition VersionTLS10 : Z := 769.
Definition VersionTLS11 : Z := 770.
Definition VersionTLS12 : Z := 771.
Definition VersionTLS13 : Z := 772.

(** The visible state of a provider: the logger of its log provider, the
    configuration in force, the client of the admin API. *)
Record providerState := MkProviderState {
  ps_Logger : option exporter;
  ps_Config : option CollectorConfig;
  ps_AdminClient : option TLSConfig;
}.
Definition emptyState : providerState := MkProviderState None None None.

Record Provider := MkProvider {
  p_State : option providerState;
  p_TP : option TracerProvider;
  p_LP : option LoggerProvider;
  p_Reader : bool;          (* the reader of Secrets is set *)
  p_Namespace : string;
}.

(** [NewProvider] and [SetSecretSource]. *)
Definition NewProvider : Provider := MkProvider None None None false "".
Definition SetSecretSource (p : Provider) (namespace : string) : Provider :=
  MkProvider (p_State p) (p_TP p) (p_LP p) true namespace.

(** A log record: trace, run, phase, event and body. *)
Record LogRecord := MkLogRecord {
  log_TraceID : string;
  log_RunUID : string;
  log_Phase : string;
  log_Event : string;
  log_Body : string;
}.

(** ** Calls of the package *)
Inductive cfgCall :=
| GetConfigMap (key : NamespacedName)
| GetSecretData (key : NamespacedName)
| NewTraceExporter (e : exporter)
| NewLogExporter (e : exporter)
| SetTracerProvider (tp : TracerProvider)      (* otel.SetTracerProvider, process-wide *)
| ShutdownTracer (tp : TracerProvider)
| ShutdownLogger (lp : LoggerProvider)
| CloseIdleConnections (client : TLSConfig)
| EmitRecord (logger : exporter) (record : LogRecord)
| NewRequest (method url : string)
| DoRequest (client : TLSConfig) (method url : string).

Definition cfgAnswer (e : cfgCall) : Type :=
  match e with
  | GetConfigMap _ => res (Object KConfigMap)
  | GetSecretData _ => res (gmap string string)
  | NewTraceExporter _ | NewLogExporter _ | ShutdownTracer _ | ShutdownLogger _
  | NewRequest _ _ => option error
  | SetTracerProvider _ | CloseIdleConnections _ | EmitRecord _ _ => unit
  | DoRequest _ _ _ => res Z     (* the status code *)
  end.

Abbreviation C := (prog cfgAnswer).

Section Configuration.
Context `{K : ApiMachinery} `{CL : ConfigLibs}.

(** ** [CollectorConfig] *)
Definition IsValid (c : option CollectorConfig) : bool :=
  match c with Some c => negb (String.eqb (cc_CollectorEndpoint c) "") | None => false end.

(** [strings.ToLower(adminURL.Scheme) == https] with a host. *)
Definition adminEndpointOk (endpoint : string) : bool :=
  match ParseURL endpoint with
  | Some (scheme, host) => String.eqb (ToLower scheme) "https" && negb (String.eqb host "")
  | None => false
  end.

Definition invalid (msg : string) : option error :=
  Some (errorString (ErrInvalidConfig +:+ ": " +:+ msg)).

Definition hostPortOk (endpoint : string) : bool :=
  match SplitHostPort endpoint with
  | Some (host, port) => negb (String.eqb host "") && negb (String.eqb port "")
  | None => false
  end.

Definition Validate (oc : option CollectorConfig) : option error :=
  match oc with
  | None => None
  | Some c =>
      if negb (IsValid oc) then None
      else if negb (hostPortOk (cc_CollectorEndpoint c)) then
        invalid "collector-endpoint must be host:port"
      else if String.eqb (cc_AdminEndpoint c) "" then invalid "admin-endpoint is required"
      else if negb (adminEndpointOk (cc_AdminEndpoint c)) then
        invalid "admin-endpoint must be a valid https URL with a host"
      else if String.eqb (cc_CACert c) "" then invalid "ca.crt is required"
      else if negb (AppendCertsFromPEM (cc_CACert c)) then Some (errorString ErrParseCACert)
      else if String.eqb (cc_CredentialsSecret c) "" then None
      else if String.eqb (cc_ClientCert c) "" || String.eqb (cc_ClientKey c) "" then
        invalid ("credentials-secret " +:+ Quote (cc_CredentialsSecret c)
                 +:+ " requires tls.crt and tls.key")
      else match X509KeyPair (cc_ClientCert c) (cc_ClientKey c) with
           | Some err => Some (wrapError ErrParseClientCert err)
           | None => None
           end
  end.

(** [CollectorConfig.Equal]: field by field, byte slices by their bytes. *)
Definition Equal (c other : option CollectorConfig) : bool :=
  match c, other with
  | Some c, Some o =>
      String.eqb (cc_CollectorEndpoint c) (cc_CollectorEndpoint o)
      && String.eqb (cc_AdminEndpoint c) (cc_AdminEndpoint o)
      && String.eqb (cc_CASecretName c) (cc_CASecretName o)
      && String.eqb (cc_CredentialsSecret c) (cc_CredentialsSecret o)
      && String.eqb (cc_CACert c) (cc_CACert o)
      && String.eqb (cc_ClientCert c) (cc_ClientCert o)
      && String.eqb (cc_ClientKey c) (cc_ClientKey o)
  | None, None => true
  | _, _ => false
  end.

Definition TLSCertKey : string := "tls.crt".
Definition TLSPrivateKeyKey : string := "tls.key".

Definition loadClientCredentials (namespace secretName : string) : C (res (string * string)) :=
  got <- call (GetSecretData (MkNamespacedName namespace secretName)) ;;
  match got with
  | Err err => Ret (Err (wrapError (ErrReadCredentialsSecret +:+ " " +:+ Quote secretName) err))
  | Ok data =>
      let cert := mapGet data TLSCertKey in
      let key := mapGet data TLSPrivateKeyKey in
      if String.eqb cert "" || String.eqb key "" then
        Ret (Err (errorString (ErrReadCredentialsSecret +:+ " " +:+ Quote secretName
                               +:+ ": missing " +:+ TLSCertKey +:+ " or " +:+ TLSPrivateKeyKey)))
      else Ret (Ok (cert, key))
  end.

Definition parseCollectorConfig (data : gmap string string) : CollectorConfig :=
  MkCollectorConfig (mapGet data KeyOtelCollectorEndpoint) (mapGet data KeyOtelAdminEndpoint)
    (mapGet data KeyOtelCASecret) "" (mapGet data KeyOtelCredentialsSecret) "" "".

(** [cm.Data]. *)
Definition dataOf (cm : Object KConfigMap) : gmap string string := obj_Content (k := KConfigMap) cm.

Definition ReadFromConfigMap (namespace : string) : C (res (option CollectorConfig)) :=
  got <- call (GetConfigMap (MkNamespacedName namespace ConfigMapName)) ;;
  match got with
  | Err err =>
      match IgnoreNotFound err with
      | None => Ret (Ok None)
      | Some _ => Ret (Err (wrapError (ErrReadConfigMap +:+ " " +:+ Quote ConfigMapName) err))
      end
  | Ok cm => Ret (Ok (Some (parseCollectorConfig (dataOf cm))))
  end.

(** ** The provider *)
Definition providerConfig (p : Provider) : option CollectorConfig :=
  match p_State p with Some s => ps_Config s | None => None end.

Definition closeAdminClient (s : option providerState) : C unit :=
  match s with
  | Some (MkProviderState _ _ (Some client)) => call (CloseIdleConnections client)
  | _ => Ret tt
  end.

Definition shutdownProvider (tp : option TracerProvider) (lp : option LoggerProvider) : C unit :=
  match tp with Some t => call (ShutdownTracer t) ;;; Ret tt | None => Ret tt end ;;;
  match lp with Some l => call (ShutdownLogger l) ;;; Ret tt | None => Ret tt end.

Definition swapProviders (p : Provider) (newTP : TracerProvider) (newLP : option LoggerProvider)
    (newState : providerState) (prev : option providerState) : C Provider :=
  call (SetTracerProvider newTP) ;;;
  closeAdminClient prev ;;;
  shutdownProvider (p_TP p) (p_LP p) ;;;
  Ret (MkProvider (Some newState) (Some newTP) newLP (p_Reader p) (p_Namespace p)).

Definition buildAdminClient (cfg : CollectorConfig) (tls : TLSConfig) : option TLSConfig :=
  if String.eqb (cc_AdminEndpoint cfg) "" then None else Some tls.

(** The client certificate of the exporters. *)
Definition clientCertificate (cfg : CollectorConfig) : res (option (string * string)) :=
  if String.eqb (cc_ClientCert cfg) "" then Ok None
  else match X509KeyPair (cc_ClientCert cfg) (cc_ClientKey cfg) with
       | Some err => Err (wrapError ErrParseClientCert err)
       | None => Ok (Some (cc_ClientCert cfg, cc_ClientKey cfg))
       end.

Definition enable (p : Provider) (cfg : CollectorConfig) : C (Provider * option error) :=
  match Validate (Some cfg) with
  | Some err => Ret (p, Some err)
  | None =>
      match clientCertificate cfg with
      | Err err => Ret (p, Some err)
      | Ok cert =>
          let tls := MkTLSConfig (cc_CACert cfg) VersionTLS12 cert in
          let e := (cc_CollectorEndpoint cfg, tls) in
          traceErr <- call (NewTraceExporter e) ;;
          match traceErr with
          | Some err => Ret (p, Some (wrapError ErrCreateTraceExporter err))
          | None =>
              let newTP := MkTracerProvider (Some e) in
              logErr <- call (NewLogExporter e) ;;
              match logErr with
              | Some err =>
                  shutdownProvider (Some newTP) None ;;;
                  Ret (p, Some (wrapError ErrCreateLogExporter err))
              | None =>
                  p' <- swapProviders p newTP (Some (MkLoggerProvider e))
                          (MkProviderState (Some e) (Some cfg) (buildAdminClient cfg tls))
                          (p_State p) ;;
                  Ret (p', None)
              end
          end
      end
  end.

Definition Configure (p : Provider) (cfg : option CollectorConfig) : C (Provider * option error) :=
  match cfg with
  | Some c =>
      if IsValid cfg then enable p c
      else p' <- swapProviders p (MkTracerProvider None) None emptyState (p_State p) ;;
           Ret (p', None)
  | None =>
      p' <- swapProviders p (MkTracerProvider None) None emptyState (p_State p) ;;
      Ret (p', None)
  end.

Definition EmitLog (p : Provider) (traceID runUID phase event : string) (body : res string)
    : C unit :=
  match p_State p with
  | Some (MkProviderState (Some logger) _ _) =>
      match body with   (* json.Marshal(payload); an error is logged *)
      | Err _ => Ret tt
      | Ok text => call (EmitRecord logger (MkLogRecord traceID runUID phase event text))
      end
  | _ => Ret tt
  end.

Definition StatusOK : Z := 200.

Definition DeleteLogs (p : Provider) (runUID : string) : C (option error) :=
  match p_State p with
  | Some (MkProviderState _ (Some cfg) (Some client)) =>
      if String.eqb (cc_AdminEndpoint cfg) "" then Ret None
      else
        let url := cc_AdminEndpoint cfg +:+ "/api/v1/logs?agentic_run_id=" +:+ runUID in
        made <- call (NewRequest "DELETE" url) ;;
        match made with
        | Some err => Ret (Some (wrapError ErrCreateDeleteRequest err))
        | None =>
            resp <- call (DoRequest client "DELETE" url) ;;
            match resp with
            | Err err => Ret (Some (wrapError (ErrDeleteLogs +:+ " for run " +:+ runUID) err))
            | Ok code =>
                if (code =? StatusOK)%Z then Ret None
                else Ret (Some (errorString (ErrDeleteLogs +:+ " for run " +:+ runUID
                                             +:+ ": unexpected status " +:+ Itoa code)))
            end
        end
  | _ => Ret None
  end.

Definition resolveCAFromSecret (p : Provider) (cfg : CollectorConfig) : C (res CollectorConfig) :=
  let name := cc_CASecretName cfg in
  if String.eqb name "" then Ret (Ok cfg)
  else if negb (p_Reader p) then
    Ret (Err (errorString (ErrInvalidConfig +:+ ": " +:+ KeyOtelCASecret +:+ " " +:+ Quote name
                           +:+ " set but no Secret reader configured")))
  else
    got <- call (GetSecretData (MkNamespacedName (p_Namespace p) name)) ;;
    match got with
    | Err err => Ret (Err (wrapError (ErrReadCASecret +:+ " " +:+ Quote name) err))
    | Ok data =>
        let ca := mapGet data "otel-ca.crt" in
        if String.eqb ca "" then
          Ret (Err (errorString (ErrReadCASecret +:+ " " +:+ Quote name
                                 +:+ ": missing otel-ca.crt key")))
        else Ret (Ok (MkCollectorConfig (cc_CollectorEndpoint cfg) (cc_AdminEndpoint cfg) name ca
                        (cc_CredentialsSecret cfg) (cc_ClientCert cfg) (cc_ClientKey cfg)))
    end.

Definition resolveClientCredentials (p : Provider) (cfg : CollectorConfig)
    : C (res CollectorConfig) :=
  let name := cc_CredentialsSecret cfg in
  if String.eqb name "" then Ret (Ok cfg)
  else if negb (p_Reader p) then
    Ret (Err (errorString (ErrInvalidConfig +:+ ": credentials-secret " +:+ Quote name
                           +:+ " set but no Secret reader configured")))
  else
    loaded <- loadClientCredentials (p_Namespace p) name ;;
    match loaded with
    | Err err => Ret (Err err)
    | Ok (cert, key) =>
        Ret (Ok (MkCollectorConfig (cc_CollectorEndpoint cfg) (cc_AdminEndpoint cfg)
                   (cc_CASecretName cfg) (cc_CACert cfg) name cert key))
    end.

(** [p.Configure(ctx, nil)] after an error. *)
Definition disableAfter (p : Provider) (what : string) (err : error) : C (Provider * option error) :=
  let! (p', disErr) := Configure p None in
  Ret (p', Some (match disErr with
                 | Some e => wrapError (ErrInvalidConfig +:+ ": disable after " +:+ what) e
                 | None => err
                 end)).

Definition reconfigureFromConfigMap (p : Provider) (cm : option (Object KConfigMap))
    : C (Provider * option error) :=
  match cm with
  | None =>
      match providerConfig p with
      | None => Ret (p, None)
      | Some _ => Configure p None
      end
  | Some cm =>
      withCA <- resolveCAFromSecret p (parseCollectorConfig (dataOf cm)) ;;
      match withCA with
      | Err err => disableAfter p "CA resolve error" err
      | Ok cfg0 =>
          withCreds <- resolveClientCredentials p cfg0 ;;
          match withCreds with
          | Err err => disableAfter p "credentials error" err
          | Ok cfg =>
              if Equal (Some cfg) (providerConfig p) then Ret (p, None)
              else match Validate (Some cfg) with
                   | Some err => disableAfter p "invalid config" err
                   | None => Configure p (Some cfg)
                   end
          end
      end
  end.

(** [Provider.Shutdown]: the first error of the two. *)
Definition Shutdown (p : Provider) : C (Provider * option error) :=
  tErr <- match p_TP p with
          | Some t => (call (ShutdownTracer t) : C (option error))
          | None => Ret None
          end ;;
  lErr <- match p_LP p with
          | Some l => (call (ShutdownLogger l) : C (option error))
          | None => Ret None
          end ;;
  closeAdminClient (p_State p) ;;;
  Ret (MkProvider (Some emptyState) None None (p_Reader p) (p_Namespace p),
       match tErr with Some e => Some e | None => lErr end).

(** ** The cache ([config.go]) *)
Record Cache := MkCache {
  cache_Config : option Config;
  cache_OTELProvider : option Provider;
  cache_ForceBareMode : bool;
}.

Definition barePodMode : string := "bare-pod".

Definition parseToolOutputInspectionEnabled (data : gmap string string) : bool :=
  match data !! KeyToolOutputInspectionEnabled with
  | None => true
  | Some raw => default true (ParseBool (TrimSpace raw))
  end.

Definition parseTerminalTTLDays (data : gmap string string) : Z :=
  match data !! KeyTerminalTTLDays with
  | None => DefaultTerminalTTLDays
  | Some raw =>
      match ParseInt32 (TrimSpace raw) with
      | Some days => if (days <=? 0)%Z then DefaultTerminalTTLDays else days
      | None => DefaultTerminalTTLDays
      end
  end.

Definition parseConfigMap (data : gmap string string) : res Config :=
  let mode := mapGet data KeySandboxMode in
  let cfg podSpec :=
    MkConfig (if String.eqb mode "" then barePodMode else mode) podSpec
      (mapGet data KeyTLSProfile) (mapGet data KeyTLSMinVersion) (mapGet data KeyTLSCipherSuites)
      (mapGet data KeyAdditionalCAConfigMap)
      (mapGet data KeyOtelCollectorEndpoint) (mapGet data KeyOtelAdminEndpoint)
      (mapGet data KeyOtelCASecret) (mapGet data KeyOtelCredentialsSecret)
      (mapGet data KeyMCPEndpoint) (mapGet data KeyMCPCASecret)
      (mapGet data KeyRHOKPEndpoint) (mapGet data KeyRHOKPCASecret)
      (parseToolOutputInspectionEnabled data) (parseTerminalTTLDays data) in
  match data !! KeySandboxPodSpec with
  | Some json =>
      if String.eqb json "" then Ok (cfg None)
      else match UnmarshalPodSpec json with
           | Err err => Err (wrapError ErrParseSandboxPodSpec err)
           | Ok podSpec => Ok (cfg (Some podSpec))
           end
  | None => Ok (cfg None)
  end.

Definition withMode (c : Config) (mode : string) : Config :=
  MkConfig mode (cfg_SandboxPodSpec c) (cfg_TLSProfile c) (cfg_TLSMinVersion c)
    (cfg_TLSCipherSuites c) (cfg_AdditionalCAConfigMap c) (cfg_OTELCollectorEndpoint c)
    (cfg_OTELAdminEndpoint c) (cfg_OTELCASecretName c) (cfg_OTELCredentialsSecret c)
    (cfg_MCPEndpoint c) (cfg_MCPCASecretName c) (cfg_RHOKPEndpoint c) (cfg_RHOKPCASecretName c)
    (cfg_ToolOutputInspectionEnabled c) (cfg_TerminalTTLDays c).

Definition storeConfig (c : Cache) (cfg : option Config) : Cache :=
  MkCache cfg (cache_OTELProvider c) (cache_ForceBareMode c).

(** [SetOTELProvider]; the provider is shared, its state lives in the cache here. *)
Definition SetOTELProvider (c : Cache) (p : Provider) : Cache :=
  MkCache (cache_Config c) (Some p) (cache_ForceBareMode c).

(** [Cache.update]. *)
Definition update (c : Cache) (cm : option (Object KConfigMap)) : Cache * option error :=
  match cm with
  | None => (storeConfig c None, None)
  | Some cm =>
      match parseConfigMap (dataOf cm) with
      | Err err => (c, Some err)
      | Ok cfg =>
          let cfg' :=
            if cache_ForceBareMode c && negb (String.eqb (cfg_SandboxMode cfg) barePodMode)
            then withMode cfg barePodMode else cfg in
          (storeConfig c (Some cfg'), None)
      end
  end.

Definition OnConfigMapChange (c : Cache) (cm : option (Object KConfigMap))
    : C (Cache * option error) :=
  match update c cm with
  | (c', Some err) => Ret (c', Some err)
  | (c', None) =>
      match cache_OTELProvider c' with
      | None => Ret (c', None)
      | Some p =>
          let! (p', err) := reconfigureFromConfigMap p cm in
          Ret (SetOTELProvider c' p', err)
      end
  end.

(** ** The watcher ([pkg/configwatch/watcher.go])

    [S] is the state the handlers share. *)
Definition Handler (S : Type) : Type := S → option (Object KConfigMap) → C (S * option error).

Record Watcher (S : Type) := MkWatcher {
  w_namespace : string;
  w_handlers : gmap string (Handler S);
}.
Arguments w_namespace {S} w.
Arguments w_handlers {S} w.

(** [New]: a later registration of a name replaces an earlier one. *)
Definition New {S} (namespace : string) (registrations : list (string * Handler S)) : Watcher S :=
  MkWatcher S namespace
    (fold_left (λ m r, <[r.1 := r.2]> m) registrations ∅).

(** [Watcher.Reconcile]: the error of a handler is logged; its result is always
    the empty one. *)
Definition Reconcile {S} (w : Watcher S) (s : S) (req : NamespacedName) : C (S * option error) :=
  if negb (String.eqb (nn_Namespace req) (w_namespace w)) then Ret (s, None)
  else match w_handlers w !! nn_Name req with
       | None => Ret (s, None)
       | Some h =>
           got <- call (GetConfigMap req) ;;
           match got with
           | Err err =>
               match IgnoreNotFound err with
               | None => r <- h s None ;; Ret (fst r, None)
               | Some _ => Ret (s, Some err)
               end
           | Ok cm => r <- h s (Some cm) ;; Ret (fst r, None)
           end
       end.

(** The map function of [SetupWithManager]. *)
Definition requestsFor {S} (w : Watcher S) (cm : Object KConfigMap) : list NamespacedName :=
  if negb (String.eqb (obj_Namespace cm) (w_namespace w)) then []
  else match w_handlers w !! obj_Name cm with
       | None => []
       | Some _ => [MkNamespacedName (obj_Namespace cm) (obj_Name cm)]
       end.

(** The watcher [main] registers. *)
Definition cmWatcher (namespace : string) : Watcher Cache :=
  New namespace [(ConfigMapName, OnConfigMapChange)].

(** ** The provider exports only to a collector that passed validation *)

(** The exporter of a configuration, when its certificate is readable. *)
Definition exporterOf (cfg : CollectorConfig) (e : exporter) : Prop :=
  ∃ cert, clientCertificate cfg = Ok cert ∧
    e = (cc_CollectorEndpoint cfg, MkTLSConfig (cc_CACert cfg) VersionTLS12 cert).

(** Nothing leaves the process. *)
Definition quiet (p : Provider) : Prop :=
  (∀ t, p_TP p = Some t → tp_Exporter t = None) ∧ p_LP p = None ∧
  (∀ s, p_State p = Some s → s = emptyState).

(** Spans and records go to the collector of [cfg], over TLS 1.2 or later with its
    authority, and the admin client is the same one. *)
Definition exports (p : Provider) (cfg : CollectorConfig) : Prop :=
  IsValid (Some cfg) = true ∧ Validate (Some cfg) = None ∧
  ∃ e, exporterOf cfg e ∧ p_TP p = Some (MkTracerProvider (Some e)) ∧
    p_LP p = Some (MkLoggerProvider e) ∧
    p_State p = Some (MkProviderState (Some e) (Some cfg) (Some (snd e))).

Definition providerWf (p : Provider) : Prop := quiet p ∨ ∃ cfg, exports p cfg.

Lemma quiet_config p : quiet p → providerConfig p = None.
Proof.
  intros (_ & _ & H). unfold providerConfig. destruct (p_State p) as [s|]; [|done].
  by rewrite (H s eq_refl).
Qed.

Lemma exports_config p cfg : exports p cfg → providerConfig p = Some cfg.
Proof. intros (_ & _ & e & _ & _ & _ & Hs). unfold providerConfig. by rewrite Hs. Qed.

Lemma swapProviders_run p tp lp st prev tr p' :
  runs (swapProviders p tp lp st prev) tr p' →
  p' = MkProvider (Some st) (Some tp) lp (p_Reader p) (p_Namespace p) ∧
  (∀ t, p_TP p = Some t → ∃ a, Ev (ShutdownTracer t) a ∈ tr) ∧
  (∀ l, p_LP p = Some l → ∃ a, Ev (ShutdownLogger l) a ∈ tr).
Proof.
  unfold swapProviders, shutdownProvider. intros H. do 3 runs_step.
  assert (Hp' : p' = MkProvider (Some st) (Some tp) lp (p_Reader p) (p_Namespace p))
    by (clear -H; runs_step; done).
  split; [done|]. clear Hp'.
  apply runs_bind in Hrun0 as (ta & ua & tb & -> & Ha & Hb). split.
  - intros t Ht. rewrite Ht in Ha. repeat runs_step; eexists; find_event.
  - intros l Hl. rewrite Hl in Hb. repeat runs_step; eexists; find_event.
Qed.

Lemma validated_admin cfg tls :
  Validate (Some cfg) = None → IsValid (Some cfg) = true → buildAdminClient cfg tls = Some tls.
Proof.
  unfold Validate, buildAdminClient. intros Hv Hi. rewrite Hi in Hv. cbn in Hv.
  destruct (hostPortOk _); [|done]. by destruct (String.eqb (cc_AdminEndpoint cfg) "").
Qed.

(** What a configuration that is asked for leads to: the providers of the collector,
    or an error with the old ones in place; the failure is then of the configuration
    or of one of the exporters. *)
Lemma enable_run p cfg tr p' err :
  runs (enable p cfg) tr (p', err) → IsValid (Some cfg) = true →
  match err with
  | None => exports p' cfg
  | Some _ => p' = p ∧
      (Validate (Some cfg) = None →
       (∃ e x, Ev (NewTraceExporter e) (Some x) ∈ tr) ∨ (∃ e x, Ev (NewLogExporter e) (Some x) ∈ tr) ∨
       ∃ x, clientCertificate cfg = Err x)
  end.
Proof.
  unfold enable. intros H Hi. destruct (Validate (Some cfg)) eqn:Hv; [by runs_step; simplify_eq|].
  destruct (clientCertificate cfg) as [cert|x] eqn:Hc; [|runs_step; simplify_eq; split; [done|eauto]].
  run_call H traceErr. destruct traceErr as [x|].
  { runs_step. simplify_eq. split; [done|]. intros _. left. do 2 eexists. left. }
  run_call H logErr. destruct logErr as [x|].
  { repeat runs_step. simplify_eq. split; [done|]. intros _. right; left. do 2 eexists. right; left. }
  apply runs_bind in H as (t1 & p1 & t2 & -> & (-> & _)%swapProviders_run & H). runs_step. simplify_eq.
  set (e := (cc_CollectorEndpoint cfg, MkTLSConfig (cc_CACert cfg) VersionTLS12 cert)).
  split; [done|]. split; [done|]. exists e. split; [by exists cert|]. cbn.
  by rewrite (validated_admin cfg).
Qed.

Lemma Configure_none_run p tr p' err :
  runs (Configure p None) tr (p', err) → err = None ∧ quiet p'.
Proof.
  cbn. intros H. runs_step. apply swapProviders_run in Hrun as [-> _]. runs_step. simplify_eq. split; [done|].
  repeat split; cbn; [by intros ? [= <-]|by intros ? [= <-]].
Qed.

Lemma Configure_run p cfg tr p' err :
  runs (Configure p (Some cfg)) tr (p', err) →
  if IsValid (Some cfg) then
    match err with
    | None => exports p' cfg
    | Some _ => p' = p ∧
        (Validate (Some cfg) = None →
         (∃ e x, Ev (NewTraceExporter e) (Some x) ∈ tr) ∨
         (∃ e x, Ev (NewLogExporter e) (Some x) ∈ tr) ∨ ∃ x, clientCertificate cfg = Err x)
    end
  else err = None ∧ quiet p'.
Proof.
  unfold Configure. destruct (IsValid (Some cfg)) eqn:Hi.
  - intros H. by apply enable_run in H.
  - apply Configure_none_run.
Qed.

Lemma disableAfter_run p what err tr p' err' :
  runs (disableAfter p what err) tr (p', err') → err' = Some err ∧ quiet p'.
Proof.
  unfold disableAfter. intros (t1 & [q e] & t2 & -> & (-> & Hq)%Configure_none_run & H)%runs_bind.
  runs_step. simplify_eq. done.
Qed.

Lemma Equal_eq c o : Equal c o = true → c = o.
Proof.
  destruct c as [[]|], o as [[]|]; cbn; try done. intros H. bool_hyps. by subst.
Qed.

(** A key pair that passed validation is readable. *)
Lemma validated_certificate cfg :
  cc_CredentialsSecret cfg ≠ "" → Validate (Some cfg) = None → IsValid (Some cfg) = true →
  ∃ pair, clientCertificate cfg = Ok pair.
Proof.
  unfold Validate, clientCertificate. intros Hs Hv Hi. rewrite Hi in Hv. cbn in Hv.
  apply String.eqb_neq in Hs. rewrite Hs in Hv.
  repeat (case_match; simplify_eq/=; try done); eauto.
Qed.

(** The reading of a Secret that is named. *)
Definition secretRead (p : Provider) (name : string) (data : gmap string string)
    : list (event cfgAnswer) :=
  if String.eqb name "" then []
  else [Ev (GetSecretData (MkNamespacedName (p_Namespace p) name)) (Ok data)].

(** The entry of a Secret that is named; nothing without a name. *)
Definition secretEntry (name : string) (data : gmap string string) (key : string) : string :=
  if String.eqb name "" then "" else mapGet data key.

(** The configuration a ConfigMap asks for, with the Secrets as the trace starts by reading
    them: the endpoints and the names of the ConfigMap, the authority and the key pair of
    the Secrets. *)
Definition asksFor (p : Provider) (tr : list (event cfgAnswer)) (data : gmap string string)
    (cfg : CollectorConfig) : Prop :=
  let caName := mapGet data KeyOtelCASecret in
  let credsName := mapGet data KeyOtelCredentialsSecret in
  ∃ ca creds rest, tr = secretRead p caName ca ++ secretRead p credsName creds ++ rest ∧
    cfg = MkCollectorConfig (mapGet data KeyOtelCollectorEndpoint) (mapGet data KeyOtelAdminEndpoint)
            caName (secretEntry caName ca "otel-ca.crt")
            credsName (secretEntry credsName creds "tls.crt") (secretEntry credsName creds "tls.key").

Lemma resolveCA_run p data tr cfg :
  runs (resolveCAFromSecret p (parseCollectorConfig data)) tr (Ok cfg) →
  let name := mapGet data KeyOtelCASecret in
  ∃ ca, tr = secretRead p name ca ∧
    cfg = MkCollectorConfig (mapGet data KeyOtelCollectorEndpoint) (mapGet data KeyOtelAdminEndpoint)
            name (secretEntry name ca "otel-ca.crt") (mapGet data KeyOtelCredentialsSecret) "" "".
Proof.
  unfold resolveCAFromSecret, secretRead, secretEntry. cbn. intros H.
  destruct (String.eqb (mapGet data KeyOtelCASecret) "") eqn:Hn.
  { runs_step. simplify_eq. exists ∅. split; [done|]. bool_hyps.
    unfold parseCollectorConfig. by rewrite Hn. }
  run_if H; [by runs_step|]. run_call H got. destruct got as [ca|e]; [|by runs_step].
  run_if H; [by runs_step|]. runs_step. simplify_eq. by exists ca.
Qed.

Lemma resolveClientCredentials_run p ep admin caName ca name tr cfg :
  runs (resolveClientCredentials p (MkCollectorConfig ep admin caName ca name "" "")) tr (Ok cfg) →
  ∃ creds, tr = secretRead p name creds ∧
    cfg = MkCollectorConfig ep admin caName ca name (secretEntry name creds "tls.crt")
            (secretEntry name creds "tls.key").
Proof.
  unfold resolveClientCredentials, loadClientCredentials, secretRead, secretEntry. cbn. intros H.
  destruct (String.eqb name "") eqn:Hn; [runs_step; simplify_eq; by exists ∅|].
  run_if H; [by runs_step|]. apply runs_bind in H as (t1 & loaded & t2 & -> & Hl & H).
  destruct loaded as [[cert key]|e]; [|by runs_step]. runs_step. simplify_eq.
  run_call Hl got. destruct got as [creds|e]; [|by runs_step].
  run_if Hl; runs_step; simplify_eq. by exists creds.
Qed.

Lemma resolve_run p data t1 t2 rest cfg0 cfg :
  runs (resolveCAFromSecret p (parseCollectorConfig data)) t1 (Ok cfg0) →
  runs (resolveClientCredentials p cfg0) t2 (Ok cfg) →
  asksFor p (t1 ++ t2 ++ rest) data cfg.
Proof.
  intros (ca & -> & ->)%resolveCA_run (creds & -> & ->)%resolveClientCredentials_run.
  by exists ca, creds, rest.
Qed.

Lemma asksFor_requested p tr data cfg :
  asksFor p tr data cfg → IsValid (Some cfg) = negb (String.eqb (mapGet data KeyOtelCollectorEndpoint) "").
Proof. by intros (ca & creds & rest & _ & ->). Qed.

(** Without a Secret there is no key pair to be read. *)
Lemma asksFor_anonymous p tr data cfg :
  asksFor p tr data cfg → cc_CredentialsSecret cfg = "" → cc_ClientCert cfg = "".
Proof. intros (ca & creds & rest & _ & ->). cbn. unfold secretEntry. by intros ->. Qed.

(** An exporter could not be made. *)
Definition exporterFailed (tr : list (event cfgAnswer)) : Prop :=
  (∃ e x, Ev (NewTraceExporter e) (Some x) ∈ tr) ∨ (∃ e x, Ev (NewLogExporter e) (Some x) ∈ tr).

Lemma exporterFailed_app t1 t2 : exporterFailed t2 → exporterFailed (t1 ++ t2).
Proof.
  intros [(e & x & H)|(e & x & H)]; [left|right]; exists e, x; apply elem_of_app; by right.
Qed.

Definition requested (data : gmap string string) : bool :=
  negb (String.eqb (mapGet data KeyOtelCollectorEndpoint) "").

(** The state a reconfiguration leaves. *)
Definition reconfigured (p p' : Provider) (cm : option (Object KConfigMap)) (err : option error)
    (tr : list (event cfgAnswer)) : Prop :=
  match err, cm with
  | Some _, _ => quiet p' ∨ (p' = p ∧ exporterFailed tr)
  | None, None => quiet p'
  | None, Some cm =>
      if requested (dataOf cm) then ∃ cfg, asksFor p tr (dataOf cm) cfg ∧ exports p' cfg
      else quiet p'
  end.

Lemma wf_unconfigured p : providerWf p → providerConfig p = None → quiet p.
Proof. intros [Hq|(cfg & He)]; [done|]. by rewrite (exports_config p cfg He). Qed.

(** From the resolved configuration on; [t0] is the reading of the Secrets. *)
Lemma reconfigure_resolved p cm cfg t0 tr p' err :
  providerWf p → asksFor p (t0 ++ tr) (dataOf cm) cfg →
  runs (if Equal (Some cfg) (providerConfig p) then Ret (p, None)
        else match Validate (Some cfg) with
             | Some err => disableAfter p "invalid config" err
             | None => Configure p (Some cfg)
             end) tr (p', err) →
  reconfigured p p' (Some cm) err (t0 ++ tr).
Proof.
  intros Hwf Hask H. unfold reconfigured, requested.
  rewrite <- (asksFor_requested p _ (dataOf cm) cfg Hask).
  destruct (Equal _ _) eqn:Heq.
  - runs_step. simplify_eq. apply Equal_eq in Heq.
    destruct Hwf as [Hq|(c & Hc)]; [by rewrite (quiet_config p Hq) in Heq|].
    rewrite (exports_config p c Hc) in Heq. simplify_eq. destruct (Hc) as (Hi & _).
    rewrite Hi. eauto.
  - destruct (Validate (Some cfg)) eqn:Hv; [by apply disableAfter_run in H as [-> Hq]; left|].
    apply Configure_run in H. destruct (IsValid (Some cfg)) eqn:Hi; [|by destruct H as [-> Hq]].
    destruct err as [x|]; [|by eauto]. destruct H as [-> H]. right. split; [done|].
    apply exporterFailed_app. destruct (H Hv) as [Ht|[Hl|(y & Hy)]]; [by left|by right|].
    destruct (decide (cc_CredentialsSecret cfg = "")) as [Hs|Hs].
    + unfold clientCertificate in Hy. by rewrite (asksFor_anonymous _ _ _ _ Hask Hs) in Hy.
    + destruct (validated_certificate cfg Hs Hv Hi) as [? Hx]. congruence.
Qed.

Lemma reconfigure_run p cm tr p' err :
  runs (reconfigureFromConfigMap p cm) tr (p', err) → providerWf p →
  reconfigured p p' cm err tr.
Proof.
  intros H Hwf. unfold reconfigureFromConfigMap in H. destruct cm as [cm|].
  - apply runs_bind in H as (t1 & [cfg0|x] & t2 & -> & H1 & H);
      [|apply disableAfter_run in H as [-> Hq]; by left].
    apply runs_bind in H as (t3 & [cfg|x] & t4 & -> & H2 & H);
      [|apply disableAfter_run in H as [-> Hq]; by left].
    rewrite app_assoc. eapply reconfigure_resolved; [done| |done].
    rewrite <- app_assoc. by eapply resolve_run.
  - destruct (providerConfig p) eqn:Hc.
    + by apply Configure_none_run in H as [-> Hq].
    + runs_step. simplify_eq. by apply wf_unconfigured.
Qed.

Lemma reconfigured_wf p p' cm err tr :
  reconfigured p p' cm err tr → providerWf p → providerWf p'.
Proof.
  unfold reconfigured, providerWf. destruct err, cm as [cm|]; try (by intros [?|[-> _]]; [left|]);
    [|by left]. destruct (requested _); [|by left]. intros (cfg & _ & H) _. eauto.
Qed.

(** ** The cached configuration *)
Definition configWf (force : bool) (c : Config) : Prop :=
  (1 ≤ cfg_TerminalTTLDays c ≤ maxInt32)%Z ∧ cfg_SandboxMode c ≠ "" ∧
  (force = true → cfg_SandboxMode c = barePodMode).

Definition cacheWf (c : Cache) : Prop :=
  (∀ cfg, cache_Config c = Some cfg → configWf (cache_ForceBareMode c) cfg) ∧
  (∀ p, cache_OTELProvider c = Some p → providerWf p).

Lemma parseTerminalTTLDays_range data : (1 ≤ parseTerminalTTLDays data ≤ maxInt32)%Z.
Proof.
  unfold parseTerminalTTLDays, ParseInt32, DefaultTerminalTTLDays, maxInt32, minInt32.
  repeat case_match; simplify_eq; bool_hyps; lia.
Qed.

Lemma parseConfigMap_wf data cfg :
  parseConfigMap data = Ok cfg → configWf false cfg.
Proof.
  assert (Hw : ∀ cfg', cfg_TerminalTTLDays cfg' = parseTerminalTTLDays data →
             cfg_SandboxMode cfg' = (if String.eqb (mapGet data KeySandboxMode) "" then barePodMode
                                    else mapGet data KeySandboxMode) → configWf false cfg').
  { intros c Ht Hm. split; [rewrite Ht; apply parseTerminalTTLDays_range|]. split; [|done].
    rewrite Hm. case_match; bool_hyps; done. }
  unfold parseConfigMap. intros H. repeat case_match; simplify_eq; by apply Hw.
Qed.

Lemma update_wf c cm c' err :
  update c cm = (c', err) → cacheWf c →
  cacheWf c' ∧ cache_OTELProvider c' = cache_OTELProvider c ∧
  cache_ForceBareMode c' = cache_ForceBareMode c.
Proof.
  intros H [Hc Hp]. destruct cm as [cm|]; cbn in H.
  - destruct (parseConfigMap (dataOf cm)) as [cfg|x] eqn:Hcfg; simplify_eq; [|done].
    apply parseConfigMap_wf in Hcfg as (Ht & Hm & _). split; [|done]. split; [|done]. cbn.
    intros cfg' [= <-]. destruct (cache_ForceBareMode c); cbn; [|by split].
    destruct (String.eqb (cfg_SandboxMode cfg) barePodMode) eqn:Hb; bool_hyps; by split.
  - simplify_eq. split; [|done]. by split.
Qed.

Lemma OnConfigMapChange_wf c cm tr c' err :
  runs (OnConfigMapChange c cm) tr (c', err) → cacheWf c →
  cacheWf c' ∧ cache_ForceBareMode c' = cache_ForceBareMode c.
Proof.
  unfold OnConfigMapChange. destruct (update c cm) as [c1 [x|]] eqn:Hu; intros H Hwf;
    apply update_wf in Hu as (Hwf1 & _ & Hf); [|done| |done].
  { runs_step. by simplify_eq. }
  destruct (cache_OTELProvider c1) as [p|] eqn:Hp; [|by runs_step; simplify_eq].
  apply runs_bind in H as (t1 & [p' e] & t2 & -> & H1 & H). runs_step. simplify_eq.
  split; [|done]. destruct Hwf1 as [Hcfg Hprov]. split; [done|]. intros q [= <-].
  apply reconfigure_run in H1; [by eapply reconfigured_wf; [|apply Hprov]|by apply Hprov].
Qed.

Lemma Reconcile_wf ns c req tr c' err :
  runs (Reconcile (cmWatcher ns) c req) tr (c', err) → cacheWf c →
  cacheWf c' ∧ cache_ForceBareMode c' = cache_ForceBareMode c.
Proof.
  intros H Hwf. unfold Reconcile in H. run_if H; [by runs_step; simplify_eq|].
  destruct (w_handlers _ !! _) as [h|] eqn:Hh; [|by runs_step; simplify_eq].
  assert (h = OnConfigMapChange) as ->.
  { cbn in Hh. apply lookup_insert_Some in Hh as [[_ <-]|[_ Hh]]; [done|].
    by rewrite lookup_empty in Hh. }
  run_call H got. destruct got as [cm|x]; [|case_match; [runs_step; by simplify_eq|]];
    apply runs_bind in H as (t1 & [c1 e] & t2 & -> & H1 & H); runs_step; simplify_eq/=;
    by eapply OnConfigMapChange_wf.
Qed.

(** The caches of a process: as [main] makes it, then event after event of the
    watcher, whatever the API server, the exporters and the Secrets answer. *)
Inductive watched (ns : string) (force : bool) : Cache → Prop :=
| watched_start :
    watched ns force (SetOTELProvider (MkCache None None force) (SetSecretSource NewProvider ns))
| watched_event c req tr c' err :
    watched ns force c → runs (Reconcile (cmWatcher ns) c req) tr (c', err) → watched ns force c'.

Lemma watched_wf ns force c :
  watched ns force c → cacheWf c ∧ cache_ForceBareMode c = force.
Proof.
  induction 1 as [|c req tr c' err _ [IH <-] Hr]; [|by eapply Reconcile_wf].
  split; [|done]. split; [done|]. intros p [= <-]. left. split_and!; done.
Qed.

(** C27: Whatever ConfigMaps the operator is handed over, in whatever order, and
    whatever the API server, the Secrets and the exporters answer: the configuration
    the controllers read has a sandbox mode and between 1 and 2^31-1 days of
    retention, and without the sandbox CRDs its mode is bare-pod; and telemetry
    either stays in the process or goes, over TLS with the authority of the
    configuration, to a collector whose configuration passed validation. *)
Theorem watched_configuration ns force c :
  watched ns force c →
  (∀ cfg, cache_Config c = Some cfg →
     (1 ≤ cfg_TerminalTTLDays cfg ≤ maxInt32)%Z ∧ cfg_SandboxMode cfg ≠ "" ∧
     (force = true → cfg_SandboxMode cfg = barePodMode)) ∧
  (∀ p, cache_OTELProvider c = Some p → quiet p ∨ ∃ cfg, exports p cfg).
Proof. intros H. apply watched_wf in H as [[Hc Hp] <-]. split; [apply Hc|apply Hp]. Qed.

(** C28: What the arrival of a ConfigMap does.  A ConfigMap whose pod specification
    does not parse changes nothing at all.  Any other is the configuration from then
    on, and the provider follows it: the collector it names is exported to, with the
    authority, the certificate and the key that the Secrets it names held when they were
    read for it, also when all else is as before; none is when it names none; and after
    an error nothing is exported, unless an exporter could not be made, in which case the
    provider is as before. *)
Theorem OnConfigMapChange_outcome c p cm tr c' err :
  runs (OnConfigMapChange c (Some cm)) tr (c', err) →
  cacheWf c → cache_OTELProvider c = Some p →
  match parseConfigMap (dataOf cm) with
  | Err e => c' = c ∧ err = Some e ∧ tr = []
  | Ok cfg =>
      cache_Config c' = Some (if cache_ForceBareMode c then withMode cfg barePodMode else cfg) ∧
      ∃ p', cache_OTELProvider c' = Some p' ∧
        match err with
        | None => if requested (dataOf cm) then ∃ cc, asksFor p tr (dataOf cm) cc ∧ exports p' cc
                  else quiet p'
        | Some _ => quiet p' ∨ (p' = p ∧ exporterFailed tr)
        end
  end.
Proof.
  intros H Hwf Hp. unfold OnConfigMapChange, update in H.
  destruct (parseConfigMap (dataOf cm)) as [cfg|e] eqn:Hcfg; [|by runs_step; simplify_eq].
  cbn [storeConfig cache_OTELProvider] in H. rewrite Hp in H.
  apply runs_bind in H as (t1 & [p' x] & t2 & -> & H1 & H). runs_step. simplify_eq. cbn.
  rewrite app_nil_r. split.
  - f_equal. destruct (cache_ForceBareMode c); [|done]. cbn.
    destruct (String.eqb (cfg_SandboxMode cfg) barePodMode) eqn:Hb; [|done]. bool_hyps.
    unfold withMode. rewrite <- Hb. by destruct cfg.
  - exists p'. split; [done|].
    apply reconfigure_run in H1; [|by apply Hwf]. unfold reconfigured in H1. by destruct x.
Qed.

(** The request of an event, and its answer. *)
Definition requestOf (ev : event cfgAnswer) : option (TLSConfig * string * string) :=
  match ev with Ev (DoRequest c m u) _ => Some (c, m, u) | _ => None end.

Definition requestAnswer (ev : event cfgAnswer) : option (res Z) :=
  match ev with
  | Ev e a => (match e return cfgAnswer e → option (res Z) with
               | DoRequest _ _ _ => Some
               | _ => λ _, None
               end) a
  end.

(** The log store is told to delete the logs of a run exactly when a collector is
    configured, with one DELETE of the admin API over its TLS client; the call
    succeeds exactly when the answer is 200, and without a collector nothing is sent. *)
Theorem DeleteLogs_outcome p runUID tr err :
  runs (DeleteLogs p runUID) tr err →
  (quiet p → tr = [] ∧ err = None) ∧
  (∀ cfg, exports p cfg →
     let url := cc_AdminEndpoint cfg +:+ "/api/v1/logs?agentic_run_id=" +:+ runUID in
     (err = None ↔ ∃ tls, tr = [Ev (NewRequest "DELETE" url) None;
                               Ev (DoRequest tls "DELETE" url) (Ok StatusOK)]) ∧
     (∀ client method u a, Ev (DoRequest client method u) a ∈ tr →
        method = "DELETE" ∧ u = url ∧ tls_RootCAs client = cc_CACert cfg)).
Proof.
  intros H. unfold DeleteLogs in H. split.
  - intros (_ & _ & Hs). destruct (p_State p) as [s|]; [|by runs_step].
    pose proof (Hs s eq_refl) as ->. cbn in H. by runs_step.
  - intros cfg (Hi & Hv & e & (cert & _ & ->) & _ & _ & Hs) url. rewrite Hs in H.
    pose proof (validated_admin cfg (MkTLSConfig "" 0 None) Hv Hi) as Ha.
    unfold buildAdminClient in Ha. destruct (String.eqb (cc_AdminEndpoint cfg) ""); [done|].
    cbn [snd] in H. run_call H made. destruct made as [x|].
    { runs_step. split; [split; [done|by intros (tls & ?%(f_equal List.length))]|].
      by intros ? ? ? ? ?%list_elem_of_singleton. }
    run_call H resp. rename tr into t.
    assert (Hend : t = [] ∧ (err = None ↔ resp = Ok StatusOK)).
    { destruct resp as [code|x]; [|runs_step; split; [done|]; split; intros; discriminate].
      destruct (code =? StatusOK)%Z eqn:Hcode; runs_step;
        bool_hyps; (split; [done|]); split; intros; simplify_eq; done. }
    destruct Hend as [-> Hend]. split.
    + rewrite Hend. split; [intros ->; eauto|]. intros (tls & Hx).
      apply (f_equal (omap requestAnswer)) in Hx. by injection Hx.
    + intros client method u a Hin. apply (list_elem_of_fmap_2 requestOf) in Hin. cbn in Hin.
      apply elem_of_cons in Hin as [?|Hin%list_elem_of_singleton]; by simplify_eq/=.
Qed.
End Configuration.
