(* ===== verification/Startup.v ===== *)
(** The start of the operator ([cmd/main.go], [cmd/metrics_tls.go]): [main] as the
    sequence of its set-up calls, the check for the sandbox CRDs that decides whether
    claims may be used, and the TLS policy of the metrics server.

    What the set-up calls build is modelled in the other files; here they are calls
    with an error or none, in the order and under the conditions of the code. *)
From stdpp Require Import base list option strings gmap.
From Stdlib Require Import ZArith Lia Ascii String.
From S2P Require Import Prelude GoText Json ApiMachinery Types Objects Effects Helpers PodSpecBuilder InputConfigMap Rbac Spoke SandboxManager Configuration.

Local Open Scope string_scope.
Local Open Scope list_scope.
Local Open Scope prog_scope.

(** ** The metrics server ([metrics_tls.go]) *)
Definition ErrMetricsTLS : string := "failed to configure metrics TLS".

(** The policy handed over, and the roots client certificates are verified with. *)
Record tlsPolicy := MkTlsPolicy { pol_MinVersion : Z; pol_CipherSuites : list Z }.
Record metricsTLS := MkMetricsTLS { mt_roots : string; mt_policy : option tlsPolicy }.

(** A [tls.Config] of the server: client certificates, version, suites, protocols,
    and whether it asks [GetConfigForClient]. *)
Record serverTLS := MkServerTLS {
  srv_RequireClientCert : bool;
  srv_ClientCAs : string;
  srv_MinVersion : Z;
  srv_CipherSuites : list Z;
  srv_NextProtos : list string;
  srv_PerClient : bool;
}.

Definition metricsTLSVersions : list (string * Z) :=
  [("VersionTLS10", VersionTLS10); ("VersionTLS11", VersionTLS11);
   ("VersionTLS12", VersionTLS12); ("VersionTLS13", VersionTLS13)].

Definition TLS_AES_128_GCM_SHA256 : Z := 4865.
Definition TLS_AES_256_GCM_SHA384 : Z := 4866.
Definition TLS_CHACHA20_POLY1305_SHA256 : Z := 4867.

(** OpenSSL names and the suites of [crypto/tls]. *)
Definition metricsCipherCodes : list (string * Z) :=
  [("TLS_AES_128_GCM_SHA256", TLS_AES_128_GCM_SHA256);
   ("TLS_AES_256_GCM_SHA384", TLS_AES_256_GCM_SHA384);
   ("TLS_CHACHA20_POLY1305_SHA256", TLS_CHACHA20_POLY1305_SHA256);
   ("ECDHE-ECDSA-AES128-GCM-SHA256", 49195%Z); ("ECDHE-RSA-AES128-GCM-SHA256", 49199%Z);
   ("ECDHE-ECDSA-AES256-GCM-SHA384", 49196%Z); ("ECDHE-RSA-AES256-GCM-SHA384", 49200%Z);
   ("ECDHE-ECDSA-CHACHA20-POLY1305", 52393%Z); ("ECDHE-RSA-CHACHA20-POLY1305", 52392%Z);
   ("ECDHE-ECDSA-AES128-SHA256", 49187%Z); ("ECDHE-RSA-AES128-SHA256", 49191%Z);
   ("ECDHE-ECDSA-AES128-SHA", 49161%Z); ("ECDHE-RSA-AES128-SHA", 49171%Z);
   ("ECDHE-ECDSA-AES256-SHA", 49162%Z); ("ECDHE-RSA-AES256-SHA", 49172%Z);
   ("AES128-GCM-SHA256", 156%Z); ("AES256-GCM-SHA384", 157%Z); ("AES128-SHA256", 60%Z);
   ("AES128-SHA", 47%Z); ("AES256-SHA", 53%Z)].

(** The entry of a key in a map literal. *)
Fixpoint entry {A} (k : string) (m : list (string * A)) : option A :=
  match m with
  | [] => None
  | (k', v) :: m' => if String.eqb k k' then Some v else entry k m'
  end.

(** [json.Unmarshal] of the list of cipher names. *)
Class StartupLibs := { UnmarshalStrings : string → res (list string) }.

(** ** The calls of [main] *)
Record ManagerOptions := MkManagerOptions {
  opt_LeaderElection : bool;
  opt_LeaderElectionID : string;
  opt_LeaderElectionNamespace : string;
  opt_MetricsBindAddress : string;
  opt_SecureServing : bool;
  opt_CertDir : string;
  opt_MetricsMinVersion : Z;
  opt_MetricsRoots : option string;   (* the policy of [metricsTLS], when it is installed *)
  opt_HealthProbeBindAddress : string;
  opt_WebhookPort : Z;
}.

Inductive startCall :=
| Getenv (name : string)
| GetRESTConfig
| NewKubeClient
| ReadConfigMap (key : NamespacedName)
| NewManager (opts : ManagerOptions)
| NewApiExtensionsClient
| GetCRD (name : string)
| SetupConfigWatcher (namespace : string) (cache : Cache)
| SetupMetricsWatcher (namespace : string) (policy : metricsTLS)
| NewZapLogger
| SetupAgenticRunReconciler (namespace : string)
| SetupOLSConfigReconciler
| CreateServiceAccount (key : NamespacedName)
| RegisterWebhook (path : string)
| AddHealthzCheck
| AddReadyzCheck
| StartManager
| ShutdownTelemetry
| SyncLogger.

Definition startAnswer (e : startCall) : Type :=
  match e with
  | Getenv _ => string
  | ReadConfigMap _ => res (gmap string string)
  | RegisterWebhook _ | SyncLogger => unit
  | _ => option error
  end.

Abbreviation P := (prog startAnswer).

Section Startup.
Context `{K : ApiMachinery} `{CL : ConfigLibs} `{SLib : StartupLibs}.

(** *** [metricsPolicyConfig] *)
Definition managedByGo (code : Z) : bool :=
  bool_decide (code ∈ [TLS_AES_128_GCM_SHA256; TLS_AES_256_GCM_SHA384; TLS_CHACHA20_POLY1305_SHA256]).

(** The loop over the names: whether one is known, and the suites to configure. *)
Fixpoint readCiphers (names : list string) (recognized : bool) (ciphers : list Z)
    : bool * list Z :=
  match names with
  | [] => (recognized, ciphers)
  | name :: names' =>
      match entry name metricsCipherCodes with
      | None => readCiphers names' recognized ciphers
      | Some code => readCiphers names' true (if managedByGo code then ciphers else ciphers ++ [code])
      end
  end.

Definition metricsError (msg : string) : error := errorString (ErrMetricsTLS +:+ ": " +:+ msg).

Definition metricsPolicyConfig (data : gmap string string) : res tlsPolicy :=
  let version := default 0%Z (entry (mapGet data KeyTLSMinVersion) metricsTLSVersions) in
  if String.eqb (mapGet data KeyTLSProfile) "" || (version =? 0)%Z then
    Err (metricsError "missing or invalid handoff TLS profile/minimum version")
  else
    match UnmarshalStrings (mapGet data KeyTLSCipherSuites) with
    | Err err => Err (wrapError (ErrMetricsTLS +:+ ": decode handoff TLS cipher suites") err)
    | Ok names =>
        if (List.length names =? 0)%nat then Err (metricsError "empty handoff TLS cipher suites")
        else
          let (recognized, ciphers) := readCiphers names false [] in
          if negb recognized || ((version <? VersionTLS13)%Z && (List.length ciphers =? 0)%nat) then
            Err (metricsError "TLS profile has no supported pre-TLS-1.3 ciphers")
          else Ok (MkTlsPolicy version ciphers)
    end.

(** [metricsTLS.OnConfigMapChange], a handler of the watcher. *)
Definition onMetricsConfigMap (m : metricsTLS) (cm : option (Object KConfigMap))
    : metricsTLS * option error :=
  match cm with
  | None => (MkMetricsTLS (mt_roots m) None, None)
  | Some cm =>
      match metricsPolicyConfig (dataOf cm) with
      | Err err => (MkMetricsTLS (mt_roots m) None, Some err)
      | Ok policy => (MkMetricsTLS (mt_roots m) (Some policy), None)
      end
  end.

(** [metricsTLS.Configure] on the base configuration. *)
Definition configureMetrics (m : metricsTLS) (base : serverTLS) : serverTLS :=
  MkServerTLS true (mt_roots m) VersionTLS12 (srv_CipherSuites base) ["http/1.1"] true.

(** The [GetConfigForClient] it installs, at a handshake. *)
Definition configForClient (m : metricsTLS) (base : serverTLS) : res serverTLS :=
  match mt_policy m with
  | None => Err (metricsError "waiting for valid TLS policy in lightspeed-agentic-configuration ConfigMap")
  | Some policy =>
      Ok (MkServerTLS (srv_RequireClientCert base) (srv_ClientCAs base) (pol_MinVersion policy)
            (pol_CipherSuites policy) (srv_NextProtos base) false)
  end.

Definition loadMetricsClientCA : P (res string) :=
  got <- call (ReadConfigMap (MkNamespacedName "openshift-monitoring" "metrics-client-ca")) ;;
  Ret match got with
      | Err err =>
          Err (wrapError (ErrMetricsTLS +:+ ": read metrics-client-ca ConfigMap in openshift-monitoring namespace") err)
      | Ok data =>
          let pem := mapGet data "client-ca.crt" in
          if AppendCertsFromPEM pem then Ok pem
          else Err (metricsError "metrics-client-ca ConfigMap in openshift-monitoring namespace requires valid PEM in client-ca.crt data key")
      end.

(** *** [sandboxCRDInstalled] *)
Definition sandboxCRDs : list string :=
  ["sandboxclaims.extensions.agents.x-k8s.io"; "sandboxes.agents.x-k8s.io";
   "sandboxtemplates.extensions.agents.x-k8s.io"; "sandboxwarmpools.extensions.agents.x-k8s.io"].

Definition sandboxCRDInstalled : P (res bool) :=
  made <- call NewApiExtensionsClient ;;
  match made with
  | Some err => Ret (Err (wrapError "create API extensions client" err))
  | None =>
      forEach sandboxCRDs true
        (λ name installed,
           e <- call (GetCRD name) ;;
           Ret match e with
               | None => inl installed
               | Some err => if IsNotFound err then inl false
                             else inr (Err (wrapError ("get Sandbox API CRD " +:+ Quote name) err))
               end)
        (λ installed, Ret (Ok installed))
  end.

(** *** [main] *)
Record Flags := MkFlags {
  flag_metricsAddr : string;
  flag_healthAddr : string;
  flag_namespace : string;
  flag_leaderElect : bool;
  flag_secureMetrics : bool;
  flag_certDir : string;
}.

Definition managerOptions (metricsAddr healthAddr namespace : string) (leaderElect secureMetrics : bool)
    (certDir : string) : ManagerOptions :=
  MkManagerOptions leaderElect "lightspeed-agentic-operator.agentic.openshift.io" namespace
    metricsAddr secureMetrics certDir VersionTLS12 None healthAddr 9443.

Definition withMetricsRoots (o : ManagerOptions) (roots : string) : ManagerOptions :=
  MkManagerOptions (opt_LeaderElection o) (opt_LeaderElectionID o) (opt_LeaderElectionNamespace o)
    (opt_MetricsBindAddress o) (opt_SecureServing o) (opt_CertDir o) (opt_MetricsMinVersion o)
    (Some roots) (opt_HealthProbeBindAddress o) (opt_WebhookPort o).

(** [if err != nil { log.Error(...); os.Exit(1) }]: deferred calls do not run. *)
Definition orExit (e : option error) (k : P Z) : P Z :=
  match e with Some _ => Ret 1%Z | None => k end.
Definition resOrExit {A} (r : res A) (k : A → P Z) : P Z :=
  match r with Err _ => Ret 1%Z | Ok a => k a end.

(** The metrics policy of secure serving. *)
Definition setupMetrics (secure : bool) (opts : ManagerOptions)
    : P (res (ManagerOptions * option metricsTLS)) :=
  if secure then
    e <- call NewKubeClient ;;
    match e with
    | Some err => Ret (Err err)
    | None =>
        ca <- loadMetricsClientCA ;;
        Ret match ca with
            | Err err => Err err
            | Ok roots => Ok (withMetricsRoots opts roots, Some (MkMetricsTLS roots None))
            end
    end
  else Ret (Ok (opts, None)).

(** What is registered with the manager, in order, before it starts. *)
Definition register (namespace : string) (k : P Z) : P Z :=
  e <- call (SetupAgenticRunReconciler namespace) ;; orExit e
  (e <- call SetupOLSConfigReconciler ;; orExit e
   (e <- call (CreateServiceAccount (MkNamespacedName namespace "lightspeed-agent")) ;;
    orExit (match e with Some err => if IsAlreadyExists err then None else Some err | None => None end)
    (call (RegisterWebhook "/mutate-agenticrunapproval") ;;;
     call (RegisterWebhook "/validate-agent") ;;;
     e <- call AddHealthzCheck ;; orExit e
     (e <- call AddReadyzCheck ;; orExit e k)))).

(** The cache of the process. *)
Definition newCache (namespace : string) (crds : bool) : Cache :=
  SetOTELProvider (MkCache None None (negb crds)) (SetSecretSource NewProvider namespace).

Definition runManager : P Z :=
  e <- call StartManager ;;
  match e with
  | Some _ => call ShutdownTelemetry ;;; Ret 1%Z
  | None =>   (* the deferred calls, in reverse order *)
      call SyncLogger ;;; call ShutdownTelemetry ;;; Ret 0%Z
  end.

(** From the watchers on. *)
Definition serve (namespace : string) (installed : bool) (policy : option metricsTLS) : P Z :=
  e <- call (SetupConfigWatcher namespace (newCache namespace installed)) ;; orExit e
  (e <- match policy with
        | Some m => (call (SetupMetricsWatcher namespace m) : P (option error))
        | None => Ret None
        end ;; orExit e
   (e <- call NewZapLogger ;; orExit e
    (register namespace runManager))).

Definition main (f : Flags) : P Z :=
  namespace <- (if String.eqb (flag_namespace f) "" then (call (Getenv "POD_NAMESPACE") : P string)
                else Ret (flag_namespace f)) ;;
  if String.eqb namespace "" then Ret 1%Z
  else
    e <- call GetRESTConfig ;; orExit e
    (metrics <- setupMetrics (flag_secureMetrics f)
       (managerOptions (flag_metricsAddr f) (flag_healthAddr f) namespace (flag_leaderElect f)
          (flag_secureMetrics f) (flag_certDir f)) ;;
     resOrExit metrics (λ '(opts, policy),
     (e <- call (NewManager opts) ;; orExit e
      (crds <- sandboxCRDInstalled ;; resOrExit crds (λ installed,
       serve namespace installed policy))))).

(** ** The metrics server fails closed *)

Lemma entry_elem {A} k (m : list (string * A)) v : entry k m = Some v → (k, v) ∈ m.
Proof.
  induction m as [|[k' v'] m IH]; cbn; [done|]. destruct (String.eqb k k') eqn:Hk.
  - intros [= ->]. apply String.eqb_eq in Hk as ->. left.
  - intros H. right. auto.
Qed.

(** The suites of a policy: of the table, and none that TLS 1.3 manages. *)
Definition knownSuite (code : Z) : Prop :=
  managedByGo code = false ∧ ∃ name, (name, code) ∈ metricsCipherCodes.

Lemma readCiphers_known names rec cs :
  Forall knownSuite cs → Forall knownSuite (snd (readCiphers names rec cs)).
Proof.
  revert rec cs. induction names as [|name names IH]; intros rec cs Hcs; cbn [readCiphers]; [done|].
  destruct (entry name metricsCipherCodes) as [code|] eqn:He; [|by apply IH].
  apply IH. destruct (managedByGo code) eqn:Hm; [done|]. apply Forall_app. split; [done|].
  constructor; [|constructor]. split; [done|]. exists name. by apply entry_elem.
Qed.

(** A policy the server may serve with. *)
Definition policyOk (policy : tlsPolicy) : Prop :=
  pol_MinVersion policy ∈ [VersionTLS10; VersionTLS11; VersionTLS12; VersionTLS13] ∧
  Forall knownSuite (pol_CipherSuites policy) ∧
  ((pol_MinVersion policy < VersionTLS13)%Z → pol_CipherSuites policy ≠ []).

Lemma metricsPolicyConfig_ok data policy : metricsPolicyConfig data = Ok policy → policyOk policy.
Proof.
  unfold metricsPolicyConfig. intros H.
  destruct (entry (mapGet data KeyTLSMinVersion) metricsTLSVersions) as [v|] eqn:Hv; cbn in H;
    [|by rewrite orb_true_r in H].
  destruct (_ || _); [done|]. destruct (UnmarshalStrings _) as [names|]; [|done].
  destruct (_ =? 0)%nat; [done|]. destruct (readCiphers names false []) as [rec cs] eqn:Hr.
  destruct (negb rec || _) eqn:Hb; [done|]. injection H as <-. bool_hyps.
  pose proof (readCiphers_known names false [] ltac:(constructor)) as Hc. rewrite Hr in Hc.
  split; [|split; [done|]]; cbn [pol_MinVersion pol_CipherSuites].
  - apply entry_elem in Hv. revert Hv. unfold metricsTLSVersions. rewrite !elem_of_cons.
    intros Hv. destruct_or?; simplify_eq; auto. by apply elem_of_nil in Hv.
  - intros Hlt ->. apply Z.ltb_lt in Hlt. by rewrite Hlt in *.
Qed.

(** The policies of a process, from the one [main] makes, event after event. *)
Inductive metricsWatched (roots : string) : metricsTLS → Prop :=
| metrics_start : metricsWatched roots (MkMetricsTLS roots None)
| metrics_event m cm m' err :
    metricsWatched roots m → onMetricsConfigMap m cm = (m', err) → metricsWatched roots m'.

(** Whatever ConfigMaps arrived: a handshake with the metrics server either fails,
    or is served with verified client certificates of the loaded authority, HTTP/1.1,
    and the version and the suites of a valid policy, known to the table and not
    empty below TLS 1.3; after a ConfigMap that is deleted or whose policy is invalid
    every handshake fails. *)
Theorem metrics_fail_closed roots m base :
  metricsWatched roots m →
  (∀ cfg, configForClient m (configureMetrics m base) = Ok cfg →
     srv_RequireClientCert cfg = true ∧ srv_ClientCAs cfg = roots ∧
     srv_NextProtos cfg = ["http/1.1"] ∧
     policyOk (MkTlsPolicy (srv_MinVersion cfg) (srv_CipherSuites cfg))) ∧
  (∀ cm m' err, onMetricsConfigMap m cm = (m', err) → (cm = None ∨ is_Some err) →
     ∃ e, configForClient m' (configureMetrics m' base) = Err e).
Proof.
  intros Hm. split.
  - assert (Hinv : mt_roots m = roots ∧ ∀ p, mt_policy m = Some p → policyOk p).
    { induction Hm as [|m cm m' err _ [Hr Hp] H]; [done|].
      destruct cm as [cm|]; cbn in H; [|by simplify_eq].
      destruct (metricsPolicyConfig (dataOf cm)) eqn:Hc; simplify_eq; cbn; (split; [done|]); [|done].
      intros ? [= <-]. by eapply metricsPolicyConfig_ok. }
    destruct Hinv as [Hr Hp]. unfold configForClient. destruct (mt_policy m) as [p|]; [|done].
    intros cfg [= <-]. cbn. split_and!; [done..|]. specialize (Hp p eq_refl). by destruct p.
  - intros cm m' err H Hbad. unfold configForClient. destruct cm as [cm|]; cbn in H.
    + destruct (metricsPolicyConfig (dataOf cm)); simplify_eq; cbn; [|by eauto].
      by destruct Hbad as [?|[? ?]].
    + simplify_eq. cbn. eauto.
Qed.

(** ** The check for the CRDs *)
Definition crdAnswer (name : string) (e : option error) : event startAnswer := Ev (GetCRD name) e.

(** What the answers say: all there, or one is missing and the others are there or
    missing. *)
Definition crdsFound (names : list string) (answers : list (option error)) : Prop :=
  List.length answers = List.length names ∧
  Forall (λ e, match e with None => True | Some err => IsNotFound err = true end) answers.

Lemma crdLoop_run names installed tr r :
  runs (forEach names installed
        (λ name installed,
           e <- call (GetCRD name) ;;
           Ret match e with
               | None => inl installed
               | Some err => if IsNotFound err then inl false
                             else inr (Err (wrapError ("get Sandbox API CRD " +:+ Quote name) err))
               end)
        (λ installed, Ret (Ok installed))) tr r →
  match r with
  | Ok b => ∃ answers, crdsFound names answers ∧ tr = zip_with crdAnswer names answers ∧
      b = (installed && forallb (λ e, bool_decide (e = None)) answers)
  | Err _ => ∃ name err, Ev (GetCRD name) (Some err) ∈ tr ∧ IsNotFound err = false
  end.
Proof.
  revert installed tr. induction names as [|name names IH]; intros installed tr H; cbn [forEach] in H.
  - apply runs_ret in H as [-> ->]. exists []. rewrite andb_true_r. by repeat constructor.
  - apply runs_bind in H as (t1 & o & t2 & -> & Hb & H).
    run_call Hb e. apply runs_ret in Hb as [-> ->].
    destruct e as [err|].
    + destruct (IsNotFound err) eqn:Hn.
      * apply IH in H. destruct r as [b|x].
        -- destruct H as (answers & [Hl Hf] & -> & ->). exists (Some err :: answers).
           cbn. rewrite andb_false_r. split; [|done]. split; [by cbn; rewrite Hl|by constructor].
        -- destruct H as (n & y & Hin & Hy). exists n, y. split; [by right|done].
      * apply runs_ret in H as [-> ->]. exists name, err. split; [left|done].
    + apply IH in H. destruct r as [b|x].
      * destruct H as (answers & [Hl Hf] & -> & ->). exists (None :: answers).
        split; [|done]. split; [by cbn; rewrite Hl|by constructor].
      * destruct H as (n & y & Hin & Hy). exists n, y. split; [by right|done].
Qed.

(** The sandbox API is reported installed exactly when every one of its four CRDs
    was found, missing exactly when the API server said of one that it does not
    exist and of no other anything worse; any other answer is an error, never a
    silent fallback to bare pods. *)
Theorem sandboxCRDInstalled_outcome tr r :
  runs sandboxCRDInstalled tr r →
  match r with
  | Ok b => ∃ answers, crdsFound sandboxCRDs answers ∧
      tr = Ev NewApiExtensionsClient None :: zip_with crdAnswer sandboxCRDs answers ∧
      (b = true ↔ Forall (λ e, e = None) answers)
  | Err _ => (∃ err, tr = [Ev NewApiExtensionsClient (Some err)]) ∨
      ∃ name err, Ev (GetCRD name) (Some err) ∈ tr ∧ IsNotFound err = false
  end.
Proof.
  unfold sandboxCRDInstalled. intros H. run_call H made. destruct made as [err|].
  { apply runs_ret in H as [-> ->]. left. eauto. }
  apply crdLoop_run in H. destruct r as [b|e].
  - destruct H as (answers & Hf & -> & ->). exists answers. split; [done|]. split; [done|].
    cbn [andb]. rewrite forallb_forall, Forall_forall.
    setoid_rewrite list_elem_of_In. setoid_rewrite bool_decide_eq_true. done.
  - destruct H as (name & err & Hin & Hn). right. exists name, err. split; [by right|done].
Qed.

(** ** The start *)

(** Nothing runs yet. *)
Definition notStarted (ev : event startAnswer) : Prop :=
  match ev with Ev StartManager _ => False | _ => True end.

Lemma orExit_run e (k : P Z) tr code :
  runs (orExit e k) tr code → (e = None ∧ runs k tr code) ∨ (is_Some e ∧ tr = [] ∧ code = 1%Z).
Proof. destruct e; cbn; [|by left]. intros [-> ->]%runs_ret. right. eauto. Qed.

(** Opens a set-up call and the test of its error. *)
Ltac setup_step H Hx e :=
  run_call H e; apply orExit_run in H as [[Hx H]|(_ & -> & ->)];
    [|left; split; [by repeat constructor|done]].

(** What has to be registered with the manager. *)
Definition registered (namespace : string) (tr : list (event startAnswer)) : Prop :=
  Ev (SetupAgenticRunReconciler namespace) None ∈ tr ∧ Ev SetupOLSConfigReconciler None ∈ tr ∧
  (∃ e, Ev (CreateServiceAccount (MkNamespacedName namespace "lightspeed-agent")) e ∈ tr ∧
     match e with Some err => IsAlreadyExists err = true | None => True end) ∧
  Ev (RegisterWebhook "/mutate-agenticrunapproval") tt ∈ tr ∧
  Ev (RegisterWebhook "/validate-agent") tt ∈ tr.

Lemma register_run namespace k tr code :
  runs (register namespace k) tr code →
  (Forall notStarted tr ∧ code = 1%Z) ∨
  ∃ t1 t2, tr = t1 ++ t2 ∧ Forall notStarted t1 ∧ registered namespace t1 ∧ runs k t2 code.
Proof.
  unfold register. intros H. setup_step H H1 e1. setup_step H H2 e2. setup_step H H3 account.
  run_call H u1. run_call H u2. setup_step H H4 e4. setup_step H H5 e5. subst. destruct u1, u2. right.
  eexists [_; _; _; _; _; _; _], _. split; [cbn; reflexivity|]. split; [by repeat constructor|].
  split; [|done]. unfold registered. split; [left|]. split; [right; left|].
  split; [|split; find_event].
  eexists. split; [do 2 right; left|]. destruct account as [err|]; [|done].
  by destruct (IsAlreadyExists err).
Qed.

Lemma setupMetrics_run secure opts tr r :
  runs (setupMetrics secure opts) tr r →
  Forall notStarted tr ∧
  match r with
  | Ok (opts', policy) =>
      if secure then ∃ roots, AppendCertsFromPEM roots = true ∧ opts' = withMetricsRoots opts roots ∧
        policy = Some (MkMetricsTLS roots None)
      else opts' = opts ∧ policy = None
  | Err _ => True
  end.
Proof.
  unfold setupMetrics, loadMetricsClientCA. destruct secure; [|by intros [-> ->]%runs_ret].
  intros H. run_call H e. destruct e as [err|].
  { apply runs_ret in H as [-> ->]. split; [by repeat constructor|done]. }
  apply runs_bind in H as (t1 & ca & t2 & -> & Hca & [-> ->]%runs_ret).
  run_call Hca got. apply runs_ret in Hca as [-> ->]. split; [by repeat constructor|].
  destruct got as [data|err]; [|done].
  destruct (AppendCertsFromPEM (mapGet data "client-ca.crt")) eqn:Hp; [|done]. eauto.
Qed.

Lemma sandboxCRDInstalled_notStarted : emits notStarted sandboxCRDInstalled.
Proof. unfold sandboxCRDInstalled. emits_walk done. Qed.

(** The set-up a manager starts with. *)
Definition setUp (f : Flags) (namespace : string) (tr : list (event startAnswer)) : Prop :=
  namespace ≠ "" ∧ registered namespace tr ∧
  (∃ installed t, runs sandboxCRDInstalled t (Ok installed) ∧ t ⊆ tr ∧
     Ev (SetupConfigWatcher namespace (newCache namespace installed)) None ∈ tr) ∧
  (∃ opts, Ev (NewManager opts) None ∈ tr ∧ opt_LeaderElectionNamespace opts = namespace ∧
     (flag_secureMetrics f = true → ∃ roots,
        opt_MetricsRoots opts = Some roots ∧ AppendCertsFromPEM roots = true ∧
        Ev (SetupMetricsWatcher namespace (MkMetricsTLS roots None)) None ∈ tr)).

(** A trace without a start and exit code 1, or a start after [good] calls. *)
Definition startsAfter (good : list (event startAnswer) → Prop) (tr : list (event startAnswer))
    (code : Z) : Prop :=
  (Forall notStarted tr ∧ code = 1%Z) ∨
  ∃ before stopped rest,
    tr = before ++ Ev StartManager stopped :: rest ∧ Forall notStarted before ∧ good before ∧
    (code = 0%Z ↔ stopped = None) ∧ ∃ a, Ev ShutdownTelemetry a ∈ rest.

Lemma startsAfter_app (good good' : list (event startAnswer) → Prop) pre tr code :
  Forall notStarted pre → (∀ b, good b → good' (pre ++ b)) →
  startsAfter good tr code → startsAfter good' (pre ++ tr) code.
Proof.
  intros Hpre Hg [[Hn ->]|(b & st & rest & -> & Hb & Hgb & Hrest)].
  - left. by rewrite Forall_app.
  - right. exists (pre ++ b), st, rest. rewrite <- app_assoc, Forall_app. auto.
Qed.

Lemma startsAfter_cons (good good' : list (event startAnswer) → Prop) ev tr code :
  notStarted ev → (∀ b, good b → good' (ev :: b)) →
  startsAfter good tr code → startsAfter good' (ev :: tr) code.
Proof. intros Hn Hg. apply (startsAfter_app good good' [ev]); [by repeat constructor|done]. Qed.

Lemma runManager_run tr code : runs runManager tr code → startsAfter (λ b, b = []) tr code.
Proof.
  unfold runManager. intros H. run_call H stopped. right.
  destruct stopped as [err|]; repeat runs_step; eexists [], _, _; (split; [done|]);
    (split; [constructor|]); (split; [done|]); (split; [by split|]); eexists; find_event.
Qed.

Lemma registered_mono namespace tr tr' : tr ⊆ tr' → registered namespace tr → registered namespace tr'.
Proof.
  unfold registered. intros Hs (H1 & H2 & (e & H3 & He) & H4 & H5).
  split_and!; [by apply Hs..| |by apply Hs|by apply Hs]. exists e. split; [by apply Hs|done].
Qed.

Lemma serve_run namespace installed policy tr code :
  runs (serve namespace installed policy) tr code →
  startsAfter (λ b, registered namespace b ∧
    Ev (SetupConfigWatcher namespace (newCache namespace installed)) None ∈ b ∧
    match policy with Some m => Ev (SetupMetricsWatcher namespace m) None ∈ b | None => True end)
    tr code.
Proof.
  unfold serve. intros H. setup_step H H1 e1. subst.
  apply runs_bind in H as (t1 & e2 & t2 & -> & He2 & H).
  assert (Ht1 : Forall notStarted t1 ∧
    (e2 = None → match policy with Some m => Ev (SetupMetricsWatcher namespace m) None ∈ t1
                 | None => True end)).
  { destruct policy as [m|].
    - apply (runs_call (R := startAnswer) (SetupMetricsWatcher namespace m)) in He2 as ->.
      split; [by repeat constructor|]. intros ->. left.
    - apply runs_ret in He2 as [-> _]. split; [constructor|done]. }
  destruct Ht1 as [Hn1 Hm]. apply orExit_run in H as [[-> H]|(_ & -> & ->)];
    [|left; rewrite app_nil_r; split; [by constructor|done]].
  run_call H e3. apply orExit_run in H as [[-> H]|(_ & -> & ->)]; cycle 1.
  { left. split; [|done]. constructor; [done|]. apply Forall_app. split; [done|by repeat constructor]. }
  apply register_run in H as [[Hn ->]|(t3 & t4 & -> & Hn3 & Hr & H)].
  { left. split; [|done]. constructor; [done|]. apply Forall_app. split; [done|by constructor]. }
  set (x := Ev (SetupConfigWatcher namespace (newCache namespace installed)) None : event startAnswer).
  set (y := Ev NewZapLogger None : event startAnswer).
  replace (x :: t1 ++ y :: t3 ++ t4) with ((x :: t1 ++ y :: t3) ++ t4)
    by (cbn; by rewrite <- app_assoc).
  apply runManager_run in H. revert H. apply startsAfter_app.
  - constructor; [done|]. apply Forall_app. split; [done|by constructor].
  - intros b ->. rewrite app_nil_r. split; [|split; [left|]].
    + eapply registered_mono; [|done]. intros ev Hev. right. apply elem_of_app. right. by right.
    + destruct policy; [|done]. right. apply elem_of_app. left. by apply Hm.
Qed.

(** The manager is started only when everything is in place: a namespace from
    the flag or the environment, the configuration watcher with a cache that forces
    bare pods exactly when the check found a CRD missing, both controllers, the
    account of the agent, both webhooks, and with secure metrics a verified client
    authority and its watcher.  Any failure before that exits with 1, and the exit
    code is 0 exactly when the manager ran and stopped without an error; the
    telemetry is then flushed in any case. *)
Theorem main_starts_complete f tr code :
  runs (main f) tr code → startsAfter (λ before, ∃ namespace, setUp f namespace before) tr code.
Proof.
  unfold main. intros (t0 & namespace & t1 & -> & Hns & H)%runs_bind.
  assert (Hn0 : Forall notStarted t0).
  { destruct (String.eqb (flag_namespace f) "").
    - apply (runs_call (R := startAnswer) (Getenv "POD_NAMESPACE")) in Hns as ->. by repeat constructor.
    - apply runs_ret in Hns as [-> _]. constructor. }
  clear Hns. destruct (String.eqb namespace "") eqn:Hne.
  { apply runs_ret in H as [-> ->]. left. rewrite app_nil_r. done. }
  apply String.eqb_neq in Hne.
  run_call H e1. apply orExit_run in H as [[-> H]|(_ & -> & ->)];
    [|left; rewrite Forall_app; by repeat constructor].
  apply runs_bind in H as (t2 & metrics & t3 & -> & [Hn2 Hm]%setupMetrics_run & H).
  destruct metrics as [[opts policy]|err]; cbn [resOrExit] in H; cycle 1.
  { apply runs_ret in H as [-> ->]. left. rewrite app_nil_r, Forall_app. split; [|done]. split; [done|by constructor]. }
  run_call H e2. apply orExit_run in H as [[-> H]|(_ & -> & ->)]; cycle 1.
  { left. rewrite Forall_app, List.Forall_cons_iff, Forall_app. split; [|done]. split_and!; try done. by repeat constructor. }
  apply runs_bind in H as (t4 & crds & t5 & -> & Hc & H).
  pose proof (sandboxCRDInstalled_notStarted _ _ Hc) as Hn4.
  set (pre := t0 ++ Ev GetRESTConfig None :: t2 ++ Ev (NewManager opts) None :: t4).
  assert (Hpre : Forall notStarted pre).
  { unfold pre. rewrite Forall_app, List.Forall_cons_iff, Forall_app. by repeat constructor. }
  match goal with |- startsAfter _ ?t _ => replace t with (pre ++ t5)
    by (unfold pre; by rewrite <- app_assoc, <- app_comm_cons, <- app_assoc, <- app_comm_cons) end.
  destruct crds as [installed|err]; cbn [resOrExit] in H; cycle 1.
  { apply runs_ret in H as [-> ->]. left. by rewrite app_nil_r. }
  apply serve_run in H. revert H. apply startsAfter_app; [done|].
  intros b (Hr & Hw & Hp). exists namespace. split; [done|].
  assert (Hb : b ⊆ pre ++ b) by (intros ev Hev; apply elem_of_app; by right).
  split; [by eapply registered_mono|]. split.
  - exists installed, t4. split; [done|]. split; [|by apply Hb].
    intros ev Hev. apply elem_of_app. left. unfold pre. apply elem_of_app. right. right.
    apply elem_of_app. right. by right.
  - exists opts. split; [|].
    { apply elem_of_app. left. unfold pre. apply elem_of_app. right. right.
      apply elem_of_app. right. left. }
    destruct (flag_secureMetrics f).
    + destruct Hm as (roots & Hroots & -> & ->). split; [done|]. intros _. exists roots.
      split; [done|]. split; [done|]. by apply Hb.
    + destruct Hm as [-> _]. done.
Qed.
End Startup.

(** ** Without the CRDs no claim is made *)

(** The creation of a sandbox resource. *)
Definition createsClaim (ev : event answer) : bool :=
  match ev with
  | Ev (ObjCreate _ KSandboxClaim _) _ | Ev (ObjCreate _ KSandboxTemplate _) _
  | Ev (ObjCreate _ KSandboxWarmPool _) _ => true
  | _ => false
  end.

Section BareMode.
Context `{K : ApiMachinery} `{CL : ConfigLibs} `{CC : ClientCmd} `{RJ : RawJSON} `{RE : Rendering}
  `{SL : SandboxLibs}.
Context (m : SandboxManager).
Abbreviation noClaim := (emits (λ ev, createsClaim ev = false)).

Lemma access_noClaim {A} (p : M A) : emits (λ ev, accessCall ev = true) p → noClaim p.
Proof. apply emits_mono. intros [e a]. destruct e; try done. by destruct k. Qed.

Lemma createBarePod_noClaim run name step spec : noClaim (createBarePod m run name step spec).
Proof.
  assert (Hreq : noClaim (requireRunnableRun m run))
    by (unfold requireRunnableRun, readRunnableRun; emits_walk done).
  assert (Hwait : ∀ n key t d, noClaim (waitTurns n key t d))
    by (induction n; intros; cbn [waitTurns]; emits_walk done).
  unfold createBarePod, recreatePod, existingPod, waitForPodDeletion.
  repeat (first [apply Hreq | apply Hwait | emits_walk done]).
Qed.

Lemma setupSandbox_noClaim cfg run step agent llm tools deadline agentCtx spoke :
  cfg_SandboxMode cfg = barePodMode →
  noClaim (setupSandbox m cfg run step agent llm tools deadline agentCtx spoke).
Proof.
  intros Hmode.
  assert (Hwork : ∀ run step spec, noClaim (createWorkload m cfg run step spec)).
  { intros. unfold createWorkload. rewrite Hmode. cbn.
    apply emits_bind; [apply createBarePod_noClaim|intros; apply emits_ret]. }
  unfold setupSandbox, ensureAccess, ensureSA, accountWith, createAccount, ensureSandboxKubeconfig,
    grantExecution, buildWorkload, createInputConfigMap, adoptDependents, setInputConfigMapOwner,
    setResultRBACOwner, setSAOwner, spanEvent.
  repeat (first [ solve [apply access_noClaim; eauto with access]
                | apply Hwork | apply emits_onErr; intros | emits_walk done ]).
Qed.

(** C10: Where the sandbox CRDs are missing ([main] then makes a cache that forces bare
    pods), no sandbox is ever set up as a claim: whatever ConfigMaps were handed
    over, a creation that reads its configuration from such a cache creates no
    SandboxClaim, SandboxTemplate or SandboxWarmPool. *)
Theorem missing_crds_no_claims ns run step agent llm tools deadline agentCtx tr out :
  runs (Create m run step agent llm tools deadline agentCtx) tr out →
  (∀ cfg, Ev ConfigGet cfg ∈ tr → ∃ c, watched ns true c ∧ cache_Config c = cfg) →
  Forall (λ ev, createsClaim ev = false) tr.
Proof.
  unfold Create. intros H Hcfg. run_call H cfg. constructor; [done|].
  destruct (Hcfg cfg) as (c & Hw & Hc); [left|]. clear Hcfg.
  destruct cfg as [cfg|]; [|apply runs_ret in H as [-> _]; constructor].
  apply watched_wf in Hw as [[Hw _] Hf]. destruct (Hw cfg Hc) as (_ & _ & Hmode).
  specialize (Hmode Hf). eapply emits_run; [exact H|]. clear Hw H.
  apply emits_bind; [unfold requireRunnableRun, readRunnableRun; emits_walk done|].
  intros [current|err]; [|apply emits_ret].
  unfold beginAudit, auditIf.
  repeat (first [ apply setupSandbox_noClaim; assumption
                | solve [apply access_noClaim; eauto using cleanupOnCreateFailure_access with access]
                | emits_walk done ]).
Qed.
End BareMode.
