(* ===== verification/Clock.v ===== *)
(** Calendar times in UTC, as [time.Time.Format] with [time.RFC3339] writes them. *)
From stdpp Require Import base list strings.
From Stdlib Require Import ZArith Lia Ascii String.
From S2P Require Import Prelude GoText.

Local Open Scope string_scope.
Local Open Scope Z_scope.

(** The civil date of a day, counted from January 1 of year 1.  The days are
    regrouped in years that start in March, in eras of 400 years. *)
Definition civilDate (day : Z) : Z * Z * Z :=
  let z := day + 306 in
  let era := z / 146097 in
  let doe := z mod 146097 in
  let yoe := (doe - doe / 1460 + doe / 36524 - doe / 146096) / 365 in
  let doy := doe - (365 * yoe + yoe / 4 - yoe / 100) in
  let mp := (5 * doy + 2) / 153 in
  let d := doy - (153 * mp + 2) / 5 + 1 in
  let m := if mp <? 10 then mp + 3 else mp - 9 in
  (yoe + era * 400 + (if m <=? 2 then 1 else 0), m, d).

(** Decimal digits, padded with zeros. *)
Definition padded (width : nat) (z : Z) : string :=
  let text := Itoa z in
  fold_right String.append text (repeat "0"%string (width - String.length text)).

(** [t.UTC().Format(time.RFC3339)]: whole seconds, no fraction. *)
Definition FormatRFC3339 (t : Time) : string :=
  let seconds := t / Second in
  let '(y, m, d) := civilDate (seconds / 86400) in
  let s := seconds mod 86400 in
  padded 4 y +:+ "-" +:+ padded 2 m +:+ "-" +:+ padded 2 d +:+ "T" +:+
  padded 2 (s / 3600) +:+ ":" +:+ padded 2 (s / 60 mod 60) +:+ ":" +:+ padded 2 (s mod 60) +:+ "Z".

(** Days from the start of year 1 to the first of March of a year, and the day a date
    names: the reference the conversion is checked against. *)
Definition dayOfDate (y m d : Z) : Z :=
  let y' := if m <=? 2 then y - 1 else y in
  let mp := if m <=? 2 then m + 9 else m - 3 in
  365 * y' + y' / 4 - y' / 100 + y' / 400 + (153 * mp + 2) / 5 + d - 1 - 306.

Example FormatRFC3339_examples :
  FormatRFC3339 0 = "0001-01-01T00:00:00Z"%string ∧
  FormatRFC3339 (62135596800 * Second) = "1970-01-01T00:00:00Z"%string ∧
  FormatRFC3339 (63844761600 * Second + 59 * Second) = "2024-02-29T00:00:59Z"%string ∧
  civilDate 738944 = (2024, 2, 29) ∧ dayOfDate 2024 2 29 = 738944.
Proof. vm_compute. done. Qed.

(** The year and the day of the year within an era. *)
Lemma eraDay doe yoe doy :
  0 ≤ doe < 146097 → yoe = (doe - doe / 1460 + doe / 36524 - doe / 146096) / 365 →
  doy = doe - (365 * yoe + yoe / 4 - yoe / 100) → 0 ≤ yoe < 400 ∧ 0 ≤ doy ≤ 365.
Proof. intros H -> ->. repeat split; Z.to_euclidean_division_equations; lia. Qed.

(** A date names one day: the conversion of a day is undone by counting the days. *)
Lemma civilDate_day day :
  let '(y, m, d) := civilDate day in dayOfDate y m d = day ∧ 1 ≤ m ≤ 12 ∧ 1 ≤ d ≤ 31.
Proof.
  unfold civilDate.
  pose proof (Z.mod_pos_bound (day + 306) 146097 ltac:(lia)) as Hdoe.
  pose proof (Z.div_mod (day + 306) 146097 ltac:(lia)) as Heq.
  set (era := (day + 306) / 146097) in *. set (doe := (day + 306) mod 146097) in *.
  set (yoe := (doe - doe / 1460 + doe / 36524 - doe / 146096) / 365) in *.
  set (doy := doe - (365 * yoe + yoe / 4 - yoe / 100)) in *.
  destruct (eraDay doe yoe doy Hdoe eq_refl eq_refl) as [Hyoe Hdoy].
  set (mp := (5 * doy + 2) / 153) in *.
  assert (Hmp : 0 ≤ mp ≤ 11 ∧ 1 ≤ doy - (153 * mp + 2) / 5 + 1 ≤ 31).
  { unfold mp. clearbody doy. clear -Hdoy. Z.to_euclidean_division_equations; lia. }
  unfold dayOfDate.
  assert (Hy : ∀ y', y' = yoe + era * 400 →
    365 * y' + y' / 4 - y' / 100 + y' / 400
    = 146097 * era + (365 * yoe + yoe / 4 - yoe / 100)).
  { intros y' ->.
    replace (yoe + era * 400) with (yoe + era * 100 * 4) at 2 by lia. rewrite Z.div_add by lia.
    replace (yoe + era * 400) with (yoe + era * 4 * 100) at 2 by lia. rewrite Z.div_add by lia.
    rewrite Z.div_add by lia. rewrite (Z.div_small yoe 400) by lia. lia. }
  destruct (Z.ltb_spec mp 10) as [Hlt|Hge].
  - replace (mp + 3 <=? 2) with false by (symmetry; apply Z.leb_gt; lia).
    rewrite (Hy (yoe + era * 400 + 0)) by lia. replace (mp + 3 - 3) with mp by lia. lia.
  - replace (mp - 9 <=? 2) with true by (symmetry; apply Z.leb_le; lia).
    rewrite (Hy (yoe + era * 400 + 1 - 1)) by lia. replace (mp - 9 + 9) with mp by lia. lia.
Qed.
