(* ===== verification/Webhooks.v ===== *)
(** The admission webhooks ([controller/agenticrun/webhooks.go]): the mutating one that
    writes the authenticated user into an approval, and the validating one that
    rejects an agent whose prompts are too long or do not parse. *)
From stdpp Require Import base list option strings gmap sets.
From Stdlib Require Import ZArith Lia Ascii String.
From S2P Require Import Prelude GoText Json Clock ApiMachinery Types Objects Effects InputConfigMap.

Local Open Scope string_scope.
Local Open Scope list_scope.
Local Open Scope prog_scope.

(** ** Requests and responses of an admission review *)
Record AdmissionRequest := MkAdmissionRequest {
  req_Operation : string;
  req_UserUID : string;
  req_Username : string;
  req_ObjectRaw : string;
}.

Definition opCreate : string := "CREATE".
Definition StatusBadRequest : Z := 400.

(** A JSON patch: one operation on a member, its value as JSON. *)
Inductive PatchOp := PatchAdd | PatchReplace.
Record JsonPatchOperation := MkJsonPatchOperation {
  patch_Op : PatchOp;
  patch_Path : string;
  patch_Value : Json;
}.

Inductive AdmissionResponse :=
| Allowed (msg : string)
| Denied (msg : string)
| Errored (code : Z) (err : error)
| Patched (msg : string) (patches : list JsonPatchOperation).

(** [json.Unmarshal] into a map of raw messages (empty for [null]) and into an
    [Agent]. *)
Class WebhookLibs := {
  UnmarshalRawMap : string → res (gmap string string);
  UnmarshalAgent : string → res Agent;
}.

Section Webhooks.
Context `{K : ApiMachinery} `{WL : WebhookLibs} `{RJ : RawJSON} `{RE : Rendering}.

(** ** [AgenticRunApprovalMutator] *)

(** [json.Marshal] of the approver; marshalling strings does not fail. *)
Definition approverJSON (a : ApproverInfo) : string :=
  render (JObject (strField "uid" (approver_UID a) ++ strField "username" (approver_Username a) ++
                   strField "approvedAt" (approver_ApprovedAt a))).

Definition injected : string := "injected spec.approver".
Definition specPath : string := "/spec".
Definition approverPath : string := "/spec/approver".

(** The patch for an object, once the approver is known. *)
Definition approverPatch (raw : string) (approver : string) : AdmissionResponse :=
  match UnmarshalRawMap raw with
  | Err err => Errored StatusBadRequest err
  | Ok obj =>
      let patch op := Patched injected [MkJsonPatchOperation op approverPath (JRaw approver)] in
      let noSpec := Patched injected
        [MkJsonPatchOperation PatchAdd specPath (JObject [("approver", JRaw approver)])] in
      match obj !! "spec" with
      | Some specRaw =>
          if String.eqb specRaw "null" then noSpec
          else match UnmarshalRawMap specRaw with
               | Err err => Errored StatusBadRequest err
               | Ok spec => match spec !! "approver" with
                            | None => patch PatchAdd
                            | Some _ => patch PatchReplace
                            end
               end
      | None => noSpec
      end
  end.

Definition AgenticRunApprovalMutator (req : AdmissionRequest) : M AdmissionResponse :=
  if String.eqb (req_Operation req) opCreate then Ret (Allowed "create passes through")
  else
    now <- call Now ;;
    Ret (approverPatch (req_ObjectRaw req)
           (approverJSON (MkApproverInfo (req_UserUID req) (req_Username req) (FormatRFC3339 now)))).

(** ** [AgentValidator] *)
Definition maxPromptLength : Z := 32768.

(** [utf8.RuneCountInString]. *)
Definition RuneCount (s : string) : Z := Z.of_nat (List.length (runes s)).

Definition tooLong (step which : string) : AdmissionResponse :=
  Denied ("spec.instructions." +:+ step +:+ "." +:+ which +:+ ": must not exceed "
          +:+ Itoa maxPromptLength +:+ " characters").

(** The body of the loop: a denial, or on to the next step. *)
Definition validateStep (step : string) (si : option StepInstructions) : option AdmissionResponse :=
  match si with
  | None => None
  | Some si =>
      if (maxPromptLength <? RuneCount (instr_SystemPrompt si))%Z then Some (tooLong step "systemPrompt")
      else if String.eqb (instr_UserPrompt si) "" then None
      else if (maxPromptLength <? RuneCount (instr_UserPrompt si))%Z then Some (tooLong step "userPrompt")
      else match parseTemplate (instr_UserPrompt si) with
           | Some err => Some (Denied ("spec.instructions." +:+ step +:+
                                       ".userPrompt: invalid Go template: " +:+ Error err))
           | None => None
           end
  end.

Fixpoint validateSteps (order : list string) (i : AgentInstructions) : AdmissionResponse :=
  match order with
  | [] => Allowed "templates valid"
  | step :: order' =>
      match validateStep step (stepInstructions i step) with
      | Some denied => denied
      | None => validateSteps order' i
      end
  end.

(** The steps are the keys of a map: Go goes through them in any [order]. *)
Definition steps : list string := ["analysis"; "execution"; "verification"; "escalation"].

Definition AgentValidator (order : list string) (req : AdmissionRequest) : AdmissionResponse :=
  match UnmarshalAgent (req_ObjectRaw req) with
  | Err err => Errored StatusBadRequest err
  | Ok agent =>
      match agent_Instructions (agent_Spec agent) with
      | None => Allowed "no instructions configured"
      | Some i => validateSteps order i
      end
  end.

(** ** What a patch does (RFC 6902)

    A document as its decoded members, with the members of [spec] when it is an
    object.  An addition replaces a member that is there, a replacement needs one,
    and both need the object they are in. *)
Record Document := MkDocument {
  doc_Members : gmap string string;                 (* but for spec *)
  doc_Spec : option (gmap string string);
}.

Definition memberValue (v : Json) : gmap string string :=
  match v with
  | JObject fields => list_to_map (map (λ '(k, x), (k, render x)) fields)
  | _ => ∅
  end.

Definition applyPatch (d : Document) (op : JsonPatchOperation) : option Document :=
  if String.eqb (patch_Path op) specPath then
    match patch_Op op, doc_Spec d with
    | PatchReplace, None => None
    | _, _ => Some (MkDocument (doc_Members d) (Some (memberValue (patch_Value op))))
    end
  else if String.eqb (patch_Path op) approverPath then
    match doc_Spec d with
    | None => None
    | Some spec =>
        match patch_Op op, spec !! "approver" with
        | PatchReplace, None => None
        | _, _ => Some (MkDocument (doc_Members d)
                          (Some (<["approver" := render (patch_Value op)]> spec)))
        end
    end
  else None.

(** The document of a request. *)
Definition decodes (raw : string) (d : Document) : Prop :=
  ∃ obj, UnmarshalRawMap raw = Ok obj ∧ doc_Members d = delete "spec" obj ∧
    match doc_Spec d with
    | None => from_option (λ s, s = "null") True (obj !! "spec")
    | Some spec => ∃ specRaw, obj !! "spec" = Some specRaw ∧ specRaw ≠ "null" ∧
        UnmarshalRawMap specRaw = Ok spec
    end.

(** C15: An update of an approval is answered with one patch that applies to the
    object, writes the user the API server authenticated and the time of the
    request as the approver, whatever the client put there, and leaves every other
    member of the object and of its specification as it was. *)
Theorem approver_is_authenticated req d tr resp :
  runs (AgenticRunApprovalMutator req) tr resp →
  req_Operation req ≠ opCreate → decodes (req_ObjectRaw req) d →
  ∃ now op d', tr = [Ev Now now] ∧ resp = Patched injected [op] ∧ applyPatch d op = Some d' ∧
    doc_Members d' = doc_Members d ∧
    doc_Spec d' = Some (<["approver" := approverJSON (MkApproverInfo (req_UserUID req)
                          (req_Username req) (FormatRFC3339 now))]> (default ∅ (doc_Spec d))).
Proof.
  intros H Hop (obj & Hobj & Hm & Hs). unfold AgenticRunApprovalMutator in H.
  rewrite (proj2 (String.eqb_neq _ _) Hop) in H. run_call H now. apply runs_ret in H as [-> ->].
  exists now. unfold approverPatch. rewrite Hobj. clear Hobj.
  destruct (doc_Spec d) as [spec|] eqn:Hd.
  - destruct Hs as (specRaw & -> & Hn & Hspec). apply String.eqb_neq in Hn. rewrite Hn, Hspec.
    destruct (spec !! "approver") eqn:Ha; do 2 eexists; (split; [done|]); (split; [done|]);
      unfold applyPatch; cbn; rewrite Hd; cbn; rewrite ?Ha; done.
  - assert (He : ∀ a, applyPatch d (MkJsonPatchOperation PatchAdd specPath (JObject [("approver", JRaw a)]))
              = Some (MkDocument (doc_Members d) (Some {[ "approver" := a ]}))).
    { done. }
    destruct (obj !! "spec") as [s|]; cbn in Hs; [subst s; cbn|]; do 2 eexists;
      (split; [done|]); (split; [done|]); (split; [apply He|]); done.
Qed.

(** ** Admitted agents *)

(** The prompts of a step that the operator can use. *)
Definition promptsOk (si : StepInstructions) : Prop :=
  (RuneCount (instr_SystemPrompt si) ≤ maxPromptLength)%Z ∧
  (RuneCount (instr_UserPrompt si) ≤ maxPromptLength)%Z ∧
  (instr_UserPrompt si ≠ "" → parseTemplate (instr_UserPrompt si) = None).

Lemma validateStep_none step si :
  validateStep step si = None ↔ from_option promptsOk True si.
Proof.
  destruct si as [[sys usr]|]; cbn; [|done]. unfold promptsOk. cbn.
  destruct (Z.ltb_spec maxPromptLength (RuneCount sys)); [split; [done|lia]|].
  destruct (String.eqb_spec usr "") as [->|Hne].
  - split; [|done]. intros _. split; [done|]. split; [|done]. unfold RuneCount, maxPromptLength. cbn. lia.
  - destruct (Z.ltb_spec maxPromptLength (RuneCount usr)); [split; [done|lia]|].
    destruct (parseTemplate usr) eqn:Hp; split; try done.
    intros (_ & _ & Hx). by specialize (Hx Hne).
Qed.

Lemma validateStep_denied step si r : validateStep step si = Some r → ∃ msg, r = Denied msg.
Proof. unfold validateStep, tooLong. intros H. repeat case_match; simplify_eq; eauto. Qed.

Lemma validateSteps_allowed order i :
  (∃ msg, validateSteps order i = Allowed msg) ↔
  Forall (λ step, from_option promptsOk True (stepInstructions i step)) order.
Proof.
  induction order as [|step order IH]; cbn; [split; [constructor|eauto]|].
  rewrite List.Forall_cons_iff, <- IH, <- (validateStep_none step).
  destruct (validateStep step _) as [r|] eqn:Hv; [|by split; [|intros [_ ?]]].
  apply validateStep_denied in Hv as [m ->]. split; [by intros (? & ?)|by intros [? _]].
Qed.

(** C24: The verdict on an agent does not depend on the order in which Go goes through
    the steps: it is admitted exactly when no step has a prompt of more than 32768
    characters or a user prompt that does not parse; and the template of a step of
    an admitted agent, if it is the agent's own, parses when the step's input is
    built. *)
Theorem admitted_agents_prompt order req agent :
  order ≡ₚ steps → UnmarshalAgent (req_ObjectRaw req) = Ok agent →
  ((∃ msg, AgentValidator order req = Allowed msg) ↔
   ∀ i step si, agent_Instructions (agent_Spec agent) = Some i →
     stepInstructions i step = Some si → promptsOk si) ∧
  (∀ msg step builtin system tmpl,
     AgentValidator order req = Allowed msg →
     resolveStepPrompts (Some agent) step builtin = Ok (system, tmpl) →
     (RuneCount system ≤ maxPromptLength)%Z ∧
     (parseTemplate tmpl = None ∨ readBuiltinTemplate builtin = Ok tmpl)).
Proof.
  intros Horder Hagent.
  assert (Hiff : (∃ msg, AgentValidator order req = Allowed msg) ↔
   ∀ i step si, agent_Instructions (agent_Spec agent) = Some i →
     stepInstructions i step = Some si → promptsOk si).
  { unfold AgentValidator. rewrite Hagent.
    destruct (agent_Instructions _) as [i|]; [|split; [by intros|by eauto]].
    rewrite validateSteps_allowed, Horder, Forall_forall. split.
    - intros H ? step si [= <-] Hsi.
      assert (Hin : step ∈ steps).
      { unfold stepInstructions in Hsi. unfold steps.
        repeat (case_match; bool_hyps; subst; [rewrite !elem_of_cons; auto|]). done. }
      specialize (H step Hin). by rewrite Hsi in H.
    - intros H step _. destruct (stepInstructions i step) eqn:Hs; [by eapply H|done]. }
  split; [done|]. intros msg step builtin system tmpl Hok Hres.
  pose proof (proj1 Hiff (ex_intro _ msg Hok)) as Hall. clear Hiff Hok.
  unfold resolveStepPrompts in Hres. cbn in Hres.
  assert (Hzero : (RuneCount "" ≤ maxPromptLength)%Z) by (unfold RuneCount, maxPromptLength; cbn; lia).
  destruct (agent_Instructions (agent_Spec agent)) as [i|]; cbn in Hres; cycle 1.
  { destruct (readBuiltinTemplate builtin); simplify_eq. auto. }
  destruct (stepInstructions i step) as [si|] eqn:Hsi; cbn in Hres; cycle 1.
  { destruct (readBuiltinTemplate builtin); simplify_eq. auto. }
  destruct (Hall i step si eq_refl Hsi) as (Hsys & _ & Hp).
  destruct (String.eqb (instr_UserPrompt si) "") eqn:Hu; cbn in Hres.
  - destruct (readBuiltinTemplate builtin); simplify_eq. auto.
  - simplify_eq. split; [done|]. left. bool_hyps. auto.
Qed.
End Webhooks.
