(* ===== verification/AuditLog.v ===== *)
(** The production audit logger ([controller/agenticrun/audit.go]): spans, span
    events and structured logs about the phases of runs, with the maps it keeps in
    memory between the calls of the controllers.

    The operator's programs call the logger through [Audit]; [perform] is what the
    logger does for each of those calls, as a program over the calls of the tracer,
    the span and the log ([telCall]). *)
From stdpp Require Import base list option strings gmap sets.
From Stdlib Require Import ZArith Lia Ascii String.
From S2P Require Import Prelude GoText Json Clock ApiMachinery Types Effects.

Local Open Scope string_scope.
Local Open Scope list_scope.
Local Open Scope prog_scope.

(** ** Telemetry *)

(** A [trace.SpanContext]: identifiers in hexadecimal; it is valid when neither is zero. *)
Record SpanContext := MkSpanContext { sc_TraceID : string; sc_SpanID : string }.
#[export] Instance SpanContext_eq_dec : EqDecision SpanContext.
Proof. solve_decision. Defined.

Definition zeroTraceID : string := "00000000000000000000000000000000".
Definition zeroSpanID : string := "0000000000000000".
Definition SpanContext_IsValid (sc : SpanContext) : bool :=
  negb (String.eqb (sc_TraceID sc) zeroTraceID) && negb (String.eqb (sc_SpanID sc) zeroSpanID).

Inductive attrValue := AttrString (s : string) | AttrInt (z : Z).
Definition attributes : Type := list (string * attrValue).

(** A span of this process is known by its context. *)
Inductive telCall :=
| StartSpan (name : string) (attrs : attributes) (links : list SpanContext)   (* a new root *)
| AddEvent (span : SpanContext) (name : string) (attrs : attributes)
| EndSpan (span : SpanContext)
| ContextSpan                         (* the span of the context, and whether it records *)
| LogInfo (event traceID : string) (payload : Json)
| LogError (msg : string) (err : error)
| OTLPLog (traceID runUID phase event : string) (payload : Json).

Definition telAnswer (e : telCall) : Type :=
  match e with
  | StartSpan _ _ _ => SpanContext
  | ContextSpan => option (SpanContext * bool)
  | _ => unit
  end.

Abbreviation T := (prog telAnswer).

(** ** The state of the logger *)
Record AuditState := MkAuditState {
  priorPhase : gmap string SpanContext;      (* by run UID *)
  activeSpans : gmap string SpanContext;     (* by UID and step *)
  emittedTerminal : gset string;
  emittedApproval : gset string;
  knownUIDs : gmap string string;            (* by namespace and name *)
}.
Definition emptyAudit : AuditState := MkAuditState ∅ ∅ ∅ ∅ ∅.

Definition withPrior (s : AuditState) (p : gmap string SpanContext) : AuditState :=
  MkAuditState p (activeSpans s) (emittedTerminal s) (emittedApproval s) (knownUIDs s).
Definition withActive (s : AuditState) (a : gmap string SpanContext) : AuditState :=
  MkAuditState (priorPhase s) a (emittedTerminal s) (emittedApproval s) (knownUIDs s).
Definition withTerminal (s : AuditState) (t : gset string) : AuditState :=
  MkAuditState (priorPhase s) (activeSpans s) t (emittedApproval s) (knownUIDs s).
Definition withApproval (s : AuditState) (a : gset string) : AuditState :=
  MkAuditState (priorPhase s) (activeSpans s) (emittedTerminal s) a (knownUIDs s).
Definition withKnown (s : AuditState) (k : gmap string string) : AuditState :=
  MkAuditState (priorPhase s) (activeSpans s) (emittedTerminal s) (emittedApproval s) k.

(** ** Custom resources as they are logged *)
Inductive auditObject :=
| auditRun (r : AgenticRun)
| auditApproval (a : AgenticRunApproval)
| auditResult (r : ResultCR).

Definition audited_Meta (o : auditObject) : ObjectMeta :=
  match o with
  | auditRun r => run_Meta r
  | auditApproval a => approval_Meta a
  | auditResult r => result_Meta r
  end.

(** [json.Marshal] of an object and [json.Unmarshal] of the text into a map: its
    members; and [json.Marshal] of the stages of an approval. *)
Class AuditLibs := {
  objectMembers : auditObject → res (gmap string Json);
  stagesJSON : list ApprovalStage → Json;
}.

Section Audit.
Context `{AL : AuditLibs}.

Definition serializeCR (o : auditObject) : res Json :=
  let m := audited_Meta o in
  let created := meta_CreationTimestamp m in
  match objectMembers o with
  | Err err => Err err
  | Ok full =>
      let member k := match full !! k with Some v => [(k, v)] | None => [] end in
      Ok (JObject
        (("metadata", JObject
            ((if Time_IsZero created then []
              else [("creationTimestamp", JString (FormatRFC3339 created))]) ++
             [("name", JString (meta_Name m)); ("namespace", JString (meta_Namespace m));
              ("uid", JString (meta_UID m))]))
         :: member "spec" ++ member "status"))
  end.

Definition serializeCRJSON (o : auditObject) : string :=
  match serializeCR o with Ok safe => render safe | Err _ => "{}" end.

(** [emitStructuredLog], with the span of the context. *)
Definition emitStructuredLog (span : option SpanContext) (runUID phase event : string)
    (payload : Json) : T unit :=
  let tid := match span with
             | Some sc => if SpanContext_IsValid sc then sc_TraceID sc else zeroTraceID
             | None => zeroTraceID
             end in
  call (LogInfo event tid payload) ;;;
  call (OTLPLog tid runUID phase event payload) ;;;
  Ret tt.

Definition str (k v : string) : string * attrValue := (k, AttrString v).
Definition int (k : string) (z : Z) : string * attrValue := (k, AttrInt z).

Definition runAttrs (run : AgenticRun) : attributes :=
  [str "agenticrun.uid" (run_UID run); str "agenticrun.name" (run_Name run);
   str "agenticrun.namespace" (run_Namespace run)].

Definition spanAnalyze : string := "agenticrun.analyze".
Definition spanApproval : string := "agenticrun.human_approval".
Definition spanExecute : string := "agenticrun.execute".
Definition spanVerify : string := "agenticrun.verify".
Definition spanEscalate : string := "agenticrun.escalate".
Definition spanTerminal : string := "agenticrun.terminal".

Definition phaseForSpanName (name : string) : string :=
  if String.eqb name spanAnalyze then "analysis"
  else if String.eqb name spanApproval then "approval"
  else if String.eqb name spanExecute then "execution"
  else if String.eqb name spanVerify then "verification"
  else if String.eqb name spanEscalate then "escalation"
  else if String.eqb name spanTerminal then "terminal"
  else "".

Definition runKeyText (run : AgenticRun) : string := run_Namespace run +:+ "/" +:+ run_Name run.

(** The link to the phase before, when its context is valid. *)
Definition priorLinks (s : AuditState) (uid : string) : list SpanContext :=
  match priorPhase s !! uid with
  | Some sc => if SpanContext_IsValid sc then [sc] else []
  | None => []
  end.

Definition startPhaseSpan (s : AuditState) (run : AgenticRun) (name : string)
    (extraAttrs : attributes) : T (AuditState * SpanContext) :=
  let phase := phaseForSpanName name in
  let attrs := runAttrs run ++
    (if String.eqb phase "" then [] else [str "agenticrun.phase" phase]) ++ extraAttrs in
  span <- call (StartSpan name attrs (priorLinks s (run_UID run))) ;;
  Ret (withKnown (withPrior s (<[run_UID run := span]> (priorPhase s)))
         (<[runKeyText run := run_UID run]> (knownUIDs s)), span).

Definition activeSpanKey (uid step : string) : string := uid +:+ "/" +:+ step.

(** The span of a step; [None] for a step without one. *)
Definition stepSpanName (step : string) : option string :=
  if String.eqb step "analysis" then Some spanAnalyze
  else if String.eqb step "execution" then Some spanExecute
  else if String.eqb step "verification" then Some spanVerify
  else if String.eqb step "escalation" then Some spanEscalate
  else None.

(** [BeginStep]; the span of the context it returns is the result. *)
Definition beginStep (s : AuditState) (run : AgenticRun) (step : string)
    : T (AuditState * option SpanContext) :=
  match stepSpanName step with
  | None => Ret (s, None)
  | Some name =>
      let! (s', span) := startPhaseSpan s run name [] in
      Ret (withActive s' (<[activeSpanKey (run_UID run) step := span]> (activeSpans s')), Some span)
  end.

(** The numbered attributes of the first entries of a list. *)
Definition numbered {A} (limit : nat) (xs : list A) (f : string → A → attributes) : attributes :=
  List.concat (imap (λ i x, f (Itoa (Z.of_nat i)) x) (take limit xs)).

Definition count {A} (xs : list A) : Z := Z.of_nat (List.length xs).

Definition resultAttrs (r : ResultStatus) : attributes :=
  match r with
  | AnalysisResult r =>
      int "options.count" (count (ar_Options r)) ::
      numbered 3 (ar_Options r) (λ i o, [str ("option." +:+ i +:+ ".title") (option_Title o)])
  | ExecutionResult r =>
      int "actions_taken.count" (count (er_ActionsTaken r)) ::
      str "failure_reason" (er_FailureReason r) ::
      numbered 5 (er_ActionsTaken r) (λ i a,
        [str ("action." +:+ i +:+ ".type") (exec_Type a);
         str ("action." +:+ i +:+ ".description") (exec_Description a)])
  | VerificationResult r =>
      str "summary" (vr_Summary r) :: int "checks.count" (count (vr_Checks r)) ::
      numbered 5 (vr_Checks r) (λ i c,
        [str ("check." +:+ i +:+ ".name") (check_Name c);
         str ("check." +:+ i +:+ ".result") (check_Result c)])
  | EscalationResult r => [str "summary" (esr_Summary r)]
  end.

Definition emitResultEvent (span : SpanContext) (run : AgenticRun) (step : string)
    (result : ResultCR) : T unit :=
  let o := auditResult result in
  let attrs :=
    [str "agenticrun.name" (run_Name run); str "result.name" (meta_Name (result_Meta result));
     str "result.uid" (meta_UID (result_Meta result))] ++ resultAttrs (result_Status result) ++
    [str "agenticrun.cr" (serializeCRJSON o)] in
  match serializeCR o with
  | Ok serialized =>
      emitStructuredLog (Some span) (run_UID run) step ("audit." +:+ step +:+ ".completed")
        (JObject [("result", serialized)])
  | Err _ => Ret tt
  end ;;;
  call (AddEvent span ("agenticrun." +:+ step +:+ ".completed") attrs) ;;;
  Ret tt.

Definition completeStep (s : AuditState) (run : AgenticRun) (step : string)
    (result : option ResultCR) : T AuditState :=
  let key := activeSpanKey (run_UID run) step in
  match activeSpans s !! key with
  | None => Ret s
  | Some span =>
      match result with
      | Some r => emitResultEvent span run step r
      | None => Ret tt
      end ;;;
      call (EndSpan span) ;;;
      Ret (withActive s (delete key (activeSpans s)))
  end.

(** *** [EmitApprovalSpan] *)

(** The decision of the last stage that has one. *)
Definition lastDecision (stages : list ApprovalStage) : option string :=
  stage_Decision <$> head (List.filter (λ st, negb (String.eqb (stage_Decision st) "")) (rev stages)).

(** The option of the first execution stage that selects one; a stage of that type
    without its parameters is a nil dereference. *)
Fixpoint selectedOption (stages : list ApprovalStage) : res (option Z) :=
  match stages with
  | [] => Ok None
  | st :: stages' =>
      if String.eqb (stage_Type st) ApprovalStageExecution then
        match stage_Execution st with
        | None => Err (panicError "invalid memory address or nil pointer dereference")
        | Some e => match executionApproval_Option e with
                    | Some z => Ok (Some z)
                    | None => selectedOption stages'
                    end
        end
      else selectedOption stages'
  end.

Definition approverMembers (a : ApproverInfo) : Json :=
  JObject [("approvedAt", JString (approver_ApprovedAt a)); ("uid", JString (approver_UID a));
           ("username", JString (approver_Username a))].

(** The attributes of the event and the payload of the log, its keys in order. *)
Definition approvalDetails (approval : option AgenticRunApproval) (title : string)
    : res (attributes * Json) :=
  let titled := negb (String.eqb title "") in
  match approval with
  | None => Ok (if titled then [str "selected_option.title" title] else [],
                JObject (if titled then [("selectedOptionTitle", JString title)] else []))
  | Some a =>
      let stages := approval_Stages (approval_Spec a) in
      let approver := approval_Approver (approval_Spec a) in
      let known := negb (String.eqb (approver_UID approver) "") in
      match selectedOption stages with
      | Err err => Err err
      | Ok opt =>
          Ok (from_option (λ d, [str "approval.decision" d]) [] (lastDecision stages) ++
              from_option (λ z, [int "selected_option" z]) [] opt ++
              (if known then [str "approver.uid" (approver_UID approver);
                              str "approver.username" (approver_Username approver)] else []) ++
              [str "agenticrun.cr" (serializeCRJSON (auditApproval a))] ++
              (if titled then [str "selected_option.title" title] else []),
              JObject (("approvalStages", stagesJSON stages) ::
                       (if known then [("approver", approverMembers approver)] else []) ++
                       from_option (λ z, [("selectedOption", JNumber z)]) [] opt ++
                       (if titled then [("selectedOptionTitle", JString title)] else [])))
      end
  end.

Definition emitApprovalSpan (s : AuditState) (run : AgenticRun)
    (approval : option AgenticRunApproval) (title : string) : T (AuditState * option error) :=
  if bool_decide (run_UID run ∈ emittedApproval s) then Ret (s, None)
  else
    let! (s', span) :=
      startPhaseSpan (withApproval s ({[run_UID run]} ∪ emittedApproval s)) run spanApproval [] in
    match approvalDetails approval title with
    | Err err => Ret (s', Some err)
    | Ok (attrs, payload) =>
        emitStructuredLog (Some span) (run_UID run) "controller" "audit.approval.received" payload ;;;
        call (AddEvent span "agenticrun.approval.completed"
                (str "agenticrun.name" (run_Name run) :: attrs)) ;;;
        call (EndSpan span) ;;;
        Ret (s', None)
    end.

Definition emitTerminalSpan (s : AuditState) (run : AgenticRun) (phase reason : string)
    : T AuditState :=
  if bool_decide (run_UID run ∈ emittedTerminal s) then Ret s
  else
    let! (s', span) :=
      startPhaseSpan (withTerminal s ({[run_UID run]} ∪ emittedTerminal s)) run spanTerminal
        [str "phase" phase; str "reason" reason] in
    emitStructuredLog (Some span) (run_UID run) "controller" "audit.agenticrun.terminal"
      (JObject [("phase", JString phase); ("reason", JString reason)]) ;;;
    call (AddEvent span "agenticrun.terminal"
            [str "agenticrun.name" (run_Name run); str "phase" phase; str "reason" reason]) ;;;
    call (EndSpan span) ;;;
    Ret s'.

Definition emitAgenticRunReceived (run : AgenticRun) : T unit :=
  span <- call (R := telAnswer) ContextSpan ;;
  match serializeCR (auditRun run) with
  | Err err => call (LogError "Failed to serialize AgenticRun for audit" err)
  | Ok serialized =>
      emitStructuredLog (option_map fst span) (run_UID run) "controller" "audit.agenticrun.received"
        (JObject [("run", serialized)])
  end ;;;
  match span with
  | None | Some (_, false) => Ret tt
  | Some (sc, true) =>
      call (AddEvent sc "agenticrun.received"
              [str "agenticrun.name" (run_Name run); str "agenticrun.namespace" (run_Namespace run);
               str "agenticrun.uid" (run_UID run);
               str "agenticrun.request" (spec_Request (run_Spec run));
               str "agenticrun.cr" (serializeCRJSON (auditRun run))])
  end.

Definition auditSteps : list string := ["analysis"; "execution"; "verification"; "escalation"].

Definition endActiveSpans (s : AuditState) (uid : string) : T AuditState :=
  foldM auditSteps s (λ step s,
    let key := activeSpanKey uid step in
    match activeSpans s !! key with
    | None => Ret s
    | Some span => call (EndSpan span) ;;; Ret (withActive s (delete key (activeSpans s)))
    end).

Definition cleanup (s : AuditState) (run : AgenticRun) : T AuditState :=
  let uid := run_UID run in
  endActiveSpans (withApproval (withPrior s (delete uid (priorPhase s)))
                    (emittedApproval s ∖ {[uid]})) uid.

(** [key.String()]. *)
Definition keyText (key : NamespacedName) : string := nn_Namespace key +:+ "/" +:+ nn_Name key.

Definition cleanupDeleted (s : AuditState) (key : NamespacedName) : T AuditState :=
  match knownUIDs s !! keyText key with
  | None => Ret s
  | Some uid =>
      let s1 := withKnown s (delete (keyText key) (knownUIDs s)) in
      let s2 := withTerminal s1 (emittedTerminal s1 ∖ {[uid]}) in
      let s3 := withPrior s2 (delete uid (priorPhase s2)) in
      endActiveSpans (withApproval s3 (emittedApproval s3 ∖ {[uid]})) uid
  end.

(** *** The calls of the operator *)
Definition spanEventOn (name : string) : T unit :=
  span <- call (R := telAnswer) ContextSpan ;;
  match span with
  | Some (sc, true) => call (AddEvent sc name [])
  | _ => Ret tt
  end.

Definition perform (s : AuditState) (c : AuditCall) : T AuditState :=
  match c with
  | EmitApprovalSpan run approval title =>
      let! (s', _) := emitApprovalSpan s run approval title in Ret s'
  | EmitTerminalSpan run phase reason => emitTerminalSpan s run phase reason
  | CompleteStep run step result => completeStep s run step result
  | BeginStep run step => let! (s', _) := beginStep s run step in Ret s'
  | EmitAgenticRunReceived run => emitAgenticRunReceived run ;;; Ret s
  | SpanEvent name => spanEventOn name ;;; Ret s
  | AuditCleanup run => cleanup s run
  | AuditCleanupDeleted key => cleanupDeleted s key
  end.

(** The logger through a sequence of calls. *)
Definition performAll (s : AuditState) (calls : list AuditCall) : T AuditState :=
  foldM calls s (λ c s, perform s c).

(** ** Views of a trace *)

(** A phase span of a run: its name, its links, its context. *)
Definition phaseSpan : Type := string * list SpanContext * SpanContext.

Definition spanOf (uid : string) (ev : event telAnswer) : option phaseSpan :=
  match ev with
  | Ev e a =>
      (match e return telAnswer e → option phaseSpan with
       | StartSpan name ((k, AttrString u) :: _) links =>
           λ sc, if String.eqb k "agenticrun.uid" && String.eqb u uid
                 then Some (name, links, sc) else None
       | _ => λ _, None
       end) a
  end.

Definition spansOf (uid : string) (tr : list (event telAnswer)) : list phaseSpan :=
  omap (spanOf uid) tr.

Lemma spansOf_app uid t1 t2 : spansOf uid (t1 ++ t2) = spansOf uid t1 ++ spansOf uid t2.
Proof. apply omap_app. Qed.

(** The call starts no span. *)
Definition startsNone (ev : event telAnswer) : Prop :=
  match ev with Ev (StartSpan _ _ _) _ => False | _ => True end.

Lemma spansOf_none uid tr : Forall startsNone tr → spansOf uid tr = [].
Proof.
  intros H. apply omap_none. eapply Forall_impl; [exact H|]. intros [e a]. by destruct e.
Qed.

Lemma emitStructuredLog_none span uid phase event payload :
  emits startsNone (emitStructuredLog span uid phase event payload).
Proof. unfold emitStructuredLog. emits_walk done. Qed.

Lemma emitResultEvent_none span run step result :
  emits startsNone (emitResultEvent span run step result).
Proof.
  unfold emitResultEvent. repeat (first [apply emitStructuredLog_none | emits_walk done]).
Qed.

Lemma endActiveSpans_none s uid : emits startsNone (endActiveSpans s uid).
Proof. unfold endActiveSpans. emits_walk done. Qed.

(** The span a call starts: its run and its name. *)
Definition starts (s : AuditState) (c : AuditCall) : option (AgenticRun * string) :=
  match c with
  | EmitApprovalSpan run _ _ =>
      if bool_decide (run_UID run ∈ emittedApproval s) then None else Some (run, spanApproval)
  | EmitTerminalSpan run _ _ =>
      if bool_decide (run_UID run ∈ emittedTerminal s) then None else Some (run, spanTerminal)
  | BeginStep run step => pair run <$> stepSpanName step
  | _ => None
  end.

(** The run a call is about. *)
Definition callRun (c : AuditCall) : option AgenticRun :=
  match c with
  | EmitApprovalSpan run _ _ | EmitTerminalSpan run _ _ | CompleteStep run _ _
  | BeginStep run _ | EmitAgenticRunReceived run | AuditCleanup run => Some run
  | SpanEvent _ | AuditCleanupDeleted _ => None
  end.

Lemma startPhaseSpan_run s run name attrs tr s' span uid :
  runs (startPhaseSpan s run name attrs) tr (s', span) →
  spansOf uid tr = (if String.eqb (run_UID run) uid then [(name, priorLinks s uid, span)] else []) ∧
  s' = withKnown (withPrior s (<[run_UID run := span]> (priorPhase s)))
         (<[runKeyText run := run_UID run]> (knownUIDs s)).
Proof.
  unfold startPhaseSpan. intros H. run_call H sp. apply runs_ret in H as [-> H]. injection H as -> ->.
  split; [|done]. unfold spansOf. rewrite omap_cons. cbn.
  destruct (String.eqb_spec (run_UID run) uid) as [<-|]; done.
Qed.

(** What a call does to the memory of the logger, and the spans it starts: those of
    [starts], linked to the phase before. *)
Definition afterStart (s : AuditState) (run : AgenticRun) (span : SpanContext) : AuditState :=
  withKnown (withPrior s (<[run_UID run := span]> (priorPhase s)))
    (<[runKeyText run := run_UID run]> (knownUIDs s)).

(** The memory without the active spans, which the calls treat on their own. *)
Definition sameGuards (s s' : AuditState) : Prop :=
  priorPhase s' = priorPhase s ∧ emittedTerminal s' = emittedTerminal s ∧
  emittedApproval s' = emittedApproval s ∧ knownUIDs s' = knownUIDs s.

Lemma foldM_rel {A} (R : A → A → Prop) {B} (xs : list B) (f : B → A → T A) s tr s' :
  (∀ a, R a a) → (∀ a b c, R a b → R b c → R a c) →
  (∀ x a t b, runs (f x a) t b → R a b) → runs (foldM xs s f) tr s' → R s s'.
Proof.
  intros Hr Ht Hf H.
  eapply (foldM_inv (R := telAnswer) (λ b, R s b) xs f s tr s'); [|apply Hr|exact H].
  intros x a t b _ Ha Hb. eapply Ht; [exact Ha|]. by eapply Hf.
Qed.

Lemma endActiveSpans_guards s uid tr s' : runs (endActiveSpans s uid) tr s' → sameGuards s s'.
Proof.
  unfold endActiveSpans. apply (foldM_rel sameGuards).
  - by intros.
  - intros a b c (?&?&?&?) (?&?&?&?). repeat split; congruence.
  - intros step a t b H. repeat runs_step; done.
Qed.

(** What is left of the active spans of a run: none of its steps; the others stay. *)
Lemma endActiveSpans_active s uid tr s' :
  runs (endActiveSpans s uid) tr s' →
  (∀ step, step ∈ auditSteps → activeSpans s' !! activeSpanKey uid step = None) ∧
  (∀ k sp, activeSpans s' !! k = Some sp → activeSpans s !! k = Some sp) ∧
  (∀ step sp, step ∈ auditSteps → activeSpans s !! activeSpanKey uid step = Some sp →
     Ev (EndSpan sp) tt ∈ tr).
Proof.
  unfold endActiveSpans. generalize auditSteps as steps. intros steps. revert s tr.
  induction steps as [|step steps IH]; intros s tr; cbn [foldM].
  { intros [-> ->]%runs_ret. split; [by intros ? ?%elem_of_nil|]. split; [done|].
    by intros ? ? ?%elem_of_nil. }
  intros (t1 & s1 & t2 & -> & H1 & (Hn & Hs & He)%IH)%runs_bind.
  assert (H : activeSpans s1 = delete (activeSpanKey uid step) (activeSpans s) ∧
    ∀ sp, activeSpans s !! activeSpanKey uid step = Some sp → Ev (EndSpan sp) tt ∈ t1).
  { destruct (activeSpans s !! activeSpanKey uid step) as [sp|] eqn:Hl.
    - run_call H1 u. destruct u. apply runs_ret in H1 as [-> ->]. split; [done|].
      intros ? [= <-]. left.
    - apply runs_ret in H1 as [-> ->]. by rewrite delete_id. }
  destruct H as [Hs1 He1]. rewrite Hs1 in Hs, He. split; [|split].
  - intros st [->|Hin]%elem_of_cons; [|by apply Hn].
    destruct (activeSpans s' !! activeSpanKey uid step) eqn:Hx; [|done].
    apply Hs in Hx. by rewrite lookup_delete_eq in Hx.
  - intros k sp Hk. apply Hs in Hk. by apply lookup_delete_Some in Hk as [_ ?].
  - intros st sp [->|Hin]%elem_of_cons Hl; apply elem_of_app; [left; auto|].
    destruct (decide (activeSpanKey uid st = activeSpanKey uid step)) as [Hk|Hk].
    + left. apply He1. by rewrite <- Hk.
    + right. eapply He; [done|]. by rewrite lookup_delete_ne.
Qed.

(** ** What a call does, as a function

    [after s c span] is the memory after [c], active spans apart, when the tracer
    answers a start with [span]. *)
Definition forget (s : AuditState) (uid : string) : AuditState :=
  withApproval (withPrior s (delete uid (priorPhase s))) (emittedApproval s ∖ {[uid]}).

Definition after (s : AuditState) (c : AuditCall) (span : SpanContext) : AuditState :=
  match c with
  | EmitApprovalSpan run _ _ =>
      if bool_decide (run_UID run ∈ emittedApproval s) then s
      else afterStart (withApproval s ({[run_UID run]} ∪ emittedApproval s)) run span
  | EmitTerminalSpan run _ _ =>
      if bool_decide (run_UID run ∈ emittedTerminal s) then s
      else afterStart (withTerminal s ({[run_UID run]} ∪ emittedTerminal s)) run span
  | BeginStep run step => if stepSpanName step then afterStart s run span else s
  | AuditCleanup run => forget s (run_UID run)
  | AuditCleanupDeleted key =>
      match knownUIDs s !! keyText key with
      | None => s
      | Some uid =>
          forget (withTerminal (withKnown s (delete (keyText key) (knownUIDs s)))
                    (emittedTerminal s ∖ {[uid]})) uid
      end
  | _ => s
  end.

(** The spans of a run that a call starts. *)
Definition spansAfter (s : AuditState) (c : AuditCall) (span : SpanContext) (uid : string)
    : list phaseSpan :=
  match starts s c with
  | Some (run, name) =>
      if String.eqb (run_UID run) uid then [(name, priorLinks s uid, span)] else []
  | None => []
  end.

Lemma sameGuards_refl s : sameGuards s s.
Proof. done. Qed.

Definition anySpan : SpanContext := MkSpanContext zeroTraceID zeroSpanID.

(** A call that starts no span and keeps the memory. *)
Lemma perform_quiet s c tr s' uid :
  starts s c = None → sameGuards (after s c anySpan) s' → Forall startsNone tr →
  ∃ span, sameGuards (after s c span) s' ∧ spansOf uid tr = spansAfter s c span uid.
Proof.
  intros Hs Hg Ht. exists anySpan. split; [done|]. unfold spansAfter. rewrite Hs. by apply spansOf_none.
Qed.

Lemma perform_run s c tr s' uid :
  runs (perform s c) tr s' →
  ∃ span, sameGuards (after s c span) s' ∧ spansOf uid tr = spansAfter s c span uid.
Proof.
  destruct c as [run approval title|run phase reason|run step result|run step|run|name|run|key];
    cbn [perform]; intros H.
  - apply runs_bind in H as (t1 & [s1 err] & t2 & -> & H & [-> ->]%runs_ret). rewrite app_nil_r.
    unfold emitApprovalSpan in H. destruct (bool_decide _) eqn:Hb.
    + apply runs_ret in H as [-> H]. simplify_eq. apply perform_quiet; cbn; rewrite ?Hb; done.
    + apply runs_bind in H as (t2 & [s2 span] & t3 & -> & H1 & H).
      apply (startPhaseSpan_run _ _ _ _ _ _ _ uid) in H1 as [Hsp ->].
      exists span. rewrite spansOf_app, Hsp. unfold spansAfter. cbn. rewrite Hb.
      assert (Ht : Forall startsNone t3 ∧ s1 = afterStart (withApproval s ({[run_UID run]} ∪ emittedApproval s)) run span).
      { destruct (approvalDetails approval title) as [[attrs payload]|err']; cycle 1.
        { apply runs_ret in H as [-> H]. simplify_eq. by split; [constructor|]. }
        apply runs_bind in H as (t4 & u & t5 & -> & Hl & H).
        apply emitStructuredLog_none in Hl. run_call H u1. run_call H u2.
        apply runs_ret in H as [-> H]. simplify_eq. split; [|done].
        apply Forall_app. split; [done|by repeat constructor]. }
      destruct Ht as [Ht ->]. rewrite (spansOf_none uid t3 Ht), app_nil_r. by split.
  - unfold emitTerminalSpan in H. destruct (bool_decide _) eqn:Hb.
    + apply runs_ret in H as [-> ->]. apply perform_quiet; cbn; rewrite ?Hb; done.
    + apply runs_bind in H as (t2 & [s2 span] & t3 & -> & H1 & H).
      apply (startPhaseSpan_run _ _ _ _ _ _ _ uid) in H1 as [Hsp ->].
      exists span. rewrite spansOf_app, Hsp. unfold spansAfter. cbn. rewrite Hb.
      apply runs_bind in H as (t4 & u & t5 & -> & Hl%emitStructuredLog_none & H).
      run_call H u1. run_call H u2. apply runs_ret in H as [-> ->].
      rewrite (spansOf_none uid (t4 ++ _)), app_nil_r; [by split|].
      apply Forall_app. split; [done|by repeat constructor].
  - unfold completeStep in H. destruct (activeSpans s !! _) as [sp|]; cycle 1.
    { apply runs_ret in H as [-> ->]. by apply perform_quiet. }
    apply runs_bind in H as (t1 & u & t2 & -> & H1 & H). run_call H u1. apply runs_ret in H as [-> ->].
    apply perform_quiet; [done|done|]. apply Forall_app. split; [|by repeat constructor].
    destruct result; [by apply emitResultEvent_none in H1|]. apply runs_ret in H1 as [-> _]. constructor.
  - apply runs_bind in H as (t1 & [s1 sp] & t2 & -> & H & [-> ->]%runs_ret). rewrite app_nil_r.
    unfold beginStep in H. destruct (stepSpanName step) as [name|] eqn:Hn; cycle 1.
    { apply runs_ret in H as [-> H]. simplify_eq. apply perform_quiet; cbn; rewrite ?Hn; done. }
    apply runs_bind in H as (t2 & [s2 span] & t3 & -> & H1 & [-> H]%runs_ret). simplify_eq.
    apply (startPhaseSpan_run _ _ _ _ _ _ _ uid) in H1 as [Hsp ->]. rewrite app_nil_r.
    exists span. rewrite Hsp. unfold spansAfter. cbn. rewrite Hn. by split.
  - apply runs_bind in H as (t1 & u & t2 & -> & H & [-> ->]%runs_ret). rewrite app_nil_r.
    apply perform_quiet; [done|done|]. refine (emits_run _ _ _ _ H _).
    unfold emitAgenticRunReceived. repeat (first [apply emitStructuredLog_none | emits_walk done]).
  - apply runs_bind in H as (t1 & u & t2 & -> & H & [-> ->]%runs_ret). rewrite app_nil_r.
    apply perform_quiet; [done|done|]. refine (emits_run _ _ _ _ H _).
    unfold spanEventOn. emits_walk done.
  - unfold cleanup in H. apply perform_quiet; [done| |by eapply endActiveSpans_none].
    by apply endActiveSpans_guards in H.
  - unfold cleanupDeleted in H. apply perform_quiet; [done| |].
    + cbn. destruct (knownUIDs s !! keyText key); [by apply endActiveSpans_guards in H|].
      by apply runs_ret in H as [_ ->].
    + destruct (knownUIDs s !! keyText key); [by eapply endActiveSpans_none|].
      apply runs_ret in H as [-> _]. constructor.
Qed.

(** ** The terminal span of a run *)

(** Every entry of the known UIDs is of a run some call is about. *)
Definition knows (calls : list AuditCall) (s : AuditState) : Prop :=
  ∀ k uid, knownUIDs s !! k = Some uid →
    ∃ c run, c ∈ calls ∧ callRun c = Some run ∧ run_UID run = uid ∧ runKeyText run = k.

Lemma after_known s c span k uid :
  knownUIDs (after s c span) !! k = Some uid →
  knownUIDs s !! k = Some uid ∨
  ∃ run, callRun c = Some run ∧ run_UID run = uid ∧ runKeyText run = k.
Proof.
  destruct c as [run ? ?|run ? ?|run ? ?|run step|run|name|run|key]; cbn; auto.
  - destruct (bool_decide _); [auto|]. cbn. intros [[<- <-]|[_ ?]]%lookup_insert_Some; eauto.
  - destruct (bool_decide _); [auto|]. cbn. intros [[<- <-]|[_ ?]]%lookup_insert_Some; eauto.
  - destruct (stepSpanName step); [|auto]. cbn.
    intros [[<- <-]|[_ ?]]%lookup_insert_Some; eauto.
  - destruct (knownUIDs s !! keyText key); [|auto]. cbn. intros [_ ?]%lookup_delete_Some. auto.
Qed.

Lemma knows_after calls s c span s' :
  knows calls s → c ∈ calls → sameGuards (after s c span) s' → knows calls s'.
Proof.
  intros Hk Hc (_ & _ & _ & Hn) k uid. rewrite Hn.
  intros [H|(run & ? & ? & ?)]%after_known; [by apply Hk|by exists c, run].
Qed.

(** No call forgets the run altogether. *)
Definition notDeleted (uid : string) (calls : list AuditCall) : Prop :=
  ∀ key c run, AuditCleanupDeleted key ∈ calls → c ∈ calls → callRun c = Some run →
    run_UID run = uid → runKeyText run ≠ keyText key.

Definition emitsTerminal (uid : string) (c : AuditCall) : bool :=
  match c with EmitTerminalSpan run _ _ => String.eqb (run_UID run) uid | _ => false end.

Definition isTerminal (p : phaseSpan) : bool := String.eqb (fst (fst p)) spanTerminal.

Lemma after_terminal calls s c span uid :
  notDeleted uid calls → knows calls s → c ∈ calls →
  (uid ∈ emittedTerminal (after s c span) ↔ uid ∈ emittedTerminal s ∨ emitsTerminal uid c = true).
Proof.
  intros Hd Hk Hc.
  assert (Hf : ∀ P : Prop, P ↔ P ∨ false = true) by (intros P; split; [auto|by intros [?|?]]).
  destruct c as [run ? ?|run ? ?|run ? ?|run step|run|name|run|key]; cbn; try exact (Hf _).
  - destruct (bool_decide _); exact (Hf _).
  - destruct (bool_decide (run_UID run ∈ _)) eqn:Hb; bool_hyps; cbn.
    + split; [auto|]. intros [?|?]; [done|]. bool_hyps. by subst.
    + rewrite elem_of_union, elem_of_singleton. split.
      * intros [->|?]; [right; by apply String.eqb_refl|by left].
      * intros [?|?]; [by right|]. bool_hyps. by left.
  - destruct (stepSpanName step); exact (Hf _).
  - destruct (knownUIDs s !! keyText key) as [u|] eqn:Hu; cbn; [|exact (Hf _)].
    destruct (Hk _ _ Hu) as (c & run & Hin & Hr & Hru & Hkey).
    assert (u ≠ uid) by (intros ->; by eapply (Hd key c run)).
    rewrite elem_of_difference, elem_of_singleton. split; [intros [? _]; by left|].
    intros [?|?]; [|done]. split; [done|congruence].
Qed.

(** The terminal spans a call starts. *)
Lemma spansAfter_terminal s c span uid :
  List.filter isTerminal (spansAfter s c span uid) =
  if emitsTerminal uid c && negb (bool_decide (uid ∈ emittedTerminal s))
  then [(spanTerminal, priorLinks s uid, span)] else [].
Proof.
  unfold spansAfter. destruct c as [run ? ?|run ? ?|run ? ?|run step|run|name|run|key]; try done; cbn.
  - destruct (bool_decide _); [done|]. by destruct (String.eqb _ _).
  - destruct (String.eqb (run_UID run) uid) eqn:He.
    + apply String.eqb_eq in He as <-. destruct (bool_decide _); cbn; [done|].
      by rewrite String.eqb_refl.
    + destruct (bool_decide _); cbn; by rewrite ?He.
  - destruct (stepSpanName step) as [name|] eqn:Hn; [|done]. cbn.
    assert (Hne : String.eqb name spanTerminal = false).
    { unfold stepSpanName in Hn. repeat (case_match; simplify_eq; try done). }
    destruct (String.eqb _ uid); [|done]. cbn. unfold isTerminal. cbn. by rewrite Hne.
Qed.

Lemma performAll_terminal calls rest s tr s' uid :
  notDeleted uid calls → knows calls s → rest ⊆ calls →
  runs (performAll s rest) tr s' →
  List.length (List.filter isTerminal (spansOf uid tr)) =
  if existsb (emitsTerminal uid) rest && negb (bool_decide (uid ∈ emittedTerminal s)) then 1%nat
  else 0%nat.
Proof.
  intros Hd. revert s tr. induction rest as [|c rest IH]; intros s tr Hk Hsub H.
  { apply runs_ret in H as [-> _]. done. }
  apply runs_bind in H as (t1 & s1 & t2 & -> & H1 & H).
  apply (perform_run _ _ _ _ uid) in H1 as (span & Hg & Hsp).
  assert (Hc : c ∈ calls) by (apply Hsub; left).
  pose proof (after_terminal calls s c span uid Hd Hk Hc) as Ht.
  destruct Hg as (Hp & Hte & Ha & Hkn). rewrite <- Hte in Ht.
  assert (Hk1 : knows calls s1) by (eapply knows_after; [done|done|by split]).
  apply IH in H; [|done|by intros x Hx; apply Hsub; right].
  rewrite spansOf_app, List.filter_app, length_app, Hsp, spansAfter_terminal, H. cbn [existsb].
  destruct (decide (uid ∈ emittedTerminal s1)) as [Hin1|Hin1];
    rewrite ?(bool_decide_true _ Hin1), ?(bool_decide_false _ Hin1);
    destruct (decide (uid ∈ emittedTerminal s)) as [Hin|Hin];
    rewrite ?(bool_decide_true _ Hin), ?(bool_decide_false _ Hin);
    destruct (emitsTerminal uid c), (existsb (emitsTerminal uid) rest); cbn; try done;
    exfalso; naive_solver.
Qed.

(** However often the controllers report that a run ended, over its retries and the
    reconciliations of years, one terminal span is started for it, until the run
    itself is gone; and one is, as soon as one report is made. *)
Theorem terminal_span_once calls tr s uid :
  runs (performAll emptyAudit calls) tr s → notDeleted uid calls →
  List.length (List.filter isTerminal (spansOf uid tr)) =
  if existsb (emitsTerminal uid) calls then 1%nat else 0%nat.
Proof.
  intros H Hd. apply (performAll_terminal calls calls) with (uid := uid) in H; [|done| |done].
  - rewrite H. rewrite bool_decide_false by apply not_elem_of_empty. by rewrite andb_true_r.
  - intros k u Hk. cbn in Hk. by rewrite lookup_empty in Hk.
Qed.

(** ** The chain of phases *)

(** Each span links to the one before, when its context is valid. *)
Fixpoint chained (prior : option SpanContext) (spans : list phaseSpan) : Prop :=
  match spans with
  | [] => True
  | (_, links, span) :: spans' =>
      links = from_option (λ sc, if SpanContext_IsValid sc then [sc] else []) [] prior ∧
      chained (Some span) spans'
  end.

(** The call lets the run go: its own cleanup, or one of its name. *)
Definition keepsPhase (uid : string) (calls : list AuditCall) : Prop :=
  notDeleted uid calls ∧ ∀ run, AuditCleanup run ∈ calls → run_UID run ≠ uid.

Lemma after_prior calls s c span uid :
  keepsPhase uid calls → knows calls s → c ∈ calls →
  spansAfter s c span uid = [] ∧ priorPhase (after s c span) !! uid = priorPhase s !! uid ∨
  ∃ name, spansAfter s c span uid = [(name, priorLinks s uid, span)] ∧
    priorPhase (after s c span) !! uid = Some span.
Proof.
  intros [Hd Hcl] Hk Hc.
  assert (Hstart : ∀ s0 run (name : string), priorPhase s0 = priorPhase s →
    (if String.eqb (run_UID run) uid then [(name, priorLinks s uid, span)] else [] : list phaseSpan) = []
      ∧ priorPhase (afterStart s0 run span) !! uid = priorPhase s !! uid ∨
    ∃ name' : string,
      (if String.eqb (run_UID run) uid then [(name, priorLinks s uid, span)] else [] : list phaseSpan)
        = [(name', priorLinks s uid, span)] ∧
      priorPhase (afterStart s0 run span) !! uid = Some span).
  { intros s0 run name Hp. cbn. rewrite Hp. destruct (String.eqb_spec (run_UID run) uid) as [<-|Hne].
    - right. rewrite lookup_insert_eq. eauto.
    - left. by rewrite lookup_insert_ne. }
  unfold spansAfter. destruct c as [run ? ?|run ? ?|run ? ?|run step|run|name|run|key]; cbn; auto.
  - destruct (bool_decide _); [by left|]. by apply Hstart.
  - destruct (bool_decide _); [by left|]. by apply Hstart.
  - destruct (stepSpanName step); [|by left]. by apply Hstart.
  - left. split; [done|]. rewrite lookup_delete_ne; [done|]. by apply Hcl.
  - left. split; [done|]. destruct (knownUIDs s !! keyText key) as [u|] eqn:Hu; [|done]. cbn.
    destruct (Hk _ _ Hu) as (c & run & Hin & Hr & Hru & Hkey).
    rewrite lookup_delete_ne; [done|]. intros ->. by eapply (Hd key c run).
Qed.

Lemma performAll_chained calls rest s tr s' uid :
  keepsPhase uid calls → knows calls s → rest ⊆ calls →
  runs (performAll s rest) tr s' → chained (priorPhase s !! uid) (spansOf uid tr).
Proof.
  intros Hkeep. revert s tr. induction rest as [|c rest IH]; intros s tr Hk Hsub H.
  { by apply runs_ret in H as [-> _]. }
  apply runs_bind in H as (t1 & s1 & t2 & -> & H1 & H).
  apply (perform_run _ _ _ _ uid) in H1 as (span & Hg & Hsp).
  assert (Hc : c ∈ calls) by (apply Hsub; left).
  assert (Hk1 : knows calls s1) by by eapply knows_after.
  apply IH in H; [|done|by intros x Hx; apply Hsub; right].
  rewrite spansOf_app, Hsp. destruct Hg as (Hp & _). rewrite Hp in H.
  destruct (after_prior calls s c span uid Hkeep Hk Hc) as [[-> He]|(name & -> & He)];
    rewrite He in H; [done|]. cbn. split; [|done].
  unfold priorLinks. by destruct (priorPhase s !! uid).
Qed.

(** C25: From the first call about a run to the cleanup of its terminal phase, its phase
    spans form one chain: each is a trace of its own and links to the span of the
    phase before it, whatever happened to other runs in between. *)
Theorem phase_spans_chained calls tr s uid :
  runs (performAll emptyAudit calls) tr s → keepsPhase uid calls → chained None (spansOf uid tr).
Proof.
  intros H Hk. apply (performAll_chained calls calls) with (uid := uid) in H; [|done| |done].
  - cbn in H. by rewrite lookup_empty in H.
  - intros k u Hku. cbn in Hku. by rewrite lookup_empty in Hku.
Qed.

(** The cleanup of a run ends every span its steps left open and keeps none of them,
    leaves the spans of other runs open, and keeps the guard that stops a second
    terminal span. *)
Theorem cleanup_ends_spans s run tr s' :
  runs (cleanup s run) tr s' →
  (∀ step sp, step ∈ auditSteps → activeSpans s !! activeSpanKey (run_UID run) step = Some sp →
     Ev (EndSpan sp) tt ∈ tr) ∧
  (∀ step, step ∈ auditSteps → activeSpans s' !! activeSpanKey (run_UID run) step = None) ∧
  (∀ k sp, activeSpans s' !! k = Some sp → activeSpans s !! k = Some sp) ∧
  emittedTerminal s' = emittedTerminal s ∧ priorPhase s' !! run_UID run = None.
Proof.
  unfold cleanup. intros H. pose proof (endActiveSpans_guards _ _ _ _ H) as (Hp & Ht & _).
  apply endActiveSpans_active in H as (Hn & Hs & He). split; [exact He|]. split; [done|].
  split; [done|]. split; [done|]. rewrite Hp. apply lookup_delete_eq.
Qed.
End Audit.
