(* ===== verification/CliRun.v ===== *)
(** The commands on runs ([cli/run]): create, delete, list, get, watch, logs, approve,
    deny and the batch cleanup, as programs over the calls of the command line
    ([cliCall]): the API server, the terminal, the clock, the log store.

    Building the clients and the flags is not modelled: a command starts with its
    options and its namespace ([Complete] has run). *)
From stdpp Require Import base list option strings gmap sets sorting.
From Stdlib Require Import ZArith Lia Ascii String.
From S2P Require Import Prelude GoText Json Clock ApiMachinery Types Phase Effects Approval Helpers.

Local Open Scope string_scope.
Local Open Scope list_scope.
Local Open Scope prog_scope.

(** ** Calls of the command line *)
Record storedLogRecord := MkStoredLogRecord {
  slr_ID : Z;
  slr_Phase : string;
  slr_Timestamp : string;          (* as RFC3339Nano writes it *)
  slr_Body : string;
}.

Record storedLogPage := MkStoredLogPage {
  slp_Records : list storedLogRecord;
  slp_HasMore : bool;
}.

(** The parameters of a request for stored logs; the limit is 1000 and the format json. *)
Record logsQuery := MkLogsQuery {
  lq_agentic_run_id : string;
  lq_phase : option string;
  lq_after : option Z;
}.

(** An answer of the collector: the code and the status line, the text of the body (or
    the error of reading it), and the page the body decodes to. *)
Record httpPage := MkHttpPage {
  hp_StatusCode : Z;
  hp_Status : string;
  hp_Body : res string;
  hp_Page : res storedLogPage;
}.

(** The events of a watch on runs: of another type or another kind of object, an
    error, or a run that was added or modified. *)
Inductive watchEvent :=
| watchError (msg : string)
| watchSkipped
| watchRun (obj : Json).                   (* the unstructured object *)

Inductive cliCall :=
| CliGetRun (key : NamespacedName)
| CliListRuns (namespace : option string)
| CliCreateRun (namespace generateName : string) (spec : AgenticRunSpec)
| CliDeleteRun (key : NamespacedName)
| CliGetApproval (key : NamespacedName)
| CliCreateApproval (obj : AgenticRunApproval)
| CliPatchApproval (base obj : AgenticRunApproval)
| CliGetConfig (name : string)
| CliCreateConfig (obj : AgenticOLSConfig)
| CliPatchConfig (base obj : AgenticOLSConfig)
| CliMergePatchConfig (obj : AgenticOLSConfig) (patch : string)
| CliWatch (key : NamespacedName)
| CliNextEvent                             (* of the watch; none when it is closed *)
| CliPodLogs (key : NamespacedName) (follow : bool)
| CliProxyPage (path : string) (query : logsQuery)                 (* the API server's service proxy *)
| CliHTTPPage (url : string) (query : logsQuery) (insecure : bool)
| CliNow
| CliReadLine
| CliPrint (text : string)
| CliPrintErr (text : string)
| CliTable (headers : list string) (rows : list (list string))
| CliMarshal (what format : string).

Definition cliAnswer (e : cliCall) : Type :=
  match e with
  | CliGetRun _ | CliCreateRun _ _ _ => res AgenticRun
  | CliListRuns _ => res (list AgenticRun)
  | CliDeleteRun _ | CliWatch _ | CliMarshal _ _ => option error
  | CliGetApproval _ | CliCreateApproval _ | CliPatchApproval _ _ => res AgenticRunApproval
  | CliGetConfig _ | CliCreateConfig _ | CliPatchConfig _ _ | CliMergePatchConfig _ _ =>
      res AgenticOLSConfig
  | CliNextEvent => option watchEvent
  | CliPodLogs _ _ => res (list string * option error)     (* the lines, and the end of the scan *)
  | CliProxyPage _ _ => res (res storedLogPage)            (* the stream, and its decoding *)
  | CliHTTPPage _ _ _ => res httpPage
  | CliNow => Time
  | CliReadLine => res string
  | CliPrint _ | CliPrintErr _ | CliTable _ _ => unit
  end.

Abbreviation L := (prog cliAnswer).

(** [duration.HumanDuration] of the API machinery, [time.ParseDuration], [url.Parse]
    (scheme, host, host name) and [json.Unmarshal] of a string. *)
Class CliLibs := {
  HumanDuration : Duration → string;
  ParseDuration : string → res Duration;
  ParseEndpoint : string → option (string * string * string);
  UnmarshalString : string → option string;
}.

(** ** Helpers ([helpers.go]) *)
Definition escapeByte : string := bytes [27].
Definition byteTab : string := bytes [9].
Definition ColorReset : string := escapeByte +:+ "[0m".
Definition ColorRed : string := escapeByte +:+ "[31m".
Definition ColorGreen : string := escapeByte +:+ "[32m".
Definition ColorYellow : string := escapeByte +:+ "[33m".
Definition ColorMagenta : string := escapeByte +:+ "[35m".

Definition OutputJSON : string := "json".
Definition OutputYAML : string := "yaml".
Definition OutputWide : string := "wide".

Definition allPhases : list AgenticRunPhase :=
  [PhasePending; PhaseAnalyzing; PhaseProposed; PhaseExecuting; PhaseVerifying; PhaseCompleted;
   PhaseFailed; PhaseDenied; PhaseEscalating; PhaseEscalated; PhaseEmergencyStopped].

Definition validAgenticRunPhases : list string := map phaseString allPhases.
Definition validSandboxSteps : list string :=
  [SandboxStepAnalysis; SandboxStepExecution; SandboxStepVerification].

Definition DefaultNamespace : string := "openshift-lightspeed".

(** The flag, the namespace of the current context of the kubeconfig, or the default. *)
Definition ResolveNamespace (flag : option string) (context : res (option string)) : res string :=
  match flag with
  | Some (String _ _ as n) => Ok n
  | _ => match context with
         | Err err => Err (wrapError "failed to load kubeconfig" err)
         | Ok (Some n) => Ok (if String.eqb n "" || String.eqb n "default" then DefaultNamespace else n)
         | Ok None => Ok DefaultNamespace
         end
  end.

Definition valueOrDash (s : string) : string := if String.eqb s "" then "-" else s.
Definition int32PtrStr (p : option Z) : string := match p with Some z => Itoa z | None => "-" end.

Definition IsTerminalPhase : AgenticRunPhase → bool := isTerminal.

Definition PhaseColor (phase : AgenticRunPhase) : string :=
  match phase with
  | PhaseCompleted => ColorGreen
  | PhaseFailed | PhaseDenied => ColorRed
  | PhaseAnalyzing | PhaseExecuting | PhaseVerifying => ColorYellow
  | PhaseEscalated | PhaseEmergencyStopped => ColorMagenta
  | _ => ColorReset
  end.

Definition ColoredPhase (phase : AgenticRunPhase) : string :=
  PhaseColor phase +:+ phaseString phase +:+ ColorReset.

(** [items[j].CreationTimestamp.Before(&items[i].CreationTimestamp)]: the youngest
    first; runs of the same second are in an order [sort.Slice] leaves open. *)
Definition created (r : AgenticRun) : Time := meta_CreationTimestamp (run_Meta r).
Definition youngerFirst (a b : AgenticRun) : Prop := (created b ≤ created a)%Z.
#[export] Instance youngerFirst_dec : RelDecision youngerFirst.
Proof. intros a b. unfold youngerFirst. apply _. Defined.
Definition SortAgenticRunsByAge (items : list AgenticRun) : list AgenticRun :=
  merge_sort youngerFirst items.

Definition IsValidPhase (phase : string) : bool := bool_decide (phase ∈ validAgenticRunPhases).

Definition sameFolded (a b : string) : bool := String.eqb (ToLower a) (ToLower b).
Definition IsValidStep (step : string) : bool := existsb (λ s, sameFolded s step) validSandboxSteps.
Definition NormalizeStep (step : string) : string :=
  match List.find (λ s, sameFolded s step) validSandboxSteps with Some s => s | None => step end.

Definition msg (text : string) : error := errorString text.

Section CliRun.
Context `{K : ApiMachinery} `{CL : CliLibs}.

Definition ValidateOutputFormat (format : string) (allowWide : bool) : option error :=
  let valid := [OutputJSON; OutputYAML] ++ (if allowWide then [OutputWide] else []) in
  if String.eqb format "" || bool_decide (format ∈ valid) then None
  else Some (msg ("invalid output format " +:+ Quote format +:+ ", must be one of: " +:+ Join valid ", ")).

Definition stepStatusFromConditions (conditions : list Condition) (typ : string) : string :=
  match firstCondition conditions typ with
  | None => "-"
  | Some c =>
      (match cond_Status c with
       | ConditionTrue => ColorGreen +:+ "True"
       | ConditionFalse => ColorRed +:+ "False"
       | ConditionUnknown => ColorYellow +:+ "Unknown"
       end) +:+ ColorReset +:+ " (" +:+ cond_Reason c +:+ ")"
  end.

Definition printLine (text : string) : L unit := call (CliPrint (text +:+ newline)).
Definition HumanDurationSince (t : Time) : L string :=
  now <- call CliNow ;; Ret (HumanDuration (Time_Sub now t)).

Definition failed (what : string) (e : error) : L (option error) :=
  Ret (Some (wrapError what e)).

(** ** create, delete ([create.go], [delete.go]) *)
Definition createValidate (request output : string) : option error :=
  if String.eqb (TrimSpace request) "" then Some (msg "--request must not be empty")
  else ValidateOutputFormat output false.

Definition createSpec (request agent : string) : AgenticRunSpec :=
  MkAgenticRunSpec request "" (MkAnalysisOutputSpec "" None) (MkToolsSpec [] [] [])
    (MkAgenticRunStep agent) (MkAgenticRunStep "") (MkAgenticRunStep "") "" None.

Definition createRun (namespace request agent output : string) : L (option error) :=
  made <- call (CliCreateRun namespace "ag-" (createSpec request agent)) ;;
  match made with
  | Err err => failed "failed to create run" err
  | Ok run =>
      if String.eqb output OutputJSON || String.eqb output OutputYAML then call (CliMarshal "run" output)
      else printLine ("run/" +:+ run_Name run +:+ " created") ;;; Ret None
  end.

Definition deleteRun (namespace name : string) : L (option error) :=
  e <- call (CliDeleteRun (MkNamespacedName namespace name)) ;;
  match e with
  | Some err => failed ("failed to delete run " +:+ Quote name) err
  | None => printLine ("run/" +:+ name +:+ " deleted") ;;; Ret None
  end.

(** ** list ([list.go]) *)
Record ListOptions := MkListOptions {
  lo_allNamespaces : bool;
  lo_phase : string;
  lo_output : string;
  lo_namespace : string;
}.

Definition listValidate (o : ListOptions) : option error :=
  if negb (String.eqb (lo_phase o) "") && negb (IsValidPhase (lo_phase o)) then
    Some (msg ("invalid phase " +:+ Quote (lo_phase o) +:+ ", must be one of: "
               +:+ Join validAgenticRunPhases ", "))
  else ValidateOutputFormat (lo_output o) true.

Definition inNamespace (all : bool) (namespace : string) : option string :=
  if all then None else Some namespace.

Definition phaseOf (r : AgenticRun) : AgenticRunPhase := DerivePhase (run_Conditions r).

(** The rows of a table, with what [age] says of a run. *)
Definition runRows (all : bool) (items : list AgenticRun) (age : AgenticRun → L string)
    : L (list (list string)) :=
  foldM items [] (λ r rows,
    text <- age r ;;
    Ret (rows ++ [(if all then [run_Namespace r] else []) ++
                  [run_Name r; ColoredPhase (phaseOf r); text]])).

Definition printRuns (all : bool) (ageHeader : string) (items : list AgenticRun)
    (age : AgenticRun → L string) : L unit :=
  rows <- runRows all items age ;;
  call (CliTable ((if all then ["NAMESPACE"] else []) ++ ["NAME"; "PHASE"; ageHeader]) rows).

Definition listRuns (o : ListOptions) : L (option error) :=
  got <- call (CliListRuns (inNamespace (lo_allNamespaces o) (lo_namespace o))) ;;
  match got with
  | Err err => failed "failed to list agentic runs" err
  | Ok items =>
      let kept := List.filter (λ r, String.eqb (lo_phase o) "" ||
                                    String.eqb (phaseString (phaseOf r)) (lo_phase o)) items in
      if String.eqb (lo_output o) OutputJSON || String.eqb (lo_output o) OutputYAML then
        call (CliMarshal "list" (lo_output o))
      else match kept with
           | [] =>
               printLine (if lo_allNamespaces o then "No agentic runs found."
                          else "No agentic runs found in namespace " +:+ Quote (lo_namespace o) +:+ ".") ;;;
               Ret None
           | _ =>
               printRuns (lo_allNamespaces o) "AGE" (SortAgenticRunsByAge kept)
                 (λ r, HumanDurationSince (created r)) ;;;
               Ret None
           end
  end.

(** ** get ([get.go]) *)
Definition printStep (label : string) (s : StepStatus) (typ : string) : L unit :=
  printLine "" ;;;
  printLine (label +:+ stepStatusFromConditions (step_Conditions s) typ) ;;;
  foldM (step_Results s) tt (λ ref _,
    printLine ("  Result:          " +:+ ref_Name ref +:+ " (outcome=" +:+ ref_Outcome ref +:+ ")")).

Definition statusString (s : ConditionStatus) : string :=
  match s with ConditionTrue => "True" | ConditionFalse => "False" | ConditionUnknown => "Unknown" end.

Definition printDetail (p : AgenticRun) : L unit :=
  let st := run_Steps p in
  printLine ("Name:              " +:+ run_Name p) ;;;
  printLine ("Namespace:         " +:+ run_Namespace p) ;;;
  printLine ("Phase:             " +:+ ColoredPhase (phaseOf p)) ;;;
  age <- HumanDurationSince (created p) ;;
  printLine ("Age:               " +:+ age) ;;;
  printLine ("Request:           " +:+ spec_Request (run_Spec p)) ;;;
  printStep "Analysis:          " (steps_Analysis st) AgenticRunConditionAnalyzed ;;;
  printStep "Execution:         " (steps_Execution st) AgenticRunConditionExecuted ;;;
  printStep "Verification:      " (steps_Verification st) AgenticRunConditionVerified ;;;
  (if (0 <? List.length (step_Results (steps_Escalation st)))%nat
      || (0 <? List.length (step_Conditions (steps_Escalation st)))%nat
   then printStep "Escalation:        " (steps_Escalation st) AgenticRunConditionEscalated
   else Ret tt) ;;;
  match run_Conditions p with
  | [] => Ret tt
  | conditions =>
      printLine "" ;;;
      printLine "Conditions:" ;;;
      rows <- foldM conditions [] (λ c rows,
        age <- HumanDurationSince (cond_LastTransitionTime c) ;;
        Ret (rows ++ [["  " +:+ cond_Type c; statusString (cond_Status c); cond_Reason c; age]])) ;;
      call (CliTable ["  TYPE"; "STATUS"; "REASON"; "AGE"] rows)
  end.

Definition getRun (namespace name output : string) : L (option error) :=
  got <- call (CliGetRun (MkNamespacedName namespace name)) ;;
  match got with
  | Err err => failed ("failed to get run " +:+ Quote name) err
  | Ok p =>
      if String.eqb output OutputJSON || String.eqb output OutputYAML then call (CliMarshal "run" output)
      else printDetail p ;;; Ret None
  end.

(** ** watch ([watch.go]) *)

(** The member of an unstructured object, and its string. *)
Definition member (name : string) (j : Json) : option Json :=
  match j with
  | JObject fields => snd <$> List.find (λ f, String.eqb (fst f) name) fields
  | _ => None
  end.
Definition stringMember (name : string) (j : Json) : string :=
  match member name j with Some (JString s) => s | _ => "" end.

(** A status is a string; the phase tells apart only True, Unknown and the others. *)
Definition watchedStatus (status : string) : ConditionStatus :=
  if String.eqb status "True" then ConditionTrue
  else if String.eqb status "Unknown" then ConditionUnknown
  else ConditionFalse.

Definition watchedCondition (item : Json) : option Condition :=
  match item with
  | JObject _ =>
      Some (NewCondition (stringMember "type" item) (watchedStatus (stringMember "status" item))
              (stringMember "reason" item) "" 0%Z)
  | _ => None
  end.

(** [unstructured.NestedSlice(obj.Object, "status", "conditions")]. *)
Definition watchedSlice (obj : Json) : list Json :=
  match member "status" obj with
  | Some status => match member "conditions" status with Some (JArray items) => items | _ => [] end
  | None => []
  end.

Definition extractConditions (obj : Json) : list Condition := omap watchedCondition (watchedSlice obj).

(** The loop over the events, [fuel] of them at most; [None] when it is used up. *)
Fixpoint watchLoop (fuel : nat) (start : Time) (lastPhase : string) : L (option (option error)) :=
  match fuel with
  | O => Ret None
  | S fuel' =>
      ev <- call CliNextEvent ;;
      match ev with
      | None => Ret (Some None)
      | Some (watchError text) => Ret (Some (Some (msg ("watch error: " +:+ text))))
      | Some watchSkipped => watchLoop fuel' start lastPhase
      | Some (watchRun obj) =>
          let phase := DerivePhase (extractConditions obj) in
          if String.eqb (phaseString phase) lastPhase then watchLoop fuel' start lastPhase
          else
            now <- call CliNow ;;
            let elapsed := Time_Sub now start in
            let rounded := ((elapsed + 500000000) / Second * Second)%Z in
            printLine (ColoredPhase phase +:+ byteTab +:+ Duration_String rounded) ;;;
            if IsTerminalPhase phase then Ret (Some None)
            else watchLoop fuel' start (phaseString phase)
      end
  end.

Definition doWatch (fuel : nat) (namespace name : string) : L (option (option error)) :=
  e <- call (CliWatch (MkNamespacedName namespace name)) ;;
  match e with
  | Some err => Ret (Some (Some (wrapError ("failed to watch run " +:+ Quote name) err)))
  | None =>
      start <- call CliNow ;;
      printLine ("PHASE" +:+ byteTab +:+ "AGE") ;;;
      watchLoop fuel start ""
  end.

(** ** logs ([logs.go]) *)
Definition storedLogsPhase (step : string) : string :=
  if String.eqb step "" then "" else ToLower (NormalizeStep step).

Definition collectorServiceName : string := "lightspeed-otel-collector".
Definition collectorServicePort : string := "8080".

Definition serviceProxyPath (namespace service port : string) : string :=
  Join ["api"; "v1"; "namespaces"; namespace; "services"; "https:" +:+ service +:+ ":" +:+ port;
        "proxy"; "api"; "v1"; "logs"] "/".

Definition validateAdminEndpoint (rawEndpoint : string) : option error :=
  match ParseEndpoint rawEndpoint with
  | None => Some (msg ("invalid Collector admin endpoint " +:+ Quote rawEndpoint))
  | Some (scheme, host, hostname) =>
      if String.eqb host "" then Some (msg ("invalid Collector admin endpoint " +:+ Quote rawEndpoint))
      else if String.eqb scheme "https" then None
      else if String.eqb scheme "http" && bool_decide (hostname ∈ ["localhost"; "127.0.0.1"; "::1"]) then None
      else Some (msg ("Collector admin endpoint must use HTTPS (HTTP is allowed only for loopback endpoints): "
                      +:+ Quote rawEndpoint))
  end.

Definition queryOf (runUID phase : string) (after : Z) : logsQuery :=
  MkLogsQuery runUID (if String.eqb phase "" then None else Some phase)
    (if (0 <? after)%Z then Some after else None).

(** The page after a cursor through the proxy of the API server
    ([fetchStoredLogsViaServiceProxy]). *)
Definition proxyPage (namespace runUID phase : string) (after : Z) : L (res storedLogPage) :=
  got <- call (CliProxyPage (serviceProxyPath namespace collectorServiceName collectorServicePort)
                 (queryOf runUID phase after)) ;;
  Ret (match got with
       | Err err => Err (wrapError "fetch stored logs through Collector service proxy" err)
       | Ok (Err err) => Err (wrapError "decode stored logs response" err)
       | Ok (Ok page) => Ok page
       end).

(** The page after a cursor from an endpoint ([fetchStoredLogs]). *)
Definition endpointPage (endpoint : string) (insecure : bool) (runUID phase : string) (after : Z)
    : L (res storedLogPage) :=
  got <- call (CliHTTPPage (TrimRight endpoint "/" +:+ "/api/v1/logs") (queryOf runUID phase after) insecure) ;;
  Ret (match got with
       | Err err => Err (wrapError "fetch stored logs" err)
       | Ok reply =>
           if (hp_StatusCode reply <? 200)%Z || (300 <=? hp_StatusCode reply)%Z then
             match hp_Body reply with
             | Err err => Err (wrapError "read Collector error response" err)
             | Ok body => Err (msg ("Collector returned " +:+ hp_Status reply +:+ ": " +:+ TrimSpace body))
             end
           else match hp_Page reply with
                | Err err => Err (wrapError "decode stored logs response" err)
                | Ok page => Ok page
                end
       end).

(** The pages from a cursor on: the records of all of them; [None] when [fuel] pages
    were not enough. *)
Fixpoint fetchPages (fuel : nat) (fetchPage : Z → L (res storedLogPage)) (after : Z)
    (records : list storedLogRecord) : L (option (res (list storedLogRecord))) :=
  match fuel with
  | O => Ret None
  | S fuel' =>
      got <- fetchPage after ;;
      match got with
      | Err err => Ret (Some (Err err))
      | Ok page =>
          let records := records ++ slp_Records page in
          if negb (slp_HasMore page) then Ret (Some (Ok records))
          else match last (slp_Records page) with
               | None => Ret (Some (Err (msg "Collector returned has_more=true without advancing the log cursor")))
               | Some r =>
                   if (slr_ID r <=? after)%Z
                   then Ret (Some (Err (msg "Collector returned has_more=true without advancing the log cursor")))
                   else fetchPages fuel' fetchPage (slr_ID r) records
               end
      end
  end.

Definition heading (phase : string) : L unit :=
  call (CliPrint ("===== " +:+ phase +:+ " =====" +:+ newline +:+ newline)).

Definition recordText (r : storedLogRecord) : string :=
  slr_Timestamp r +:+ ": " +:+ default (slr_Body r) (UnmarshalString (slr_Body r)).
Definition recordLine (r : storedLogRecord) : string := recordText r +:+ newline.

(** One record, after the heading of its phase when that changes. *)
Definition printRecord (phase : string) (r : storedLogRecord) (current : string) : L string :=
  let recordPhase := if String.eqb (slr_Phase r) "" then phase else slr_Phase r in
  current' <- (if negb (String.eqb recordPhase "") && negb (String.eqb recordPhase current) then
                 (if String.eqb current "" then Ret tt else printLine "") ;;;
                 heading recordPhase ;;; Ret recordPhase
               else Ret current) ;;
  printLine (recordText r) ;;;
  Ret current'.

Definition fetchAllStoredLogs (fuel : nat) (runUID phase : string)
    (fetchPage : Z → L (res storedLogPage)) : L (option (option error)) :=
  fetched <- fetchPages fuel fetchPage 0%Z [] ;;
  match fetched with
  | None => Ret None
  | Some (Err err) => Ret (Some (Some err))
  | Some (Ok records) =>
      call (CliPrint ("agentic_run_id: " +:+ runUID +:+ newline +:+ "records: "
                      +:+ Itoa (Z.of_nat (List.length records)) +:+ newline +:+ "has_more: false"
                      +:+ newline +:+ newline)) ;;;
      (if String.eqb phase "" then Ret tt else heading phase) ;;;
      foldM records phase (printRecord phase) ;;;
      Ret (Some None)
  end.

Record LogsOptions := MkLogsOptions {
  go_namespace : string;
  go_name : string;
  go_step : string;
  go_follow : bool;
  go_stored : bool;
  go_adminEndpoint : string;
  go_insecure : bool;          (* [--insecure-skip-tls-verify] *)
}.

Definition logsValidate (o : LogsOptions) : option error :=
  if negb (String.eqb (go_step o) "") && negb (IsValidStep (go_step o)) then
    Some (msg ("invalid step " +:+ Quote (go_step o) +:+ ", must be one of: " +:+ Join validSandboxSteps ", "))
  else if go_stored o && go_follow o then Some (msg "--follow cannot be used with --stored")
  else None.

Definition resolveSandboxForStep (p : AgenticRun) (step : string) : option SandboxInfo :=
  let st := run_Steps p in
  if String.eqb step SandboxStepAnalysis then Some (step_Sandbox (steps_Analysis st))
  else if String.eqb step SandboxStepExecution then Some (step_Sandbox (steps_Execution st))
  else if String.eqb step SandboxStepVerification then Some (step_Sandbox (steps_Verification st))
  else None.

Definition resolveSandbox (step : string) (p : AgenticRun) : option SandboxInfo :=
  let st := run_Steps p in
  let latest :=
    if negb (String.eqb (sandbox_ClaimName (step_Sandbox (steps_Verification st))) "")
    then Some (step_Sandbox (steps_Verification st))
    else if negb (String.eqb (sandbox_ClaimName (step_Sandbox (steps_Execution st))) "")
    then Some (step_Sandbox (steps_Execution st))
    else if negb (String.eqb (sandbox_ClaimName (step_Sandbox (steps_Analysis st))) "")
    then Some (step_Sandbox (steps_Analysis st))
    else None in
  if String.eqb step "" then latest
  else
    let named := NormalizeStep step in
    if String.eqb named SandboxStepAnalysis then Some (step_Sandbox (steps_Analysis st))
    else if String.eqb named SandboxStepExecution then Some (step_Sandbox (steps_Execution st))
    else if String.eqb named SandboxStepVerification then Some (step_Sandbox (steps_Verification st))
    else latest.

Definition logsRun (fuel : nat) (o : LogsOptions) : L (option (option error)) :=
  got <- call (CliGetRun (MkNamespacedName (go_namespace o) (go_name o))) ;;
  match got with
  | Err err => Ret (Some (Some (wrapError ("failed to get run " +:+ Quote (go_name o)) err)))
  | Ok p =>
      if go_stored o then
        let phase := storedLogsPhase (go_step o) in
        if String.eqb (go_adminEndpoint o) "" then
          fetchAllStoredLogs fuel (run_UID p) phase (proxyPage (go_namespace o) (run_UID p) phase)
        else match validateAdminEndpoint (go_adminEndpoint o) with
             | Some err => Ret (Some (Some err))
             | None => fetchAllStoredLogs fuel (run_UID p) phase
                         (endpointPage (go_adminEndpoint o) (go_insecure o) (run_UID p) phase)
             end
      else
        let none := Ret (Some (Some (msg ("no sandbox found for run " +:+ Quote (go_name o)
                                          +:+ " (step: " +:+ go_step o +:+ ")")))) in
        match resolveSandbox (go_step o) p with
        | None => none
        | Some sandbox =>
            if String.eqb (sandbox_ClaimName sandbox) "" then none
            else
              let ns := if String.eqb (sandbox_Namespace sandbox) "" then go_namespace o
                        else sandbox_Namespace sandbox in
              stream <- call (CliPodLogs (MkNamespacedName ns (sandbox_ClaimName sandbox)) (go_follow o)) ;;
              match stream with
              | Err err =>
                  Ret (Some (Some (wrapError ("failed to stream logs from pod " +:+ ns +:+ "/"
                                              +:+ sandbox_ClaimName sandbox) err)))
              | Ok (lines, end_) =>
                  foldM lines tt (λ line _, printLine line) ;;; Ret (Some end_)
              end
        end
  end.

(** ** approve and deny ([approve.go], [deny.go])

    The names of stages are compared in lower case ([ToLower], exact for comparisons with
    ASCII names). *)
Definition normalizeStageType (s : string) : string :=
  let l := ToLower s in
  if String.eqb l "analysis" then ApprovalStageAnalysis
  else if String.eqb l "execution" then ApprovalStageExecution
  else if String.eqb l "verification" then ApprovalStageVerification
  else if String.eqb l "escalation" then ApprovalStageEscalation
  else s.

Definition stagesOf (a : AgenticRunApproval) : list ApprovalStage := approval_Stages (approval_Spec a).
Definition hasStage (typ : string) (a : AgenticRunApproval) : bool :=
  existsb (λ s, String.eqb (stage_Type s) typ) (stagesOf a).

Definition withStages (a : AgenticRunApproval) (stages : list ApprovalStage) : AgenticRunApproval :=
  MkAgenticRunApproval (approval_Meta a)
    (MkAgenticRunApprovalSpec (approval_Approver (approval_Spec a)) stages) (approval_Status a).

(** The stages in the order the commands go through them: whether the run has the
    step, its type and its name. *)
Definition stageTable (p : AgenticRun) : list (bool * string * string) :=
  let s := run_Spec p in
  [(negb (AgenticRunStep_IsZero (spec_Analysis s)), ApprovalStageAnalysis, "analysis");
   (negb (AgenticRunStep_IsZero (spec_Execution s)), ApprovalStageExecution, "execution");
   (negb (AgenticRunStep_IsZero (spec_Verification s)), ApprovalStageVerification, "verification");
   (bool_decide (phaseOf p = PhaseEscalating), ApprovalStageEscalation, "escalation")].

Definition pendingStages (p : AgenticRun) (a : AgenticRunApproval) : list string :=
  map snd (List.filter (λ '(configured, typ, _), configured && negb (hasStage typ a)) (stageTable p)).

Definition nextPendingStage (p : AgenticRun) (a : AgenticRunApproval) : string :=
  default "" (head (pendingStages p a)).

Record ApproveOptions := MkApproveOptions {
  ap_name : string;
  ap_stage : string;
  ap_option : Z;
  ap_agent : string;
  ap_all : bool;
  ap_wait : bool;
  ap_namespace : string;
}.

Definition stageNames : list string := ["analysis"; "execution"; "verification"; "escalation"].

Definition approveValidate (o : ApproveOptions) : option error :=
  if negb (ap_all o) && String.eqb (ap_stage o) "" then
    Some (msg "--stage is required (analysis, execution, verification, or escalation) unless --all is set")
  else if negb (String.eqb (ap_stage o) "") && negb (bool_decide (ToLower (ap_stage o) ∈ stageNames)) then
    Some (msg "--stage must be analysis, execution, verification, or escalation")
  else if (ap_option o <? 0)%Z then Some (msg "--option must be >= 0")
  else None.

Definition cliOwner (p : AgenticRun) : OwnerReference :=
  MkOwnerReference "agentic.openshift.io/v1alpha1" "AgenticRun" (run_Name p) (run_UID p) None None.

Definition approvalFor (namespace name : string) (p : AgenticRun) : AgenticRunApproval :=
  MkAgenticRunApproval
    (MkObjectMeta name namespace "" "" 0%Z 0%Z None ∅ ∅ [cliOwner p] [])
    (MkAgenticRunApprovalSpec zeroApprover []) [].

(** [getOrCreateApproval] calls itself when the object appears in between; [None] when
    [fuel] rounds were not enough. *)
Fixpoint getOrCreateApproval (fuel : nat) (namespace name : string) (p : AgenticRun)
    : L (option (res AgenticRunApproval)) :=
  match fuel with
  | O => Ret None
  | S fuel' =>
      got <- call (CliGetApproval (MkNamespacedName namespace name)) ;;
      match got with
      | Ok a => Ret (Some (Ok a))
      | Err err =>
          if negb (IsNotFound err) then
            Ret (Some (Err (wrapError "failed to get AgenticRunApproval" err)))
          else
            made <- call (CliCreateApproval (approvalFor namespace name p)) ;;
            match made with
            | Ok a => Ret (Some (Ok a))
            | Err err =>
                if IsAlreadyExists err then getOrCreateApproval fuel' namespace name p
                else Ret (Some (Err (wrapError "failed to create AgenticRunApproval" err)))
            end
      end
  end.

(** The refusal of a stage that is decided. *)
Definition decided (a : AgenticRunApproval) (typ stageName suffix : string) : option error :=
  match List.find (λ s, String.eqb (stage_Type s) typ) (stagesOf a) with
  | None => None
  | Some s =>
      Some (msg ("stage " +:+ stageName +:+
                 (if String.eqb (stage_Decision s) ApprovalDecisionDenied then " is already denied"
                  else " is already approved" +:+ suffix)))
  end.

(** The panic of [NewApprovalStage]. *)
Definition newStage (typ decision agent : string) (opt : option Z) : res ApprovalStage :=
  match NewApprovalStage typ decision agent opt with
  | Some s => Ok s
  | None => Err (panicError ("NewApprovalStage: unknown ApprovalStageType " +:+ typ))
  end.

(** The entries of the stages, before anything is written. *)
Fixpoint approvalEntries (o : ApproveOptions) (a : AgenticRunApproval) (stages : list string)
    : res (list ApprovalStage) :=
  match stages with
  | [] => Ok []
  | name :: stages' =>
      let typ := normalizeStageType name in
      match decided a typ name "" with
      | Some err => Err err
      | None =>
          match newStage typ "" (ap_agent o)
                  (if String.eqb typ ApprovalStageExecution then Some (ap_option o) else None) with
          | Err err => Err err
          | Ok entry => match approvalEntries o a stages' with
                        | Err err => Err err
                        | Ok entries => Ok (entry :: entries)
                        end
          end
      end
  end.

Definition approveWith (fuel : nat) (o : ApproveOptions) (p : AgenticRun) (a : AgenticRunApproval)
    : L (option (option error)) :=
  let stages := if ap_all o then pendingStages p a else [ap_stage o] in
  if (List.length stages =? 0)%nat then Ret (Some (Some (msg "no pending stages to approve")))
  else
    match approvalEntries o a stages with
    | Err err => Ret (Some (Some err))
    | Ok entries =>
        patched <- call (CliPatchApproval a (withStages a (stagesOf a ++ entries))) ;;
        match patched with
        | Err err => Ret (Some (Some (wrapError "failed to approve stages" err)))
        | Ok _ =>
            foldM stages tt (λ name _,
              printLine ("run/" +:+ ap_name o +:+ " stage " +:+ name +:+ " approved")) ;;;
            if ap_wait o then doWatch fuel (ap_namespace o) (ap_name o) else Ret (Some None)
        end
    end.

Definition approve (fuel : nat) (o : ApproveOptions) : L (option (option error)) :=
  got <- call (CliGetRun (MkNamespacedName (ap_namespace o) (ap_name o))) ;;
  match got with
  | Err err => Ret (Some (Some (wrapError ("failed to get run " +:+ Quote (ap_name o)) err)))
  | Ok p =>
      approval <- getOrCreateApproval fuel (ap_namespace o) (ap_name o) p ;;
      match approval with
      | None => Ret None
      | Some (Err err) => Ret (Some (Some err))
      | Some (Ok a) => approveWith fuel o p a
      end
  end.

Definition deny (namespace name stage : string) : L (option error) :=
  let key := MkNamespacedName namespace name in
  got <- call (CliGetRun key) ;;
  match got with
  | Err err => failed ("failed to get run " +:+ Quote name) err
  | Ok p =>
      got <- call (CliGetApproval key) ;;
      match got with
      | Err err => failed ("failed to get AgenticRunApproval " +:+ Quote name) err
      | Ok a =>
          let stageName := if String.eqb stage "" then nextPendingStage p a else stage in
          if String.eqb stageName "" then Ret (Some (msg "no pending stages to deny"))
          else
            let typ := normalizeStageType stageName in
            match decided a typ stageName ", cannot deny" with
            | Some err => Ret (Some err)
            | None =>
                match newStage typ ApprovalDecisionDenied "" None with
                | Err err => Ret (Some err)
                | Ok entry =>
                    patched <- call (CliPatchApproval a (withStages a (stagesOf a ++ [entry]))) ;;
                    match patched with
                    | Err err => failed ("failed to deny stage " +:+ stageName) err
                    | Ok _ =>
                        printLine ("run/" +:+ name +:+ " stage " +:+ stageName +:+ " denied") ;;;
                        Ret None
                    end
                end
            end
      end
  end.

(** ** cleanup ([cleanup.go]) *)
Definition validTerminalStates : list string :=
  ["completed"; "failed"; "denied"; "escalated"; "emergencystopped"].

Record CleanupOptions := MkCleanupOptions {
  co_allNamespaces : bool;
  co_states : string;
  co_olderThan : string;
  co_dryRun : bool;
  co_yes : bool;
  co_namespace : string;
}.

(** The filters [Validate] reads: the states, and the least age. *)
Record CleanupFilters := MkCleanupFilters {
  cf_states : option (list string);
  cf_olderThan : option Duration;
}.

(** [^(\d+)d$]: the digits. *)
Definition isDigit (c : ascii) : bool := inRange 48 57 c.
Fixpoint allDigits (s : string) : bool :=
  match s with EmptyString => true | String c s' => isDigit c && allDigits s' end.

(** The string without its last byte, when that byte is [c]. *)
Fixpoint cutSuffix (c : ascii) (s : string) : option string :=
  match s with
  | EmptyString => None
  | String a EmptyString => if Ascii.eqb a c then Some "" else None
  | String a s' => String a <$> cutSuffix c s'
  end.

Definition daysPattern (s : string) : option string :=
  match cutSuffix (byte 100) s with
  | Some digits => if allDigits digits && negb (String.eqb digits "") then Some digits else None
  | None => None
  end.

Definition Day : Duration := (24 * Hour)%Z.
Definition maxDurationDays : Z := (maxInt64 / Day)%Z.

(** [time.Duration(days) * 24 * time.Hour], at the width of an [int64]. *)
Definition daysDuration (days : Z) : Duration := wrap64 (wrap64 (days * 24) * Hour)%Z.

Definition parseDuration (s : string) : res Duration :=
  match daysPattern s with
  | Some digits =>
      match Atoi digits with
      | None => Err (msg ("strconv.Atoi: parsing " +:+ Quote digits +:+ ": value out of range"))
      | Some days =>
          if (maxDurationDays <? days)%Z then
            Err (msg ("value too large: max supported is " +:+ Itoa maxDurationDays +:+ "d"))
          else Ok (daysDuration days)
      end
  | None => ParseDuration s
  end.

(** The states of the flag: blank entries are dropped. *)
Fixpoint parseStates (parts : list string) : res (list string) :=
  match parts with
  | [] => Ok []
  | part :: parts' =>
      let s := TrimSpace (ToLower part) in
      if String.eqb s "" then parseStates parts'
      else if bool_decide (s ∈ validTerminalStates) then
        match parseStates parts' with Err err => Err err | Ok ss => Ok (s :: ss) end
      else Err (msg ("invalid state " +:+ Quote s +:+ ", must be one of: " +:+ Join validTerminalStates ", "))
  end.

Definition cleanupValidate (o : CleanupOptions) : res CleanupFilters :=
  let states :=
    if String.eqb (co_states o) "" then Ok None
    else match parseStates (Split (co_states o) (byte 44)) with
         | Err err => Err err
         | Ok ss => Ok (Some ss)
         end in
  match states with
  | Err err => Err err
  | Ok states =>
      if String.eqb (co_olderThan o) "" then Ok (MkCleanupFilters states None)
      else match parseDuration (co_olderThan o) with
           | Err err => Err (wrapError ("invalid --older-than value " +:+ Quote (co_olderThan o)) err)
           | Ok d => Ok (MkCleanupFilters states (Some d))
           end
  end.

(** A run of a terminal phase, of the states asked for. *)
Definition phaseMatches (f : CleanupFilters) (r : AgenticRun) : bool :=
  IsTerminalPhase (phaseOf r) &&
  match cf_states f with
  | None => true
  | Some ss => bool_decide (ToLower (phaseString (phaseOf r)) ∈ ss)
  end.

Definition matchRun (f : CleanupFilters) (r : AgenticRun) (matched : list AgenticRun)
    : L (list AgenticRun) :=
  if negb (phaseMatches f r) then Ret matched
  else match cf_olderThan f with
       | None => Ret (matched ++ [r])
       | Some d =>
           match status_TerminalTime (run_Status r) with
           | None =>
               call (CliPrintErr ("Warning: run/" +:+ run_Name r +:+
                 " has no terminalTime, skipping (--older-than requires terminalTime)" +:+ newline)) ;;;
               Ret matched
           | Some t =>
               now <- call CliNow ;;
               Ret (if (Time_Sub now t <? d)%Z then matched else matched ++ [r])
           end
       end.

Definition terminalAge (r : AgenticRun) : L string :=
  match status_TerminalTime (run_Status r) with
  | None => Ret "<none>"
  | Some t => HumanDurationSince t
  end.

Definition printRunsTable (all : bool) (items : list AgenticRun) : L unit :=
  printRuns all "TERMINAL-AGE" items terminalAge.

Definition number (xs : list AgenticRun) : string := Itoa (Z.of_nat (List.length xs)).

(** The prompt: [Ok true] goes on. *)
Definition confirm (all yes : bool) (matched : list AgenticRun) : L (res bool) :=
  if yes then Ret (Ok true)
  else
    printRunsTable all matched ;;;
    call (CliPrint (newline +:+ "This will permanently delete " +:+ number matched
                    +:+ " run(s) listed above. Continue? [y/N] ")) ;;;
    answer <- call CliReadLine ;;
    match answer with
    | Err err => Ret (Err (wrapError "failed to read input" err))
    | Ok text =>
        if foldEq (TrimSpace text) "y" then Ret (Ok true)
        else printLine "Aborted." ;;; Ret (Ok false)
    end.

Definition where_ (all : bool) (r : AgenticRun) : string :=
  if all then " -n " +:+ run_Namespace r else "".

(** The deletion of one run, and the counts of the deleted and the failed. *)
Definition deleteOne (all : bool) (r : AgenticRun) (counts : Z * Z) : L (Z * Z) :=
  let '(deleted, bad) := counts in
  e <- call (CliDeleteRun (run_Key r)) ;;
  match match e with Some err => IgnoreNotFound err | None => None end with
  | Some err =>
      call (CliPrintErr ("Warning: failed to delete run/" +:+ run_Name r +:+ where_ all r +:+ ": "
                         +:+ Error err +:+ newline)) ;;;
      Ret (deleted, bad + 1)%Z
  | None =>
      printLine ("run/" +:+ run_Name r +:+ " deleted" +:+ where_ all r) ;;; Ret (deleted + 1, bad)%Z
  end.

Definition deleteAll (all : bool) (matched : list AgenticRun) : L (option error) :=
  let! (deleted, bad) := foldM matched (0, 0)%Z (deleteOne all) in
  printLine ("Deleted " +:+ Itoa deleted +:+ " run(s).") ;;;
  Ret (if (0 <? bad)%Z then
         Some (msg ("failed to delete " +:+ Itoa bad +:+ " of " +:+ number matched +:+ " run(s)"))
       else None).

Definition cleanupRun (o : CleanupOptions) (f : CleanupFilters) : L (option error) :=
  let all := co_allNamespaces o in
  got <- call (CliListRuns (inNamespace all (co_namespace o))) ;;
  match got with
  | Err err => failed "failed to list agentic runs" err
  | Ok items =>
      found <- foldM items [] (matchRun f) ;;
      if (List.length found =? 0)%nat then
        printLine "No matching terminal runs found." ;;; Ret None
      else
        let matched := SortAgenticRunsByAge found in
        if co_dryRun o then
          printRunsTable all matched ;;;
          call (CliPrint (newline +:+ number matched +:+ " run(s) would be deleted (dry-run)." +:+ newline)) ;;;
          Ret None
        else
          go <- confirm all (co_yes o) matched ;;
          match go with
          | Err err => Ret (Some err)
          | Ok false => Ret None
          | Ok true => deleteAll all matched
          end
  end.

Definition cleanup (o : CleanupOptions) : L (option error) :=
  match cleanupValidate o with
  | Err err => Ret (Some err)
  | Ok f => cleanupRun o f
  end.

(** ** Ages *)
Lemma parseDigits_value s acc :
  allDigits s = true → (0 ≤ acc)%Z → ∃ n, parseDigits acc s = Some n ∧ (0 ≤ n)%Z.
Proof.
  revert acc. induction s as [|c s IH]; intros acc; cbn; [eauto|].
  intros [Hc Hs]%andb_true_iff Hacc. unfold digitOf. unfold isDigit in Hc. rewrite Hc.
  apply IH; [done|]. lia.
Qed.

Lemma Atoi_digits digits :
  allDigits digits = true → digits ≠ "" →
  ∃ n, parseDigits 0 digits = Some n ∧ (0 ≤ n)%Z ∧
    Atoi digits = if (n <=? maxInt64)%Z then Some n else None.
Proof.
  intros Hd Hne. destruct (parseDigits_value digits 0%Z Hd ltac:(lia)) as (n & Hn & Hpos).
  exists n. split; [done|]. split; [done|]. unfold Atoi. destruct digits as [|c s]; [done|].
  cbn in Hd. apply andb_true_iff in Hd as [Hc Hs]. unfold isDigit in Hc.
  assert (H45 : inRange 45 45 c = false ∧ inRange 43 43 c = false).
  { unfold inRange in *. apply andb_true_iff in Hc as [Hlo _]. apply Nat.leb_le in Hlo.
    split; apply andb_false_iff; right; apply Nat.leb_gt; lia. }
  destruct H45 as [-> ->]. rewrite Hn. unfold minInt64.
  replace (-9223372036854775808 <=? n)%Z with true by (symmetry; apply Z.leb_le; lia). done.
Qed.

(** An age in days is read exactly, whatever the number: up to 106751 days it is that
    many times 24 hours, without wrapping around; anything above, which an [int64]
    of nanoseconds cannot hold, is refused. *)
Theorem parseDuration_days s digits :
  daysPattern s = Some digits →
  ∃ n, parseDigits 0 digits = Some n ∧
    match parseDuration s with
    | Ok d => d = (n * Day)%Z ∧ (0 ≤ d ≤ maxInt64)%Z
    | Err _ => (maxInt64 < n * Day)%Z
    end.
Proof.
  intros Hp. unfold parseDuration. rewrite Hp. unfold daysPattern in Hp.
  destruct (cutSuffix _ s) as [ds|]; [|done].
  destruct (allDigits ds && negb (String.eqb ds "")) eqn:Hd; [|done]. injection Hp as ->. bool_hyps.
  destruct (Atoi_digits digits) as (n & Hn & Hpos & ->); [done..|]. exists n. split; [done|].
  unfold maxDurationDays, daysDuration, Day, Hour, maxInt64 in *. clear Hn.
  destruct (Z.leb_spec n 9223372036854775807); [|lia].
  change (9223372036854775807 `div` (24 * 3600000000000))%Z with 106751%Z.
  destruct (Z.ltb_spec 106751 n); [lia|].
  rewrite (wrap64_small (n * 24)), wrap64_small; unfold minInt64, maxInt64; lia.
Qed.

(** ** What the cleanup deletes *)
Definition noDelete (ev : event cliAnswer) : Prop :=
  match ev with Ev (CliDeleteRun _) _ => False | _ => True end.

Lemma printLine_noDelete text : emits noDelete (printLine text).
Proof. by apply (emits_call (R := cliAnswer) noDelete (CliPrint (text +:+ newline))). Qed.

Lemma HumanDurationSince_noDelete t : emits noDelete (HumanDurationSince t).
Proof. unfold HumanDurationSince. emits_walk done. Qed.

Lemma printRuns_noDelete all h items age :
  (∀ r, emits noDelete (age r)) → emits noDelete (printRuns all h items age).
Proof. intros H. unfold printRuns, runRows. repeat (first [apply H | emits_walk done]). Qed.

Lemma printRunsTable_noDelete all items : emits noDelete (printRunsTable all items).
Proof.
  apply printRuns_noDelete. intros r. unfold terminalAge.
  repeat (first [apply HumanDurationSince_noDelete | emits_walk done]).
Qed.

Lemma matchRun_noDelete f r matched : emits noDelete (matchRun f r matched).
Proof. unfold matchRun. emits_walk done. Qed.

(** The run is among those the user asked for: a terminal phase, of the states given,
    and old enough at a time the command read. *)
Definition asked (f : CleanupFilters) (tr : list (event cliAnswer)) (r : AgenticRun) : Prop :=
  IsTerminalPhase (phaseOf r) = true ∧
  (∀ ss, cf_states f = Some ss → ToLower (phaseString (phaseOf r)) ∈ ss) ∧
  (∀ d, cf_olderThan f = Some d → ∃ t now, status_TerminalTime (run_Status r) = Some t ∧
     Ev CliNow now ∈ tr ∧ (d ≤ Time_Sub now t)%Z).

Lemma asked_mono f tr tr' r : tr ⊆ tr' → asked f tr r → asked f tr' r.
Proof.
  intros Hs (H1 & H2 & H3). split; [done|]. split; [done|]. intros d Hd.
  destruct (H3 d Hd) as (t & now & ? & Hin & ?). exists t, now. split; [done|]. split; [by apply Hs|done].
Qed.

Lemma matchRun_run f r matched tr matched' :
  runs (matchRun f r matched) tr matched' →
  matched' = matched ∨ (matched' = matched ++ [r] ∧ asked f tr r).
Proof.
  unfold matchRun, phaseMatches. intros H.
  destruct (negb (IsTerminalPhase (phaseOf r) && _)) eqn:Hm; [apply runs_ret in H as [_ ->]; by left|].
  bool_hyps.
  assert (Hs : ∀ ss, cf_states f = Some ss → ToLower (phaseString (phaseOf r)) ∈ ss).
  { intros ss Hss. rewrite Hss in *. by bool_hyps. }
  destruct (cf_olderThan f) as [d|] eqn:Hd; cycle 1.
  { apply runs_ret in H as [-> ->]. right. split; [done|]. split; [done|]. split; [done|].
    intros d. by rewrite Hd. }
  destruct (status_TerminalTime (run_Status r)) as [t|] eqn:Ht; cycle 1.
  { run_call H u. apply runs_ret in H as [_ ->]. by left. }
  run_call H now. apply runs_ret in H as [-> ->].
  destruct (Z.ltb_spec (Time_Sub now t) d); [by left|]. right. split; [done|]. split; [done|].
  split; [done|]. intros d' Hd'. rewrite Hd in Hd'. injection Hd' as <-. exists t, now.
  split; [done|]. split; [left|lia].
Qed.

Lemma matchAll_run f items matched tr found :
  runs (foldM items matched (matchRun f)) tr found →
  ∀ r, r ∈ found → r ∈ matched ∨ (r ∈ items ∧ asked f tr r).
Proof.
  revert matched tr. induction items as [|x items IH]; intros matched tr H r Hr; cbn [foldM] in H.
  { apply runs_ret in H as [-> ->]. by left. }
  apply runs_bind in H as (t1 & m1 & t2 & -> & H1%matchRun_run & H).
  assert (Hs1 : t1 ⊆ t1 ++ t2) by (intros ev ?; apply elem_of_app; by left).
  assert (Hs2 : t2 ⊆ t1 ++ t2) by (intros ev ?; apply elem_of_app; by right).
  destruct (IH _ _ H r Hr) as [Hin|[Hin Ha]].
  - destruct H1 as [->|[-> Ha]]; [by left|].
    apply elem_of_app in Hin as [?|Hin]; [by left|]. apply list_elem_of_singleton in Hin. subst.
    right. split; [left|]. eapply asked_mono; [exact Hs1|exact Ha].
  - right. split; [by right|]. eapply asked_mono; [exact Hs2|exact Ha].
Qed.

(** The deletion of one run: one call, and a failure is counted unless the run is gone. *)
Lemma deleteOne_run all r counts tr counts' :
  runs (deleteOne all r counts) tr counts' →
  ∃ a tr', tr = Ev (CliDeleteRun (run_Key r)) a :: tr' ∧ Forall noDelete tr' ∧
    (snd counts' = snd counts ∧ match a with Some err => IgnoreNotFound err = None | None => True end ∨
     snd counts' = snd counts + 1)%Z.
Proof.
  unfold deleteOne. destruct counts as [deleted bad]. intros H. run_call H e.
  exists e. eexists. split; [done|].
  destruct (match e with Some err => IgnoreNotFound err | None => None end) eqn:He.
  - run_call H u. apply runs_ret in H as [-> ->]. split; [by repeat constructor|]. by right.
  - apply runs_bind in H as (t1 & u & t2 & -> & Hp%printLine_noDelete & [-> ->]%runs_ret).
    split; [by rewrite app_nil_r|]. left. split; [done|]. by destruct e.
Qed.

Lemma deleteAll_deletes all matched tr e :
  runs (deleteAll all matched) tr e →
  (∀ key a, Ev (CliDeleteRun key) a ∈ tr → ∃ r, r ∈ matched ∧ key = run_Key r) ∧
  (e = None → ∀ r, r ∈ matched → ∃ a, Ev (CliDeleteRun (run_Key r)) a ∈ tr ∧
     match a with Some err => IgnoreNotFound err = None | None => True end).
Proof.
  unfold deleteAll. intros (t1 & [deleted bad] & t2 & -> & H1 & H)%runs_bind.
  apply runs_bind in H as (t3 & u & t4 & -> & Hp%printLine_noDelete & [-> He]%runs_ret).
  rewrite app_nil_r.
  assert (Hloop : ∀ counts, runs (foldM matched counts (deleteOne all)) t1 (deleted, bad) →
    (snd counts ≤ bad)%Z ∧
    (∀ key a, Ev (CliDeleteRun key) a ∈ t1 → ∃ r, r ∈ matched ∧ key = run_Key r) ∧
    (bad = snd counts → ∀ r, r ∈ matched → ∃ a, Ev (CliDeleteRun (run_Key r)) a ∈ t1 ∧
       match a with Some err => IgnoreNotFound err = None | None => True end)).
  { clear. revert t1. induction matched as [|r rs IH]; intros t1 counts H; cbn [foldM] in H.
    { apply runs_ret in H as [-> <-]. split; [done|]. split; [by intros ? ? ?%elem_of_nil|].
      by intros _ ? ?%elem_of_nil. }
    apply runs_bind in H as (ta & counts' & tb & -> & (a & ta' & -> & Hn & Hc)%deleteOne_run & H).
    apply IH in H as (Hle & Hdel & Hall). split; [lia|]. split.
    - intros key x. cbn. rewrite elem_of_cons, elem_of_app. intros [Heq|[Hin|Hin]].
      + exists r. split; [left|].
        pose (keyOf (ev : event cliAnswer) := match ev with Ev (CliDeleteRun k) _ => Some k | _ => None end).
        apply (f_equal keyOf) in Heq. by injection Heq.
      + by apply (proj1 (Forall_forall _ _) Hn) in Hin.
      + destruct (Hdel _ _ Hin) as (r' & ? & ->). exists r'. split; [by right|done].
    - intros Hbad r' [->|Hin]%elem_of_cons.
      + exists a. split; [left|]. destruct Hc as [[_ ?]|?]; [done|lia].
      + destruct (Hall ltac:(lia) r' Hin) as (x & Hx & ?). exists x. split; [|done].
        right. apply elem_of_app. by right. }
  destruct (Hloop _ H1) as (Hle & Hdel & Hall). cbn in Hle, Hall. split.
  - intros key a [Hin|Hin]%elem_of_app; [by eapply Hdel|].
    by apply (proj1 (Forall_forall _ _) Hp) in Hin.
  - intros -> r Hr. destruct (Z.ltb_spec 0 bad); [done|].
    destruct (Hall ltac:(lia) r Hr) as (a & Ha & ?). exists a. split; [|done].
    apply elem_of_app. by left.
Qed.

Lemma confirm_run all yes matched tr go :
  runs (confirm all yes matched) tr go →
  Forall noDelete tr ∧
  (go = Ok true → yes = true ∨ ∃ text, Ev CliReadLine (Ok text) ∈ tr ∧ foldEq (TrimSpace text) "y" = true).
Proof.
  unfold confirm. destruct yes; [intros [-> ->]%runs_ret; split; [constructor|by left]|].
  intros (t1 & u & t2 & -> & Hp%printRunsTable_noDelete & H)%runs_bind.
  run_call H u1. run_call H reply. rewrite Forall_app.
  destruct reply as [text|err]; cycle 1.
  { apply runs_ret in H as [-> ->]. split; [split; [done|by repeat constructor]|done]. }
  destruct (foldEq _ _) eqn:Hy.
  - apply runs_ret in H as [-> ->]. split; [split; [done|by repeat constructor]|].
    intros _. right. exists text. split; [|done]. apply elem_of_app. right. right. left.
  - apply runs_bind in H as (t3 & u2 & t4 & -> & Hq%printLine_noDelete & [-> ->]%runs_ret).
    split; [|done]. split; [done|]. rewrite app_nil_r. by repeat constructor.
Qed.

(** C38: The batch cleanup deletes only runs of the list it was given that ended, in one of
    the states asked for and long enough ago; it deletes nothing on a dry run, and
    nothing without [--yes] unless the user answered the prompt with y. *)
Theorem cleanup_deletes_matching o f tr e :
  runs (cleanupRun o f) tr e →
  (∀ key a, Ev (CliDeleteRun key) a ∈ tr →
     (∃ items r, Ev (CliListRuns (inNamespace (co_allNamespaces o) (co_namespace o))) (Ok items) ∈ tr ∧
        r ∈ items ∧ key = run_Key r ∧ asked f tr r) ∧
     co_dryRun o = false ∧
     (co_yes o = true ∨ ∃ text, Ev CliReadLine (Ok text) ∈ tr ∧ foldEq (TrimSpace text) "y" = true)).
Proof.
  unfold cleanupRun. intros H key a Hin. run_call H got. destruct got as [items|err]; cycle 1.
  { unfold failed in H. apply runs_ret in H as [-> _]. by apply list_elem_of_singleton in Hin. }
  apply elem_of_cons in Hin as [?|Hin]; [done|].
  apply runs_bind in H as (t1 & found & t2 & -> & Hf & H).
  assert (Hn1 : Forall noDelete t1).
  { refine (emits_run _ _ _ _ Hf _). apply emits_foldM. intros. apply matchRun_noDelete. }
  apply elem_of_app in Hin as [Hin|Hin]; [by apply (proj1 (Forall_forall _ _) Hn1) in Hin|].
  pose proof (matchAll_run f items [] t1 found Hf) as Hm.
  destruct (_ =? 0)%nat.
  { apply runs_bind in H as (t3 & u & t4 & -> & Hp%printLine_noDelete & [-> _]%runs_ret).
    rewrite app_nil_r in Hin. by apply (proj1 (Forall_forall _ _) Hp) in Hin. }
  destruct (co_dryRun o) eqn:Hdry.
  { apply runs_bind in H as (t3 & u & t4 & -> & Hp%printRunsTable_noDelete & H).
    run_call H u1. apply runs_ret in H as [-> _].
    assert (Hall : Forall noDelete (t3 ++ [Ev (CliPrint (newline +:+ number (SortAgenticRunsByAge found)
      +:+ " run(s) would be deleted (dry-run)." +:+ newline)) u1])).
    { apply Forall_app. split; [done|by repeat constructor]. }
    by apply (proj1 (Forall_forall _ _) Hall) in Hin. }
  apply runs_bind in H as (t3 & go & t4 & -> & [Hn3 Hgo]%confirm_run & H).
  apply elem_of_app in Hin as [Hin|Hin]; [by apply (proj1 (Forall_forall _ _) Hn3) in Hin|].
  destruct go as [[]|err]; [|by apply runs_ret in H as [-> _]; apply elem_of_nil in Hin..].
  apply deleteAll_deletes in H as [Hdel _]. destruct (Hdel _ _ Hin) as (r & Hr & ->).
  split; [|split; [done|]].
  - exists items, r. split; [left|].
    unfold SortAgenticRunsByAge in Hr. rewrite merge_sort_Permutation in Hr.
    destruct (Hm r Hr) as [?%elem_of_nil|[Hi Ha]]; [done|]. split; [done|]. split; [done|].
    eapply asked_mono; [|done]. intros ev Hev. right. apply elem_of_app. by left.
  - destruct (Hgo eq_refl) as [?|(text & Ht & ?)]; [by left|]. right. exists text. split; [|done].
    right. apply elem_of_app. right. apply elem_of_app. by left.
Qed.

(** ** What approve and deny decide *)
Lemma hasStage_false typ a :
  hasStage typ a = false → Forall (λ s, stage_Type s ≠ typ) (stagesOf a).
Proof.
  unfold hasStage. intros H. apply Forall_forall. intros s Hs <-.
  apply not_true_iff_false in H. apply H. apply existsb_exists. exists s.
  by rewrite <- list_elem_of_In, String.eqb_refl.
Qed.

Lemma decided_spec a typ name suffix :
  match decided a typ name suffix with
  | None => hasStage typ a = false
  | Some e => hasStage typ a = true ∧ ∃ text, e = msg text
  end.
Proof.
  unfold decided, hasStage.
  destruct (List.find (λ s, String.eqb (stage_Type s) typ) (stagesOf a)) as [s|] eqn:Hf.
  - apply List.find_some in Hf as [Hin Hs]. split; [|eauto]. apply existsb_exists. eauto.
  - apply not_true_iff_false. intros (s & Hin & Hs)%existsb_exists.
    by rewrite (List.find_none _ _ Hf s Hin) in Hs.
Qed.

(** An entry that decides a stage as the user said. *)
Definition decides (o : ApproveOptions) (typ : string) (s : ApprovalStage) : Prop :=
  stage_Type s = typ ∧ stage_Decision s = "" ∧ armAgent typ s = Some (ap_agent o) ∧
  (typ = ApprovalStageExecution →
   stage_Execution s = Some (MkExecutionApproval (ap_agent o) (Some (ap_option o)))).

Lemma newStage_spec typ decision agent opt :
  match newStage typ decision agent opt with
  | Ok s => stage_Type s = typ ∧ stage_Decision s = decision ∧ armAgent typ s = Some agent ∧
            (typ = ApprovalStageExecution → stage_Execution s = Some (MkExecutionApproval agent opt))
  | Err e => (∃ text, e = panicError text) ∧
             typ ∉ [ApprovalStageAnalysis; ApprovalStageExecution; ApprovalStageVerification;
                    ApprovalStageEscalation]
  end.
Proof.
  unfold newStage, NewApprovalStage.
  repeat match goal with
    |- context [String.eqb ?a ?b] => destruct (String.eqb_spec a b) as [->|?]; [done|]
  end.
  split; [by eexists|]. rewrite !not_elem_of_cons, elem_of_nil. tauto.
Qed.

Lemma approvalEntries_spec o a stages :
  match approvalEntries o a stages with
  | Ok entries =>
      Forall2 (λ name s, decides o (normalizeStageType name) s ∧
                         hasStage (normalizeStageType name) a = false) stages entries
  | Err e => (∃ text, e = msg text) ∨
      ∃ name text, name ∈ stages ∧ e = panicError text ∧
        normalizeStageType name ∉ [ApprovalStageAnalysis; ApprovalStageExecution;
                                   ApprovalStageVerification; ApprovalStageEscalation]
  end.
Proof.
  induction stages as [|name stages IH]; cbn; [constructor|].
  pose proof (decided_spec a (normalizeStageType name) name "") as Hd.
  destruct (decided _ _ _ _) as [e|]; [destruct Hd as [_ ?]; by left|].
  set (opt := if String.eqb _ _ then _ else _).
  pose proof (newStage_spec (normalizeStageType name) "" (ap_agent o) opt) as Hn.
  destruct (newStage _ _ _ _) as [s|e]; cycle 1.
  { destruct Hn as [[text ->] ?]. right. exists name, text. split; [left|done]. }
  destruct (approvalEntries o a stages) as [entries|e]; cycle 1.
  { destruct IH as [?|(n & text & ? & ?)]; [by left|]. right. exists n, text. split; [by right|done]. }
  constructor; [|done]. split; [|done]. destruct Hn as (? & ? & ? & Hx).
  split; [done|]. split; [done|]. split; [done|]. intros Ht. unfold opt in Hx. rewrite Ht in *. by apply Hx.
Qed.

Section Appended.
Context (o : ApproveOptions) (a : AgenticRunApproval) (stages : list string)
  (entries : list ApprovalStage).
Hypothesis entriesOk : Forall2 (λ name s, decides o (normalizeStageType name) s ∧
  hasStage (normalizeStageType name) a = false) stages entries.

Let obj := withStages a (stagesOf a ++ entries).

Lemma appended_denied stage : isStageDenied (Some obj) stage = isStageDenied (Some a) stage.
Proof.
  unfold isStageDenied, approvalStages. cbn. rewrite existsb_app.
  replace (existsb _ entries) with false; [apply orb_false_r|].
  induction entriesOk as [|name s ns ss [(_ & Hd & _) _] Hok IH]; [done|]. cbn.
  rewrite Hd, andb_false_r. by apply IH.
Qed.

Lemma appended_approved policy stage :
  isStageApproved (Some obj) policy stage =
  isStageApproved (Some a) policy stage || bool_decide (stage ∈ map normalizeStageType stages).
Proof.
  unfold isStageApproved, approvalStages. cbn. rewrite existsb_app.
  replace (existsb _ entries) with (bool_decide (stage ∈ map normalizeStageType stages)).
  { fold (stagesOf a). destruct (existsb _ (stagesOf a)); [done|].
    destruct (bool_decide _); cbn; [by rewrite orb_true_r|by rewrite orb_false_r]. }
  clear obj. induction entriesOk as [|name s ns ss [(Ht & Hd & _) _] Hok IH]; [done|]. cbn.
  rewrite <- (IH Hok), Hd, Ht, andb_true_r. symmetry.
  destruct (String.eqb_spec (normalizeStageType name) stage) as [<-|Hne]; cbn.
  - symmetry. apply bool_decide_eq_true. left.
  - apply bool_decide_ext. rewrite elem_of_cons. naive_solver.
Qed.

Lemma appended_agent stage :
  stage ∈ map normalizeStageType stages →
  getStageOverrideAgent (Some obj) stage = ap_agent o ∧
  (stage = ApprovalStageExecution → getStageOption (Some obj) = ap_option o).
Proof.
  unfold getStageOverrideAgent, getStageOption, approvalStages. cbn. intros Hin.
  assert (Hno : Forall (λ s, stage_Type s ≠ stage) (stagesOf a)).
  { apply hasStage_false. clear obj.
    induction entriesOk as [|name s ns ss [_ Hh] Hok IH]; [by apply elem_of_nil in Hin|].
    cbn in Hin. apply elem_of_cons in Hin as [->|?]; [done|by apply IH]. }
  fold (stagesOf a). clear obj.
  induction Hno as [|s ss Hs _ IH]; cbn; cycle 1.
  { apply String.eqb_neq in Hs. rewrite Hs. cbn. destruct IH as [-> IH]. split; [done|].
    intros Heq. rewrite <- Heq, Hs. by apply IH. }
  induction entriesOk as [|name s ns ss [(Ht & _ & Ha & Hx) _] Hok IH]; [by apply elem_of_nil in Hin|].
  cbn in Hin |- *. destruct (String.eqb_spec (stage_Type s) stage) as [Heq|Hne]; cbn.
  - rewrite Ht in Heq. subst stage. rewrite Ha. split; [done|]. intros He. rewrite Ht, He.
    cbn. rewrite Hx by done. done.
  - apply elem_of_cons in Hin as [->|Hin]; [by rewrite Ht in Hne|]. destruct (IH Hok Hin) as [-> Ho].
    split; [done|]. intros ->. apply String.eqb_neq in Hne. rewrite Hne. by apply Ho.
Qed.
End Appended.

Definition noApprovalPatch (ev : event cliAnswer) : Prop :=
  match ev with Ev (CliPatchApproval _ _) _ => False | _ => True end.

Definition panics (e : option error) : Prop := ∃ text, e = Some (panicError text).

Lemma getOrCreateApproval_run fuel namespace name p tr x :
  runs (getOrCreateApproval fuel namespace name p) tr x →
  Forall noApprovalPatch tr ∧
  match x with
  | Some (Ok a) => Ev (CliGetApproval (MkNamespacedName namespace name)) (Ok a) ∈ tr ∨
                   Ev (CliCreateApproval (approvalFor namespace name p)) (Ok a) ∈ tr
  | Some (Err e) => ∃ prefix err, e = wrapError prefix err
  | None => True
  end.
Proof.
  revert tr. induction fuel as [|fuel IH]; intros tr H; cbn [getOrCreateApproval] in H.
  { apply runs_ret in H as [-> ->]. split; [constructor|done]. }
  run_call H got. destruct got as [a|err].
  { apply runs_ret in H as [-> ->]. split; [by repeat constructor|]. left. left. }
  destruct (negb (IsNotFound err)).
  { apply runs_ret in H as [-> ->]. split; [by repeat constructor|eauto]. }
  run_call H made. destruct made as [a|err'].
  { apply runs_ret in H as [-> ->]. split; [by repeat constructor|]. right. right. left. }
  destruct (IsAlreadyExists err').
  - apply IH in H as [Hn Hx]. split; [by repeat constructor|].
    destruct x as [[a|e]|]; [|done|done]. destruct Hx as [?|?]; [left|right]; by do 2 right.
  - apply runs_ret in H as [-> ->]. split; [by repeat constructor|eauto].
Qed.

Lemma watchLoop_emits fuel start lastPhase :
  emits noApprovalPatch (watchLoop fuel start lastPhase).
Proof.
  revert lastPhase. induction fuel as [|fuel IH]; intros lastPhase; cbn [watchLoop]; [emits_walk done|].
  repeat (first [apply IH | progress unfold printLine | emits_walk done]).
Qed.

Lemma doWatch_emits fuel namespace name : emits noApprovalPatch (doWatch fuel namespace name).
Proof.
  unfold doWatch. repeat (first [apply watchLoop_emits | progress unfold printLine | emits_walk done]).
Qed.

Lemma watchLoop_noPanic fuel start lastPhase tr e :
  runs (watchLoop fuel start lastPhase) tr (Some e) → ¬ panics e.
Proof.
  revert lastPhase tr. induction fuel as [|fuel IH]; intros lastPhase tr H; cbn [watchLoop] in H.
  { by apply runs_ret in H as [_ ?]. }
  run_call H ev. destruct ev as [[text| |conditions]|].
  - apply runs_ret in H as [_ [= ->]]. by intros [? [=]].
  - by eapply IH.
  - destruct (String.eqb _ lastPhase); [by eapply IH|]. run_call H now.
    apply runs_bind in H as (t1 & u & t2 & _ & _ & H).
    destruct (IsTerminalPhase _); [|by eapply IH]. apply runs_ret in H as [_ [= ->]]. by intros [? ?].
  - apply runs_ret in H as [_ [= ->]]. by intros [? ?].
Qed.

Lemma doWatch_noPanic fuel namespace name tr e :
  runs (doWatch fuel namespace name) tr (Some e) → ¬ panics e.
Proof.
  unfold doWatch. intros H. run_call H we. destruct we as [err|].
  - apply runs_ret in H as [_ [= ->]]. by intros [? [=]].
  - run_call H start. apply runs_bind in H as (t1 & u & t2 & _ & _ & H). by eapply watchLoop_noPanic.
Qed.

Definition askedStages (o : ApproveOptions) (p : AgenticRun) (a : AgenticRunApproval) : list string :=
  if ap_all o then pendingStages p a else [ap_stage o].

(** The decision appended for the stage of this name: undecided before, approved, with the
    agent the user gave and, for the execution, the option. *)
Definition entryFor (o : ApproveOptions) (base : AgenticRunApproval) (name : string)
    (s : ApprovalStage) : Prop :=
  let typ := normalizeStageType name in
  hasStage typ base = false ∧
  NewApprovalStage typ "" (ap_agent o)
    (if String.eqb typ ApprovalStageExecution then Some (ap_option o) else None) = Some s.

Lemma approvalEntries_for o a stages entries :
  approvalEntries o a stages = Ok entries → Forall2 (entryFor o a) stages entries.
Proof.
  revert entries. induction stages as [|name stages IH]; intros entries; cbn; [by intros [= <-]|].
  pose proof (decided_spec a (normalizeStageType name) name "") as Hd.
  destruct (decided _ _ _ _); [done|]. unfold newStage.
  destruct (NewApprovalStage _ _ _ _) as [s|] eqn:Hs; [|done].
  destruct (approvalEntries o a stages) as [es|]; [|done]. intros [= <-].
  constructor; [done|by apply IH].
Qed.

(** What the second half of approve writes. *)
Lemma approveWith_patch fuel o p a tr x base obj ans :
  runs (approveWith fuel o p a) tr x → Ev (CliPatchApproval base obj) ans ∈ tr →
  base = a ∧ ∃ entries, obj = withStages a (stagesOf a ++ entries) ∧
    Forall2 (entryFor o a) (askedStages o p a) entries ∧
    Forall2 (λ name s, decides o (normalizeStageType name) s ∧
                       hasStage (normalizeStageType name) a = false) (askedStages o p a) entries.
Proof.
  unfold approveWith. fold (askedStages o p a). intros H Hin.
  destruct (_ =? 0)%nat; [by apply runs_ret in H as [-> _]; apply elem_of_nil in Hin|].
  pose proof (approvalEntries_spec o a (askedStages o p a)) as He.
  destruct (approvalEntries _ _ _) as [entries|e] eqn:Hent;
    [|by apply runs_ret in H as [-> _]; apply elem_of_nil in Hin].
  apply approvalEntries_for in Hent. run_call H patched. apply elem_of_cons in Hin as [Heq|Hin].
  - pose (sent (ev : event cliAnswer) := match ev with Ev (CliPatchApproval b x) _ => Some (b, x) | _ => None end).
    apply (f_equal sent) in Heq. injection Heq as -> ->. eauto 6.
  - exfalso. destruct patched as [a'|err]; [|by apply runs_ret in H as [-> _]; apply elem_of_nil in Hin].
    apply runs_bind in H as (t1 & u & t2 & -> & Hp & H). apply elem_of_app in Hin as [Hin|Hin].
    + assert (Hn : Forall noApprovalPatch t1).
      { refine (emits_run _ _ _ _ Hp _). apply emits_foldM. intros. unfold printLine. emits_walk done. }
      by apply (proj1 (Forall_forall _ _) Hn) in Hin.
    + destruct (ap_wait o); [|by apply runs_ret in H as [-> _]; apply elem_of_nil in Hin].
      pose proof (emits_run _ _ _ _ H (doWatch_emits _ _ _)) as Hn.
      by apply (proj1 (Forall_forall _ _) Hn) in Hin.
Qed.

(** C14: Approving adds decisions and touches none.  A patch it sends is of the approval that
    was read or just created, in the namespace of the command, with its metadata, its
    approver, its status and its earlier entries as they were, and behind them one entry
    for each stage that was asked for, in that order: a stage that had no decision,
    approved, with the agent the user gave and, for the execution, the option.  So to a
    controller that reads this object the stages approved are exactly those approved
    before and those asked for, no denial appears or disappears, and for the new ones it
    reads the agent and the option of the user.  (The controller reads the approval in
    its own namespace: of a run elsewhere it never reads this object.) *)
Theorem approve_appends fuel o tr x base obj ans :
  runs (approve fuel o) tr x →
  Ev (CliPatchApproval base obj) ans ∈ tr →
  let key := MkNamespacedName (ap_namespace o) (ap_name o) in
  ∃ p entries, Ev (CliGetRun key) (Ok p) ∈ tr ∧
    (Ev (CliGetApproval key) (Ok base) ∈ tr ∨
     Ev (CliCreateApproval (approvalFor (ap_namespace o) (ap_name o) p)) (Ok base) ∈ tr) ∧
    approval_Meta obj = approval_Meta base ∧
    approval_Approver (approval_Spec obj) = approval_Approver (approval_Spec base) ∧
    approval_Status obj = approval_Status base ∧
    approval_Stages (approval_Spec obj) = approval_Stages (approval_Spec base) ++ entries ∧
    Forall2 (entryFor o base) (askedStages o p base) entries ∧
    (∀ stage, isStageDenied (Some obj) stage = isStageDenied (Some base) stage) ∧
    let stages := map normalizeStageType (askedStages o p base) in
    (∀ policy stage, isStageApproved (Some obj) policy stage =
       isStageApproved (Some base) policy stage || bool_decide (stage ∈ stages)) ∧
    (∀ stage, stage ∈ stages → getStageOverrideAgent (Some obj) stage = ap_agent o ∧
       (stage = ApprovalStageExecution → getStageOption (Some obj) = ap_option o)).
Proof.
  unfold approve. intros H Hin. run_call H got.
  destruct got as [p|err]; [|by apply runs_ret in H as [-> _]; apply list_elem_of_singleton in Hin].
  apply runs_bind in H as (t1 & y & t2 & -> & [Hn Hy]%getOrCreateApproval_run & H).
  apply elem_of_cons in Hin as [?|Hin]; [done|].
  apply elem_of_app in Hin as [Hin|Hin]; [by apply (proj1 (Forall_forall _ _) Hn) in Hin|].
  destruct y as [[a|e]|]; [|by apply runs_ret in H as [-> _]; apply elem_of_nil in Hin..].
  destruct (approveWith_patch _ _ _ _ _ _ _ _ _ H Hin) as (-> & entries & -> & Hf & He).
  exists p, entries. split_and!; try done; [left|..].
  - destruct Hy as [Hy|Hy]; [left|right]; right; apply elem_of_app; by left.
  - by eapply appended_denied.
  - intros policy stage. by eapply appended_approved.
  - intros stage Hs. by eapply appended_agent.
Qed.

Lemma normalizeStageType_known name :
  ToLower name ∈ stageNames →
  normalizeStageType name ∈ [ApprovalStageAnalysis; ApprovalStageExecution;
                             ApprovalStageVerification; ApprovalStageEscalation].
Proof.
  unfold normalizeStageType, stageNames. rewrite !elem_of_cons, elem_of_nil.
  intros [->|[->|[->|[->|[]]]]]; cbn; tauto.
Qed.

Lemma pendingStages_known p a : pendingStages p a ⊆ stageNames.
Proof.
  unfold pendingStages. intros name (((c & t) & n) & -> & Hin)%list_elem_of_fmap.
  apply list_elem_of_In, List.filter_In in Hin as [Hin _]. apply list_elem_of_In in Hin. cbn.
  unfold stageTable in Hin. rewrite !elem_of_cons, elem_of_nil in Hin.
  destruct Hin as [[= _ _ ->]|[[= _ _ ->]|[[= _ _ ->]|[[= _ _ ->]|[]]]]];
    unfold stageNames; rewrite !elem_of_cons; tauto.
Qed.

Lemma stageNames_lower name : name ∈ stageNames → ToLower name = name.
Proof.
  unfold stageNames. rewrite !elem_of_cons, elem_of_nil. by intros [->|[->|[->|[->|[]]]]].
Qed.

(** What a trace read of the run and of its approval. *)
Definition runsRead (tr : list (event cliAnswer)) : list (res AgenticRun) :=
  omap (λ ev : event cliAnswer, match ev with Ev (CliGetRun _) a => Some a | _ => None end) tr.
Definition approvalsRead (tr : list (event cliAnswer)) : list (res AgenticRunApproval) :=
  omap (λ ev : event cliAnswer, match ev with Ev (CliGetApproval _) a => Some a | _ => None end) tr.

Definition knownTypes : list string :=
  [ApprovalStageAnalysis; ApprovalStageExecution; ApprovalStageVerification; ApprovalStageEscalation].

Lemma approve_noPanic fuel o tr e :
  approveValidate o = None → runs (approve fuel o) tr (Some e) → ¬ panics e.
Proof.
  unfold approve. intros Hv H. run_call H got.
  destruct got as [p|err]; [|apply runs_ret in H as [_ [= ->]]; by intros [? [=]]].
  apply runs_bind in H as (t1 & y & t2 & -> & [_ Hy]%getOrCreateApproval_run & H).
  destruct y as [[a|e']|]; [|apply runs_ret in H as [_ [= ->]]; destruct Hy as (? & ? & ->); by intros [? [=]]
                            |by apply runs_ret in H as [_ ?]].
  unfold approveWith in H. fold (askedStages o p a) in H.
  destruct (_ =? 0)%nat; [apply runs_ret in H as [_ [= ->]]; by intros [? [=]]|].
  pose proof (approvalEntries_spec o a (askedStages o p a)) as He.
  destruct (approvalEntries _ _ _) as [entries|e'].
  - run_call H patched. destruct patched; [|apply runs_ret in H as [_ [= ->]]; by intros [? [=]]].
    apply runs_bind in H as (t3 & u & t4 & _ & _ & H).
    destruct (ap_wait o); [by eapply doWatch_noPanic|]. apply runs_ret in H as [_ [= ->]]. by intros [? ?].
  - apply runs_ret in H as [_ [= ->]]. destruct He as [[text ->]|(name & text & Hin & -> & Hno)];
      [by intros [? [=]]|].
    exfalso. apply Hno, normalizeStageType_known. unfold askedStages in Hin. destruct (ap_all o) eqn:Hall.
    + apply pendingStages_known in Hin. by rewrite stageNames_lower.
    + apply list_elem_of_singleton in Hin as ->. unfold approveValidate in Hv. rewrite Hall in Hv. cbn in Hv.
      destruct (String.eqb (ap_stage o) ""); [done|]. cbn in Hv.
      destruct (decide (ToLower (ap_stage o) ∈ stageNames)) as [|Hn]; [done|].
      by rewrite bool_decide_eq_false_2 in Hv.
Qed.

(** What follows once deny has the run and the approval. *)
Lemma deny_run namespace name stage tr e :
  runs (deny namespace name stage) tr e →
  (∃ what err, e = Some (wrapError what err) ∧ (approvalsRead tr = [] ∨ ∃ x, approvalsRead tr = [Err x])) ∨
  ∃ p a rest, runsRead tr = [Ok p] ∧ approvalsRead tr = [Ok a] ∧
    tr = Ev (CliGetRun (MkNamespacedName namespace name)) (Ok p)
         :: Ev (CliGetApproval (MkNamespacedName namespace name)) (Ok a) :: rest ∧
    let stageName := if String.eqb stage "" then nextPendingStage p a else stage in
    let typ := normalizeStageType stageName in
    match newStage typ ApprovalDecisionDenied "" None with
    | Ok entry =>
        ¬ panics e ∧
        (rest = [] ∧ e ≠ None ∨
         hasStage typ a = false ∧ ∃ ans rest', Forall noApprovalPatch rest' ∧
           rest = Ev (CliPatchApproval a (withStages a (stagesOf a ++ [entry]))) ans :: rest' ∧
           (e = None ↔ ∃ a', ans = Ok a'))
    | Err err => rest = [] ∧ (panics e ↔ stageName ≠ "" ∧ hasStage typ a = false) ∧ e ≠ None
    end.
Proof.
  unfold deny. intros H. run_call H got. destruct got as [p|err]; cycle 1.
  { apply runs_ret in H as [-> ->]. left. do 2 eexists. split; [done|]. by left. }
  run_call H got. destruct got as [a|err]; cycle 1.
  { apply runs_ret in H as [-> ->]. left. do 2 eexists. split; [done|]. right. by eexists. }
  right. exists p, a. set (stageName := if String.eqb stage "" then _ else _) in *.
  set (typ := normalizeStageType stageName) in *.
  destruct (String.eqb_spec stageName "") as [He|Hne].
  { apply runs_ret in H as [-> ->]. exists []. split; [done|]. split; [done|]. split; [done|].
    destruct (newStage _ _ _ _).
    - split; [by intros [? [=]]|]. by left.
    - split; [done|]. split; [|done]. split; [by intros [? [=]]|]. by intros []. }
  pose proof (decided_spec a typ stageName ", cannot deny") as Hd.
  destruct (decided _ _ _ _) as [err|].
  { destruct Hd as [Hh [text ->]]. apply runs_ret in H as [-> ->]. exists [].
    split; [done|]. split; [done|]. split; [done|]. destruct (newStage _ _ _ _).
    - split; [by intros [? [=]]|]. by left.
    - split; [done|]. split; [|done]. split; [by intros [? [=]]|]. rewrite Hh. by intros []. }
  pose proof (newStage_spec typ ApprovalDecisionDenied "" None) as Hn.
  destruct (newStage _ _ _ _) as [entry|err]; cycle 1.
  { apply runs_ret in H as [-> ->]. exists []. split; [done|]. split; [done|]. split; [done|].
    split; [done|]. split; [|done]. destruct Hn as [[text ->] _]. split; [done|]. intros _. by eexists. }
  run_call H patched. destruct patched as [a'|err].
  - apply runs_bind in H as (t1 & u & t2 & -> & Hp & [-> ->]%runs_ret). unfold printLine in Hp.
    apply (runs_call (R := cliAnswer)) in Hp as ->. eexists. split; [done|]. split; [done|]. split; [done|].
    split; [by intros [? ?]|]. right. split; [done|]. do 2 eexists. split; [|split; [done|]]; [by repeat constructor|].
    split; [eauto|done].
  - apply runs_ret in H as [-> ->]. eexists. split; [done|]. split; [done|]. split; [done|].
    split; [by intros [? [=]]|]. right. split; [done|]. do 2 eexists. split; [|split; [done|]]; [constructor|].
    split; [done|by intros [? [=]]].
Qed.

(** C39: An unknown stage never makes approve panic, whose flags are validated first; deny
    has no such check: it panics exactly when the stage is not one of the four names,
    the run and its approval were read, and no entry of the approval has the stage as
    its type. *)
Theorem unknown_stage_panics :
  (∀ fuel o tr e, approveValidate o = None → runs (approve fuel o) tr (Some e) → ¬ panics e) ∧
  (∀ namespace name stage tr e, runs (deny namespace name stage) tr e →
     panics e ↔ stage ≠ "" ∧ normalizeStageType stage ∉ knownTypes ∧
       ∃ p a, runsRead tr = [Ok p] ∧ approvalsRead tr = [Ok a] ∧
              hasStage (normalizeStageType stage) a = false).
Proof.
  split; [exact approve_noPanic|].
  intros namespace name stage tr e [(what & err & -> & Ha)|(p & a & rest & Hp & Ha & _ & H)]%deny_run.
  { split; [by intros [? [=]]|]. intros (_ & _ & p & a & _ & Ha' & _). rewrite Ha' in Ha.
    by destruct Ha as [|[? ?]]. }
  cbv zeta in H. pose proof (newStage_spec (normalizeStageType (if String.eqb stage "" then nextPendingStage p a else stage))
    ApprovalDecisionDenied "" None) as Hn.
  assert (Hknown : stage = "" → nextPendingStage p a = "" ∨ normalizeStageType (nextPendingStage p a) ∈ knownTypes).
  { intros _. unfold nextPendingStage. pose proof (pendingStages_known p a) as Hs.
    destruct (pendingStages p a) as [|n ns]; cbn; [by left|]. right. apply normalizeStageType_known.
    rewrite stageNames_lower; apply Hs; left. }
  destruct (String.eqb_spec stage "") as [->|Hne].
  - specialize (Hknown eq_refl). split; [|by intros []]. intros Hpan. exfalso.
    destruct (newStage _ _ _ _) as [s|err]; [by destruct H|].
    destruct H as (_ & Hiff & _). apply Hiff in Hpan as [? _]. destruct Hn as [_ Hno].
    by destruct Hknown.
  - destruct (newStage _ _ _ _) as [s|err] eqn:Hs.
    + split; [by destruct H|]. intros (_ & Hno & _). exfalso. apply Hno.
      unfold newStage, NewApprovalStage in Hs. unfold knownTypes. rewrite !elem_of_cons.
      repeat match type of Hs with
        context [String.eqb ?x ?y] => destruct (String.eqb_spec x y) as [->|?]; [tauto|]
      end. done.
    + destruct H as (_ & -> & _). destruct Hn as [_ Hno]. split.
      * intros [_ Hh]. split; [done|]. split; [done|]. eauto.
      * intros (_ & _ & p' & a' & _ & Ha' & Hh). split; [done|]. rewrite Ha in Ha'. by injection Ha' as <-.
Qed.

(** Denying adds one refusal and touches nothing else: when deny reports no error, its one
    write is the approval it read with one denial appended, of a stage nothing had
    decided; to the controller exactly that stage is denied besides those that were,
    and what is approved stands. *)
Theorem deny_appends namespace name stage tr :
  runs (deny namespace name stage) tr None →
  ∃ p a, approvalsRead tr = [Ok a] ∧ runsRead tr = [Ok p] ∧
    let typ := normalizeStageType (if String.eqb stage "" then nextPendingStage p a else stage) in
    ∃ obj a', Ev (CliPatchApproval a obj) (Ok a') ∈ tr ∧
      (∀ base x ans, Ev (CliPatchApproval base x) ans ∈ tr → base = a ∧ x = obj) ∧
      hasStage typ a = false ∧ approval_Meta obj = approval_Meta a ∧
      (∀ s, isStageDenied (Some obj) s = isStageDenied (Some a) s || String.eqb s typ) ∧
      (∀ policy s, isStageApproved (Some obj) policy s = isStageApproved (Some a) policy s).
Proof.
  intros [(what & err & [=] & _)|(p & a & rest & Hp & Ha & -> & H)]%deny_run.
  exists p, a. split; [done|]. split; [done|]. cbv zeta in H |- *.
  set (typ := normalizeStageType _) in *.
  pose proof (newStage_spec typ ApprovalDecisionDenied "" None) as Hn.
  destruct (newStage typ _ _ _) as [entry|err]; [|by destruct H as (_ & _ & ?)].
  destruct H as [_ [[_ ?]|(Hh & ans & rest' & Hr & -> & Hok)]]; [done|].
  destruct (proj1 Hok eq_refl) as [a' ->]. destruct Hn as (Ht & Hd & _ & _).
  exists (withStages a (stagesOf a ++ [entry])), a'. split; [do 2 right; left|].
  split; [|split; [done|split; [done|split]]].
  - intros base x y Hin. rewrite !elem_of_cons in Hin. destruct Hin as [?|[?|[Heq|Hin]]]; [done|done| |].
    + pose (sent (ev : event cliAnswer) := match ev with Ev (CliPatchApproval b z) _ => Some (b, z) | _ => None end).
      apply (f_equal sent) in Heq. by injection Heq as -> ->.
    + by apply (proj1 (Forall_forall _ _) Hr) in Hin.
  - intros s. unfold isStageDenied, approvalStages. cbn. rewrite existsb_app. cbn.
    by rewrite Ht, Hd, String.eqb_refl, andb_true_r, orb_false_r, (String.eqb_sym s).
  - intros policy s. unfold isStageApproved, approvalStages. cbn. rewrite existsb_app. cbn.
    by rewrite Hd, String.eqb_refl, andb_false_r, !orb_false_r.
Qed.

(** ** What watch reads of a run *)
Definition statusText (s : ConditionStatus) : string :=
  match s with ConditionTrue => "True" | ConditionFalse => "False" | ConditionUnknown => "Unknown" end.

(** [json.Marshal] of a condition. *)
Definition conditionJSON (c : Condition) : Json :=
  JObject ([("type", JString (cond_Type c)); ("status", JString (statusText (cond_Status c)))]
           ++ omitEmpty (cond_ObservedGeneration c =? 0)%Z
                ("observedGeneration", JNumber (cond_ObservedGeneration c))
           ++ [("lastTransitionTime", JString (FormatRFC3339 (cond_LastTransitionTime c)));
               ("reason", JString (cond_Reason c)); ("message", JString (cond_Message c))]).

Lemma watchedCondition_JSON c :
  watchedCondition (conditionJSON c) =
  Some (NewCondition (cond_Type c) (cond_Status c) (cond_Reason c) "" 0%Z).
Proof.
  unfold watchedCondition, conditionJSON, stringMember, member, omitEmpty.
  by destruct (_ =? 0)%Z, (cond_Status c).
Qed.

Lemma watched_first cs typ :
  firstCondition (omap watchedCondition (map conditionJSON cs)) typ =
  (λ c, NewCondition (cond_Type c) (cond_Status c) (cond_Reason c) "" 0%Z) <$> firstCondition cs typ.
Proof.
  induction cs as [|c cs IH]; [done|].
  change (map conditionJSON (c :: cs)) with (conditionJSON c :: map conditionJSON cs).
  rewrite omap_cons, watchedCondition_JSON. cbn. by destruct (String.eqb (cond_Type c) typ).
Qed.

(** Watching a run shows the phase the controllers act on: reading the conditions back
    from the JSON of a run, of which it keeps the type, the status and the reason
    only, loses nothing the phase depends on. *)
Theorem watched_phase obj status cs :
  member "status" obj = Some status →
  member "conditions" status = Some (JArray (map conditionJSON cs)) →
  DerivePhase (extractConditions obj) = DerivePhase cs.
Proof.
  intros Hs Hc. unfold extractConditions, watchedSlice. rewrite Hs, Hc, !DerivePhase_view.
  unfold statusOf, noActionRequired. rewrite !watched_first.
  repeat match goal with |- context [firstCondition cs ?t] => destruct (firstCondition cs t) end; done.
Qed.

(** ** The stored logs *)

(** A log store that keeps its records in the order of their identifiers and hands out
    the next [n] of them after a cursor. *)
Definition after (cursor : Z) (store : list storedLogRecord) : list storedLogRecord :=
  List.filter (λ r, (cursor <? slr_ID r)%Z) store.
Definition pageOf (n : nat) (store : list storedLogRecord) (cursor : Z) : storedLogPage :=
  MkStoredLogPage (firstn n (after cursor store)) (n <? List.length (after cursor store))%nat.
Definition cursorOf (q : logsQuery) : Z := default 0%Z (lq_after q).
Definition served (n : nat) (store : list storedLogRecord) (ev : event cliAnswer) : Prop :=
  match ev with
  | Ev (CliProxyPage _ query) a => a = Ok (Ok (pageOf n store (cursorOf query)))
  | Ev (CliHTTPPage _ query _) a =>
      ∃ status body, a = Ok (MkHttpPage 200 status body (Ok (pageOf n store (cursorOf query))))
  | _ => True
  end.

(** Both ways of asking hand on what such a store answers. *)
Definition fetches (n : nat) (store : list storedLogRecord) (fetchPage : Z → L (res storedLogPage)) : Prop :=
  ∀ cursor tr x, (0 ≤ cursor)%Z → Forall (served n store) tr → runs (fetchPage cursor) tr x →
    x = Ok (pageOf n store cursor).

Lemma cursorOf_query runUID phase cursor :
  (0 ≤ cursor)%Z → cursorOf (queryOf runUID phase cursor) = cursor.
Proof. unfold cursorOf, queryOf. cbn. destruct (Z.ltb_spec 0 cursor); cbn; [done|lia]. Qed.

Lemma proxyPage_fetches n store namespace runUID phase :
  fetches n store (proxyPage namespace runUID phase).
Proof.
  intros cursor tr x Hc Htr H. unfold proxyPage in H. run_call H got. apply Forall_cons in Htr as [Hg _].
  cbn -[cursorOf] in Hg. rewrite cursorOf_query in Hg by done. subst got. by apply runs_ret in H as [_ ->].
Qed.

Lemma endpointPage_fetches n store endpoint insecure runUID phase :
  fetches n store (endpointPage endpoint insecure runUID phase).
Proof.
  intros cursor tr x Hc Htr H. unfold endpointPage in H. run_call H got. apply Forall_cons in Htr as [Hg _].
  cbn -[cursorOf] in Hg. rewrite cursorOf_query in Hg by done. destruct Hg as (status & body & ->).
  by apply runs_ret in H as [_ ->].
Qed.

Definition byID (a b : storedLogRecord) : Prop := (slr_ID a < slr_ID b)%Z.

Lemma after_all store : Forall (λ r, (0 < slr_ID r)%Z) store → after 0 store = store.
Proof.
  induction 1 as [|r store Hr _ IH]; cbn; [done|]. apply Z.ltb_lt in Hr. rewrite Hr. by f_equal.
Qed.

(** The records after one of them, in order. *)
Lemma after_app pre r post :
  StronglySorted byID (pre ++ r :: post) → after (slr_ID r) (pre ++ r :: post) = post.
Proof.
  induction pre as [|x pre IH]; cbn; intros [Hs Hall]%StronglySorted_inv.
  - rewrite Z.ltb_irrefl. clear Hs. induction Hall as [|y ys Hy _ IH]; cbn; [done|].
    unfold byID in Hy. apply Z.ltb_lt in Hy. rewrite Hy. by f_equal.
  - rewrite Forall_app, Forall_cons in Hall. destruct Hall as (_ & Hr & _). unfold byID in Hr.
    destruct (Z.ltb_spec (slr_ID r) (slr_ID x)); [lia|]. by apply IH.
Qed.

Lemma after_sorted cursor store :
  StronglySorted byID store → ∃ pre, store = pre ++ after cursor store ∧
    Forall (λ r, (cursor < slr_ID r)%Z) (after cursor store).
Proof.
  induction 1 as [|r store Hs [pre [Heq IH]] Hall]; [exists []; split; [done|constructor]|]. cbn.
  destruct (Z.ltb_spec cursor (slr_ID r)).
  - exists []. assert (Hafter : after cursor store = store).
    { clear -Hall H. induction Hall as [|y ys Hy _ IH]; cbn; [done|]. unfold byID in Hy.
      destruct (Z.ltb_spec cursor (slr_ID y)); [by f_equal|lia]. }
    unfold after in Hafter. rewrite Hafter. split; [done|]. constructor; [done|]. eapply Forall_impl; [exact Hall|]. unfold byID. lia.
  - exists (r :: pre). split; [|done]. cbn. by f_equal.
Qed.

Lemma fetchPages_run n store fetchPage fuel cursor records tr x :
  (0 < n)%nat → StronglySorted byID store → fetches n store fetchPage → (0 ≤ cursor)%Z →
  Forall (served n store) tr → runs (fetchPages fuel fetchPage cursor records) tr x →
  (List.length (after cursor store) < fuel)%nat →
  x = Some (Ok (records ++ after cursor store)).
Proof.
  intros Hn Hsort Hfetch. revert cursor records tr.
  induction fuel as [|fuel IH]; intros cursor records tr Hc Htr H Hfuel; [lia|]. cbn [fetchPages] in H.
  apply runs_bind in H as (t1 & got & t2 & -> & Hgot & H). apply Forall_app in Htr as [Ht1 Htr].
  apply Hfetch in Hgot as ->; [|done..]. unfold pageOf in H. cbn [slp_HasMore slp_Records] in H.
  destruct (Nat.ltb_spec n (List.length (after cursor store))) as [Hmore|Hless]; cbn [negb] in H; cycle 1.
  { apply runs_ret in H as [_ ->]. by rewrite firstn_all2. }
  destruct (after_sorted cursor store Hsort) as (pre & Hstore & Hgt).
  set (l := after cursor store) in *.
  destruct (last (firstn n l)) as [r|] eqn:Hlast; cycle 1.
  { apply last_None in Hlast. apply (f_equal List.length) in Hlast.
    rewrite firstn_length_le in Hlast by lia. cbn in Hlast. lia. }
  apply last_Some in Hlast as [front Hfront].
  assert (Hl : l = front ++ r :: skipn n l).
  { rewrite <- (firstn_skipn n l) at 1. rewrite Hfront. by rewrite <- app_assoc. }
  assert (Hr : (cursor < slr_ID r)%Z).
  { apply (proj1 (Forall_forall _ _) Hgt). rewrite Hl. apply elem_of_app. right. left. }
  destruct (Z.leb_spec (slr_ID r) cursor); [lia|].
  assert (Hafter : after (slr_ID r) store = skipn n l).
  { rewrite Hstore, Hl, app_assoc at 1. rewrite after_app; [done|].
    by rewrite <- app_assoc, <- Hl, <- Hstore. }
  eapply IH in H; [|lia|done|].
  - rewrite H, Hafter, <- app_assoc. by rewrite firstn_skipn.
  - rewrite Hafter, length_skipn. lia.
Qed.

Lemma printRecords_run phase store current tr x r :
  runs (foldM store current (printRecord phase)) tr x → r ∈ store → Ev (CliPrint (recordLine r)) tt ∈ tr.
Proof.
  revert current tr. induction store as [|y ys IH]; intros current tr H Hr; [by apply elem_of_nil in Hr|].
  cbn [foldM] in H. apply runs_bind in H as (t1 & c & t2 & -> & H1 & H).
  apply elem_of_app. apply elem_of_cons in Hr as [<-|Hr]; [left|right; by eapply IH].
  unfold printRecord in H1. apply runs_bind in H1 as (t3 & c' & t4 & -> & _ & H1).
  apply runs_bind in H1 as (t5 & u & t6 & -> & Hp & _). apply elem_of_app. right. apply elem_of_app. left.
  unfold printLine in Hp. apply (runs_call (R := cliAnswer)) in Hp as ->. destruct u. left.
Qed.

(** C37: Reading the stored logs of a run ends, with every record of the store in its order
    and none twice, however the store splits them into pages and whichever way it is
    asked: as many requests as there are records and one more are always enough. *)
Theorem storedLogs_complete n store fuel runUID phase fetchPage tr x :
  (∃ namespace, fetchPage = proxyPage namespace runUID phase) ∨
  (∃ endpoint insecure, fetchPage = endpointPage endpoint insecure runUID phase) →
  (0 < n)%nat → StronglySorted byID store → Forall (λ r, (0 < slr_ID r)%Z) store →
  Forall (served n store) tr → (List.length store < fuel)%nat →
  runs (fetchAllStoredLogs fuel runUID phase fetchPage) tr x →
  x = Some None ∧
  ∃ pages printed, tr = pages ++ printed ∧ runs (fetchPages fuel fetchPage 0%Z []) pages (Some (Ok store)) ∧
    ∀ r, r ∈ store → Ev (CliPrint (recordLine r)) tt ∈ printed.
Proof.
  intros Hway Hn Hsort Hpos Htr Hfuel (t1 & y & t2 & -> & Hf & H)%runs_bind.
  assert (Hfetch : fetches n store fetchPage).
  { destruct Hway as [[? ->]|(? & ? & ->)]; [apply proxyPage_fetches|apply endpointPage_fetches]. }
  apply Forall_app in Htr as [Ht1 _].
  assert (y = Some (Ok store)) as ->.
  { rewrite <- (after_all store Hpos). change (after 0 store) with ([] ++ after 0 store).
    eapply fetchPages_run; [done..|]. by rewrite after_all. }
  run_call H u. apply runs_bind in H as (t3 & u1 & t4 & -> & _ & H).
  apply runs_bind in H as (t5 & u2 & t6 & -> & Hp & [-> ->]%runs_ret).
  split; [done|]. do 2 eexists. split; [done|]. split; [done|]. intros r Hr.
  right. apply elem_of_app. right. rewrite app_nil_r. by eapply printRecords_run.
Qed.

End CliRun.
