(* ===== verification/CliSystem.v ===== *)
(** The commands on the whole system ([cli/system]): suspend, resume and status, as
    programs over the calls of the command line.

    Building the client and the flags is not modelled. *)
From stdpp Require Import base list option strings gmap.
From Stdlib Require Import ZArith Lia Ascii String.
From S2P Require Import Prelude GoText Json Clock ApiMachinery Types Phase Effects Approval Helpers SuspensionInventory OLSConfig CliRun.

Local Open Scope string_scope.
Local Open Scope list_scope.
Local Open Scope prog_scope.

Definition configName : string := "cluster".

Section CliSystem.
Context `{K : ApiMachinery} `{SUL : SuspensionLibs}.

Definition getConfig : L (res AgenticOLSConfig) := call (CliGetConfig configName).

Definition notInstalled : error :=
  msg "agentic system is not installed (AgenticOLSConfig CRD not found)".

Definition withSuspended (c : AgenticOLSConfig) (suspended : bool) : AgenticOLSConfig :=
  MkAgenticOLSConfig (config_Meta c) suspended (config_Conditions c).

(** ** suspend ([suspend.go]) *)
Definition confirmSuspend (yes : bool) : L (res bool) :=
  if yes then Ret (Ok true)
  else
    call (CliPrint ("All agentic operations will be halted and in-flight runs will be terminated. "
                    +:+ "Continue? [y/N] ")) ;;;
    reply <- call CliReadLine ;;
    match reply with
    | Err err => Ret (Err (wrapError "failed to read input" err))
    | Ok text =>
        if foldEq (TrimSpace text) "y" then Ret (Ok true)
        else printLine "Aborted." ;;; Ret (Ok false)
    end.

Definition newConfig : AgenticOLSConfig :=
  MkAgenticOLSConfig (MkObjectMeta configName "" "" "" 0%Z 0%Z None ∅ ∅ [] []) true [].

(** The configuration that is there: suspended already, or patched. *)
Definition suspendConfig (cfg : AgenticOLSConfig) : L (option error) :=
  if config_Suspended cfg then printLine "Agentic system is already suspended." ;;; Ret None
  else
    patched <- call (CliPatchConfig cfg (withSuspended cfg true)) ;;
    match patched with
    | Err err => failed "failed to patch AgenticOLSConfig" err
    | Ok _ => printLine "Agentic system suspended." ;;; Ret None
    end.

Definition suspend (yes : bool) : L (option error) :=
  go <- confirmSuspend yes ;;
  match go with
  | Err err => Ret (Some err)
  | Ok false => Ret None
  | Ok true =>
      got <- getConfig ;;
      match got with
      | Ok cfg => suspendConfig cfg
      | Err err =>
          if IsNoMatchError err then Ret (Some notInstalled)
          else if IsNotFound err then
            made <- call (CliCreateConfig newConfig) ;;
            match made with
            | Ok _ => printLine "Agentic system suspended." ;;; Ret None
            | Err createErr =>
                if negb (IsAlreadyExists createErr) then
                  failed "failed to create AgenticOLSConfig" createErr
                else
                  again <- getConfig ;;
                  match again with
                  | Err err => failed "failed to get AgenticOLSConfig after conflict" err
                  | Ok cfg => suspendConfig cfg
                  end
            end
          else failed "failed to get AgenticOLSConfig" err
      end
  end.

(** ** resume ([resume.go]) *)
Definition quote : string := bytes [34].
Definition resumePatch : string :=
  "{" +:+ quote +:+ "spec" +:+ quote +:+ ":{" +:+ quote +:+ "suspended" +:+ quote +:+ ":false}}".

Definition resume : L (option error) :=
  got <- getConfig ;;
  match got with
  | Err err =>
      if IsNoMatchError err then Ret (Some notInstalled)
      else if IsNotFound err then
        printLine "Agentic system is not suspended (no AgenticOLSConfig found)." ;;; Ret None
      else failed "failed to get AgenticOLSConfig" err
  | Ok cfg =>
      if negb (config_Suspended cfg) then printLine "Agentic system is not suspended." ;;; Ret None
      else
        patched <- call (CliMergePatchConfig cfg resumePatch) ;;
        match patched with
        | Err err => failed "failed to patch AgenticOLSConfig" err
        | Ok _ => printLine "Agentic system resumed." ;;; Ret None
        end
  end.

(** ** status ([status.go]) *)
(** [int(d.Seconds())] and the like: the whole units of a duration that is not negative
    (beyond 2^53 ns the source's [float64] may round the last nanoseconds up). *)
Definition formatDuration (d : Duration) : string :=
  if (d <? Minute)%Z then Itoa (d / Second) +:+ "s"
  else if (d <? Hour)%Z then Itoa (d / Minute) +:+ "m"
  else if (d <? 24 * Hour)%Z then Itoa (d / Hour) +:+ "h"
  else Itoa (d / (24 * Hour)) +:+ "d".

Definition formatConditionTimes (lastTransition now : Time) : string * string :=
  if Time_IsZero lastTransition then ("unknown", "unknown")
  else
    let elapsed := Time_Sub now lastTransition in
    (formatDuration (if (elapsed <? 0)%Z then 0%Z else elapsed), FormatRFC3339 lastTransition).

Definition unconfirmed (why : string) : string := "Resumption safety: unconfirmed (" +:+ why +:+ ")".
Definition confirmedText : string := "Resumption safety: confirmed".

Definition formatResumeSafety (generation : Z) (suspended safety : option Condition) : string :=
  match suspended with
  | None => unconfirmed "current Suspended condition is missing"
  | Some s =>
      if negb (cond_ObservedGeneration s =? generation)%Z then
        unconfirmed ("Suspended observed generation " +:+ Itoa (cond_ObservedGeneration s)
                     +:+ "; current generation " +:+ Itoa generation)
      else if negb (bool_decide (cond_Status s = ConditionTrue)) then
        unconfirmed ("Suspended status is " +:+ statusString (cond_Status s))
      else if negb (String.eqb (cond_Reason s) "AdminActivated")
              && negb (String.eqb (cond_Reason s) "AdminActivatedWithErrors") then
        unconfirmed ("Suspended reason is " +:+ cond_Reason s)
      else
        match safety with
        | None => unconfirmed "SafeToResume condition is missing"
        | Some c =>
            if negb (cond_ObservedGeneration c =? generation)%Z then
              unconfirmed ("SafeToResume observed generation " +:+ Itoa (cond_ObservedGeneration c)
                           +:+ "; current generation " +:+ Itoa generation)
            else if bool_decide (cond_Status c = ConditionTrue) then confirmedText
            else if negb (String.eqb (cond_Reason c) "") && negb (String.eqb (cond_Message c) "") then
              unconfirmed (cond_Reason c +:+ ": " +:+ cond_Message c)
            else if negb (String.eqb (cond_Message c) "") then unconfirmed (cond_Message c)
            else unconfirmed (statusString (cond_Status c))
        end
  end.

Definition configGeneration (c : AgenticOLSConfig) : Z := meta_Generation (config_Meta c).

Definition suspendedHeadline (cfg : AgenticOLSConfig) (suspendedCond : option Condition) : L string :=
  match suspendedCond with
  | Some s =>
      if bool_decide (cond_Status s = ConditionTrue)
         && (cond_ObservedGeneration s =? configGeneration cfg)%Z then
        now <- call CliNow ;;
        let '(relative, absolute) := formatConditionTimes (cond_LastTransitionTime s) now in
        Ret (if String.eqb (cond_Reason s) "Stopping" then
               "Agentic System: SUSPENDED (stopping, " +:+ cond_Message s +:+ ")"
             else if String.eqb (cond_Reason s) "AdminActivatedWithErrors" then
               "Agentic System: SUSPENDED (completed with errors, since " +:+ relative +:+ " ago, "
               +:+ absolute +:+ ", " +:+ cond_Message s +:+ ")"
             else
               "Agentic System: SUSPENDED (since " +:+ relative +:+ " ago, " +:+ absolute +:+ ", "
               +:+ cond_Message s +:+ ")")
      else Ret "Agentic System: SUSPENDED"
  | None => Ret "Agentic System: SUSPENDED"
  end.

Definition status : L (option error) :=
  got <- getConfig ;;
  match got with
  | Err err =>
      if IsNotFound err then printLine "Agentic System: Active" ;;; Ret None
      else if IsNoMatchError err then Ret (Some notInstalled)
      else failed "failed to get AgenticOLSConfig" err
  | Ok cfg =>
      let suspendedCond := FindStatusCondition (config_Conditions cfg) AgenticOLSConfigConditionSuspended in
      let safetyCond := FindStatusCondition (config_Conditions cfg) AgenticOLSConfigConditionSafeToResume in
      if config_Suspended cfg then
        headline <- suspendedHeadline cfg suspendedCond ;;
        printLine headline ;;;
        printLine (formatResumeSafety (configGeneration cfg) suspendedCond safetyCond) ;;;
        Ret None
      else
        match suspendedCond with
        | Some s =>
            if String.eqb (cond_Reason s) "AdminDeactivated" then
              now <- call CliNow ;;
              let '(relative, absolute) := formatConditionTimes (cond_LastTransitionTime s) now in
              printLine ("Agentic System: Active (resumed " +:+ relative +:+ " ago, " +:+ absolute +:+ ")") ;;;
              Ret None
            else printLine "Agentic System: Active" ;;; Ret None
        | None => printLine "Agentic System: Active" ;;; Ret None
        end
  end.

(** ** What the commands promise *)
Definition configWrite (ev : event cliAnswer) : Prop :=
  match ev with
  | Ev (CliCreateConfig _) _ | Ev (CliPatchConfig _ _) _ | Ev (CliMergePatchConfig _ _) _ => True
  | _ => False
  end.

Definition noConfigWrite (ev : event cliAnswer) : Prop := ¬ configWrite ev.

(** A write of the suspend command: a new configuration, or the one that was read with
    nothing but the switch changed. *)
Definition suspendWrite (ev : event cliAnswer) : Prop :=
  match ev with
  | Ev (CliCreateConfig obj) _ => obj = newConfig
  | Ev (CliPatchConfig base obj) _ => config_Suspended base = false ∧ obj = withSuspended base true
  | Ev (CliMergePatchConfig _ _) _ => False
  | _ => True
  end.

(** The system is suspended at the end: it was, or the server accepted the switch. *)
Definition suspendedBy (ev : event cliAnswer) : Prop :=
  match ev with
  | Ev (CliGetConfig _) (Ok cfg) => config_Suspended cfg = true
  | Ev (CliCreateConfig obj) (Ok _) | Ev (CliPatchConfig _ obj) (Ok _) => config_Suspended obj = true
  | _ => False
  end.

Definition saidYes (tr : list (event cliAnswer)) : Prop :=
  ∃ text, Ev CliReadLine (Ok text) ∈ tr ∧ foldEq (TrimSpace text) "y" = true.

Lemma printed text tr u : runs (printLine text) tr u → tr = [Ev (CliPrint (text +:+ newline)) tt].
Proof. unfold printLine. intros H. apply (runs_call (R := cliAnswer)) in H as ->. by destruct u. Qed.

Lemma confirmSuspend_run yes tr go :
  runs (confirmSuspend yes) tr go →
  Forall noConfigWrite tr ∧ (go = Ok true → yes = true ∨ saidYes tr) ∧ (go = Ok false → ¬ saidYes tr ∧ yes = false).
Proof.
  unfold confirmSuspend. destruct yes; [intros [-> ->]%runs_ret; split; [constructor|]; split; [by left|done]|].
  intros H. run_call H u. run_call H reply. destruct reply as [text|err]; cycle 1.
  { apply runs_ret in H as [-> ->]. split; [by repeat (constructor; [by intros ?|])|done]. }
  destruct (foldEq _ _) eqn:Hy.
  - apply runs_ret in H as [-> ->]. split; [by repeat (constructor; [by intros ?|])|]. split; [|done].
    intros _. right. exists text. split; [right; left|done].
  - apply runs_bind in H as (t1 & v & t2 & -> & ->%printed & [-> ->]%runs_ret).
    split; [by repeat (constructor; [by intros ?|])|]. split; [done|]. intros _. split; [|done].
    intros (text' & Hin & Hy'). rewrite app_nil_r, !elem_of_cons, elem_of_nil in Hin.
    destruct Hin as [?|[Heq|[?|[]]]]; [done| |done].
    pose (lineOf (ev : event cliAnswer) := match ev with Ev CliReadLine (Ok t) => t | _ => "" end).
    apply (f_equal lineOf) in Heq. cbn in Heq. subst. by rewrite Hy in Hy'.
Qed.

Lemma suspendConfig_run cfg tr e :
  runs (suspendConfig cfg) tr e →
  Forall suspendWrite tr ∧ (e = None → config_Suspended cfg = true ∨ Exists suspendedBy tr).
Proof.
  unfold suspendConfig. destruct (config_Suspended cfg) eqn:Hs; intros H.
  - apply runs_bind in H as (t1 & v & t2 & -> & ->%printed & [-> ->]%runs_ret).
    split; [by repeat constructor|by left].
  - run_call H patched. destruct patched as [c|err].
    + apply runs_bind in H as (t1 & v & t2 & -> & ->%printed & [-> ->]%runs_ret).
      split; [by repeat constructor|]. right. by left.
    + apply runs_ret in H as [-> ->]. split; [by repeat constructor|done].
Qed.

(** The emergency stop does what it reports: suspend writes nothing unless it was told yes,
    writes only a new suspended configuration or the one it read with the switch
    flipped, and when it reports no error the system is suspended (it was already, or
    the server accepted the write), unless the user declined. *)
Theorem suspend_suspends yes tr e :
  runs (suspend yes) tr e →
  Forall suspendWrite tr ∧
  (Exists configWrite tr → yes = true ∨ saidYes tr) ∧
  (e = None → Exists suspendedBy tr ∨ (yes = false ∧ ¬ saidYes tr)).
Proof.
  unfold suspend, getConfig. intros (t1 & go & t2 & -> & (Hn & Hy & Hno)%confirmSuspend_run & H)%runs_bind.
  assert (Hs1 : Forall suspendWrite t1).
  { eapply Forall_impl; [exact Hn|]. intros [[] a] H1; try done; by destruct (H1 I). }
  assert (Hyes : go = Ok true → yes = true ∨ saidYes (t1 ++ t2)).
  { intros Hgo. destruct (Hy Hgo) as [?|(text & Hin & ?)]; [by left|]. right. exists text.
    split; [apply elem_of_app; by left|done]. }
  assert (Hrest : ∀ t, Forall suspendWrite t → Forall suspendWrite (t1 ++ t)).
  { intros t Ht. by apply Forall_app. }
  assert (Hend : ∀ t, Exists suspendedBy t → Exists suspendedBy (t1 ++ t)).
  { intros t Ht. apply Exists_app. by right. }
  destruct go as [[]|err]; cycle 1.
  - apply runs_ret in H as [-> ->]. rewrite app_nil_r in *. split; [done|]. split.
    + intros (ev & Hin & Hw)%Exists_exists. by destruct (proj1 (Forall_forall _ _) Hn ev Hin).
    + intros _. right. destruct (Hno eq_refl). done.
  - apply runs_ret in H as [-> ->]. rewrite app_nil_r in *. split; [done|]. split; [|done].
    intros (ev & Hin & Hw)%Exists_exists. by destruct (proj1 (Forall_forall _ _) Hn ev Hin).
  - enough (Forall suspendWrite t2 ∧ (e = None → Exists suspendedBy t2)) as [Hw He].
    { split; [by apply Hrest|]. split; [by intros _; apply Hyes|]. intros Heq. left. by apply Hend, He. }
    clear Hyes Hrest Hend. run_call H got. destruct got as [cfg|err].
    { apply suspendConfig_run in H as [Hw He]. split; [by constructor|]. intros Heq.
      destruct (He Heq); [by left|by right]. }
    destruct (IsNoMatchError err); [apply runs_ret in H as [-> ->]; split; [by repeat constructor|done]|].
    destruct (IsNotFound err); cycle 1.
    { apply runs_ret in H as [-> ->]. split; [by repeat constructor|done]. }
    run_call H made. destruct made as [c|err'].
    { apply runs_bind in H as (t3 & v & t4 & -> & ->%printed & [-> ->]%runs_ret).
      split; [by repeat constructor|]. intros _. right. by left. }
    destruct (negb _); [apply runs_ret in H as [-> ->]; split; [by repeat constructor|done]|].
    run_call H again. destruct again as [cfg|err''].
    { apply suspendConfig_run in H as [Hw He]. split; [by repeat constructor|]. intros Heq.
      do 2 right. destruct (He Heq); [by left|by right]. }
    apply runs_ret in H as [-> ->]. split; [by repeat constructor|done].
Qed.

(** Resuming is the only thing resume writes: one merge patch of the switch, and only on
    a configuration it read as suspended; when it reports no error the system was not
    suspended or the server accepted that patch. *)
Theorem resume_only_lifts tr e :
  runs resume tr e →
  (∀ ev, ev ∈ tr → configWrite ev →
     ∃ cfg a, ev = Ev (CliMergePatchConfig cfg resumePatch) a ∧ config_Suspended cfg = true ∧
       Ev (CliGetConfig configName) (Ok cfg) ∈ tr) ∧
  (e = None →
     (∃ err, Ev (CliGetConfig configName) (Err err) ∈ tr ∧ IsNotFound err = true) ∨
     ∃ cfg, Ev (CliGetConfig configName) (Ok cfg) ∈ tr ∧
       (config_Suspended cfg = false ∨
        ∃ c, Ev (CliMergePatchConfig cfg resumePatch) (Ok c) ∈ tr)).
Proof.
  unfold resume, getConfig. intros H. run_call H got. destruct got as [cfg|err].
  - destruct (config_Suspended cfg) eqn:Hs; cbn in H.
    + run_call H patched. destruct patched as [c|err].
      * apply runs_bind in H as (t3 & v & t4 & -> & ->%printed & [-> ->]%runs_ret). split.
        -- intros ev Hin Hw. rewrite app_nil_r, !elem_of_cons, elem_of_nil in Hin.
           destruct Hin as [->|[->|[->|[]]]]; [done| |done]. do 2 eexists. split; [done|]. split; [done|left].
        -- intros _. right. exists cfg. split; [left|]. right. exists c. right. left.
      * apply runs_ret in H as [-> ->]. split; [|done]. intros ev Hin Hw.
        rewrite !elem_of_cons, elem_of_nil in Hin. destruct Hin as [->|[->|[]]]; [done|].
        do 2 eexists. split; [done|]. split; [done|left].
    + apply runs_bind in H as (t3 & v & t4 & -> & ->%printed & [-> ->]%runs_ret). split.
      * intros ev Hin Hw. rewrite app_nil_r, !elem_of_cons, elem_of_nil in Hin.
        by destruct Hin as [->|[->|[]]].
      * intros _. right. exists cfg. split; [left|by left].
  - destruct (IsNoMatchError err).
    { apply runs_ret in H as [-> ->]. split; [|done]. by intros ev ->%list_elem_of_singleton. }
    destruct (IsNotFound err) eqn:Hnf.
    + apply runs_bind in H as (t3 & v & t4 & -> & ->%printed & [-> ->]%runs_ret). split.
      * intros ev Hin Hw. rewrite app_nil_r, !elem_of_cons, elem_of_nil in Hin.
        by destruct Hin as [->|[->|[]]].
      * intros _. left. exists err. split; [left|done].
    + apply runs_ret in H as [-> ->]. split; [|done]. by intros ev ->%list_elem_of_singleton.
Qed.

(** The evidence for a resumption, of the generation of the configuration. *)
Definition confirmsSafety (generation : Z) (suspended safety : option Condition) : Prop :=
  ∃ s c, suspended = Some s ∧ safety = Some c ∧
    cond_Status s = ConditionTrue ∧ cond_ObservedGeneration s = generation ∧
    cond_Reason s ∈ ["AdminActivated"; "AdminActivatedWithErrors"] ∧
    cond_Status c = ConditionTrue ∧ cond_ObservedGeneration c = generation.

Lemma formatResumeSafety_confirmed generation suspended safety :
  (confirmsSafety generation suspended safety ∧
   formatResumeSafety generation suspended safety = confirmedText) ∨
  (¬ confirmsSafety generation suspended safety ∧
   ∃ why, formatResumeSafety generation suspended safety = unconfirmed why).
Proof.
  unfold formatResumeSafety, confirmsSafety.
  destruct suspended as [s|]; [|right; split; [naive_solver|by eexists]].
  destruct (Z.eqb_spec (cond_ObservedGeneration s) generation) as [Hg|Hg];
    [|right; split; [naive_solver|by eexists]].
  destruct (bool_decide_reflect (cond_Status s = ConditionTrue)) as [Ht|Ht];
    [|right; split; [naive_solver|by eexists]].
  cbn [negb].
  destruct (negb (String.eqb (cond_Reason s) "AdminActivated") && _) eqn:Hr.
  { right. split; [|by eexists]. intros (s' & c & [= <-] & _ & _ & _ & Hin & _). bool_hyps.
    rewrite !elem_of_cons, elem_of_nil in Hin. tauto. }
  assert (Hreason : cond_Reason s ∈ ["AdminActivated"; "AdminActivatedWithErrors"]).
  { apply andb_false_iff in Hr. rewrite !negb_false_iff, !String.eqb_eq in Hr.
    rewrite !elem_of_cons. tauto. }
  destruct safety as [c|]; [|right; split; [naive_solver|by eexists]].
  destruct (Z.eqb_spec (cond_ObservedGeneration c) generation) as [Hc|Hc];
    [|right; split; [naive_solver|by eexists]].
  cbn [negb]. destruct (bool_decide_reflect (cond_Status c = ConditionTrue)) as [Hs|Hs].
  - left. split; [|done]. by exists s, c.
  - right. split; [naive_solver|].
    destruct (negb (String.eqb (cond_Reason c) "")), (negb (String.eqb (cond_Message c) "")); by eexists.
Qed.

Lemma suspendedHeadline_run cfg suspendedCond tr text :
  runs (suspendedHeadline cfg suspendedCond) tr text →
  (tr = [] ∨ ∃ now, tr = [Ev CliNow now]) ∧ ∃ rest, text = "Agentic System: SUSPENDED" +:+ rest.
Proof.
  unfold suspendedHeadline. intros H. destruct suspendedCond as [s|].
  - destruct (bool_decide _ && _).
    + run_call H now. destruct (formatConditionTimes _ _) as [relative absolute].
      apply runs_ret in H as [-> ->]. split; [right; by eexists|].
      destruct (String.eqb _ _); [by eexists|]. destruct (String.eqb _ _); by eexists.
    + apply runs_ret in H as [-> ->]. split; [by left|]. by exists "".
  - apply runs_ret in H as [-> ->]. split; [by left|]. by exists "".
Qed.

(** What the command printed. *)
Definition printedText (tr : list (event cliAnswer)) : list string :=
  omap (λ ev : event cliAnswer, match ev with Ev (CliPrint text) _ => Some text | _ => None end) tr.

Definition configsRead (tr : list (event cliAnswer)) : list (res AgenticOLSConfig) :=
  omap (λ ev : event cliAnswer, match ev with Ev (CliGetConfig _) a => Some a | _ => None end) tr.

(** The status command vouches for a resumption only on current evidence: it prints that
    the safety is confirmed exactly when the configuration it read is suspended and both
    conditions say so for its present generation, after a stop that ended. *)
Theorem status_confirms tr e :
  runs status tr e →
  (confirmedText +:+ newline ∈ printedText tr ↔
   ∃ cfg, configsRead tr = [Ok cfg] ∧ config_Suspended cfg = true ∧
     confirmsSafety (configGeneration cfg)
       (FindStatusCondition (config_Conditions cfg) AgenticOLSConfigConditionSuspended)
       (FindStatusCondition (config_Conditions cfg) AgenticOLSConfigConditionSafeToResume)).
Proof.
  unfold status, getConfig. intros H. run_call H got. destruct got as [cfg|err]; cycle 1.
  { split; [|naive_solver].
    destruct (IsNotFound err).
    - apply runs_bind in H as (t1 & v & t2 & -> & ->%printed & [-> ->]%runs_ret). cbn.
      by intros ?%list_elem_of_singleton.
    - destruct (IsNoMatchError err); apply runs_ret in H as [-> _]; cbn; by intros ?%elem_of_nil. }
  set (sus := FindStatusCondition _ AgenticOLSConfigConditionSuspended) in *.
  set (safe := FindStatusCondition _ AgenticOLSConfigConditionSafeToResume) in *.
  destruct (config_Suspended cfg) eqn:Hs; cycle 1.
  { split; [|intros (c & Hc & Hs' & _); assert (c = cfg) as ->; [|congruence]].
    - destruct sus as [s|]; [destruct (String.eqb _ _)|].
      + run_call H now. destruct (formatConditionTimes _ _) as [relative absolute].
        apply runs_bind in H as (t1 & v & t2 & -> & ->%printed & [-> ->]%runs_ret). cbn.
        by intros ?%list_elem_of_singleton.
      + apply runs_bind in H as (t1 & v & t2 & -> & ->%printed & [-> ->]%runs_ret). cbn.
        by intros ?%list_elem_of_singleton.
      + apply runs_bind in H as (t1 & v & t2 & -> & ->%printed & [-> ->]%runs_ret). cbn.
        by intros ?%list_elem_of_singleton.
    - cbn in Hc. by injection Hc as Hc _. }
  apply runs_bind in H as (t1 & text & t2 & -> & [Ht1 [rest ->]]%suspendedHeadline_run & H).
  apply runs_bind in H as (t3 & v & t4 & -> & ->%printed & H).
  apply runs_bind in H as (t5 & v' & t6 & -> & ->%printed & [-> ->]%runs_ret).
  assert (Htexts : printedText (Ev (CliGetConfig configName) (Ok cfg) :: t1 ++
      [Ev (CliPrint (("Agentic System: SUSPENDED" +:+ rest) +:+ newline)) tt] ++
      [Ev (CliPrint (formatResumeSafety (configGeneration cfg) sus safe +:+ newline)) tt] ++ []) =
    [("Agentic System: SUSPENDED" +:+ rest) +:+ newline;
     formatResumeSafety (configGeneration cfg) sus safe +:+ newline]).
  { by destruct Ht1 as [->|[now ->]]. }
  assert (Hreads : configsRead (Ev (CliGetConfig configName) (Ok cfg) :: t1 ++
      [Ev (CliPrint (("Agentic System: SUSPENDED" +:+ rest) +:+ newline)) tt] ++
      [Ev (CliPrint (formatResumeSafety (configGeneration cfg) sus safe +:+ newline)) tt] ++ []) = [Ok cfg]).
  { by destruct Ht1 as [->|[now ->]]. }
  rewrite Htexts, Hreads. clear Htexts Hreads.
  destruct (formatResumeSafety_confirmed (configGeneration cfg) sus safe) as [[Hc ->]|[Hc [why ->]]].
  - split; [|intros _; right; left]. intros _. by exists cfg.
  - split; [|intros (c & [= <-] & _ & Hc'); by destruct Hc].
    rewrite !elem_of_cons, elem_of_nil. by intros [?|[?|[]]].
Qed.

End CliSystem.
