(* ===== verification/IsaLevel.v ===== *)
(** The check of the instruction set level of a binary ([cmd/check-isa-level]): the walk
    over the notes of an ELF file, with its [uint32] arithmetic and its slices.

    [debug/elf] is not modelled: a file is the list of its sections, or the error of
    opening it. *)
From stdpp Require Import base list option strings.
From Stdlib Require Import ZArith Lia.
From S2P Require Import Prelude GoText ApiMachinery.

Local Open Scope string_scope.
Local Open Scope list_scope.
Local Open Scope Z_scope.

Definition ntGNUPropertyType0 : Z := 5.
Definition gnuPropertyX86ISA1Needed : Z := 3221258242.   (* 0xc0008002 *)
Definition isaV3 : Z := Z.shiftl 1 2.
Definition isaV4 : Z := Z.shiftl 1 3.
Definition isaBeyondV2 : Z := Z.lor isaV3 isaV4.

(** ** Bytes *)
Definition isByte (b : Z) : Prop := 0 ≤ b < 256.
Definition size (data : list Z) : Z := Z.of_nat (List.length data).

(** [uint32] arithmetic: reduction, and rounding up with [&^]. *)
Definition two32 : Z := 4294967296.
Definition wrap32 (z : Z) : Z := z mod two32.
Definition padded (mask z : Z) : Z := Z.ldiff (wrap32 (z + mask)) mask.

(** [data[lo:hi]]; [None] is the panic of a slice out of range. *)
Definition slice (data : list Z) (lo hi : Z) : option (list Z) :=
  if (0 <=? lo) && (lo <=? hi) && (hi <=? size data)
  then Some (firstn (Z.to_nat (hi - lo)) (skipn (Z.to_nat lo) data)) else None.

(** [binary.LittleEndian.Uint32]. *)
Definition littleEndian (b : list Z) : Z :=
  match b with
  | [b0; b1; b2; b3] =>
      Z.lor (Z.lor (Z.lor b0 (Z.shiftl b1 8)) (Z.shiftl b2 16)) (Z.shiftl b3 24)
  | _ => 0
  end.
Definition Uint32 (data : list Z) (off : Z) : option Z := littleEndian <$> slice data off (off + 4).

(** ** The walk *)
Inductive scan :=
| Found (value : Z)
| NotFound
| Panics
| OutOfFuel.

Fixpoint scanProperties (fuel : nat) (desc : list Z) (descOff : Z) : scan :=
  match fuel with
  | O => OutOfFuel
  | S fuel' =>
      if descOff + 8 <=? size desc then
        match Uint32 desc descOff, Uint32 desc (descOff + 4) with
        | Some prType, Some prDatasz =>
            let descOff := descOff + 8 in
            if size desc <? descOff + prDatasz then NotFound
            else if (prType =? gnuPropertyX86ISA1Needed) && (prDatasz =? 4) then
              match Uint32 desc descOff with Some v => Found v | None => Panics end
            else scanProperties fuel' desc (descOff + padded 7 prDatasz)
        | _, _ => Panics
        end
      else NotFound
  end.

(** The name of the note starts with GNU and a zero byte. *)
Definition gnuName : list Z := [71; 78; 85; 0].
Definition isGNU (ntype : Z) (name : list Z) : bool :=
  (ntype =? ntGNUPropertyType0) && (4 <=? size name) && bool_decide (firstn 4 name = gnuName).

Fixpoint scanNotes (fuel : nat) (data : list Z) (off : Z) : scan :=
  match fuel with
  | O => OutOfFuel
  | S fuel' =>
      if off + 12 <=? size data then
        match Uint32 data off, Uint32 data (off + 4), Uint32 data (off + 8) with
        | Some namesz, Some descsz, Some ntype =>
            let off := off + 12 in
            if size data <? off + padded 3 namesz + descsz then NotFound
            else
              match slice data off (off + namesz) with
              | None => Panics
              | Some name =>
                  let off := off + padded 3 namesz in
                  match slice data off (off + descsz) with
                  | None => Panics
                  | Some desc =>
                      let off := off + padded 3 descsz in
                      if isGNU ntype name then
                        match scanProperties (S (List.length desc)) desc 0 with
                        | NotFound => scanNotes fuel' data off
                        | r => r
                        end
                      else scanNotes fuel' data off
                  end
              end
        | _, _, _ => Panics
        end
      else NotFound
  end.

Definition walk (data : list Z) : scan := scanNotes (S (List.length data)) data 0.

(** ** The file *)
Definition SHT_NOTE : Z := 7.
Record Section_ := MkSection { sec_Name : string; sec_Type : Z; sec_Data : res (list Z) }.

Definition noteSection (sections : list Section_) : option Section_ :=
  match List.find (λ s, String.eqb (sec_Name s) ".note.gnu.property") sections with
  | Some s => Some s
  | None => List.find (λ s, sec_Type s =? SHT_NOTE) sections
  end.

(** The value and whether it is there. *)
Definition getX86ISA1Needed (file : res (list Section_)) : res scan :=
  match file with
  | Err err => Err err
  | Ok sections =>
      match noteSection sections with
      | None => Ok NotFound
      | Some s => match sec_Data s with
                  | Err err => Err err
                  | Ok data => Ok (walk data)
                  end
      end
  end.

Definition atMostX86_64_V2 (file : res (list Section_)) : res bool :=
  match getX86ISA1Needed file with
  | Err err => Err err
  | Ok (Found v) => Ok (Z.land v isaBeyondV2 =? 0)
  | Ok NotFound => Ok false
  | Ok _ => Err (panicError "slice bounds out of range")
  end.

(** The exit code: 2 for a file that cannot be read, as for a panic. *)
Definition main (stat : option error) (file : res (list Section_)) : Z :=
  match stat with
  | Some _ => 2
  | None => match atMostX86_64_V2 file with
            | Err _ => 2
            | Ok ok => if ok then 0 else 1
            end
  end.

(** ** Notes as a linker writes them *)
Definition le32 (v : Z) : list Z :=
  [v mod 256; Z.shiftr v 8 mod 256; Z.shiftr v 16 mod 256; Z.shiftr v 24 mod 256].
Definition zeros (n : Z) : list Z := repeat 0 (Z.to_nat n).
Definition padTo (mask : Z) (data : list Z) : list Z :=
  data ++ zeros (padded mask (size data) - size data).

(** A property: its type and its datum. *)
Definition encodeProperty (p : Z * list Z) : list Z :=
  le32 p.1 ++ le32 (size p.2) ++ padTo 7 p.2.
Definition encodeProperties (ps : list (Z * list Z)) : list Z := ps ≫= encodeProperty.

Inductive note :=
| Properties (ps : list (Z * list Z))
| OtherNote (name : list Z) (ntype : Z) (desc : list Z).
Definition noteParts (n : note) : list Z * Z * list Z :=
  match n with
  | Properties ps => (gnuName, ntGNUPropertyType0, encodeProperties ps)
  | OtherNote name ntype desc => (name, ntype, desc)
  end.
Definition encodeNote (n : note) : list Z :=
  let '(name, ntype, desc) := noteParts n in
  le32 (size name) ++ le32 (size desc) ++ le32 ntype ++ padTo 3 name ++ padTo 3 desc.
Definition encodeNotes (notes : list note) : list Z := notes ≫= encodeNote.

(** The needed instruction set: the first property of its type, in the notes of properties. *)
Definition neededOf (p : Z * list Z) : option Z :=
  if (p.1 =? gnuPropertyX86ISA1Needed) && (size p.2 =? 4) then Some (littleEndian p.2) else None.
Definition propertiesOf (n : note) : list (Z * list Z) :=
  match n with Properties ps => ps | OtherNote _ _ _ => [] end.
Definition needed (notes : list note) : option Z :=
  head (omap neededOf (notes ≫= propertiesOf)).

Definition is32 (v : Z) : Prop := 0 ≤ v < two32.
Definition wfProperty (p : Z * list Z) : Prop := is32 p.1 ∧ size p.2 + 7 < two32.
Definition wfNote (n : note) : Prop :=
  let '(name, ntype, desc) := noteParts n in
  size name + 3 < two32 ∧ size desc + 3 < two32 ∧ is32 ntype
  ∧ match n with
    | Properties ps => Forall wfProperty ps
    | OtherNote _ _ _ => isGNU ntype name = false
    end.
Definition scanOf (v : option Z) : scan := match v with Some v => Found v | None => NotFound end.

(** ** Concrete sections *)
Definition v2Notes : list note :=
  [OtherNote [76; 105; 110; 117; 120; 0] 0 [1; 2; 3];
   Properties [(3221225474, [3; 0; 0; 0]); (gnuPropertyX86ISA1Needed, [3; 0; 0; 0])]].
Definition elfOf (notes : list note) : list Section_ :=
  [MkSection ".text" 1 (Ok []); MkSection ".note.gnu.property" SHT_NOTE (Ok (encodeNotes notes))].

(** A note section that ends in a name length of [2^32 - 3] or more. *)
Definition badNotes : list Z := le32 (two32 - 1) ++ le32 0 ++ le32 0.

#[export] Instance isByte_dec b : Decision (isByte b).
Proof. unfold isByte. apply _. Defined.
#[export] Instance is32_dec v : Decision (is32 v).
Proof. unfold is32. apply _. Defined.
#[export] Instance wfProperty_dec p : Decision (wfProperty p).
Proof. unfold wfProperty. apply _. Defined.
#[export] Instance wfNote_dec n : Decision (wfNote n).
Proof. unfold wfNote. destruct n; cbn [noteParts]; apply _. Defined.

(** ** Arithmetic of the walk *)
Lemma size_nonneg data : 0 ≤ size data.
Proof. unfold size. lia. Qed.
#[local] Hint Resolve size_nonneg : core.

Lemma size_app a b : size (a ++ b) = size a + size b.
Proof. unfold size. rewrite length_app. lia. Qed.

Lemma padded_nonneg mask z : 0 ≤ padded mask z.
Proof. unfold padded, wrap32. apply Z.ldiff_nonneg. left. apply Z.mod_pos_bound. done. Qed.

(** Rounding up to a multiple of a power of two, when the addition does not wrap. *)
Lemma padded_up k z :
  0 ≤ k → 0 ≤ z → z + Z.ones k < two32 →
  padded (Z.ones k) z = (z + Z.ones k) / 2 ^ k * 2 ^ k ∧ z ≤ padded (Z.ones k) z.
Proof.
  intros Hk Hz Hw. unfold padded, wrap32. rewrite Z.mod_small.
  2:{ split; [|done]. rewrite Z.ones_equiv. pose proof (Z.pow_pos_nonneg 2 k). lia. }
  rewrite Z.ldiff_ones_r, Z.shiftl_mul_pow2, Z.shiftr_div_pow2 by done. split; [done|].
  assert (Hp : 0 < 2 ^ k) by (by apply Z.pow_pos_nonneg). rewrite Z.ones_equiv, <- Z.sub_1_r in *.
  pose proof (Z.div_mod (z + (2 ^ k - 1)) (2 ^ k) ltac:(lia)).
  pose proof (Z.mod_pos_bound (z + (2 ^ k - 1)) (2 ^ k) Hp). lia.
Qed.

Lemma padded3_up z : 0 ≤ z → z + 3 < two32 → z ≤ padded 3 z.
Proof. intros. by apply (padded_up 2). Qed.
Lemma padded7_up z : 0 ≤ z → z + 7 < two32 → z ≤ padded 7 z.
Proof. intros. by apply (padded_up 3). Qed.

(** The addition wraps: nothing is left of the length. *)
Lemma padded3_wraps z : two32 - 3 ≤ z < two32 → padded 3 z = 0.
Proof.
  intros Hz. unfold padded, wrap32, two32 in *.
  assert (Hm : (z + 3) mod 4294967296 = z + 3 - 4294967296).
  { symmetry. apply (Z.mod_unique_pos _ _ 1); lia. }
  rewrite Hm. assert (Hc : z + 3 - 4294967296 = 0 ∨ z + 3 - 4294967296 = 1 ∨ z + 3 - 4294967296 = 2) by lia.
  by destruct Hc as [->|[->| ->]].
Qed.

Lemma lor_shift a b n : 0 ≤ n → 0 ≤ a < 2 ^ n → Z.lor a (Z.shiftl b n) = a + b * 2 ^ n.
Proof.
  intros Hn Ha.
  assert (Hl : Z.land a (Z.shiftl b n) = 0).
  { apply Z.bits_inj'. intros i Hi. rewrite Z.land_spec, Z.bits_0.
    destruct (Z.ltb_spec i n).
    - rewrite Z.shiftl_spec_low by done. apply andb_false_r.
    - rewrite <- (Z.mod_small a (2 ^ n)), Z.mod_pow2_bits_high by lia. done. }
  rewrite <- Z.lxor_lor by done. rewrite <- Z.add_nocarry_lxor by done. by rewrite Z.shiftl_mul_pow2.
Qed.

Lemma littleEndian_sum b0 b1 b2 b3 :
  isByte b0 → isByte b1 → isByte b2 → isByte b3 →
  littleEndian [b0; b1; b2; b3] = b0 + b1 * 256 + b2 * 65536 + b3 * 16777216.
Proof.
  unfold isByte. intros. cbn [littleEndian].
  rewrite (lor_shift b0 b1 8), (lor_shift _ b2 16), (lor_shift _ b3 24) by lia. done.
Qed.

(** ** Slices *)
Lemma slice_some data lo hi : 0 ≤ lo ≤ hi → hi ≤ size data → is_Some (slice data lo hi).
Proof.
  intros [H1 H2] H3. unfold slice. apply Z.leb_le in H1, H2, H3. rewrite H1, H2, H3. by eexists.
Qed.

Lemma slice_none data lo hi : size data < hi → slice data lo hi = None.
Proof. intros H. unfold slice. apply Z.leb_gt in H. by rewrite H, !andb_false_r. Qed.

Lemma slice_inv data lo hi s :
  slice data lo hi = Some s → 0 ≤ lo ≤ hi ∧ hi ≤ size data ∧ size s = hi - lo ∧ s ⊆ data.
Proof.
  unfold slice. destruct (_ && _) eqn:Hb; [|done]. intros [= <-].
  apply andb_prop in Hb as [[H1 H2]%andb_prop H3]. apply Z.leb_le in H1, H2, H3.
  split; [lia|]. split; [lia|]. split.
  - unfold size in *. rewrite length_firstn, length_skipn. lia.
  - etrans; [apply subseteq_take|apply subseteq_drop].
Qed.

Lemma slice_middle pre mid post :
  slice (pre ++ mid ++ post) (size pre) (size pre + size mid) = Some mid.
Proof.
  unfold slice. rewrite !size_app.
  replace ((0 <=? size pre) && (size pre <=? size pre + size mid)
    && (size pre + size mid <=? size pre + (size mid + size post))) with true.
  - f_equal. unfold size. rewrite Nat2Z.id, drop_app_length.
    replace (Z.to_nat _) with (List.length mid) by lia. by rewrite take_app_length.
  - symmetry. rewrite !andb_true_iff, !Z.leb_le. pose proof (size_nonneg pre).
    pose proof (size_nonneg mid). pose proof (size_nonneg post). lia.
Qed.

Lemma Uint32_some data off : 0 ≤ off → off + 4 <= size data → is_Some (Uint32 data off).
Proof. intros. unfold Uint32. apply fmap_is_Some, slice_some; lia. Qed.

Lemma Uint32_range data off z : Forall isByte data → Uint32 data off = Some z → 0 ≤ z < two32.
Proof.
  intros Hd (s & (_ & _ & Hlen & Hsub)%slice_inv & ->)%fmap_Some.
  unfold size in Hlen. destruct s as [|b0 [|b1 [|b2 [|b3 []]]]]; cbn in Hlen; try lia.
  assert (H : ∀ b, b ∈ [b0; b1; b2; b3] → isByte b).
  { intros b Hb. by apply (proj1 (Forall_forall _ _) Hd), Hsub. }
  rewrite littleEndian_sum by (apply H; rewrite !elem_of_cons; tauto).
  pose proof (H b0 ltac:(left)). unfold isByte, two32 in *.
  pose proof (H b1 ltac:(rewrite !elem_of_cons; tauto)).
  pose proof (H b2 ltac:(rewrite !elem_of_cons; tauto)).
  pose proof (H b3 ltac:(rewrite !elem_of_cons; tauto)). lia.
Qed.

Lemma Uint32_get data off :
  Forall isByte data → 0 ≤ off → off + 4 <= size data →
  ∃ z, Uint32 data off = Some z ∧ 0 ≤ z < two32.
Proof. intros Hd H1 H2. destruct (Uint32_some data off H1 H2) as [z Hz]. eauto using Uint32_range. Qed.

Lemma slice_bytes data lo hi s : Forall isByte data → slice data lo hi = Some s → Forall isByte s.
Proof.
  rewrite !Forall_forall. intros Hd (_ & _ & _ & Hsub)%slice_inv x Hx. by apply Hd, Hsub.
Qed.

(** ** The walk ends, and only a name length that wraps makes it panic *)
Lemma scanProperties_safe fuel desc descOff :
  Forall isByte desc → 0 ≤ descOff → Z.max 0 (size desc - descOff) < 8 * Z.of_nat fuel →
  scanProperties fuel desc descOff ≠ OutOfFuel ∧ scanProperties fuel desc descOff ≠ Panics.
Proof.
  intros Hb. revert descOff. induction fuel as [|fuel IH]; intros descOff H0 Hf; [lia|].
  cbn [scanProperties]. destruct (Z.leb_spec (descOff + 8) (size desc)); [|done].
  destruct (Uint32_get desc descOff) as (prType & -> & _); [done|lia..|].
  destruct (Uint32_get desc (descOff + 4)) as (prDatasz & -> & Hsz); [done|lia..|].
  destruct (Z.ltb_spec (size desc) (descOff + 8 + prDatasz)); [done|].
  destruct (_ && _) eqn:Ht.
  - apply andb_prop in Ht as [_ Ht%Z.eqb_eq].
    by destruct (Uint32_get desc (descOff + 8)) as (v & -> & _); [done|lia..|].
  - pose proof (padded_nonneg 7 prDatasz). apply IH; lia.
Qed.

Lemma scanNotes_safe fuel data off :
  Forall isByte data → 0 ≤ off → Z.max 0 (size data - off) < 12 * Z.of_nat fuel →
  scanNotes fuel data off ≠ OutOfFuel
  ∧ (scanNotes fuel data off = Panics →
     ∃ o namesz, off ≤ o ∧ Uint32 data o = Some namesz ∧ two32 - 3 ≤ namesz).
Proof.
  intros Hb. revert off. induction fuel as [|fuel IH]; intros off H0 Hf; [lia|].
  cbn [scanNotes]. destruct (Z.leb_spec (off + 12) (size data)); [|done].
  destruct (Uint32_get data off) as (namesz & Hname & Hn); [done|lia..|].
  destruct (Uint32_get data (off + 4)) as (descsz & -> & Hd); [done|lia..|].
  destruct (Uint32_get data (off + 8)) as (ntype & -> & _); [done|lia..|]. rewrite Hname.
  destruct (Z.ltb_spec (size data) (off + 12 + padded 3 namesz + descsz)); [done|].
  pose proof (padded_nonneg 3 namesz). pose proof (padded_nonneg 3 descsz).
  destruct (slice data (off + 12) _) as [name|] eqn:Hs.
  2:{ split; [done|]. intros _. exists off, namesz. split; [done|]. split; [done|].
      destruct (Z_lt_ge_dec namesz (two32 - 3)) as [Hlt|]; [|lia].
      destruct (slice_some data (off + 12) (off + 12 + namesz)); [lia| |congruence].
      pose proof (padded3_up namesz). lia. }
  destruct (slice_some data (off + 12 + padded 3 namesz) (off + 12 + padded 3 namesz + descsz))
    as [desc Hdesc]; [lia..|]. rewrite Hdesc.
  destruct (IH (off + 12 + padded 3 namesz + padded 3 descsz)) as [Hi1 Hi2]; [lia..|].
  assert (Hrest : scanNotes fuel data (off + 12 + padded 3 namesz + padded 3 descsz) = Panics →
    ∃ o namesz, off ≤ o ∧ Uint32 data o = Some namesz ∧ two32 - 3 ≤ namesz).
  { intros (o & n & Ho & ?)%Hi2. exists o, n. split; [lia|done]. }
  destruct (isGNU ntype name); [|done].
  destruct (scanProperties_safe (S (List.length desc)) desc 0) as [Hp1 Hp2].
  { by apply (slice_bytes data (off + 12 + padded 3 namesz) (off + 12 + padded 3 namesz + descsz)). }
  { lia. } { unfold size. lia. }
  by destruct (scanProperties _ desc 0).
Qed.

(** ** Reading what was written *)
Lemma size_le32 v : size (le32 v) = 4.
Proof. done. Qed.

Lemma littleEndian_le32 v : is32 v → littleEndian (le32 v) = v.
Proof.
  unfold is32, two32. intros Hv. unfold le32.
  rewrite littleEndian_sum by (apply Z.mod_pos_bound; lia). rewrite !Z.shiftr_div_pow2 by lia.
  change (2 ^ 8) with 256. change (2 ^ 16) with (256 * 256). change (2 ^ 24) with (256 * 256 * 256).
  rewrite <- !Z.div_div by lia.
  pose proof (Z.div_mod v 256). pose proof (Z.div_mod (v / 256) 256).
  pose proof (Z.div_mod (v / 256 / 256) 256).
  rewrite (Z.mod_small (v / 256 / 256 / 256)); [lia|].
  split; [repeat apply Z.div_pos; lia|]. repeat apply Z.div_lt_upper_bound; lia.
Qed.

Lemma Uint32_le32 pre v post :
  is32 v → Uint32 (pre ++ le32 v ++ post) (size pre) = Some v.
Proof.
  intros Hv. unfold Uint32. rewrite <- (size_le32 v), slice_middle. cbn [fmap option_fmap option_map].
  by rewrite littleEndian_le32.
Qed.

Lemma size_padTo k data :
  0 ≤ k → size data + Z.ones k < two32 → size (padTo (Z.ones k) data) = padded (Z.ones k) (size data).
Proof.
  intros Hk Hw. destruct (padded_up k (size data)) as [_ Hle]; [done..|].
  unfold padTo. rewrite size_app. unfold zeros at 1, size at 2. rewrite repeat_length. lia.
Qed.
Lemma size_padTo3 data : size data + 3 < two32 → size (padTo 3 data) = padded 3 (size data).
Proof. by apply (size_padTo 2). Qed.
Lemma size_padTo7 data : size data + 7 < two32 → size (padTo 7 data) = padded 7 (size data).
Proof. by apply (size_padTo 3). Qed.

(** The same where the position is given. *)
Lemma slice_at pre mid post data lo hi :
  data = pre ++ mid ++ post → lo = size pre → hi = lo + size mid → slice data lo hi = Some mid.
Proof. intros -> -> ->. apply slice_middle. Qed.

Lemma Uint32_at pre v post data off :
  data = pre ++ le32 v ++ post → off = size pre → is32 v → Uint32 data off = Some v.
Proof. intros -> ->. apply Uint32_le32. Qed.

Ltac layout :=
  solve [ rewrite <- ?app_assoc; reflexivity | rewrite ?size_app, ?size_le32; lia | done ].

Lemma encodeProperties_cons prType datum ps :
  encodeProperties ((prType, datum) :: ps)
  = le32 prType ++ le32 (size datum) ++ padTo 7 datum ++ encodeProperties ps.
Proof. unfold encodeProperties. rewrite bind_cons. unfold encodeProperty at 1. cbn [fst snd]. layout. Qed.

Lemma scanProperties_encoded ps : ∀ fuel pre,
  Forall wfProperty ps → (List.length ps < fuel)%nat →
  scanProperties fuel (pre ++ encodeProperties ps) (size pre) = scanOf (head (omap neededOf ps)).
Proof.
  induction ps as [|[prType datum] ps IH]; intros [|fuel] pre Hwf Hf; cbn in Hf; try lia.
  { change (encodeProperties []) with (@nil Z). rewrite app_nil_r. cbn [scanProperties].
    by destruct (Z.leb_spec (size pre + 8) (size pre)); [lia|]. }
  inversion_clear Hwf as [|? ? [Ht Hsz] Hps]. cbn [fst snd] in Ht, Hsz.
  pose proof (size_nonneg datum). pose proof (size_padTo7 datum Hsz) as Hpad.
  pose proof (padded7_up (size datum)). rewrite encodeProperties_cons.
  set (rest := encodeProperties ps) in *. set (data := pre ++ _).
  assert (Hrest : (pre ++ le32 prType ++ le32 (size datum) ++ padTo 7 datum) ++ rest = data)
    by (unfold data; layout).
  assert (Hsize : size pre + 8 + size (padTo 7 datum) ≤ size data).
  { rewrite <- Hrest, !size_app, !size_le32. pose proof (size_nonneg rest). lia. }
  cbn [scanProperties]. destruct (Z.leb_spec (size pre + 8) (size data)); [|lia].
  rewrite (Uint32_at pre prType _ data) by (unfold data; layout).
  rewrite (Uint32_at (pre ++ le32 prType) (size datum) (padTo 7 datum ++ rest) data)
    by (unfold data, is32, two32 in *; layout).
  destruct (Z.ltb_spec (size data) (size pre + 8 + size datum)); [lia|].
  cbn [omap list_omap]. unfold neededOf at 1. cbn [fst snd].
  destruct (_ && _) eqn:Hneed.
  - apply andb_prop in Hneed as [_ Hfour%Z.eqb_eq]. unfold Uint32.
    rewrite (slice_at (pre ++ le32 prType ++ le32 (size datum)) datum
      (zeros (padded 7 (size datum) - size datum) ++ rest) data); [done|..].
    + unfold data, padTo. layout.
    + layout.
    + lia.
  - rewrite <- Hrest, <- (IH fuel (pre ++ le32 prType ++ le32 (size datum) ++ padTo 7 datum)) by (done || lia).
    f_equal. rewrite !size_app, !size_le32. lia.
Qed.

Lemma encodeProperties_length ps : (List.length ps ≤ List.length (encodeProperties ps))%nat.
Proof.
  induction ps as [|[prType datum] ps IH]; [done|].
  rewrite encodeProperties_cons, !length_app. cbn [List.length le32]. lia.
Qed.

Lemma encodeNotes_cons n notes :
  encodeNotes (n :: notes) = encodeNote n ++ encodeNotes notes.
Proof. done. Qed.

Lemma encodeNotes_length notes : (List.length notes ≤ List.length (encodeNotes notes))%nat.
Proof.
  induction notes as [|n notes IH]; [done|].
  rewrite encodeNotes_cons. unfold encodeNote. destruct (noteParts n) as [[name ntype] desc].
  rewrite !length_app. cbn [List.length le32]. lia.
Qed.

(** What one note gives. *)
Lemma scan_note n :
  wfNote n →
  let '(name, ntype, desc) := noteParts n in
  (if isGNU ntype name then scanProperties (S (List.length desc)) desc 0 else NotFound)
  = scanOf (head (omap neededOf (propertiesOf n))).
Proof.
  destruct n as [ps|name ntype desc]; cbn [noteParts propertiesOf]; intros (_ & _ & _ & Hn).
  - change (isGNU ntGNUPropertyType0 gnuName) with true. cbv iota.
    apply (scanProperties_encoded ps _ []); [done|]. pose proof (encodeProperties_length ps). lia.
  - by rewrite Hn.
Qed.

Lemma scanOf_app {A} (l k : list A) (f : A → option Z) :
  scanOf (head (omap f (l ++ k))) =
  match scanOf (head (omap f l)) with NotFound => scanOf (head (omap f k)) | r => r end.
Proof. rewrite omap_app. by destruct (omap f l). Qed.

Lemma scanNotes_encoded notes : ∀ fuel pre,
  Forall wfNote notes → (List.length notes < fuel)%nat →
  scanNotes fuel (pre ++ encodeNotes notes) (size pre) = scanOf (needed notes).
Proof.
  induction notes as [|n notes IH]; intros [|fuel] pre Hwf Hf; cbn in Hf; try lia.
  { change (encodeNotes []) with (@nil Z). rewrite app_nil_r. cbn [scanNotes].
    by destruct (Z.leb_spec (size pre + 12) (size pre)); [lia|]. }
  inversion_clear Hwf as [|? ? Hn Hns]. unfold needed in *.
  rewrite bind_cons, scanOf_app, <- (IH fuel (pre ++ encodeNote n)) by (done || lia).
  pose proof (scan_note n Hn) as Hscan. rewrite encodeNotes_cons. unfold encodeNote, wfNote in *.
  destruct (noteParts n) as [[name ntype] desc]. destruct Hn as (Hname & Hdesc & Htype & _).
  rewrite <- Hscan. pose proof (size_nonneg name). pose proof (size_nonneg desc).
  pose proof (size_padTo3 name Hname). pose proof (size_padTo3 desc Hdesc).
  pose proof (padded3_up (size name)). pose proof (padded3_up (size desc)).
  set (rest := encodeNotes notes) in *. pose proof (size_nonneg rest).
  set (data := pre ++ _). set (pre' := pre ++ _).
  assert (Hrest : pre' ++ rest = data) by (unfold data, pre'; layout).
  assert (Hsize : size pre' = size pre + 12 + padded 3 (size name) + padded 3 (size desc))
    by (unfold pre'; rewrite !size_app, !size_le32; lia).
  assert (Htotal : size data = size pre' + size rest) by (rewrite <- Hrest; apply size_app).
  rewrite Hrest, Hsize. cbn [scanNotes].
  destruct (Z.leb_spec (size pre + 12) (size data)); [|lia].
  rewrite (Uint32_at pre (size name) _ data) by (unfold data, is32, two32 in *; layout).
  rewrite (Uint32_at (pre ++ le32 (size name)) (size desc) (le32 ntype ++ padTo 3 name ++ padTo 3 desc ++ rest) data)
    by (unfold data, is32, two32 in *; layout).
  rewrite (Uint32_at (pre ++ le32 (size name) ++ le32 (size desc)) ntype (padTo 3 name ++ padTo 3 desc ++ rest) data)
    by (unfold data; layout).
  destruct (Z.ltb_spec (size data) (size pre + 12 + padded 3 (size name) + size desc)); [lia|].
  rewrite (slice_at (pre ++ le32 (size name) ++ le32 (size desc) ++ le32 ntype) name
    (zeros (padded 3 (size name) - size name) ++ padTo 3 desc ++ rest) data);
    [|unfold data, padTo; layout|layout|lia].
  rewrite (slice_at (pre ++ le32 (size name) ++ le32 (size desc) ++ le32 ntype ++ padTo 3 name) desc
    (zeros (padded 3 (size desc) - size desc) ++ rest) data);
    [|unfold data, padTo; layout|layout|lia].
  by destruct (isGNU ntype name).
Qed.

Lemma walk_wraps data namesz descsz :
  Uint32 data 0 = Some namesz → Uint32 data 4 = Some descsz → is32 namesz → 0 ≤ descsz →
  two32 - 3 ≤ namesz → 12 + descsz ≤ size data < 12 + namesz → walk data = Panics.
Proof.
  intros Hn Hd Hr Hp Hw Hs. unfold walk. cbn [scanNotes].
  change (0 + 12) with 12. change (0 + 8) with 8. change (0 + 4) with 4.
  destruct (Z.leb_spec 12 (size data)); [|lia]. rewrite Hn, Hd.
  destruct (Uint32_some data 8) as [ntype ->]; [lia..|].
  rewrite padded3_wraps by (unfold is32 in Hr; lia).
  destruct (Z.ltb_spec (size data) (12 + 0 + descsz)); [lia|].
  rewrite slice_none; [done|lia].
Qed.

Lemma testbit_beyond i : Z.testbit isaBeyondV2 i = (i =? 2) || (i =? 3).
Proof.
  change isaBeyondV2 with (Z.lor (2 ^ 2) (2 ^ 3)).
  rewrite Z.lor_spec, !Z.pow2_bits_eqb by done. by rewrite (Z.eqb_sym 2), (Z.eqb_sym 3).
Qed.

Lemma land_beyond v : (Z.land v isaBeyondV2 =? 0) = negb (Z.testbit v 2 || Z.testbit v 3).
Proof.
  apply eq_true_iff_eq. rewrite Z.eqb_eq, negb_true_iff, orb_false_iff. split.
  - intros H. pose proof (f_equal (λ z, Z.testbit z 2) H) as H2.
    pose proof (f_equal (λ z, Z.testbit z 3) H) as H3. cbv beta in H2, H3.
    rewrite Z.land_spec, testbit_beyond, andb_true_r, Z.bits_0 in H2, H3. done.
  - intros [H2 H3]. apply Z.bits_inj'. intros i _. rewrite Z.land_spec, testbit_beyond, Z.bits_0.
    destruct (Z.eqb_spec i 2) as [->|]; [by rewrite H2|].
    destruct (Z.eqb_spec i 3) as [->|]; [by rewrite H3|]. apply andb_false_r.
Qed.

(** C40: For any bytes of a section, the walk ends within its fuel. It reads outside of the
    section (which is a panic) only if some four bytes of the section, as a number, are at
    least [2^32 - 3]: rounding such a name length up to a multiple of four wraps to zero in
    [uint32], so the guard of the walk does not see it. A first note with such a length
    and a description that fits makes the walk panic. *)
Theorem walk_bounds (data : list Z) (Hb : Forall isByte data) :
  walk data ≠ OutOfFuel
  ∧ (walk data = Panics → ∃ off namesz, Uint32 data off = Some namesz ∧ two32 - 3 ≤ namesz)
  ∧ (∀ namesz descsz,
       Uint32 data 0 = Some namesz → Uint32 data 4 = Some descsz →
       two32 - 3 ≤ namesz → 12 + descsz ≤ size data < 12 + namesz → walk data = Panics).
Proof.
  destruct (scanNotes_safe (S (List.length data)) data 0) as [H1 H2]; [done|done|unfold size; lia|].
  split; [done|]. split.
  - intros (off & namesz & _ & ?)%H2. by exists off, namesz.
  - intros namesz descsz Hn Hd Hw Hs. pose proof (Uint32_range _ _ _ Hb Hn).
    pose proof (Uint32_range _ _ _ Hb Hd).
    apply (walk_wraps data namesz descsz); done || lia.
Qed.

(** C32: Reading back what a linker writes. Where the section the check selects holds
    notes with their lengths, names and descriptions padded to four bytes and properties
    padded to eight, the check finds the datum of the first property of type
    [GNU_PROPERTY_X86_ISA_1_NEEDED] in the notes of properties, and nothing where there
    is none. The command exits with 0 exactly when that datum is there and has neither
    the bit of x86-64-v3 nor the one of v4, and with 1 otherwise. *)
Theorem check_roundtrip (notes : list note) (sections : list Section_) (s : Section_)
    (Hwf : Forall wfNote notes) (Hs : noteSection sections = Some s)
    (Hdata : sec_Data s = Ok (encodeNotes notes)) :
  getX86ISA1Needed (Ok sections) = Ok (scanOf (needed notes))
  ∧ main None (Ok sections)
    = match needed notes with
      | Some v => if Z.testbit v 2 || Z.testbit v 3 then 1 else 0
      | None => 1
      end.
Proof.
  assert (Hneed : getX86ISA1Needed (Ok sections) = Ok (scanOf (needed notes))).
  { unfold getX86ISA1Needed, walk. rewrite Hs, Hdata.
    rewrite (scanNotes_encoded notes _ []); [done|done|]. pose proof (encodeNotes_length notes). lia. }
  split; [done|]. unfold main, atMostX86_64_V2. rewrite Hneed.
  destruct (needed notes) as [v|]; [|done]. cbn [scanOf]. rewrite land_beyond.
  by destruct (_ || _).
Qed.

Lemma walk_bounds_witness : Forall isByte badNotes ∧ walk badNotes = Panics.
Proof.
  assert (Hb : Forall isByte badNotes) by decide_closed.
  split; [exact Hb|]. apply (proj2 (proj2 (walk_bounds badNotes Hb)) (two32 - 1) 0); try reflexivity.
  - vm_compute. discriminate.
  - split; vm_compute; [discriminate|reflexivity].
Defined.

Lemma check_roundtrip_witness : main None (Ok (elfOf v2Notes)) = 0.
Proof.
  rewrite (proj2 (check_roundtrip v2Notes (elfOf v2Notes)
    (MkSection ".note.gnu.property" SHT_NOTE (Ok (encodeNotes v2Notes)))
    ltac:(decide_closed) eq_refl eq_refl)).
  reflexivity.
Defined.
