(* ===== verification/RefApi.v ===== *)
(** An implementation of the library functions, for concrete inputs: the
    documented behaviour of [k8s.io/apimachinery] and controller-runtime that
    [ApiMachineryLaws] states can be met, by [meta.SetStatusCondition] as a loop
    over the slice, the error predicates on the reason of a status error, and
    the finalizer helpers on a list.  [serve] is a scripted environment that
    answers the calls of a handler, for the concrete runs. *)
From stdpp Require Import base list option strings gmap.
From Stdlib Require Import ZArith.
From S2P Require Import Prelude GoText ApiMachinery Types Objects Effects.
From S2P Require Import Json PodSpecBuilder InputConfigMap Spoke SandboxManager SuspensionInventory.

Local Open Scope string_scope.
Local Open Scope list_scope.

(** Closes a computation on closed terms. *)
Ltac compute_done := vm_compute; reflexivity.

(** ** Conditions *)
Fixpoint refSet (now : Time) (cs : list Condition) (c : Condition) : list Condition :=
  match cs with
  | [] => [stampCondition now None c]
  | c0 :: cs' => if String.eqb (cond_Type c0) (cond_Type c)
                 then stampCondition now (Some c0) c :: cs'
                 else c0 :: refSet now cs' c
  end.

Definition refRemove (cs : list Condition) (typ : string) : list Condition :=
  List.filter (λ c, negb (String.eqb (cond_Type c) typ)) cs.

(** ** Errors *)
Definition hasReason (reason : string) (e : error) : bool :=
  errorsAny (λ e0, match e0 with statusError s => String.eqb (se_Reason s) reason | _ => false end) e.

Definition refRemoveFinalizer (fs : list string) (f : string) : list string :=
  List.filter (λ g, negb (String.eqb g f)) fs.

#[export] Instance refApi : ApiMachinery := {|
  IsNotFound := hasReason "NotFound";
  IsAlreadyExists := hasReason "AlreadyExists";
  IsConflict := hasReason "Conflict";
  IsServerTimeout := hasReason "ServerTimeout";
  IsTimeout := hasReason "Timeout";
  IsTooManyRequests := hasReason "TooManyRequests";
  IsServiceUnavailable := hasReason "ServiceUnavailable";
  IsInternalError := hasReason "InternalError";
  IgnoreNotFound e := if hasReason "NotFound" e then None else Some e;
  FindStatusCondition := firstCondition;
  SetStatusCondition := refSet;
  RemoveStatusCondition := refRemove;
  ContainsFinalizer fs f := existsb (String.eqb f) fs;
  AddFinalizer fs f := if existsb (String.eqb f) fs then fs else fs ++ [f];
  RemoveFinalizer := refRemoveFinalizer;
  Quote s := quoteByte +:+ s +:+ quoteByte;
|}.

Lemma refSet_first_same now cs c :
  firstCondition (refSet now cs c) (cond_Type c)
  = Some (stampCondition now (firstCondition cs (cond_Type c)) c).
Proof.
  assert (Hst : ∀ o, cond_Type (stampCondition now o c) = cond_Type c)
    by (intros [?|]; done).
  induction cs as [|c0 cs IH]; cbn [refSet firstCondition].
  - by rewrite Hst, String.eqb_refl.
  - destruct (String.eqb (cond_Type c0) (cond_Type c)) eqn:He; cbn [firstCondition].
    + by rewrite Hst, String.eqb_refl.
    + by rewrite He.
Qed.

Lemma refSet_first_other now cs c typ :
  typ ≠ cond_Type c → firstCondition (refSet now cs c) typ = firstCondition cs typ.
Proof.
  intros Hn. assert (Hst : ∀ o, String.eqb (cond_Type (stampCondition now o c)) typ = false)
    by (intros [?|]; apply String.eqb_neq; simpl; congruence).
  induction cs as [|c0 cs IH]; cbn [refSet firstCondition].
  - by rewrite Hst.
  - destruct (String.eqb_spec (cond_Type c0) (cond_Type c)) as [He|He]; cbn [firstCondition].
    + rewrite Hst. destruct (String.eqb_spec (cond_Type c0) typ); congruence.
    + by rewrite IH.
Qed.

Lemma refSet_elem now cs c x :
  x ∈ refSet now cs c →
  x ∈ cs ∨ x = stampCondition now (firstCondition cs (cond_Type c)) c.
Proof.
  induction cs as [|c0 cs IH]; cbn [refSet firstCondition].
  - intros ->%list_elem_of_singleton. by right.
  - destruct (String.eqb (cond_Type c0) (cond_Type c)); rewrite !elem_of_cons; [tauto|].
    intros [->|Hx]; [left; by left|]. apply IH in Hx as [?|?]; auto.
Qed.

Lemma refSet_keep now cs c x : x ∈ cs → cond_Type x ≠ cond_Type c → x ∈ refSet now cs c.
Proof.
  induction cs as [|c0 cs IH]; cbn [refSet]; [by intros ?%elem_of_nil|].
  rewrite elem_of_cons. intros Hx Hn.
  destruct (String.eqb_spec (cond_Type c0) (cond_Type c)); rewrite elem_of_cons;
    destruct Hx as [->|?]; auto; congruence.
Qed.

Lemma refRemove_first_same cs typ : firstCondition (refRemove cs typ) typ = None.
Proof.
  unfold refRemove. induction cs as [|c cs IH]; simpl; [done|].
  destruct (String.eqb_spec (cond_Type c) typ); simpl; [done|].
  by destruct (String.eqb_spec (cond_Type c) typ).
Qed.

Lemma refRemove_first_other cs typ typ' :
  typ' ≠ typ → firstCondition (refRemove cs typ) typ' = firstCondition cs typ'.
Proof.
  intros Hn. unfold refRemove. induction cs as [|c cs IH]; simpl; [done|].
  destruct (String.eqb_spec (cond_Type c) typ); simpl;
    destruct (String.eqb_spec (cond_Type c) typ'); congruence.
Qed.

Lemma existsb_elem fs f : existsb (String.eqb f) fs = true ↔ f ∈ fs.
Proof.
  rewrite existsb_exists. setoid_rewrite String.eqb_eq. setoid_rewrite <- list_elem_of_In.
  naive_solver.
Qed.

#[export] Instance refApi_laws : ApiMachineryLaws refApi.
Proof.
  split; try done; simpl.
  - apply refSet_first_same.
  - apply refSet_first_other.
  - apply refSet_elem.
  - apply refSet_keep.
  - apply refRemove_first_same.
  - apply refRemove_first_other.
  - intros cs typ x. unfold refRemove.
    rewrite list_elem_of_In, filter_In, <- list_elem_of_In, negb_true_iff, String.eqb_neq. done.
  - apply existsb_elem.
  - intros fs f g. destruct (existsb (String.eqb f) fs) eqn:He.
    + apply existsb_elem in He. naive_solver.
    + rewrite elem_of_app, list_elem_of_singleton. tauto.
  - intros fs f g. unfold refRemoveFinalizer.
    rewrite list_elem_of_In, filter_In, <- list_elem_of_In, negb_true_iff, String.eqb_neq. tauto.
Qed.

(** ** The other libraries

    Kubeconfigs with one endpoint, whose text is the address of the server; a
    template library that writes the text of the template; and objects that are
    serialized as themselves. *)
Definition secureRest (host : string) : RestConfig :=
  MkRestConfig host "" "" false false false "" "" "" "" 0%Z "".

#[export] Instance refClientCmd : ClientCmd := {|
  RESTConfigFromKubeConfig text :=
    if String.eqb text "" then Err (errorString "empty kubeconfig") else Ok (secureRest text);
  IsConfigTransportTLS cfg := bool_decide (is_Some (cutPrefix "https://" (rc_Host cfg)));
  LoadKubeConfig text :=
    Ok (MkKubeConfig {["c" := MkKubeCluster text "" "" ""]} {["u" := ""]}
          {["x" := MkKubeContext "c" "u"]} "x");
  WriteKubeConfig cfg := Ok (kube_CurrentContext cfg);
  NewClientFromConfig _ := None;
  NewClientsetFromConfig _ := None;
|}.

#[export] Instance refRawJSON : RawJSON := {| MarshalRaw raw := Ok raw |}.

#[export] Instance refRendering : Rendering := {|
  parseTemplate _ := None;
  executeTemplate tmpl _ := ([tmpl], None);
  readEmbedded name := Ok name;
  Indent text := text;
  marshalResult kind _ _ := Ok kind;
  componentsOf raw := Some (JString raw);
|}.

(** The controller of an object, by UID. *)
#[export] Instance refSandboxLibs : SandboxLibs := {|
  MarshalPodSpec spec := Ok (pspec_Rest spec);
  UnmarshalObject raw := Ok raw;
  IsControlledBy meta owner :=
    existsb (λ o, bool_decide (owner_Controller o = Some true)
                  && String.eqb (owner_UID o) (meta_UID owner)) (meta_OwnerReferences meta);
|}.

(** [schema.ParseGroupVersion] on [group/version] and [version]. *)
#[export] Instance refSuspensionLibs : SuspensionLibs := {|
  ParseGroup v := match Split v (byte 47) with
                  | [_] => Some "" | [group; _] => Some group | _ => None
                  end;
  IsForbidden := hasReason "Forbidden";
  IsNoMatchError _ := false;
|}.

(** ** A scripted environment

    It holds one run, one global configuration, an approval, a policy, an agent
    with its provider, and a clock that moves by a second at each reading; it
    accepts every patch, and every other call succeeds. *)
Record world := MkWorld {
  w_now : Time;
  w_run : AgenticRun;
  w_runs : list AgenticRun;
  w_config : option AgenticOLSConfig;
  w_approval : option AgenticRunApproval;
  w_policy : ApprovalPolicy;
  w_agent : Agent;
  w_llm : LLMProvider;
  w_result : res ResultCR;
  w_pods : list Pod;
  w_meta : ObjectMeta;
  w_claims : list ObjectMeta;
  w_cleanup : SuspensionCleanup;
  w_failed : option error;   (* what the agent caller and the log store answer *)
  w_cfg : option Config;
}.

Definition notFound : error := statusError (MkStatusError "NotFound" 404 "not found").

Definition withRun (w : world) (run : AgenticRun) : world :=
  MkWorld (w_now w) run (w_runs w) (w_config w) (w_approval w) (w_policy w) (w_agent w) (w_llm w)
    (w_result w) (w_pods w) (w_meta w) (w_claims w) (w_cleanup w) (w_failed w) (w_cfg w).
Definition withConfig (w : world) (c : AgenticOLSConfig) : world :=
  MkWorld (w_now w) (w_run w) (w_runs w) (Some c) (w_approval w) (w_policy w) (w_agent w) (w_llm w)
    (w_result w) (w_pods w) (w_meta w) (w_claims w) (w_cleanup w) (w_failed w) (w_cfg w).
Definition tick (w : world) : world :=
  MkWorld (w_now w + Second)%Z (w_run w) (w_runs w) (w_config w) (w_approval w) (w_policy w)
    (w_agent w) (w_llm w) (w_result w) (w_pods w) (w_meta w) (w_claims w) (w_cleanup w) (w_failed w) (w_cfg w).

Definition orNotFound {A} (o : option A) : res A :=
  match o with Some a => Ok a | None => Err notFound end.

Definition serve (w : world) (e : eff) : answer e * world :=
  match e as e0 return answer e0 * world with
  | ApiGetRun _ => (Ok (w_run w), w)
  | ApiListRuns => (Ok (w_runs w), w)
  | ApiGetConfig _ => (orNotFound (w_config w), w)
  | PatchRun _ obj _ => (Ok obj, withRun w obj)
  | StatusPatchRun _ obj => (Ok obj, withRun w obj)
  | DeleteRun _ => (None, w)
  | ListRuns => (Ok (w_runs w), w)
  | ListRunsWithLabel _ _ => (Ok (w_runs w), w)
  | GetPolicy _ => (Ok (w_policy w), w)
  | GetApproval _ => (orNotFound (w_approval w), w)
  | CreateApproval a => (Ok a, w)
  | GetAgent _ => (Ok (w_agent w), w)
  | GetLLMProvider _ => (Ok (w_llm w), w)
  | GetSecret _ => (Ok ∅, w)
  | GetResult _ _ => (w_result w, w)
  | CreateResult obj => (Ok obj, w)
  | StatusPatchResult _ obj => (Ok obj, w)
  | ListPods _ _ => (Ok (w_pods w), w)
  | GetSandboxMeta _ _ => (Ok (w_meta w), w)
  | ListClaims _ => (Ok (w_claims w), w)
  | StatusPatchConfig _ obj => (Ok obj, withConfig w obj)
  | RecordEvent _ _ _ _ => (tt, w)
  | Analyze _ _ => (w_failed w, w)
  | Execute _ _ _ => (w_failed w, w)
  | Verify _ _ _ _ => (w_failed w, w)
  | Escalate _ _ => (w_failed w, w)
  | ReleaseSandboxes _ _ => (None, w)
  | ReleaseSandbox _ _ => (None, w)
  | CleanupSuspension _ _ => ((w_cleanup w, None), w)
  | SpokeAccessForRun _ => ((None, None), w)
  | CleanupStepRBAC _ _ _ => (None, w)
  | ObjGet _ _ _ => (Err notFound, w)
  | ObjList _ _ _ _ => (Ok [], w)
  | ObjCreate _ _ o => (Ok o, w)
  | ObjUpdate _ _ o => (Ok o, w)
  | ObjPatch _ _ _ o => (Ok o, w)
  | ObjLabel _ _ _ _ _ _ => (Err notFound, w)
  | ObjDelete _ _ _ _ => (None, w)
  | CreateToken _ _ _ _ => (Ok "token", w)
  | LoadReaderBindings => ([], w)
  | StoreReaderBindings _ => (tt, w)
  | Traceparent => ("", w)
  | DeleteLogs _ => (w_failed w, w)
  | Audit _ => (tt, w)
  | ConfigGet => (w_cfg w, w)
  | Now => (w_now w, tick w)
  | ContextWithTimeout _ => (tt, w)
  | ContextErr => (None, w)
  | ParentContextErr => (None, w)
  | Sleep _ => (None, w)
  | Lock => (tt, w)
  | Unlock => (tt, w)
  end.

(** The same environment with some calls answered otherwise. *)
Definition script := ∀ e, option (answer e).
Definition serveWith (ov : script) (w : world) (e : eff) : answer e * world :=
  match ov e with Some a => (a, w) | None => serve w e end.
Definition orElse (first second : script) : script := λ e,
  match first e with Some a => Some a | None => second e end.

(** *** Runs of a handler *)
Section Scripted.
Context {E : Type} {R : E → Type} {W A : Type} (sv : W → ∀ e : E, R e * W) (w : W) (m : prog R A).

(** The trace and the result of a program in a world. *)
Definition traceIn : list (event R) := fst (fst (exec sv w m)).
Definition resultIn : A := snd (fst (exec sv w m)).

Lemma runs_in : runs m traceIn resultIn.
Proof.
  unfold traceIn, resultIn. destruct (exec sv w m) as [[tr a] w'] eqn:Hx. by eapply exec_runs.
Qed.

(** A run whose trace and result pass a test. *)
Lemma run_such (p : list (event R) → A → bool) :
  p traceIn resultIn = true → ∃ tr o, runs m tr o ∧ p tr o = true.
Proof. intros Hp. exists traceIn, resultIn. split; [apply runs_in|done]. Qed.

(** A run with a call that passes a test. *)
Lemma run_call_such (p : event R → bool) :
  existsb p traceIn = true → ∃ tr o ev, runs m tr o ∧ ev ∈ tr ∧ p ev = true.
Proof.
  intros (tr & o & Hr & (ev & ? & ?)%pick)%(run_such (λ tr _, existsb p tr)). eauto 6.
Qed.

(** A run cut at a call that passes a test. *)
Lemma run_cut_such (p : event R → bool) :
  existsb p traceIn = true → ∃ tr1 ev tr2 o, runs m (tr1 ++ ev :: tr2) o ∧ p ev = true.
Proof.
  intros (tr & o & ev & Hr & (tr1 & tr2 & ->)%list_elem_of_split & ?)%run_call_such. eauto 6.
Qed.

(** A run whose trace and result pass one test, cut at a call that passes another. *)
Lemma run_split_such (p : event R → bool) (q : list (event R) → A → bool) :
  q traceIn resultIn && existsb p traceIn = true →
  ∃ tr before ev after o, runs m tr o ∧ tr = before ++ ev :: after ∧ p ev = true ∧ q tr o = true.
Proof.
  intros [Hq (ev & (before & after & Heq)%list_elem_of_split & Hp)%pick]%andb_true_iff.
  exists traceIn, before, ev, after, resultIn. split; [apply runs_in|done].
Qed.

End Scripted.

(** A run with a status patch that passes a test. *)
Lemma run_patch_such {W A : Type} (sv : W → ∀ e : eff, answer e * W) (w : W) (m : M A)
    (p : AgenticRun → AgenticRun → bool) :
  existsb (λ '(base, obj), p base obj) (statusPatches (traceIn sv w m)) = true →
  ∃ tr o base obj, runs m tr o ∧ (base, obj) ∈ statusPatches tr ∧ p base obj = true.
Proof.
  intros (tr & o & Hr & ([base obj] & ? & ?)%pick)
    %(run_such sv w m (λ tr _, existsb (λ '(base, obj), p base obj) (statusPatches tr))).
  eauto 8.
Qed.

(** ** Sample objects *)
Definition sampleTime : Time := (1000 * Hour)%Z.

Definition sampleMeta (name : string) : ObjectMeta :=
  MkObjectMeta name "openshift-lightspeed" ("uid-" +:+ name) "1" 1 sampleTime None ∅ ∅ []
    ["agentic.openshift.io/execution-rbac-cleanup"; "agentic.openshift.io/templog-cleanup"].

Definition sampleStep : StepStatus := MkStepStatus [] emptySandboxInfo [].

Definition sampleSpec (execution verification : string) : AgenticRunSpec :=
  MkAgenticRunSpec "the pod crashes" "" (MkAnalysisOutputSpec "" None) (MkToolsSpec [] [] [])
    (MkAgenticRunStep "default") (MkAgenticRunStep execution) (MkAgenticRunStep verification)
    "" None.

(** A run in the middle of its workflow, with the given conditions. *)
Definition sampleRun (cs : list Condition) : AgenticRun :=
  MkAgenticRun (sampleMeta "run") (sampleSpec "default" "default")
    (MkAgenticRunStatus cs (MkStepsStatus sampleStep sampleStep sampleStep sampleStep)
       zeroTokenUsage None None).

Definition sampleCondition (typ : string) (st : ConditionStatus) (reason : string) : Condition :=
  MkCondition typ st 1 sampleTime reason "".

Definition sampleAgent : Agent :=
  MkAgent (sampleMeta "default")
    (MkAgentSpec (MkLLMProviderReference "llm") "model" (MkAgentTimeouts 0 0 0 0) 0 None ∅).

Definition sampleLLM : LLMProvider :=
  MkLLMProvider (sampleMeta "llm")
    (MkLLMProviderSpec LLMProviderOpenAI
       (MkAnthropicConfig (MkSecretReference "") "")
       (MkGoogleCloudVertexConfig (MkSecretReference "") "" "" "" "")
       (MkOpenAIConfig (MkSecretReference "key") "")
       (MkAzureOpenAIConfig (MkSecretReference "") "" "" "")
       (MkAWSBedrockConfig (MkSecretReference "") "" "")).

Definition sampleApproval : AgenticRunApproval :=
  MkAgenticRunApproval (sampleMeta "run")
    (MkAgenticRunApprovalSpec zeroApprover
       (omap (λ stage, NewApprovalStage stage ApprovalDecisionApproved "" (Some 0%Z))
          [SandboxStepAnalysis; SandboxStepExecution; SandboxStepVerification])) [].

Definition samplePolicy : ApprovalPolicy :=
  MkApprovalPolicy (sampleMeta "cluster") (MkApprovalPolicySpec [] 0).

Definition sampleConfig : Config :=
  MkConfig "bare-pod" None "" "" "" "" "" "" "" "" "" "" "" "" false 30.

Definition sampleOption (title : string) : RemediationOption :=
  MkRemediationOption title "" zeroDiagnosis
    (MkRemediationPlan "" [] "" "" (MkRollbackPlan "" "")) (MkVerificationPlan "" [])
    (MkRBACResult [] []) None.

(** An analysis result with two options. *)
Definition sampleAnalysis : ResultCR :=
  MkResultCR (sampleMeta "run-analysis-1") "run"
    (AnalysisResult (MkAnalysisResultStatus
       [sampleCondition ResultConditionCompleted ConditionTrue ResultReasonSucceeded]
       ActionRequiredTrue zeroDiagnosis [sampleOption "restart"; sampleOption "scale up"]
       emptySandboxInfo (MkTokenUsage (Some 10%Z) (Some 5%Z)) "")).

Definition sampleVerification : ResultCR :=
  MkResultCR (sampleMeta "run-verification-1") "run"
    (VerificationResult (MkVerificationResultStatus
       [sampleCondition ResultConditionCompleted ConditionTrue ResultReasonFailed]
       [] "still crashing" emptySandboxInfo zeroTokenUsage "checks failed")).

Definition sampleWorld (run : AgenticRun) : world :=
  MkWorld sampleTime run [run] None (Some sampleApproval) samplePolicy sampleAgent sampleLLM
    (Ok sampleAnalysis) [] (sampleMeta "meta") [] (MkSuspensionCleanup [] [] []) None
    (Some sampleConfig).

(** The reconciler with all of its collaborators. *)
Definition sampleReconciler : AgenticRunReconciler :=
  MkReconciler "openshift-lightspeed" true true true true true true.

Definition sampleResolved : resolvedWorkflow :=
  let step := MkResolvedStep sampleAgent sampleLLM (MkToolsSpec [] [] []) in
  MkResolvedWorkflow step (Some step) (Some step).
