(* ===== verification/Witnesses.v ===== *)
(** The theorems at concrete inputs: every hypothesis a theorem states is met by
    a run of the handler in a sample world, with the library functions of
    [RefApi.v]. *)
From stdpp Require Import base list option strings gmap.
From Stdlib Require Import ZArith Lia.
From S2P Require Import Prelude GoText ApiMachinery Types Phase Effects Approval Resolve.
From S2P Require Import Results Helpers Handlers Suspension Reconcile PodHandler TimeoutHandler OLSConfig Lifecycle RefApi.

Local Open Scope string_scope.
Local Open Scope list_scope.

Abbreviation analyzing := (sampleRun [sampleCondition AgenticRunConditionAnalyzed ConditionUnknown
  reasonInProgress]) (only parsing).
Abbreviation proposed := (sampleRun [sampleCondition AgenticRunConditionAnalyzed ConditionTrue
  reasonComplete]) (only parsing).
Abbreviation executing := (sampleRun
  [sampleCondition AgenticRunConditionAnalyzed ConditionTrue reasonComplete;
   sampleCondition AgenticRunConditionExecuted ConditionUnknown reasonInProgress]) (only parsing).
Abbreviation verifying := (sampleRun
  [sampleCondition AgenticRunConditionAnalyzed ConditionTrue reasonComplete;
   sampleCondition AgenticRunConditionExecuted ConditionTrue reasonComplete;
   sampleCondition AgenticRunConditionVerified ConditionUnknown reasonInProgress]) (only parsing).
Abbreviation failed := (sampleRun [sampleCondition AgenticRunConditionAnalyzed ConditionFalse
  reasonFailed]) (only parsing).

(** ** Phases, resolution, helpers *)
Lemma Stopping_phase_transparent_witness :
  DerivePhase (setLastTransitionTime
    (SetStatusCondition sampleTime (run_Conditions executing)
       (NewCondition AgenticRunConditionStopping ConditionTrue reasonSystemSuspended "" 1))
    AgenticRunConditionStopping sampleTime) = PhaseExecuting.
Proof.
  refine (eq_trans (Stopping_phase_transparent sampleTime sampleTime _ ConditionTrue
    reasonSystemSuspended "" 1%Z) _). compute_done.
Defined.

Definition isOk {A} (x : res A) : bool := match x with Ok _ => true | Err _ => false end.

Lemma resolveAgenticRun_total_witness :
  let m := resolveAgenticRun proposed (Some sampleApproval) "openshift-lightspeed" in
  ∃ tr w, runs m tr (Ok w) ∧
    (rw_Execution w = None ↔ AgenticRunStep_IsZero (spec_Execution (run_Spec proposed)) = true).
Proof.
  intros m.
  destruct (run_such serve (sampleWorld proposed) m (λ _ o, isOk o) ltac:(compute_done))
    as (tr & [w|err] & Hr & Ho); [|discriminate Ho].
  exists tr, w. split; [exact Hr|].
  exact (proj1 (resolveAgenticRun_total proposed (Some sampleApproval) "openshift-lightspeed" _ _ Hr)).
Defined.

Definition flaky : M (unit * option error) :=
  bind (call (GetPolicy "cluster"))
    (λ _, Ret (tt, Some (statusError (MkStatusError "Conflict" 409 "conflict")))).

Lemma retryOnTransient_backoff_witness :
  ∃ tr o, runs (retryOnTransient tt flaky) tr o ∧ length (sleeps tr) = 2%nat ∧
    sleeps tr `prefix_of` [(5 * Second)%Z; (10 * Second)%Z].
Proof.
  destruct (run_such serve (sampleWorld analyzing) (retryOnTransient tt flaky)
    (λ tr _, bool_decide (length (sleeps tr) = 2%nat)) ltac:(compute_done)) as (tr & o & Hr & Hl).
  exists tr, o. split; [exact Hr|]. split; [by bool_hyps|].
  apply (retryOnTransient_backoff flaky tt tr o); [unfold flaky; emits_walk done|exact Hr].
Defined.

(** The base of a patch is in the phase. *)
Definition from (phase : AgenticRunPhase) (base obj : AgenticRun) : bool :=
  bool_decide (DerivePhase (run_Conditions base) = phase).

Lemma from_phase phase base obj :
  from phase base obj = true → DerivePhase (run_Conditions base) = phase.
Proof. apply bool_decide_eq_true. Qed.

Lemma failStep_fails_witness :
  let m := failStep sampleReconciler executing AgenticRunConditionExecuted (errorString "broken") in
  ∃ tr o base obj, runs m tr o ∧ (base, obj) ∈ statusPatches tr ∧
    DerivePhase (run_Conditions obj) = PhaseFailed.
Proof.
  intros m.
  destruct (run_patch_such serve (sampleWorld executing) m (from PhaseExecuting) ltac:(compute_done))
    as (tr & o & base & obj & Hr & Hin & Hp%from_phase).
  exists tr, o, base, obj. do 2 (split; [done|]).
  apply (failStep_fails sampleReconciler executing AgenticRunConditionExecuted
    (errorString "broken") tr o base obj Hr Hin); by rewrite Hp.
Defined.

Lemma trimNonSelectedOptions_in_range_witness :
  let run := appendResultRef proposed "analysis" "run-analysis-1" ActionOutcomeSucceeded in
  let m := trimNonSelectedOptions sampleReconciler run (Some sampleApproval) in
  ∃ tr o base obj opt, runs m tr o ∧ (base, obj) ∈ omap resultPatchOf tr ∧
    ar_Options (analysisStatus base) !! 0%nat = Some opt ∧ obj = withOptions base [opt].
Proof.
  intros run m.
  destruct (run_such serve (sampleWorld run) m
    (λ tr _, existsb (λ _ : ResultCR * ResultCR, true) (omap resultPatchOf tr)) ltac:(compute_done))
    as (tr & o & Hr & ([base obj] & Hin & _)%pick).
  destruct (proj1 (trimNonSelectedOptions_in_range sampleReconciler run (Some sampleApproval) tr o
    Hr) base obj Hin) as (opt & _ & Hopt & ->).
  exists tr, o, base, (withOptions base [opt]), opt. done.
Defined.

(** ** Workflow handlers *)
Lemma stageHandler_launches_witness :
  let m := stageHandler sampleReconciler StageExecution proposed sampleResolved
             (Some sampleApproval) None in
  ∃ tr o ev, runs m tr o ∧ ev ∈ tr ∧ launches ev = true ∧
    isStageApproved (Some sampleApproval) None SandboxStepExecution = true.
Proof.
  intros m. destruct (run_call_such serve (sampleWorld proposed) m launches ltac:(compute_done))
    as (tr & o & ev & Hr & Hin & Hl).
  exists tr, o, ev. do 3 (split; [done|]).
  apply (stageHandler_launches sampleReconciler StageExecution proposed sampleResolved
    (Some sampleApproval) None tr o ev Hr Hin Hl).
Defined.

Lemma stageHandler_never_stalls_witness :
  let m := stageHandler sampleReconciler StageExecution proposed sampleResolved
             (Some sampleApproval) None in
  ∃ tr o, runs m tr o ∧ acts StageExecution tr o.
Proof.
  intros m. pose proof (runs_in serve (sampleWorld proposed) m) as Hr. do 2 eexists. split; [exact Hr|].
  refine (stageHandler_never_stalls sampleReconciler StageExecution proposed sampleResolved
    (Some sampleApproval) None _ _ Hr _ _ _ _); compute_done.
Defined.

(** The first [n] status patches are accepted, the others are not; agents cannot be
    launched. *)
Definition serveUnpatched (s : nat * world) (e : eff) : answer e * (nat * world) :=
  match e as e0 return answer e0 * (nat * world) with
  | StatusPatchRun base obj =>
      match s with
      | (S n, w) => (Ok obj, (n, withRun w obj))
      | (O, w) => (Err (errorString "the server is unavailable"), (O, w))
      end
  | Execute _ _ _ => (Some (errorString "no sandbox"), s)
  | e0 => let '(a, w) := serve (snd s) e0 in (a, (fst s, w))
  end.

(** The handler is done: no error, and nothing asked for. *)
Definition isDone (o : outcome) : bool :=
  match o with
  | (MkResult false 0%Z, None) => true
  | _ => false
  end.

Lemma isDone_ok o : isDone o = true → o = ok emptyResult.
Proof. destruct o as [[[] []] []]; done. Qed.

(** A launch fails, and so does the patch that records the failure: the run is left
    [Executing], and the handler neither reports an error nor asks to come back. *)
Lemma failed_launch_can_stall :
  let m := stageHandler sampleReconciler StageExecution proposed sampleResolved
             (Some sampleApproval) None in
  ∃ tr base obj, runs m tr (ok emptyResult) ∧ acceptedPatches tr = [(base, obj)] ∧
    DerivePhase (run_Conditions obj) = PhaseExecuting.
Proof.
  intros m. destruct (run_such serveUnpatched (1, sampleWorld proposed) m
    (λ tr o, isDone o && match acceptedPatches tr with
             | [(_, obj)] => bool_decide (DerivePhase (run_Conditions obj) = PhaseExecuting)
             | _ => false
             end) ltac:(compute_done)) as (tr & o & Hr & Hp).
  apply andb_true_iff in Hp as [->%isDone_ok Hp].
  destruct (acceptedPatches tr) as [|[base obj] []] eqn:Ha; try discriminate Hp.
  apply bool_decide_eq_true in Hp. by exists tr, base, obj.
Qed.

(** The approval that denies the execution. *)
Definition denyingApproval : AgenticRunApproval :=
  MkAgenticRunApproval (sampleMeta "run")
    (MkAgenticRunApprovalSpec zeroApprover
       (omap (λ stage, NewApprovalStage stage ApprovalDecisionDenied "" None)
          [SandboxStepExecution])) [].

Lemma stageHandler_denied_witness :
  ∃ tr obj, statusPatches tr = [(proposed, obj)] ∧ DerivePhase (run_Conditions obj) = PhaseDenied.
Proof.
  pose proof (runs_in serve (sampleWorld proposed) (stageHandler sampleReconciler StageExecution proposed
    sampleResolved (Some denyingApproval) None)) as Hr.
  destruct (stageHandler_denied sampleReconciler StageExecution proposed sampleResolved
    (Some denyingApproval) None _ _ eq_refl eq_refl Hr) as (_ & obj & Hs & _ & _ & Hp).
  eexists _, obj. split; [exact Hs|]. apply Hp. compute_done.
Defined.

(** A workflow of analysis only. *)
Definition analysisOnly : resolvedWorkflow :=
  MkResolvedWorkflow (rw_Analysis sampleResolved) None None.

Lemma skipped_steps_witness :
  ∃ tr obj, statusPatches tr = [(proposed, obj)] ∧
    DerivePhase (run_Conditions obj) = PhaseCompleted.
Proof.
  pose proof (runs_in serve (sampleWorld proposed) (stageHandler sampleReconciler StageExecution proposed
    analysisOnly (Some sampleApproval) None)) as Hr.
  destruct (skipped_steps sampleReconciler StageExecution proposed analysisOnly
    (Some sampleApproval) None _ _ eq_refl ltac:(compute_done) Hr) as (_ & obj & Hs & Hp).
  eexists _, obj. split; [exact Hs|exact Hp].
Defined.

Lemma handleRevision_resets_witness :
  let m := handleRevision sampleReconciler proposed sampleResolved in
  ∃ tr o base obj rest, runs m tr o ∧ statusPatches tr = (base, obj) :: rest ∧
    needsRevision obj = false.
Proof.
  intros m.
  destruct (run_such serve (sampleWorld proposed) m
    (λ tr _, negb (length (statusPatches tr) =? 0)%nat) ltac:(compute_done)) as (tr & o & Hr & Hn).
  destruct (statusPatches tr) as [|[base obj] rest] eqn:Hp; [done|].
  exists tr, o, base, obj, rest. do 2 (split; [done|]).
  apply (handleRevision_resets sampleReconciler proposed sampleResolved tr o base obj rest Hr Hp).
Defined.

(** ** Suspension *)
Definition stopping := handleSuspensionAt sampleReconciler executing sampleTime.

Lemma handleSuspensionAt_steps_witness :
  ∃ tr v ev base obj ans, runs stopping tr v ∧ ev ∈ tr ∧ ev = Ev (StatusPatchRun base obj) ans.
Proof.
  destruct (run_call_such serve (sampleWorld executing) stopping writesRun ltac:(compute_done))
    as (tr & v & ev & Hr & Hin & Hw).
  destruct (proj2 (handleSuspensionAt_steps sampleReconciler executing sampleTime tr v Hr) ev Hin Hw)
    as (base & obj & ans & He & _).
  exists tr, v, ev, base, obj, ans. done.
Defined.

(** The patch that concludes the stop as torn down. *)
Definition concludes (ev : event answer) : bool :=
  match ev with
  | Ev (StatusPatchRun _ obj) _ =>
      condHas (find obj AgenticRunConditionStopping) ConditionFalse reasonTeardownComplete
  | _ => false
  end.

Lemma confirmed_after_cleanup_witness :
  ∃ tr v uid activation report, runs stopping tr v ∧
    Ev (CleanupSuspension uid activation) (report, None) ∈ tr ∧ Confirmed report = true.
Proof.
  destruct (run_cut_such serve (sampleWorld executing) stopping concludes ltac:(compute_done))
    as (tr1 & ev & tr2 & v & Hr & Hc).
  destruct ev as [[] ans]; try discriminate Hc.
  destruct (confirmed_after_cleanup sampleReconciler executing sampleTime v tr1 _ _ ans tr2 Hr
    (or_introl Hc)) as (uid & activation & report & Hin & Hconf).
  eexists _, v, uid, activation, report. split; [exact Hr|]. split; [|done].
  apply elem_of_app. by left.
Defined.

Lemma teardown_after_acceptance_witness :
  ∃ tr v ev, runs stopping tr v ∧ ev ∈ tr ∧ acceptedEvent ev = true.
Proof.
  destruct (run_cut_such serve (sampleWorld executing) stopping tearsDown ltac:(compute_done))
    as (tr1 & ev & tr2 & v & Hr & Ht).
  destruct (teardown_after_acceptance sampleReconciler executing sampleTime v tr1 ev tr2 Hr Ht)
    as (ev0 & Hin & Ha).
  eexists _, v, ev0. split; [exact Hr|]. split; [|done]. apply elem_of_app. by left.
Defined.

Lemma handleSuspensionAt_comesBack_witness :
  ∃ tr res run', runs stopping tr ((res, None), run') ∧ Requeue res = false.
Proof.
  destruct (run_such serve (sampleWorld executing) stopping
    (λ _ v, match snd (fst v) with None => true | Some _ => false end) ltac:(compute_done))
    as (tr & [[res [err|]] run'] & Hr & Hn); [discriminate Hn|].
  exists tr, res, run'. split; [done|].
  exact (proj1 (handleSuspensionAt_comesBack sampleReconciler executing sampleTime tr res run' Hr)).
Defined.

(** ** Reconciliation *)
Definition reconcile := Reconcile.Reconcile sampleReconciler (run_Key executing).

(** The approvals and the configurations read in a trace. *)
Definition approvalRead (ev : event answer) : option AgenticRunApproval :=
  match ev with Ev e a => match e return answer e → option AgenticRunApproval with
                          | GetApproval _ | CreateApproval _ => λ a, match a with Ok x => Some x | Err _ => None end
                          | _ => λ _, None
                          end a end.
Definition configRead (ev : event answer) : option AgenticOLSConfig :=
  match ev with Ev e a => match e return answer e → option AgenticOLSConfig with
                          | ApiGetConfig _ => λ a, match a with Ok x => Some x | Err _ => None end
                          | _ => λ _, None
                          end a end.

Lemma approvalEvent_read approval ev : approvalEvent approval ev → approvalRead ev = Some approval.
Proof. destruct ev as [[] a]; try done; destruct a; simpl; first [done | by intros ->]. Qed.

Definition finalized : AgenticRun :=
  withRunFinalizers proposed [rbacCleanupFinalizer; templogCleanupFinalizer].

Lemma Reconcile_never_stalls_witness :
  ∃ tr o, runs reconcile (Ev (ApiGetRun (run_Key finalized)) (Ok finalized) :: tr) o ∧
    workflowActs StageExecution tr o.
Proof.
  set (t := traceIn serve (sampleWorld finalized) reconcile).
  assert (Hr : runs reconcile t (resultIn serve (sampleWorld finalized) reconcile)) by apply runs_in.
  assert (Ht : t = Ev (ApiGetRun (run_Key finalized)) (Ok finalized) :: tail t)
    by (vm_compute; reflexivity).
  rewrite Ht in Hr. exists (tail t). eexists. split; [exact Hr|].
  assert (Ha : omap approvalRead (tail t) = [sampleApproval]) by (vm_compute; reflexivity).
  assert (Hc : omap configRead (tail t) = []) by (vm_compute; reflexivity).
  refine (Reconcile_never_stalls sampleReconciler StageExecution _ finalized _ _ Hr _ _ _ _ _ _);
    try compute_done.
  - intros c Hin. assert (Hin' : c ∈ omap configRead (tail t)) by (apply elem_of_omap; eauto).
    rewrite Hc in Hin'. by apply elem_of_nil in Hin'.
  - split; try compute_done. intros approval ev policy Hin Hev.
    assert (Hin' : approval ∈ omap approvalRead (tail t)).
    { apply elem_of_omap. exists ev. split; [exact Hin|by apply approvalEvent_read]. }
    rewrite Ha in Hin'. apply list_elem_of_singleton in Hin' as ->. done.
Defined.

Lemma Reconcile_launches_witness :
  ∃ tr o pre ev post stage launched run policy approval aev, runs reconcile tr o ∧
    tr = pre ++ ev :: post ∧ launchOf ev = Some (stage, launched) ∧
    Ev (ApiGetRun (run_Key executing)) (Ok run) ∈ pre ∧ policyInForce policy pre ∧ aev ∈ pre ∧
    approvalGot sampleReconciler run policy approval aev ∧
    launchReason run (Some approval) policy stage.
Proof.
  destruct (run_such serve (sampleWorld proposed) reconcile (λ tr _, existsb launches tr)
    ltac:(compute_done)) as (tr & o & Hr & Hn).
  destruct (Reconcile_launches sampleReconciler (run_Key executing) tr o Hr)
    as [H|(pre & ev & post & stage & launched & Heq & _ & _ & Hl & first & rest & run & policy &
      approval & aev & base & Hpre & _ & Hrun & _ & _ & (got & Hg & Hpol) & Hin & Hap & Hwhy & _)].
  - exfalso. apply existsb_exists in Hn as (ev & Hin%list_elem_of_In & Hev).
    by rewrite (proj1 (Forall_forall _ _) H ev Hin) in Hev.
  - exists tr, o, pre, ev, post, stage, launched, run, policy, approval, aev. subst pre.
    split_and!; try done.
    + destruct Hrun as [->|?]; set_solver.
    + exists got. split; [set_solver|done].
    + set_solver.
Defined.

(** A status patch of a terminal run. *)
Definition terminalWriteOf (ev : event answer) : bool :=
  match ev with
  | Ev (StatusPatchRun base _) _ => isTerminal (DerivePhase (run_Conditions base))
  | _ => false
  end.

Lemma Reconcile_keeps_terminal_witness :
  ∃ tr o base obj ans, runs reconcile tr o ∧ Ev (StatusPatchRun base obj) ans ∈ tr ∧
    (isTerminal (DerivePhase (run_Conditions obj)) = true ∨ revising obj).
Proof.
  destruct (run_call_such serve (sampleWorld failed) reconcile terminalWriteOf ltac:(compute_done))
    as (tr & o & ev & Hr & Hin & Ht).
  destruct ev as [[] ans]; try discriminate Ht. exists tr, o. do 3 eexists.
  split; [done|]. split; [exact Hin|].
  exact (Reconcile_keeps_terminal sampleReconciler (run_Key executing) tr o _ _ ans Hr Hin Ht).
Defined.

Lemma handleTerminalCleanup_deadline_witness :
  let m := handleTerminalCleanup sampleReconciler failed PhaseFailed 30 in
  ∃ tr o base obj ans, runs m tr o ∧ Ev (StatusPatchRun base obj) ans ∈ tr ∧
    terminalStamp (run_UID failed) 30 base obj.
Proof.
  intros m. destruct (run_call_such serve (sampleWorld failed) m terminalWriteOf ltac:(compute_done))
    as (tr & o & ev & Hr & Hin & Hs).
  destruct (handleTerminalCleanup_deadline sampleReconciler failed PhaseFailed 30 tr o ev Hr Hin)
    as [(b & b' & a & -> & Hst)|(b & b' & l & a & -> & _)]; [by destruct ev as [[] ?]| |discriminate Hs].
  exists tr, o, b, b', a. done.
Defined.

Lemma handleTemplogCleanup_bounded_witness :
  ∃ tr o, runs (handleTemplogCleanup sampleReconciler executing) tr o ∧
    Forall (templogWrite executing) tr.
Proof.
  pose proof (runs_in serve (sampleWorld executing) (handleTemplogCleanup sampleReconciler executing)) as Hr.
  eexists _, _. split; [exact Hr|].
  exact (proj1 (handleTemplogCleanup_bounded sampleReconciler executing _ _ Hr)).
Defined.

(** The patch that takes the cleanup finalizer off. *)
Definition dropsFinalizer (ev : event answer) : bool :=
  match ev with
  | Ev (PatchRun base obj _) _ =>
      bool_decide (rbacCleanupFinalizer ∈ run_Finalizers base)
      && bool_decide (rbacCleanupFinalizer ∉ run_Finalizers obj)
  | _ => false
  end.

Lemma deletion_releases_first_witness :
  let m := reconcileDeleting sampleReconciler executing in
  ∃ tr o ev, runs m tr o ∧ ev ∈ tr ∧ released (run_UID executing) ev = true.
Proof.
  intros m. destruct (run_cut_such serve (sampleWorld executing) m dropsFinalizer ltac:(compute_done))
    as (tr1 & ev & tr2 & o & Hr & Hd).
  destruct ev as [[] ans]; try discriminate Hd. simpl in Hd.
  apply andb_true_iff in Hd as [H1%bool_decide_eq_true H2%bool_decide_eq_true].
  destruct (deletion_releases_first sampleReconciler executing tr1 _ _ _ ans tr2 o Hr H1 H2)
    as (ev0 & Hin & Hrel).
  eexists _, o, ev0. split; [exact Hr|]. split; [|done]. apply elem_of_app. by left.
Defined.

(** ** Pod events *)
Lemma aggregateTokenUsage_total_witness :
  ∃ run', aggregateTokenUsage proposed sampleAnalysis = Some run' ∧
    status_TokenUsage (run_Status run') = MkTokenUsage (Some 10%Z) (Some 5%Z).
Proof.
  destruct (aggregateTokenUsage_total proposed sampleAnalysis) as (run' & Ha & Hu & _).
  - split; intros [? ?]; discriminate.
  - exists run'. split; [exact Ha|]. cbv zeta in Hu.
    change (TokenUsage_IsZero (extractTokenUsage sampleAnalysis)) with false in Hu.
    rewrite Hu. compute_done.
Defined.

(** The pod of a step of the sample run. *)
Definition samplePod (step phase : string) : Pod :=
  MkPod (MkObjectMeta "pod" "openshift-lightspeed" "uid-pod" "1" 1 sampleTime None
           (<[LabelRun := run_UID executing]> (<[LabelStep := step]> ∅)) ∅ [] []) phase [].

(** The world of a verification whose agent reported a failure. *)
Definition verificationWorld : world :=
  let w := sampleWorld verifying in
  MkWorld (w_now w) (w_run w) (w_runs w) (w_config w) (w_approval w) (w_policy w) (w_agent w)
    (w_llm w) (Ok sampleVerification) (w_pods w) (w_meta w) (w_claims w) (w_cleanup w)
    (w_failed w) (w_cfg w).

Lemma completeStep_serialised_witness :
  let m := completeStep sampleReconciler verifying (samplePod "verification" PodSucceeded)
             "verification" AgenticRunConditionVerified "" "" in
  ∃ tr e ev, runs m tr e ∧ ev ∈ tr ∧ releasesSandbox ev = true ∧
    statusPatches tr = acceptedPatches tr.
Proof.
  intros m. destruct (run_call_such serve verificationWorld m releasesSandbox ltac:(compute_done))
    as (tr & e & ev & Hr & Hin & Hrel).
  exists tr, e, ev. do 3 (split; [done|]).
  apply (completeStep_serialised sampleReconciler verifying _ _ _ _ _ tr e Hr) in Hrel; [|done].
  exact (proj1 Hrel).
Defined.


Lemma handlePodEvent_patch_witness :
  let m := handlePodEvent sampleReconciler (samplePod "execution" PodRunning) in
  ∃ tr reqs base obj, runs m tr reqs ∧ statusPatches tr = [(base, obj)] ∧ none launches tr.
Proof.
  intros m. destruct (run_patch_such serve (sampleWorld executing) m (λ _ _, true) ltac:(compute_done))
    as (tr & reqs & base & obj & Hr & Hin & _).
  destruct (handlePodEvent_patch sampleReconciler (samplePod "execution" PodRunning) tr reqs Hr)
    as [Hn Hp]. destruct (Hp _ _ Hin) as [Hs _].
  exists tr, reqs, base, obj. done.
Defined.

(** ** Periodic checks *)
Definition expiredRun : AgenticRun := withTerminal failed (Some 0%Z) (Some 1%Z).

Lemma sweepExpiredRuns_exact_witness :
  ∃ tr run, runs sweepExpiredRuns tr None ∧ run ∈ omap deletedOf tr ∧
    DerivePhase (run_Conditions run) = PhaseFailed.
Proof.
  destruct (run_such serve (sampleWorld expiredRun) sweepExpiredRuns
    (λ tr o, match o, tr with
             | None, Ev (ListRunsWithLabel _ _) (Ok [run]) :: Ev Now now :: _ => expired now run
             | _, _ => false
             end && match omap deletedOf tr with
                    | [run] => bool_decide (DerivePhase (run_Conditions run) = PhaseFailed)
                    | _ => false
                    end) ltac:(compute_done)) as (tr & [e|] & Hr & Ht); [discriminate Ht|].
  apply andb_true_iff in Ht as [Ht Hp].
  destruct (sweepExpiredRuns_exact tr None Hr) as (items & now & rest & -> & Hdel & Hall).
  destruct items as [|run [|? ?]]; try discriminate Ht.
  rewrite Hdel in Hp. cbn [List.filter] in Hp, Hdel. rewrite Ht in Hp, Hdel.
  eexists _, run. split; [exact Hr|]. split; [|by apply bool_decide_eq_true in Hp].
  apply Hall. split; [left|]. by apply expired_spec.
Defined.

Lemma timeoutDecision_deadlines_witness :
  let pod := samplePod "execution" PodRunning in
  let m := timeoutDecision executing pod "execution" sampleTime (sampleTime + Hour)%Z in
  ∃ tr msg reason, runs m tr (Some (msg, reason)) ∧ reason = ReasonSandboxTimeout.
Proof.
  intros pod m. destruct (run_such serve (sampleWorld executing) m
    (λ tr o, bool_decide (is_Some o)
       && forallb (λ ev, match agentRead ev with
                         | Some a => (resolveTimeout (Some a) "execution" <=? 2147483647)%Z
                         | None => true
                         end) tr) ltac:(compute_done)) as (tr & d & Hr & Ht).
  apply andb_true_iff in Ht as [Hd Hb].
  destruct d as [[msg reason]|]; [|by apply bool_decide_eq_true in Hd as [? ?]].
  exists tr, msg, reason. split; [exact Hr|].
  assert (Hag : ∀ name agent, Ev (GetAgent name) (Ok agent) ∈ tr →
    (resolveTimeout (Some agent) "execution" ≤ 2147483647)%Z).
  { intros name agent Hin. rewrite forallb_forall in Hb.
    apply list_elem_of_In, Hb in Hin. simpl in Hin. by apply Z.leb_le in Hin. }
  destruct (timeoutDecision_deadlines executing pod "execution" sampleTime (sampleTime + Hour)%Z
    tr _ Hr Hag) as [[_ [Hn _]]|[-> _]]; [|done].
  exfalso. apply Hn. left.
Defined.

Definition sampleClaim : ObjectMeta :=
  MkObjectMeta "claim" "openshift-lightspeed" "uid-claim" "1" 1 sampleTime None
    (<[LabelRun := run_UID executing]> (<[LabelStep := "execution"]> ∅)) ∅ [] [].

Definition claimWorld : world :=
  let w := sampleWorld executing in
  MkWorld (w_now w) (w_run w) (w_runs w) (w_config w) (w_approval w) (w_policy w) (w_agent w)
    (w_llm w) (w_result w) [] (w_meta w) [sampleClaim] (w_cleanup w) (w_failed w) (w_cfg w).

(** The claims of the namespace are listed as the sample claim alone. *)
Definition listsSample (ev : event answer) : bool :=
  match ev with
  | Ev (ListClaims ns) (Ok [claim]) =>
      String.eqb ns "openshift-lightspeed" && bool_decide (claim = sampleClaim)
  | _ => false
  end.

Lemma listSandboxPods_covers_claims_witness :
  ∃ tr entries, runs (listSandboxPods sampleReconciler) tr entries ∧
    ((∃ e pod, e ∈ entries ∧ entry_Pod e = Some pod ∧ entryKey e = entryKey (ownEntry sampleClaim))
     ∨ ownEntry sampleClaim ∈ entries).
Proof.
  destruct (run_call_such serve claimWorld (listSandboxPods sampleReconciler) listsSample
    ltac:(compute_done)) as (tr & entries & ev & Hr & Hin & Hl).
  destruct ev as [[] ans]; try discriminate Hl. simpl in Hl.
  destruct ans as [[|claim [|? ?]]|]; try discriminate Hl.
  apply andb_true_iff in Hl as [->%String.eqb_eq ->%bool_decide_eq_true].
  exists tr, entries. split; [exact Hr|].
  apply (listSandboxPods_covers_claims sampleReconciler tr entries [sampleClaim] sampleClaim Hr Hin);
    [left|discriminate|discriminate].
Defined.

(** ** Global suspension *)
Definition suspendedConfig : AgenticOLSConfig := MkAgenticOLSConfig (sampleMeta "cluster") true [].

Definition suspendedWorld : world := withConfig (sampleWorld executing) suspendedConfig.

Definition globalReconcile : M outcome :=
  OLSConfig.Reconcile (MkOLSReconciler true true true true) (MkNamespacedName "" "cluster").

Definition claimsSafeb (ev : event answer) : bool :=
  match ev with
  | Ev (StatusPatchConfig _ obj) _ =>
      bool_decide (configStatus obj AgenticOLSConfigConditionSuspended = Some ConditionTrue)
      && bool_decide (configStatus obj AgenticOLSConfigConditionSafeToResume = Some ConditionTrue)
  | _ => false
  end.

Lemma Reconcile_keeps_activation_witness :
  ∃ tr o base obj x, runs globalReconcile tr o ∧ Ev (StatusPatchConfig base obj) x ∈ tr ∧
    configStep base obj.
Proof.
  destruct (run_call_such serve suspendedWorld globalReconcile claimsSafeb ltac:(compute_done))
    as (tr & o & ev & Hr & Hin & Hc).
  destruct ev as [[] x]; try discriminate Hc. exists tr, o. do 3 eexists.
  split; [exact Hr|]. split; [exact Hin|].
  exact (Reconcile_keeps_activation (MkOLSReconciler true true true true)
    (MkNamespacedName "" "cluster") tr o _ _ x Hr Hin).
Defined.

Lemma safe_to_resume_evidence_witness :
  ∃ tr o activation report, runs globalReconcile tr o ∧
    Ev (CleanupSuspension "" (Some activation)) (report, None) ∈ tr ∧ Confirmed report = true.
Proof.
  destruct (run_call_such serve suspendedWorld globalReconcile claimsSafeb ltac:(compute_done))
    as (tr & o & ev & Hr & Hin & Hc).
  destruct ev as [[] x]; try discriminate Hc. simpl in Hc.
  apply andb_true_iff in Hc as [H1%bool_decide_eq_true H2%bool_decide_eq_true].
  destruct (safe_to_resume_evidence (MkOLSReconciler true true true true)
    (MkNamespacedName "" "cluster") tr o _ _ x Hr Hin (conj H1 H2))
    as (activation & report & items & _ & Hcl & Hconf & _).
  exists tr, o, activation, report. done.
Defined.

(** ** A late pod event during a revision

    The revision has removed the [Executed] condition; a pod of the execution
    before it is still running.  Its event marks the execution as in progress,
    and the run leaves the analysis of the revision. *)
Definition revisingRun : AgenticRun :=
  sampleRun [sampleCondition AgenticRunConditionAnalyzed ConditionUnknown reasonRevising].

(** A late pod event can resume the execution during a revision: the event
    of a running execution pod makes a run that is [Analyzing] its revision
    [Executing]. *)
Theorem late_pod_event_resumes_execution :
  let m := handlePodEvent sampleReconciler (samplePod "execution" PodRunning) in
  ∃ tr reqs base obj, runs m tr reqs ∧ (base, obj) ∈ statusPatches tr ∧
    DerivePhase (run_Conditions base) = PhaseAnalyzing ∧
    DerivePhase (run_Conditions obj) = PhaseExecuting.
Proof.
  intros m. destruct (run_patch_such serve (sampleWorld revisingRun) m
    (λ base obj, bool_decide (DerivePhase (run_Conditions base) = PhaseAnalyzing)
                 && bool_decide (DerivePhase (run_Conditions obj) = PhaseExecuting))
    ltac:(compute_done)) as (tr & reqs & base & obj & Hr & Hin & Hp).
  apply andb_true_iff in Hp as [H1%bool_decide_eq_true H2%bool_decide_eq_true].
  exists tr, reqs, base, obj. done.
Qed.

(** ** The lifecycle *)

(** The patch, taken by the API server, of a run whose stop was accepted. *)
Definition concludesStop (ev : event answer) : bool :=
  match ev with
  | Ev (StatusPatchRun base obj) (Ok _) =>
      HasAcceptedStop base
      && bool_decide (statusOf (run_Conditions obj) AgenticRunConditionAnalyzed
                      ≠ Some ConditionUnknown)
      && bool_decide (statusOf (run_Conditions obj) AgenticRunConditionStopping
                      ≠ statusOf (run_Conditions base) AgenticRunConditionStopping)
      && negb (bool_decide (DerivePhase (run_Conditions base) = DerivePhase (run_Conditions obj)))
  | _ => false
  end.

Lemma controllers_refine_lifecycle_witness :
  ∃ tr base obj ans, controllerRun tr ∧ Ev (StatusPatchRun base obj) ans ∈ tr ∧
    refines base obj.
Proof.
  destruct (run_call_such serve (sampleWorld failed) reconcile terminalWriteOf ltac:(compute_done))
    as (tr & o & ev & Hr & Hin & Ht).
  destruct ev as [[] ans]; try discriminate Ht. exists tr. do 3 eexists.
  split; [exact (run_Reconcile sampleReconciler _ tr o Hr)|]. split; [exact Hin|].
  exact (controllers_refine_lifecycle tr _ _ ans
    (run_Reconcile sampleReconciler _ tr o Hr) Hin).
Defined.

(** A history of one patch, by which the global suspension stops the run. *)
Lemma stopping_history :
  ∃ base obj, history [(base, obj)] base obj ∧ HasAcceptedStop base = true ∧
    ¬ overtakes base obj ∧ ¬ revises base obj ∧ ¬ completesLate base obj ∧
    phaseChanges [(base, obj)] = 1.
Proof.
  destruct (run_call_such serve (withConfig (sampleWorld (withStopping executing sampleTime sampleTime))
    suspendedConfig) reconcile concludesStop ltac:(compute_done)) as (tr & o & ev & Hr & Hin & Ht).
  destruct ev as [[] ans]; try discriminate Ht. destruct ans as [ans|]; [|discriminate Ht].
  apply andb_true_iff in Ht as [[[Ha Hn%bool_decide_eq_true]%andb_true_iff
    Hs%bool_decide_eq_true]%andb_true_iff Hp].
  exists base, obj.
  assert (Hr1 : ¬ revises base obj).
  { intros [(c & Hc & Hu & _) _]. apply Hn. unfold statusOf. by rewrite Hc, <- Hu. }
  split; [|split; [exact Ha|split; [|split; [exact Hr1|split]]]].
  - eapply history_patch; [exact (run_Reconcile sampleReconciler _ tr o Hr)|exact Hin|done..|].
    constructor.
  - by intros (_ & ? & _).
  - intros Hl. by apply Hs, completesLate_stopping.
  - unfold phaseChanges. cbn [List.filter fst snd]. by rewrite Hp.
Qed.

Lemma history_keeps_results_witness :
  ∃ ps s s', history ps s s' ∧ ps ≠ [] ∧ resultsKept s s'.
Proof.
  destruct stopping_history as (base & obj & Hh & _). exists [(base, obj)], base, obj.
  split; [exact Hh|]. split; [done|]. exact (history_keeps_results _ _ _ Hh).
Defined.

Lemma stop_is_final_witness :
  ∃ ps s s', history ps s s' ∧ ps ≠ [] ∧ HasAcceptedStop s = true ∧ HasAcceptedStop s' = true.
Proof.
  destruct stopping_history as (base & obj & Hh & Ha & Hno & _). exists [(base, obj)], base, obj.
  split; [exact Hh|]. split; [done|]. split; [exact Ha|].
  refine (proj1 (stop_is_final _ _ _ Hh Ha _)).
  intros b o Hin%list_elem_of_singleton. injection Hin as -> ->. exact Hno.
Defined.

Lemma phases_end_witness :
  ∃ ps s s', history ps s s' ∧ phaseChanges ps = 1 ∧ (phaseChanges ps + progressOf s ≤ 14)%nat.
Proof.
  destruct stopping_history as (base & obj & Hh & _ & _ & Hr & Hl & Hp).
  exists [(base, obj)], base, obj. split; [exact Hh|]. split; [exact Hp|].
  assert (Hno : ∀ b o, (b, o) ∈ [(base, obj)] → ¬ revises b o ∧ ¬ completesLate b o).
  { intros b o Hin%list_elem_of_singleton. injection Hin as -> ->. done. }
  destruct (phases_end _ _ _ Hh Hno) as [_ [H1 H2]]. by etrans.
Defined.

(** ** A completion that comes too late

    The pod of an analysis succeeds; the event finds the analysis under way, and
    before the completion reads the run again, a failed launch has marked it as
    failed.  The completion makes the run [Proposed] nevertheless. *)
(** The first [n] reads of the run find it analyzing, the others failed. *)
Definition serveLate (s : nat * world) (e : eff) : answer e * (nat * world) :=
  match e as e0 return answer e0 * (nat * world) with
  | ApiGetRun _ => match s with
                   | (S n, w) => (Ok analyzing, (n, w))
                   | (O, w) => (Ok failed, (O, w))
                   end
  | e0 => let '(a, w) := serve (snd s) e0 in (a, (fst s, w))
  end.

Lemma late_completion_overwrites :
  let m := handlePodEvent sampleReconciler (samplePod "analysis" PodSucceeded) in
  ∃ tr reqs base obj, runs m tr reqs ∧ (base, obj) ∈ statusPatches tr ∧
    DerivePhase (run_Conditions base) = PhaseFailed ∧
    DerivePhase (run_Conditions obj) = PhaseProposed.
Proof.
  intros m. destruct (run_patch_such serveLate (2, sampleWorld analyzing) m
    (λ base obj, bool_decide (DerivePhase (run_Conditions base) = PhaseFailed)
                 && bool_decide (DerivePhase (run_Conditions obj) = PhaseProposed))
    ltac:(compute_done)) as (tr & reqs & base & obj & Hr & Hin & Hp).
  apply andb_true_iff in Hp as [H1%bool_decide_eq_true H2%bool_decide_eq_true].
  exists tr, reqs, base, obj. done.
Qed.

(** ** A policy that cannot be read

    The policy asks for a manual approval of escalations, which nobody gave.  Read, it
    holds the escalation back; when its reading fails, the escalation is launched. *)
Definition gatingPolicy : ApprovalPolicy :=
  MkApprovalPolicy (sampleMeta "cluster")
    (MkApprovalPolicySpec [MkApprovalPolicyStage SandboxStepEscalation ApprovalModeManual] 0).

Definition escalatingRun : AgenticRun :=
  sampleRun [sampleCondition AgenticRunConditionAnalyzed ConditionTrue reasonComplete;
    sampleCondition AgenticRunConditionExecuted ConditionTrue reasonComplete;
    sampleCondition AgenticRunConditionVerified ConditionFalse ReasonVerificationFailed;
    sampleCondition AgenticRunConditionEscalated ConditionUnknown ReasonVerificationFailed].

Definition withPolicy (got : res ApprovalPolicy) : script := λ e,
  match e return option (answer e) with GetPolicy _ => Some got | _ => None end.

Definition launchedBy (got : res ApprovalPolicy) : list (Stage * AgenticRun) :=
  launchesOf (traceIn (serveWith (withPolicy got)) (sampleWorld escalatingRun) reconcile).

Lemma unreadable_policy_escalates :
  isStageApproved (Some sampleApproval) (Some gatingPolicy) SandboxStepEscalation = false ∧
  launchedBy (Ok gatingPolicy) = [] ∧
  map fst (launchedBy (Err (errorString "the server is overloaded"))) = [StageEscalation].
Proof. vm_compute. done. Qed.

(** ** A revision that overtakes a stop

    A finished advisory run is revised; the label that marks it for the expiry
    sweep is removed first, without an optimistic lock, and the API server
    answers with the run as it is then: the global suspension has recorded its
    stop in between.  The revision is patched on top of that stop. *)
Definition advisoryRun : AgenticRun :=
  let run := sampleRun [sampleCondition AgenticRunConditionAnalyzed ConditionTrue
                          reasonNoActionRequired] in
  let run1 := withLabel run terminalTTLLabel "true" in
  MkAgenticRun (MkObjectMeta "run" "openshift-lightspeed" "uid-run" "1" 2 sampleTime None
                  (meta_Labels (run_Meta run1)) ∅ [] (meta_Finalizers (run_Meta run1)))
    (MkAgenticRunSpec "the pod crashes" "" (MkAnalysisOutputSpec "" None)
       (MkToolsSpec [] [] []) (MkAgenticRunStep "default") (MkAgenticRunStep "default")
       (MkAgenticRunStep "default") "look at the node" None)
    (run_Status run1).

Definition serveStopped (w : world) (e : eff) : answer e * world :=
  match e with
  | PatchRun _ obj _ => (Ok (withStopping obj sampleTime sampleTime), w)
  | e0 => serve w e0
  end.

Definition revivesStopped (ev : event answer) : bool :=
  match ev with
  | Ev (StatusPatchRun base obj) _ =>
      HasAcceptedStop base && isTerminal (DerivePhase (run_Conditions base))
      && bool_decide (DerivePhase (run_Conditions obj) = PhaseAnalyzing)
  | _ => false
  end.

(** A revision can overtake a stop: a reconciliation revises a finished run
    although the run it patches carries an accepted stop, and the run is
    [Analyzing] afterwards. *)
Theorem revision_overtakes_stop :
  ∃ tr o base obj ans, runs reconcile tr o ∧ Ev (StatusPatchRun base obj) ans ∈ tr ∧
    HasAcceptedStop base = true ∧ isTerminal (DerivePhase (run_Conditions base)) = true ∧
    DerivePhase (run_Conditions obj) = PhaseAnalyzing.
Proof.
  destruct (exec serveStopped (sampleWorld advisoryRun) reconcile) as [[tr o] w] eqn:Hx.
  assert (Hp : existsb revivesStopped (fst (fst
    (exec serveStopped (sampleWorld advisoryRun) reconcile))) = true) by compute_done.
  rewrite Hx in Hp. apply pick in Hp as (ev & Hin & Ht). apply exec_runs in Hx.
  destruct ev as [[] ans]; try discriminate Ht.
  apply andb_true_iff in Ht as [[Ha Hb]%andb_true_iff Hc%bool_decide_eq_true].
  exists tr, o. by do 3 eexists.
Qed.
