(* ===== verification/SandboxWitnesses.v ===== *)
(** The theorems about sandboxes, their access and their cleanup at concrete
    inputs: runs of the sandbox manager, of the agent caller and of the whole
    operator in a scripted cluster, with the library functions of [RefApi.v]. *)
From stdpp Require Import base list option strings gmap.
From Stdlib Require Import ZArith Lia.
From S2P Require Import Prelude GoText Crypto Json ApiMachinery Types Phase Objects Effects Approval Resolve.
From S2P Require Import PodSpecBuilder Results Helpers InputConfigMap Rbac Spoke SandboxManager Handlers.
From S2P Require Import Suspension Reconcile TimeoutHandler SandboxAgent SuspensionInventory Identity SuspensionCleanup Operator.
From S2P Require Import RefApi.

Local Open Scope string_scope.
Local Open Scope list_scope.

(** ** A scripted cluster *)
Definition sampleManager : SandboxManager := MkSandboxManager true true "openshift-lightspeed" 0%Z false.
Definition sampleCaller : SandboxAgentCaller := MkSandboxAgentCaller true "openshift-lightspeed".

Definition samplePodSpec : PodSpec :=
  MkPodSpec [MkContainer [envVar "A" "1"] [] [readOnlyMount "home" "/home"] "" ""]
    [MkVolume "home" (OtherVolume "emptyDir")] "" None "" None "".

Definition sandboxConfig (mode : string) : Config :=
  MkConfig mode (Some samplePodSpec) "" "" "" "" "" "" "" "" "" "" "" "" false 30.

(** The world of a run, with a configuration for sandboxes. *)
Definition sandboxWorld (mode : string) (run : AgenticRun) : world :=
  let w := sampleWorld run in
  MkWorld (w_now w) (w_run w) (w_runs w) (w_config w) (w_approval w) (w_policy w) (w_agent w)
    (w_llm w) (w_result w) (w_pods w) (w_meta w) (w_claims w) (w_cleanup w)
    (w_failed w) (Some (sandboxConfig mode)).

(** The binding the accounts of the steps are given the role of. *)
Definition readerBinding : Object KClusterRoleBinding :=
  MkObject (k := KClusterRoleBinding) (newMeta "ls-reader" "" ∅)
    (MkBinding (MkRoleRef rbacGroupName "ClusterRole" "cluster-reader") []).

(** A cluster with the reader binding; [deny] are the kinds it refuses to create. *)
Definition cluster (deny : list Kind) : script := λ e,
  match e return option (answer e) with
  | LoadReaderBindings => Some ["ls-reader"]
  | ObjGet _ k _ =>
      match k return option (res (Object k)) with
      | KClusterRoleBinding => Some (Ok readerBinding)
      | _ => None
      end
  | ObjCreate _ k _ =>
      if bool_decide (k ∈ deny)
      then Some (Err (statusError (MkStatusError "Invalid" 422 "refused"))) else None
  | _ => None
  end.

Definition inCluster (deny : list Kind) := serveWith (cluster deny).

Definition proposed : AgenticRun :=
  sampleRun [sampleCondition AgenticRunConditionAnalyzed ConditionTrue reasonComplete].

(** [keepsIdentity] as a test. *)
Definition keepsIdentityTest (tr : trace) : bool :=
  forallb (λ ev, match ev with
    | Ev (PatchRun _ obj false) (Ok r) =>
        String.eqb (run_UID r) (run_UID obj)
        && String.eqb (spec_TargetCluster (run_Spec r)) (spec_TargetCluster (run_Spec obj))
    | _ => true
    end) tr.

Lemma keepsIdentityTest_ok tr : keepsIdentityTest tr = true → keepsIdentity tr.
Proof.
  unfold keepsIdentityTest. rewrite forallb_forall. intros H base obj r Hin%list_elem_of_In.
  apply H, andb_true_iff in Hin as [?%String.eqb_eq ?%String.eqb_eq]. done.
Qed.

(** The creation of the sandbox of an execution. *)
Definition creating (run : AgenticRun) :=
  Create sampleManager run "execution" (Some sampleAgent) (Some sampleLLM) None (10 * Minute)%Z None.

Definition createsKind (k0 : Kind) (ev : event answer) : bool :=
  match ev with Ev (ObjCreate _ k _) (Ok _) => bool_decide (k = k0) | _ => false end.

Lemma Create_guarded_witness :
  ∃ tr before ev after o, runs (creating proposed) tr o ∧ tr = before ++ ev :: after ∧
    startsWork ev = true ∧ justGuarded (run_UID proposed) before ev.
Proof.
  destruct (run_split_such (inCluster []) (sandboxWorld "bare-pod" proposed) (creating proposed)
    startsWork (λ tr _, keepsIdentityTest tr) ltac:(compute_done))
    as (tr & before & ev & after & [name e] & Hr & Heq & Hs & Hk%keepsIdentityTest_ok).
  exists tr, before, ev, after, (name, e). do 3 (split; [done|]).
  exact (Create_guarded sampleManager proposed _ _ _ _ _ _ tr name e Hr Hk before ev after Heq Hs).
Defined.

(** The creation of an object of kind [k0] is asked for, whatever the answer. *)
Definition asksToCreate (k0 : Kind) (ev : event answer) : bool :=
  match ev with Ev (ObjCreate _ k _) _ => bool_decide (k = k0) | _ => false end.

Definition failedCreate (tr : trace) (o : string * option error) : bool :=
  keepsIdentityTest tr && String.eqb (fst o) "" && bool_decide (is_Some (snd o)).

Lemma Create_failure_cleans_up_witness :
  ∃ tr before c k o ans after r, runs (creating proposed) tr r ∧
    tr = before ++ Ev (ObjCreate c k o) ans :: after ∧ k = KConfigMap ∧
    askedToDelete c k (obj_Key o) after.
Proof.
  destruct (run_split_such (inCluster [KPod]) (sandboxWorld "bare-pod" proposed) (creating proposed)
    (asksToCreate KConfigMap) failedCreate ltac:(compute_done))
    as (tr & before & ev & after & [name [e|]] & Hr & Heq & Hs & Hq);
    unfold failedCreate in Hq; rewrite !andb_true_iff in Hq; destruct Hq as ((Hk & Hn) & He);
    [|discriminate He].
  apply keepsIdentityTest_ok in Hk. apply String.eqb_eq in Hn. cbn in Hn. subst name.
  destruct ev as [[] ans]; try discriminate Hs. apply bool_decide_eq_true in Hs.
  eexists tr, before, _, _, _, ans, after, ("", Some e). do 3 (split; [done|]).
  exact (Create_failure_cleans_up sampleManager proposed _ _ _ _ _ _ tr e Hr Hk before _ _ _ ans
    after Heq (or_introl Hs)).
Defined.

Lemma Create_keeps_workload_witness :
  ∃ tr before o o' after name e, runs (creating proposed) tr (name, e) ∧
    tr = before ++ Ev (ObjCreate HubClient KPod o) (Ok o') :: after ∧ e ≠ None ∧
    name = obj_Name o ∧ Forall (λ ev, touchesObject ev = false) after.
Proof.
  destruct (run_split_such (inCluster []) (sandboxWorld "bare-pod" proposed) (creating proposed)
    (λ ev, match ev with Ev (ObjCreate HubClient KPod _) (Ok _) => true | _ => false end)
    (λ tr o, keepsIdentityTest tr && bool_decide (is_Some (snd o))) ltac:(compute_done))
    as (tr & before & ev & after & [name e] & Hr & Heq & Hs & Hq).
  apply andb_true_iff in Hq as [Hk%keepsIdentityTest_ok He%bool_decide_eq_true].
  destruct ev as [[] ans]; try discriminate Hs. destruct c; try discriminate Hs.
  destruct k; try discriminate Hs. destruct ans as [o'|]; try discriminate Hs.
  eexists tr, before, _, o', after, name, e. do 2 (split; [done|]).
  split; [by destruct He as [? He]; cbn in He; subst e|].
  exact (Create_keeps_workload sampleManager proposed _ _ _ _ _ _ tr name e Hr Hk before KPod _ o'
    after Heq (or_introl eq_refl)).
Defined.

(** ** The whole operator *)
Definition operator :=
  wire (L := managerLifecycle sampleManager) sampleCaller sampleManager.

Definition reconciling := interp operator (Reconcile sampleReconciler (run_Key proposed)).

Lemma operator_starts_work_witness :
  ∃ tr o pre e a seg post stage launched, runs reconciling tr o ∧ tr = pre ++ seg ++ post ∧
    existsb startsWork seg = true ∧ launchOf (Ev e a) = Some (stage, launched) ∧
    runs (operator e) seg a ∧ launchGrounds sampleReconciler (run_Key proposed) pre stage launched ∧
    preceded startsWork (justGuarded (run_UID launched)) seg.
Proof.
  destruct (run_split_such (inCluster []) (sandboxWorld "bare-pod" proposed) reconciling
    startsWork (λ tr _, keepsIdentityTest tr) ltac:(compute_done))
    as (tr & before & ev & after & o & Hr & Heq & Hs & Hk%keepsIdentityTest_ok).
  destruct (operator_starts_work (L := managerLifecycle sampleManager) sampleReconciler sampleCaller
    sampleManager (run_Key proposed) tr o Hr Hk)
    as [Hn|(pre & e & a & seg & post & stage & launched & Ht & Hn1 & Hn2 & Hl & Hseg & Hg & Hp)].
  - exfalso. subst tr. by apply none_app in Hn as [_ [? _]%none_cons]; congruence.
  - exists tr, o, pre, e, a, seg, post, stage, launched. split_and!; try done.
    rewrite Ht in Heq. destruct (cut_middle _ _ _ _ _ _ _ Heq Hn1 Hn2 Hs) as (x & y & -> & _).
    rewrite existsb_app. cbn. by rewrite Hs, orb_true_r.
Defined.

Definition executing : AgenticRun :=
  sampleRun [sampleCondition AgenticRunConditionAnalyzed ConditionTrue reasonComplete;
    sampleCondition AgenticRunConditionExecuted ConditionUnknown reasonInProgress].
Definition stopping := interp operator (handleSuspensionAt sampleReconciler executing sampleTime).

(** The patch marks the teardown complete. *)
Definition marksTornDown (ev : event answer) : bool :=
  match ev with
  | Ev (StatusPatchRun _ obj) _ =>
      condHas (find obj AgenticRunConditionStopping) ConditionFalse reasonTeardownComplete
  | _ => false
  end.

Lemma operator_stop_leaves_nothing_witness :
  ∃ tr v look earlier later, runs stopping tr v ∧
    none changesObject look ∧ nothingLeft (run_UID executing) "openshift-lightspeed" look ∧
    earlier ++ look ++ later `prefix_of` tr.
Proof.
  destruct (run_split_such (inCluster []) (sandboxWorld "bare-pod" executing) stopping
    marksTornDown (λ tr _, negb (existsb (lost (run_UID executing)) tr)) ltac:(compute_done))
    as (tr & before & ev & after & v & Hr & Heq & Hs & Hl).
  destruct ev as [[] ans]; try discriminate Hs.
  destruct (operator_stop_leaves_nothing (L := managerLifecycle sampleManager) sampleReconciler
    sampleCaller sampleManager executing sampleTime tr v before _ _ ans after Hr Heq
    (or_introl Hs)) as [H|(earlier & look & later & Hb & Hn & Hclear)].
  { rewrite H in Hl. discriminate Hl. }
  exists tr, v, look, earlier, later. do 3 (split; [done|]).
  rewrite <- Hb, Heq. by apply prefix_app_r.
Defined.

(** ** Cleanup of a stopped run *)

(** A cluster with a running pod of the sample run. *)
Definition strayPod : Object KPod :=
  MkObject (k := KPod)
    (MkObjectMeta "ls-execution-uid-run" "openshift-lightspeed" "uid-pod" "7" 1%Z 0%Z None
       (<[LabelRun := "uid-run"]> {[LabelStep := "execution"]}) ∅ [] [])
    (MkPodObject samplePodSpec PodRunning).

Definition withStrayPod : script := λ e,
  match e return option (answer e) with
  | ObjList HubReader k _ _ =>
      match k return option (res (list (Object k))) with
      | KPod => Some (Ok [strayPod])
      | _ => None
      end
  | ObjGet HubReader k _ =>
      match k return option (res (Object k)) with
      | KPod => Some (Ok strayPod)
      | _ => None
      end
  | _ => None
  end.

Definition cleaning := cleanupSuspension sampleManager "uid-run" None.

Lemma cleanupSuspension_confirmed_witness :
  ∃ tr c look, runs cleaning tr (c, None) ∧ look ⊆ tr ∧
    nothingLeft "uid-run" "openshift-lightspeed" look.
Proof.
  destruct (run_such (inCluster []) (sandboxWorld "bare-pod" executing) cleaning
    (λ _ o, Confirmed (fst o) && bool_decide (snd o = None)) ltac:(compute_done))
    as (tr & [c e] & Hr & [Hc He%bool_decide_eq_true]%andb_true_iff). cbn in He. subst e.
  destruct (cleanupSuspension_confirmed sampleManager "uid-run" None tr c None Hr Hc)
    as (work & look & -> & _ & Hn).
  eexists _, c, look. split; [exact Hr|]. split; [set_solver|done].
Defined.

(** The deletion of a pod. *)
Definition deletesAPod (ev : event answer) : bool :=
  match ev with Ev (ObjDelete _ KPod _ _) _ => true | _ => false end.

Lemma cleanupSuspension_changes_own_witness :
  ∃ tr before ev after o, runs cleaning tr o ∧ tr = before ++ ev :: after ∧
    changesObject ev = true ∧ ownChange "uid-run" before ev.
Proof.
  destruct (run_split_such (serveWith (orElse withStrayPod (cluster []))) (sandboxWorld "bare-pod" executing) cleaning
    deletesAPod (λ _ _, true) ltac:(compute_done)) as (tr & before & ev & after & [c e] & Hr & Heq & Hs & _).
  assert (Hc : changesObject ev = true) by (destruct ev as [[] ans]; try discriminate Hs; done).
  exists tr, before, ev, after, (c, e). do 3 (split; [done|]).
  exact (cleanupSuspension_changes_own sampleManager "uid-run" None tr c e Hr before ev after Heq Hc).
Defined.

(** ** Roles *)
Definition sampleRBAC : RBACResult :=
  MkRBACResult [MkRBACRule "prod" ["apps"] ["deployments"] [] ["patch"] "scale"]
    [MkRBACRule "" [""] ["nodes"] [] ["get"] "look"].

Definition granting :=
  ensureExecutionRBAC HubClient executing (Some sampleRBAC) "openshift-lightspeed" ∅.

Lemma ensureExecutionRBAC_grants_witness :
  ∃ tr run' e, runs granting tr (run', e) ∧ length tr = 4%nat ∧
    Forall (Rbac.creates HubClient (grantedObject executing sampleRBAC "openshift-lightspeed")) tr.
Proof.
  destruct (run_such (inCluster []) (sandboxWorld "bare-pod" executing) granting
    (λ tr _, (length tr =? 4)%nat) ltac:(compute_done)) as (tr & [run' e] & Hr & Hn%Nat.eqb_eq).
  exists tr, run', e. do 2 (split; [done|]).
  exact (ensureExecutionRBAC_grants HubClient executing sampleRBAC _ ∅ tr run' e Hr).
Defined.

Definition annotated : AgenticRun := fst (resultIn (inCluster []) (sandboxWorld "bare-pod" executing) granting).

Definition createsProdRole (ev : event answer) : bool :=
  match ev with
  | Ev (ObjCreate HubClient KRole o) _ =>
      bool_decide (obj_Key o = MkNamespacedName "prod" (executionRoleName "uid-run"))
  | _ => false
  end.

Lemma execution_rbac_removed_witness :
  ∃ tr tr', runs granting tr (annotated, None) ∧
    runs (cleanupExecutionRBAC HubClient annotated) tr' None ∧
    removed HubClient KRole (MkNamespacedName "prod" (executionRoleName "uid-run")) tr'.
Proof.
  pose proof (runs_in (inCluster []) (sandboxWorld "bare-pod" executing) granting) as Hr.
  pose proof (runs_in (inCluster []) (sandboxWorld "bare-pod" executing)
    (cleanupExecutionRBAC HubClient annotated)) as Hr'.
  destruct (pick (traceIn (inCluster []) (sandboxWorld "bare-pod" executing) granting)
    createsProdRole ltac:(compute_done)) as (ev & Hin & Hs).
  destruct ev as [[] ans]; try discriminate Hs. destruct c; try discriminate Hs.
  destruct k; try discriminate Hs. apply bool_decide_eq_true in Hs.
  eexists _, _. split; [exact Hr|]. split; [exact Hr'|]. rewrite <- Hs.
  refine (execution_rbac_removed HubClient executing sampleRBAC "openshift-lightspeed" ∅ _ annotated
    None _ KRole _ ans _ Hr Hr' Hin).
  intros rule ->%list_elem_of_singleton. reflexivity.
Defined.


(** ** Spokes *)
Definition onSpoke : AgenticRun :=
  let s := run_Spec executing in
  MkAgenticRun (run_Meta executing)
    (MkAgenticRunSpec (spec_Request s) "east" (spec_AnalysisOutput s) (spec_Tools s)
       (spec_Analysis s) (spec_Execution s) (spec_Verification s) (spec_RevisionFeedback s) (spec_TerminalTTL s))
    (run_Status executing).

(** The kubeconfig of the spoke. *)
Definition withSpokeSecret : script := λ e,
  match e return option (answer e) with
  | ObjGet _ k _ =>
      match k return option (res (Object k)) with
      | KSecret => Some (Ok (MkObject (k := KSecret) (newMeta "spoke-kubeconfig-east" "openshift-lightspeed" ∅)
                               ({[kubeconfigKey := "https://east:6443"]} : gmap string string)))
      | _ => None
      end
  | _ => None
  end.

Definition readsKubeconfig (ev : event answer) : bool :=
  match ev with
  | Ev (ObjGet _ KSecret _) (Ok s) =>
      bool_decide ((obj_Content (k := KSecret) s : gmap string string) !! kubeconfigKey
                   = Some "https://east:6443")
  | _ => false
  end.

Lemma spokeAccessForRun_secure_witness :
  ∃ tr access, runs (spokeAccessForRun onSpoke "openshift-lightspeed") tr (Some access, None) ∧
    sa_Config access = withTimeout (secureRest "https://east:6443") spokeDialTimeout.
Proof.
  destruct (run_such (serveWith withSpokeSecret) (sandboxWorld "bare-pod" onSpoke)
    (spokeAccessForRun onSpoke "openshift-lightspeed")
    (λ tr o, match o with
       | (Some _, None) => forallb readsKubeconfig tr
       | _ => false end) ltac:(compute_done)) as (tr & [[access|] [e|]] & Hr & Hq); try discriminate Hq.
  exists tr, access. split; [exact Hr|].
  destruct (spokeAccessForRun_secure onSpoke "openshift-lightspeed" tr access None Hr)
    as (_ & _ & secret & kubeconfig & cfg & Hin & Hk & Hcfg & Hs).
  rewrite forallb_forall in Hq. apply list_elem_of_In, Hq, bool_decide_eq_true in Hin.
  rewrite Hin in Hk. injection Hk as <-. cbn in Hcfg. injection Hcfg as <-. apply Hs.
Defined.

(** ** The pod and its input *)
Definition builtSpec : res PodSpec :=
  Build (Some samplePodSpec) (Some sampleAgent) (Some sampleLLM) None (Some (sandboxConfig "bare-pod"))
    "execution" "uid-run" "sa" "input" "" 600 10.

Lemma Build_wellformed_witness :
  ∃ out c, builtSpec = Ok out ∧ pspec_Containers out = [c] ∧
    NoDup (map mnt_MountPath (ctr_VolumeMounts c)) ∧ NoDup (map volume_Name (pspec_Volumes out)).
Proof.
  destruct builtSpec as [out|err] eqn:Hb; [|discriminate Hb].
  destruct (Build_wellformed samplePodSpec (default (MkContainer [] [] [] "" "") (head (pspec_Containers samplePodSpec)))
    [] _ _ _ _ _ _ _ _ _ _ _ out eq_refl ltac:(cbn; repeat constructor; set_solver) Hb)
    as (c & H1 & H2 & H3 & _).
  exists out, c. done.
Defined.

(** An agent with instructions of its own for the execution. *)
Definition instructedAgent : Agent :=
  MkAgent (sampleMeta "default")
    (MkAgentSpec (MkLLMProviderReference "llm") "model" (MkAgentTimeouts 0 0 0 0) 0
       (Some (MkAgentInstructions (Some (MkStepInstructions "analyst" "")) 
                (Some (MkStepInstructions "careful" "run it")) None None)) ∅).

Definition builtInput : res (Object KConfigMap) :=
  buildInputConfigMap "openshift-lightspeed" executing "execution" (Some instructedAgent) "{}" None.

Lemma buildInputConfigMap_complete_witness :
  ∃ cm, builtInput = Ok cm ∧
    let data := (obj_Content (k := KConfigMap) cm : gmap string string) in
    data !! inputConfigMapKeySchema = Some "{}" ∧
    data !! inputConfigMapKeySystemPrompt = Some "careful" ∧
    data !! inputConfigMapKeyQuery = Some "run it".
Proof.
  destruct builtInput as [cm|err] eqn:Hb; [|vm_compute in Hb; discriminate Hb].
  exists cm. split; [done|]. intros data.
  destruct (buildInputConfigMap_complete "openshift-lightspeed" executing "execution"
    (Some instructedAgent) "{}" None cm Hb) as (_ & _ & _ & _ & Hsc & _ & _ & instr & builtin & tmpl &
    d & pieces & Hrule & Hsys & Ht & _ & Hx & _ & Hq).
  split; [exact Hsc|]. inversion Hrule; subst. split; [exact Hsys|].
  cbn in Ht. subst tmpl. cbn in Hx. injection Hx as <-. exact Hq.
Defined.

(** ** Deadlines and waiting *)
Lemma sandboxPodDeadline_covers_witness :
  (resolveTimeout (Some sampleAgent) "execution" ≤ 2147483647)%Z ∧
  sandboxPodDeadline (Some sampleAgent) "execution" = (6 * Minute + stepBudget sampleAgent "execution")%Z.
Proof.
  assert (H : (resolveTimeout (Some sampleAgent) "execution" ≤ 2147483647)%Z) by (vm_compute; discriminate).
  split; [exact H|]. exact (proj1 (sandboxPodDeadline_covers sampleAgent "execution" H)).
Defined.

(** A pod that never goes away. *)
Definition withStuckPod : script := λ e,
  match e return option (answer e) with
  | ObjGet _ k _ =>
      match k return option (res (Object k)) with KPod => Some (Ok strayPod) | _ => None end
  | _ => None
  end.

(** A clock that moves three seconds at each reading. *)
Definition slowly (w : world) (e : eff) : answer e * world :=
  match e return answer e * world with
  | Now => (w_now w, tick (tick (tick w)))
  | e => serveWith withStuckPod w e
  end.

Fixpoint tickingTest (lower : Time) (tr : trace) : bool :=
  match tr with
  | [] => true
  | Ev Now t :: tr' => (lower <=? t)%Z && tickingTest lower tr'
  | Ev (Sleep d) None :: tr' => tickingTest (lower + d)%Z tr'
  | _ :: tr' => tickingTest lower tr'
  end.

Lemma tickingTest_ok lower tr : tickingTest lower tr = true → ticking lower tr.
Proof.
  revert lower. induction tr as [|[e a] tr IH]; intros lower; [done|].
  destruct e; cbn; try apply IH.
  - intros [?%Z.leb_le ?]%andb_true_iff. auto.
  - destruct a; apply IH.
Qed.

Definition waiting :=
  waitTurns (turnsFor (effectiveDeletionTimeout sampleManager)) (MkNamespacedName "ns" "pod")
    (effectiveDeletionTimeout sampleManager)
    (Time_Add sampleTime (effectiveDeletionTimeout sampleManager)).

Lemma waitTurns_enough_witness :
  ∃ tr r, runs waiting tr r ∧ (40 < length tr)%nat ∧ r ≠ None.
Proof.
  destruct (run_such slowly (sandboxWorld "bare-pod" executing) waiting
    (λ tr _, tickingTest sampleTime tr && (40 <? length tr)%nat) ltac:(compute_done))
    as (tr & r & Hr & [Ht%tickingTest_ok Hl%Nat.ltb_lt]%andb_true_iff).
  exists tr, r. do 2 (split; [done|]).
  exact (waitTurns_enough sampleManager _ tr sampleTime r Hr Ht).
Defined.

(** ** Launch and release *)
Definition launching :=
  launchSandbox (L := managerLifecycle sampleManager) sampleCaller executing "execution"
    (MkResolvedStep sampleAgent sampleLLM (MkToolsSpec [] [] [])) (buildAgentContext executing).

(** A cluster where the objects of a sandbox can be read back. *)
Definition withDependents : script := λ e,
  match e return option (answer e) with
  | ObjGet _ k key =>
      let meta := newMeta (nn_Name key) (nn_Namespace key) ∅ in
      match k return option (res (Object k)) with
      | KServiceAccount => Some (Ok (MkObject (k := KServiceAccount) meta tt))
      | KConfigMap => Some (Ok (MkObject (k := KConfigMap) meta (∅ : gmap string string)))
      | KRole => Some (Ok (MkObject (k := KRole) meta []))
      | KRoleBinding => Some (Ok (MkObject (k := KRoleBinding) meta
                                    (MkBinding (MkRoleRef "" "" "") [])))
      | _ => None
      end
  | _ => None
  end.

Lemma launchSandbox_records_witness :
  ∃ tr base obj r, runs launching tr None ∧ Ev (StatusPatchRun base obj) (Ok r) ∈ tr ∧
    run_UID base = run_UID executing ∧ HasAcceptedStop base = false.
Proof.
  destruct (run_such (serveWith (orElse withDependents (cluster [])))
    (sandboxWorld "bare-pod" executing) launching (λ _ o, bool_decide (o = None))
    ltac:(compute_done)) as (tr & e & Hr & He%bool_decide_eq_true). subst e.
  destruct (launchSandbox_records (L := managerLifecycle sampleManager) sampleCaller executing
    "execution" _ _ tr None Hr) as [Hrec Hacc].
  destruct (Hacc eq_refl) as (base & obj & r & Hin).
  exists tr, base, obj, r. do 2 (split; [done|]).
  destruct (Hrec base obj (Ok r) Hin) as (name & t & _ & _ & _ & Hu & Hs). done.
Defined.

(** A run whose execution has a sandbox. *)
Definition launched : AgenticRun :=
  withStepSandbox executing "execution" (MkSandboxInfo "ls-execution-uid-run" "openshift-lightspeed").

Lemma Release_thorough_witness :
  ∃ tr e, runs (Release sampleManager launched "execution" None false) tr e ∧
    attempted KPod (hubKey sampleManager "ls-execution-uid-run") plainDelete e tr ∧
    askedToDelete HubClient KServiceAccount
      (hubKey sampleManager (sandboxSAName launched "execution")) tr.
Proof.
  destruct (run_such (inCluster []) (sandboxWorld "bare-pod" launched)
    (Release sampleManager launched "execution" None false)
    (λ tr _, forallb (λ ev, match ev with Ev ConfigGet c => negb (from_option
       (λ c, String.eqb (cfg_SandboxMode c) sandboxModeSandboxClaim) false c) | _ => true end) tr)
    ltac:(compute_done)) as (tr & e & Hr & Hq).
  exists tr, e. split; [done|].
  destruct (Release_thorough sampleManager launched "execution" None false tr e Hr ltac:(discriminate))
    as (cfg & Hcfg & Hm & Ha & _).
  rewrite forallb_forall in Hq. apply list_elem_of_In, Hq, negb_true_iff in Hcfg.
  rewrite Hcfg in Hm. split; [exact Hm|]. exact (Ha (λ _, eq_refl)).
Defined.

(** A claim, its sandbox and the pod of the sandbox. *)
Definition controlledBy (name uid owner : string) : ObjectMeta :=
  MkObjectMeta name "openshift-lightspeed" uid "1" 1%Z 0%Z None ∅ ∅
    [MkOwnerReference "v1" "Owner" "owner" owner (Some true) None] [].

Definition withClaim : script := λ e,
  match e return option (answer e) with
  | ObjGet _ k _ =>
      match k return option (res (Object k)) with
      | KSandboxClaim => Some (Ok (MkObject (k := KSandboxClaim) (controlledBy "c" "uid-c" "")
                                     (MkSandboxClaimSpec "c" "Delete" (Ok (Some "s")))))
      | KSandbox => Some (Ok (MkObject (k := KSandbox) (controlledBy "s" "uid-s" "uid-c") tt))
      | KPod => Some (Ok (MkObject (k := KPod) (controlledBy "p" "uid-p" "uid-s")
                            (MkPodObject samplePodSpec PodRunning)))
      | _ => None
      end
  | _ => None
  end.

Lemma Release_zero_grace_owned_witness :
  ∃ tr e pod, runs (Release sampleManager launched "execution" None true) tr e ∧
    ownedPod sampleManager "ls-execution-uid-run" pod tr.
Proof.
  destruct (run_such (serveWith withClaim) (sandboxWorld "sandbox-claim" launched)
    (Release sampleManager launched "execution" None true)
    (λ tr _, existsb deletesAPod tr && forallb (λ ev, match ev with
       | Ev ConfigGet c => match c with
           | Some c => String.eqb (cfg_SandboxMode c) sandboxModeSandboxClaim | None => false end
       | _ => true end) tr) ltac:(compute_done))
    as (tr & e & Hr & [(ev & Hin & Hd)%pick Hq]%andb_true_iff).
  rewrite forallb_forall in Hq. destruct ev as [[] ans]; try discriminate Hd.
  destruct k; try discriminate Hd.
  destruct (Release_zero_grace_owned sampleManager launched "execution" None tr e Hr) with
    (c := c) (key := key) (opts := opts) (ans := ans) as (_ & pod & _ & Ho); [|exact Hin|].
  - intros [cfg|] Hc%list_elem_of_In%Hq; [|discriminate Hc]. exists cfg.
    split; [done|]. by apply String.eqb_eq.
  - exists tr, e, pod. done.
Defined.

Lemma releaseSandboxes_all_witness :
  ∃ tr t e', runs (releaseSandboxes (L := managerLifecycle sampleManager) sampleCaller launched false) tr None ∧
    t ⊆ tr ∧ runs (Release sampleManager launched "execution" None false) t e' ∧ e' = None.
Proof.
  destruct (run_such (inCluster []) (sandboxWorld "bare-pod" launched)
    (releaseSandboxes (L := managerLifecycle sampleManager) sampleCaller launched false)
    (λ _ o, bool_decide (o = None)) ltac:(compute_done)) as (tr & e & Hr & He%bool_decide_eq_true).
  subst e.
  destruct (releaseSandboxes_all (L := managerLifecycle sampleManager) sampleCaller launched false
    tr None Hr) as (spoke & err & (t0 & _ & Hs) & Hall & _).
  assert (Hsp : spoke = None) by (apply runs_ret in Hs as [_ [= -> _]]; done).
  destruct (Hall "execution" ltac:(set_solver) ltac:(discriminate)) as (t & e' & Ht & Hrel & He').
  subst spoke. exists tr, t, e'. do 3 (split; [done|]). exact (He' eq_refl).
Defined.

(** ** Identities *)
Lemma identity_roundtrip_witness :
  suspensionServiceAccountStep (rbacLabels "uid-run" "execution-sa") "uid-run" = ("execution", true, true) ∧
  suspensionCredentialStep (sandboxKubeconfigSecretName "uid-run" "execution") "uid-run" = "execution".
Proof.
  destruct (identity_roundtrip "uid-run" "execution") as (H1 & _ & _ & H2 & _);
    [done|vm_compute; lia|set_solver|].
  split; [exact H1|exact H2].
Defined.

Lemma Create_recognised_witness :
  ∃ tr o (account : Object KServiceAccount) ans, runs (creating proposed) tr o ∧
    Ev (ObjCreate HubClient KServiceAccount account) ans ∈ tr ∧
    judgeAccount "uid-run" Deleting account = Manage.
Proof.
  destruct (run_such (inCluster []) (sandboxWorld "bare-pod" proposed) (creating proposed)
    (λ tr _, keepsIdentityTest tr && existsb (λ ev, match ev with
       | Ev (ObjCreate HubClient KServiceAccount _) _ => true | _ => false end) tr)
    ltac:(compute_done)) as (tr & [name e] & Hr & [Hk%keepsIdentityTest_ok (ev & Hin & Hs)%pick]%andb_true_iff).
  destruct ev as [[] ans]; try discriminate Hs. destruct c; try discriminate Hs.
  destruct k; try discriminate Hs.
  exists tr, (name, e), obj, ans. do 2 (split; [done|]).
  exact (Create_recognised sampleManager "execution" ltac:(set_solver) proposed _ _ _ _ _ tr name e
    ltac:(discriminate) ltac:(vm_compute; lia) Hr Hk KServiceAccount obj ans Hin).
Defined.
