(* ===== verification/OperationsWitnesses.v ===== *)
(** The theorems about the configuration, the start-up, the webhooks, the audit logger and
    the command line at concrete inputs, with reference functions for the libraries
    these parts call. *)
From stdpp Require Import base list option strings gmap sorting.
From Stdlib Require Import ZArith Lia.
From S2P Require Import Prelude GoText Json ApiMachinery Types Phase Objects Effects Approval Resolve PodSpecBuilder InputConfigMap.
From S2P Require Import Helpers SandboxManager Clock Webhooks AuditLog Startup CliRun CliSystem Configuration RefApi SandboxWitnesses.

Local Open Scope string_scope.
Local Open Scope list_scope.

(** ** The libraries *)
Definition httpsHost (url : string) : option string := cutPrefix "https://" url.

(** Pod specifications are all the sample one, certificates are any text, and endpoints
    are the https ones. *)
#[export] Instance refConfigLibs : ConfigLibs := {|
  UnmarshalPodSpec raw := if String.eqb raw "bad" then Err (errorString "bad") else Ok samplePodSpec;
  ParseURL url := (λ host, ("https", host)) <$> httpsHost url;
  AppendCertsFromPEM pem := negb (String.eqb pem "");
  X509KeyPair _ _ := None;
|}.

#[export] Instance refStartupLibs : StartupLibs := {| UnmarshalStrings raw := Ok (Split raw (byte 44)) |}.

(** The raw members of an approval with a forged approver, and an agent. *)
Definition forgedSpec : string := "{approver:forged}".
Definition promptedAgent : Agent :=
  MkAgent (agent_Meta sampleAgent)
    (MkAgentSpec (agent_LLMProvider (agent_Spec sampleAgent)) (agent_Model (agent_Spec sampleAgent))
       (agent_Timeouts (agent_Spec sampleAgent))
       (agent_MaxTurns (agent_Spec sampleAgent))
       (Some (MkAgentInstructions (Some (MkStepInstructions "be careful" "fix it")) None None None)) ∅).
#[export] Instance refWebhookLibs : WebhookLibs := {|
  UnmarshalRawMap raw :=
    if String.eqb raw forgedSpec then Ok {["approver" := "forged"]}
    else Ok (<["kind" := "AgenticRunApproval"]> {["spec" := forgedSpec]});
  UnmarshalAgent _ := Ok promptedAgent;
|}.

#[export] Instance refAuditLibs : AuditLibs := {|
  objectMembers _ := Ok ∅;
  stagesJSON stages := JArray (map (λ s, JString (stage_Type s)) stages);
|}.

#[export] Instance refCliLibs : CliLibs := {|
  HumanDuration := Duration_String;
  ParseDuration s := Err (errorString s);
  ParseEndpoint url := (λ host, ("https", host, host)) <$> httpsHost url;
  UnmarshalString raw := Some raw;
|}.

(** ** Configuration *)
Definition operatorNamespace : string := "openshift-lightspeed".

Definition handoffData : gmap string string :=
  <[KeySandboxMode := "sandbox-claim"]> (<[KeySandboxPodSpec := "spec"]>
  (<[KeyTerminalTTLDays := "30"]> (<[KeyOtelCollectorEndpoint := "otel:4317"]>
  (<[KeyOtelAdminEndpoint := "https://otel:8443"]> {[KeyOtelCASecret := "otel-ca"]})))).

Definition handedOver : Object KConfigMap :=
  MkObject (k := KConfigMap) (newMeta ConfigMapName operatorNamespace ∅) handoffData.

(** The API server has the ConfigMap and the Secret, and every exporter is made. *)
Definition serveConfig (u : unit) (e : cfgCall) : cfgAnswer e * unit :=
  (match e return cfgAnswer e with
   | GetConfigMap _ => Ok handedOver
   | GetSecretData _ => Ok {["otel-ca.crt" := "PEM"]}
   | NewTraceExporter _ | NewLogExporter _ | ShutdownTracer _ | ShutdownLogger _
   | NewRequest _ _ => None
   | SetTracerProvider _ | CloseIdleConnections _ | EmitRecord _ _ => tt
   | DoRequest _ _ _ => Ok StatusOK
   end, u).

Definition startProvider : Provider := SetSecretSource NewProvider operatorNamespace.
Definition startCache (force : bool) : Cache := SetOTELProvider (MkCache None None force) startProvider.

Definition delivering (force : bool) : C (Cache * option error) :=
  Configuration.Reconcile (cmWatcher operatorNamespace) (startCache force)
    (MkNamespacedName operatorNamespace ConfigMapName).
Definition deliveredCache (force : bool) : Cache := fst (resultIn serveConfig tt (delivering force)).

Lemma delivered_watched force : watched operatorNamespace force (deliveredCache force).
Proof.
  pose proof (runs_in serveConfig tt (delivering force)) as H. unfold deliveredCache.
  destruct (resultIn serveConfig tt (delivering force)) as [c err].
  exact (watched_event _ _ (startCache force) _ _ c err (watched_start _ _) H).
Qed.

Lemma watched_configuration_witness :
  watched operatorNamespace true (deliveredCache true) ∧
  (∃ cfg, cache_Config (deliveredCache true) = Some cfg ∧ cfg_SandboxMode cfg = barePodMode) ∧
  ∀ p, cache_OTELProvider (deliveredCache true) = Some p → quiet p ∨ ∃ cfg, exports p cfg.
Proof.
  destruct (watched_configuration operatorNamespace true _ (delivered_watched true)) as [Hc Hp].
  split; [apply delivered_watched|]. split; [|exact Hp].
  destruct (cache_Config (deliveredCache true)) as [cfg|] eqn:He.
  - exists cfg. split; [reflexivity|]. destruct (Hc cfg eq_refl) as (_ & _ & Hf). by apply Hf.
  - vm_compute in He. discriminate He.
Defined.

Lemma OnConfigMapChange_outcome_witness :
  ∃ tr c' p' cc, runs (OnConfigMapChange (startCache false) (Some handedOver)) tr (c', None) ∧
    cache_OTELProvider c' = Some p' ∧ asksFor startProvider tr (dataOf handedOver) cc ∧
    exports p' cc.
Proof.
  destruct (run_such serveConfig tt (OnConfigMapChange (startCache false) (Some handedOver))
    (λ _ o, bool_decide (snd o = None)) ltac:(compute_done)) as (tr & [c' err] & Hr & He).
  apply bool_decide_eq_true in He. cbn in He. subst err.
  assert (Hwf : cacheWf (startCache false)).
  { exact (proj1 (watched_wf operatorNamespace false _ (watched_start _ _))). }
  pose proof (OnConfigMapChange_outcome (startCache false) startProvider handedOver tr c' None Hr Hwf
    eq_refl) as H.
  destruct (parseConfigMap (dataOf handedOver)) as [cfg|e] eqn:Hcfg; [|vm_compute in Hcfg; discriminate Hcfg].
  destruct H as (_ & p' & Hp' & H).
  replace (requested (dataOf handedOver)) with true in H by (vm_compute; reflexivity).
  destruct H as (cc & Hask & Hx). exists tr, c', p', cc. done.
Defined.

(** ** No claims without the CRDs *)

(** The scripted world always answers with its configuration. *)
Lemma inCluster_config {A} (m : M A) w tr a w' cfg :
  exec (inCluster []) w m = (tr, a, w') → Ev ConfigGet cfg ∈ tr → cfg = w_cfg w.
Proof.
  revert w tr. induction m as [x|e k IH]; intros w tr; cbn.
  { intros [= <- _ _]. by intros ?%elem_of_nil. }
  destruct (inCluster [] w e) as [r w1] eqn:He. destruct (exec _ w1 (k r)) as [[tr1 a1] w2] eqn:Hx.
  intros [= <- <- <-] Hin.
  assert (Hw : w_cfg w1 = w_cfg w).
  { apply (f_equal snd) in He. cbn in He. subst w1. unfold inCluster, serveWith.
    destruct (cluster [] e); [done|]. by destruct e. }
  apply elem_of_cons in Hin as [Heq|Hin]; [|by rewrite <- Hw; eapply IH].
  pose (answered (ev : event answer) := match ev with
    | Ev e a => (match e return answer e → option (option Config) with
                 | ConfigGet => Some | _ => λ _, None end) a end).
  pose proof (f_equal answered Heq) as H. cbn in H. destruct e; try discriminate H.
  cbn in H. injection H as ->. apply (f_equal fst) in He. cbn in He. by subst.
Qed.

Definition bareWorld : world :=
  let w := sampleWorld proposed in
  MkWorld (w_now w) (w_run w) (w_runs w) (w_config w) (w_approval w) (w_policy w) (w_agent w)
    (w_llm w) (w_result w) (w_pods w) (w_meta w) (w_claims w) (w_cleanup w) (w_failed w)
    (cache_Config (deliveredCache true)).

Lemma missing_crds_no_claims_witness :
  existsb (createsKind KPod) (traceIn (inCluster []) bareWorld (creating proposed)) = true ∧
  Forall (λ ev, createsClaim ev = false) (traceIn (inCluster []) bareWorld (creating proposed)).
Proof.
  split; [compute_done|].
  refine (missing_crds_no_claims sampleManager operatorNamespace proposed _ _ _ _ _ _ _ _
    (runs_in (inCluster []) bareWorld (creating proposed)) _).
  intros cfg Hin. exists (deliveredCache true). split; [apply delivered_watched|].
  unfold traceIn in Hin. destruct (exec (inCluster []) bareWorld (creating proposed)) as [[tr a] w'] eqn:Hx.
  symmetry. exact (inCluster_config _ _ _ _ _ _ Hx Hin).
Defined.

(** ** Webhooks *)
Definition approvalUpdate : AdmissionRequest := MkAdmissionRequest "UPDATE" "uid-1" "alice" "{approval}".

Lemma approver_is_authenticated_witness :
  ∃ now op d', runs (AgenticRunApprovalMutator approvalUpdate) [Ev Now now] (Patched injected [op]) ∧
    applyPatch (MkDocument {["kind" := "AgenticRunApproval"]} (Some {["approver" := "forged"]})) op = Some d' ∧
    ∃ spec, doc_Spec d' = Some spec ∧
      spec !! "approver" = Some (approverJSON (MkApproverInfo "uid-1" "alice" (FormatRFC3339 now))).
Proof.
  destruct (run_such (inCluster []) bareWorld (AgenticRunApprovalMutator approvalUpdate)
    (λ _ _, true) eq_refl) as (tr & resp & Hr & _).
  destruct (approver_is_authenticated approvalUpdate
    (MkDocument {["kind" := "AgenticRunApproval"]} (Some {["approver" := "forged"]})) tr resp Hr)
    as (now & op & d' & -> & -> & Hp & _ & Hs).
  - discriminate.
  - exists (<["kind" := "AgenticRunApproval"]> {["spec" := forgedSpec]}).
    split; [reflexivity|]. split; [vm_compute; reflexivity|]. exists forgedSpec.
    split; [reflexivity|]. split; [discriminate|reflexivity].
  - exists now, op, d'. split; [exact Hr|]. split; [exact Hp|]. eexists.
    split; [exact Hs|]. apply lookup_insert_eq.
Defined.

Lemma admitted_agents_prompt_witness :
  (∃ text, AgentValidator steps (MkAdmissionRequest "CREATE" "uid-1" "alice" "{agent}") = Allowed text) ∧
  ∃ system tmpl, resolveStepPrompts (Some promptedAgent) "analysis" "analysis" = Ok (system, tmpl) ∧
    (RuneCount system ≤ maxPromptLength)%Z.
Proof.
  destruct (admitted_agents_prompt (WL := refWebhookLibs) steps (MkAdmissionRequest "CREATE" "uid-1" "alice" "{agent}")
    promptedAgent (reflexivity _) eq_refl) as [_ Hp].
  assert (Ha : AgentValidator steps (MkAdmissionRequest "CREATE" "uid-1" "alice" "{agent}")
    = Allowed "templates valid") by (vm_compute; reflexivity).
  assert (Hs : resolveStepPrompts (Some promptedAgent) "analysis" "analysis" = Ok ("be careful", "fix it"))
    by (vm_compute; reflexivity).
  split; [by eexists|]. do 2 eexists. split; [exact Hs|]. exact (proj1 (Hp _ _ _ _ _ Ha Hs)).
Defined.

(** ** Audit *)

(** A tracer that numbers its spans. *)
Definition serveTracer (n : Z) (e : telCall) : telAnswer e * Z :=
  match e as e0 return telAnswer e0 * Z with
  | StartSpan _ _ _ => (MkSpanContext (Itoa n) (Itoa n), n + 1)%Z
  | ContextSpan => (None, n)
  | _ => (tt, n)
  end.

Definition auditedCalls : list AuditCall :=
  [BeginStep proposed "analysis"; CompleteStep proposed "analysis" (Some sampleAnalysis);
   EmitApprovalSpan proposed (Some sampleApproval) "Restart"; BeginStep proposed "execution";
   EmitTerminalSpan proposed "Completed" "done"; EmitTerminalSpan proposed "Completed" "done"].

Lemma audited_keeps : keepsPhase (run_UID proposed) auditedCalls.
Proof.
  split.
  - intros key c run Hin. unfold auditedCalls in Hin. rewrite !elem_of_cons, elem_of_nil in Hin. naive_solver.
  - intros run Hin. unfold auditedCalls in Hin. rewrite !elem_of_cons, elem_of_nil in Hin. naive_solver.
Qed.

Lemma phase_spans_chained_witness :
  ∃ tr s, runs (performAll emptyAudit auditedCalls) tr s ∧
    List.length (spansOf (run_UID proposed) tr) = 4%nat ∧ chained None (spansOf (run_UID proposed) tr).
Proof.
  destruct (run_such serveTracer 1%Z (performAll emptyAudit auditedCalls)
    (λ tr _, List.length (spansOf (run_UID proposed) tr) =? 4)%nat ltac:(compute_done)) as (tr & s & Hr & Hn).
  exists tr, s. split; [exact Hr|]. split; [by apply Nat.eqb_eq|].
  exact (phase_spans_chained auditedCalls tr s _ Hr audited_keeps).
Defined.

(** ** Command line *)

(** A cluster with these runs and this approval, a log store of two records a page, and a
    user who answers y. *)
Definition serveCli (items : list AgenticRun) (approval : res AgenticRunApproval)
    (store : list storedLogRecord) (u : unit) (e : cliCall) : cliAnswer e * unit :=
  (match e return cliAnswer e with
   | CliGetRun _ => match items with r :: _ => Ok r | [] => Err notFound end
   | CliListRuns _ => Ok items
   | CliCreateRun _ _ _ => Err notFound
   | CliDeleteRun _ | CliWatch _ | CliMarshal _ _ => None
   | CliGetApproval _ => approval
   | CliCreateApproval a => Ok a
   | CliPatchApproval _ a => Ok a
   | CliGetConfig _ => Err notFound
   | CliCreateConfig c => Ok c
   | CliPatchConfig _ c => Ok c
   | CliMergePatchConfig c _ => Ok c
   | CliNextEvent => None
   | CliPodLogs _ _ => Ok ([], None)
   | CliProxyPage _ q => Ok (Ok (pageOf 2 store (cursorOf q)))
   | CliHTTPPage _ q _ => Ok (MkHttpPage 200 "200 OK" (Ok "") (Ok (pageOf 2 store (cursorOf q))))
   | CliNow => sampleTime
   | CliReadLine => Ok "y"
   | CliPrint _ | CliPrintErr _ | CliTable _ _ => tt
   end, u).

(** An environment whose answers all pass a test. *)
Lemma exec_Forall {E} {R : E → Type} {W A} (sv : W → ∀ e : E, R e * W) (P : event R → Prop)
    (m : prog R A) w tr a w' :
  (∀ w e, P (Ev e (fst (sv w e)))) → exec sv w m = (tr, a, w') → Forall P tr.
Proof.
  intros HP. revert w tr. induction m as [x|e k IH]; intros w tr; cbn.
  { intros [= <- _ _]. constructor. }
  pose proof (HP w e) as He. destruct (sv w e) as [r w1]. destruct (exec sv w1 (k r)) as [[tr1 a1] w2] eqn:Hx.
  intros [= <- <- <-]. constructor; [exact He|]. by eapply IH.
Qed.

Definition pendingApproval : AgenticRunApproval :=
  approvalFor operatorNamespace "run" proposed.

Definition approving : ApproveOptions :=
  MkApproveOptions "run" "execution" 1%Z "smart" false false operatorNamespace.

Lemma approve_appends_witness :
  ∃ tr base obj ans, runs (approve 3 approving) tr (Some None) ∧
    Ev (CliPatchApproval base obj) ans ∈ tr ∧
    isStageApproved (Some obj) None ApprovalStageExecution = true ∧
    getStageOption (Some obj) = 1%Z.
Proof.
  destruct (run_such (serveCli [proposed] (Ok pendingApproval) []) tt (approve 3 approving)
    (λ tr o, match o with Some None => true | _ => false end &&
       existsb (λ ev, match ev with Ev (CliPatchApproval _ _) _ => true | _ => false end) tr)
    ltac:(compute_done)) as (tr & o & Hr & [Ho (ev & Hin & Hev)%pick]%andb_true_iff).
  destruct o as [[]|]; try discriminate Ho. destruct ev as [[] ans]; try discriminate Hev.
  destruct (approve_appends 3 approving tr _ _ _ ans Hr Hin) as
    (p & entries & _ & _ & _ & _ & _ & _ & _ & _ & Ha & Hopt).
  exists tr, base, obj, ans. split; [exact Hr|]. split; [exact Hin|].
  assert (Hs : ApprovalStageExecution ∈ map normalizeStageType (askedStages approving p base)).
  { apply list_elem_of_singleton. reflexivity. }
  split; [|by apply (Hopt _ Hs)]. rewrite Ha, (bool_decide_eq_true_2 _ Hs). apply orb_true_r.
Defined.

Lemma unknown_stage_panics_witness :
  approveValidate approving = None ∧
  ∃ tr e, runs (deny operatorNamespace "run" "exec") tr e ∧ panics e.
Proof.
  split; [reflexivity|].
  destruct (run_such (serveCli [proposed] (Ok pendingApproval) []) tt
    (deny operatorNamespace "run" "exec")
    (λ tr _, match runsRead tr, approvalsRead tr with [Ok _], [Ok a] => negb (hasStage "exec" a) | _, _ => false end)
    ltac:(compute_done)) as (tr & e & Hr & Ht).
  exists tr, e. split; [exact Hr|]. apply (proj2 unknown_stage_panics _ _ _ _ _ Hr).
  split; [discriminate|]. split; [by apply (bool_decide_unpack _); vm_compute|].
  destruct (runsRead tr) as [|[p|] []]; try discriminate Ht.
  destruct (approvalsRead tr) as [|[a|] []]; try discriminate Ht.
  exists p, a. split; [reflexivity|]. split; [reflexivity|]. by apply negb_true_iff in Ht.
Defined.

(** A finished run and one that is at work. *)
Definition finished : AgenticRun :=
  sampleRun [sampleCondition AgenticRunConditionVerified ConditionTrue reasonComplete].
Definition cleaningUp : CleanupOptions := MkCleanupOptions false "completed" "" false false operatorNamespace.
Definition completedOnly : CleanupFilters := MkCleanupFilters (Some ["completed"]) None.

Lemma cleanup_deletes_matching_witness :
  cleanupValidate cleaningUp = Ok completedOnly ∧
  ∃ tr key a, runs (cleanupRun cleaningUp completedOnly) tr None ∧ Ev (CliDeleteRun key) a ∈ tr ∧
    ∃ r, key = run_Key r ∧ IsTerminalPhase (phaseOf r) = true.
Proof.
  split; [reflexivity|].
  destruct (run_such (serveCli [finished; executing] (Err notFound) []) tt (cleanupRun cleaningUp completedOnly)
    (λ tr o, bool_decide (o = None) &&
       existsb (λ ev, match ev with Ev (CliDeleteRun _) _ => true | _ => false end) tr)
    ltac:(compute_done)) as (tr & o & Hr & [Ho (ev & Hin & Hev)%pick]%andb_true_iff).
  apply bool_decide_eq_true in Ho. subst o. destruct ev as [[] a]; try discriminate Hev.
  destruct (cleanup_deletes_matching cleaningUp completedOnly tr None Hr _ _ Hin)
    as [(items & r & _ & _ & -> & Ha & _) _].
  exists tr, (run_Key r), a. split; [exact Hr|]. split; [exact Hin|]. exists r. split; [reflexivity|exact Ha].
Defined.

Definition storedLogs : list storedLogRecord :=
  [MkStoredLogRecord 3 "analysis" "2024-01-01T00:00:00Z" "a"; MkStoredLogRecord 5 "analysis" "2024-01-01T00:00:01Z" "b";
   MkStoredLogRecord 9 "execution" "2024-01-01T00:00:02Z" "c"].

Lemma storedLogs_complete_witness :
  ∃ tr, runs (fetchAllStoredLogs 4 "uid-run" "" (proxyPage operatorNamespace "uid-run" "")) tr (Some None) ∧
    ∀ r, r ∈ storedLogs → Ev (CliPrint (recordLine r)) tt ∈ tr.
Proof.
  set (m := fetchAllStoredLogs 4 "uid-run" "" (proxyPage operatorNamespace "uid-run" "")).
  destruct (exec (serveCli [] (Err notFound) storedLogs) tt m) as [[tr o] w] eqn:Hx.
  pose proof (exec_runs _ _ _ _ _ _ Hx) as Hr.
  destruct (storedLogs_complete 2 storedLogs 4 "uid-run" "" (proxyPage operatorNamespace "uid-run" "") tr o
    (or_introl (ex_intro _ operatorNamespace eq_refl)) ltac:(lia)) as [-> (pages & printed & -> & _ & Hp)].
  - unfold storedLogs, byID. repeat constructor.
  - unfold storedLogs. repeat constructor.
  - refine (exec_Forall _ _ m tt _ _ _ _ Hx). intros [] []; cbn; try exact I; [reflexivity|]. eauto.
  - cbn. lia.
  - exact Hr.
  - exists (pages ++ printed). split; [exact Hr|]. intros r Hin. apply elem_of_app. right. by apply Hp.
Defined.
